(* ===== verification/_CoqProject ===== *)
-Q . S2P
Prelude.v
Config.v
HugeAlloc.v
PktHdr.v
Msg.v
Uri.v
SmTypes.v
Timer.v
Timely.v
MemPool.v
TimingWheel.v
WheelChain.v
WheelSpec.v
Session.v
RpcState.v
RpcBase.v
RpcTx.v
RpcApi.v
RpcRx.v
RpcSm.v
RpcLoop.v
RpcWp.v
ClientInv.v
ClientLemmas.v
ClientSteps.v
ClientReq.v
ClientFin.v
ClientTx.v
ClientKick.v
ClientSend.v
ClientQueue.v
ClientList.v
ClientLoss.v
ClientStart.v
ClientRx.v
ClientResp.v
ClientRecv.v
ClientInit.v
ClientProps.v
ClientExamples.v
Frame.v
ServerOnce.v
ServerProps.v
ServerExamples.v
SmFrame.v
SmOps.v
SmHandlers.v
SmProps.v
SmServe.v
SmHandshake.v
SmExamples.v
EthCommon.v
DpdkOwner.v
Dpdk.v
DpdkProps.v
DpdkNew.v
DpdkNewProps.v
DpdkExamples.v
IbTransport.v
IbProps.v
IbExamples.v
Raw.v
RawProps.v
IbControl.v
IbControlProps.v
IbControlExamples.v
Heartbeat.v
HbProps.v
Nexus.v
RpcNew.v
NexusProps.v
NexusExamples.v
RpcNewProps.v
RpcIb.v
Scheduler.v
SchedProps.v
SchedRun.v
Latency.v
Queues.v
Allocators.v
