(* ===== verification/Prelude.v ===== *)
(** * eRPC in Rocq

    A shallow embedding of the RPC library under [src/peer/erpc] and of the
    coroutine scheduler under [src/core], with proofs of what they promise. The
    configuration is the repository's: InfiniBand transport, assertions on. A
    failed [assert], a null or dangling pointer, an access out of bounds, an
    exception and exhausted fuel are all errors of one monad ([Prelude.M]: a
    state, and a result or an error), so that a theorem that says a function
    returns also says that none of these happens.

    ** How the program is put together

    An application makes one [Nexus] per process and one [Rpc] per thread. The
    Nexus keeps the request handlers, and a session management (SM) thread that
    hands UDP packets to the Rpcs' queues. An Rpc keeps sessions; each end has 8
    slots for concurrent requests and 32 credits, which bound the packets in
    flight so that the receiver's RX ring never overflows. The event loop takes
    SM packets, receives and dispatches datapath packets, restarts requests that
    ran out of credits, sends what the timing wheel has made due (its rate is
    set by Timely), flushes the TX batch, and looks for lost packets.

    ** Files

    - [Prelude]: integers, the monad and its weakest preconditions, record
      update, lists indexed by [Z], tactics and hint databases.
    - [Config] ([common.h], [rpc_constants.h], [tweakme.h], [math_utils.h],
      [timely_sweep_params.h]): constants and integer helpers.
    - [HugeAlloc] ([util/huge_alloc], [util/buffer.h]), [PktHdr] ([pkthdr.h]),
      [Msg] ([msg_buffer.h] over a memory), [Uri] ([util/autorun_helpers.h]),
      [SmTypes] ([sm_types.h], [rpc_types.h]), [Timer] ([util/timer.h]), [Timely]
      ([cc/timely.h], on binary64 floats), [MemPool] ([util/mempool.h]).
    - [TimingWheel] is [cc/timing_wheel.h] with its heap of buckets; [WheelChain]
      and [WheelSpec] refine it to a queue of entries per slot.
    - [Session] ([session.h], [sslot.h], [util/fixed_vector.h]), [RpcState] and
      [RpcBase] ([rpc.h]), [RpcTx] (transmission: [rpc_kick], [rpc_queues],
      [rpc_cr], [rpc_rfr], the TX half of [rpc.h]), [RpcApi] ([enqueue_request],
      [enqueue_response], sessions, fault injection, callbacks), [RpcRx]
      (reception: [rpc_rx], [rpc_req], [rpc_resp], [nexus_bg_thread]), [RpcSm]
      (SM handlers), [RpcLoop] (loss scan, event loop).
    - [RpcWp]: reasoning rules for the Rpc state. [ClientInv] states the client's
      invariant; [ClientLemmas] to [ClientRecv] prove it operation by operation,
      [ClientInit] for an idle endpoint; [ClientProps] has the theorems,
      [ClientExamples] an endpoint on which they are evaluated.
    - [Frame], [ServerOnce], [ServerProps], [ServerExamples]: the server's half.
    - [SmFrame], [SmOps], [SmHandlers], [SmProps]: what sessions, connect tokens
      and RX ring entries do over the life of an Rpc, operation by operation;
      [SmServe] the server's answer to a connect request, [SmHandshake] the
      connection of two Rpcs, [SmExamples] two concrete ones.
    - [RpcNew], [RpcNewProps] ([rpc_impl/rpc.cc]): construction and destruction of
      an Rpc over a transport class; [RpcIb] is its InfiniBand instance, and runs
      it.
    - [IbTransport], [IbProps], [IbExamples]: [transport_impl/infiniband] and the
      completion polling of [verbs_common.h]; the verbs library is a class
      ([Verbs]) whose documented behaviour is [VerbsOk].
    - [Heartbeat], [HbProps]: [heartbeat_mgr.h].
    - [Nexus], [NexusProps], [NexusExamples]: [nexus.h], [nexus_impl],
      [util/tls_registry].
    - [IbControl], [IbControlProps], [IbControlExamples]: the control path of the
      InfiniBand transport and the port resolution of [verbs_common.h].
    - [EthCommon] ([eth_common.h]); [DpdkOwner], [Dpdk], [DpdkProps] (queue pairs
      shared by processes, and the datapath of [transport_impl/dpdk]), [DpdkNew],
      [DpdkNewProps] (its construction and destruction), [DpdkExamples]; [Raw],
      [RawProps] (the receive path of [transport_impl/raw]). The libraries are the
      classes [Rte], [Eal] and [RawNic], what the code relies on is [RteOk],
      [EalOk] and [RawNicOk].
    - [Scheduler], [SchedProps], [SchedRun]: [core/scheduler]; [Allocators]:
      [core/allocator].
    - [Latency] ([util/latency.h]), [Queues] ([util/mt_queue.h],
      [util/fixed_queue.h]).

    ** State and operations

    A pointer to a session is its index in [session_vec_], a pointer to a slot
    that index with the slot's own; a pointer to a [MsgBuffer] is an [mbptr].
    Memory is a map from addresses to bytes and packet headers. The members of
    [Rpc] that never change are the class [RpcConf]; the clock, the random
    device, the link and address resolution are the class [World]; application
    callbacks are programs over the API (the class [App], [RpcApi.uprog]), so
    that a continuation can enqueue requests. What leaves the endpoint is
    appended to a trace.

    ** What the theorems show

    - Client: every operation of a conforming client keeps the invariant and fails
      no assertion but two that depend on the clock ([ClientInv.client_err]);
      credits are conserved; a request that is queued makes progress; the packets
      of one that are lost are put out again, in order and no others; stale
      responses are ignored; the scan for losses terminates. The free slots are
      exactly the idle ones.
    - Server: handlers run at most once per request, whatever packets arrive; a
      new request is delivered, its response and each RFR are answered.
    - Sessions: up to [kMaxSessions] of them, a session only moves forward through
      its states and its slot of the session vector is never used again; at most
      one session per connect token; RX ring entries are conserved; a connect request is answered on
      every branch, and the handshake ends with both ends connected to each
      other. The constructor establishes every invariant.
    - Transport: the send queue never overflows, and no poll waits for a
      completion that does not come; receives are reposted in order.
    - Nexus and heartbeats: packets reach their Rpc only (and a heartbeat takes the
      lookup past its array); handlers are fixed once an Rpc exists; [do_one]
      terminates, sends the heartbeats that are due and reports exactly the remotes
      that its checks find silent.
    - Components: the allocator never hands out overlapping buffers and agrees
      with its reference search; the wheel refines a queue of entries; rates stay
      in bounds; headers, URIs and fragmented messages round-trip.
    - DPDK: a queue pair has one owner, a process that dies loses its own, a
      transport owns its queue pair while it lives; frames on the wire are the
      packets asked for, the RX ring is a queue of mbufs. Raw: no packet is lost,
      repeated or overwritten, although the NIC overwrites the entries that are
      read.
    - Scheduler: the ring of runnable coroutines stays well formed, the wake-ups
      that are lost are those of completions with a retry error, and [poll] wakes
      whom it should when there are none. Allocators: buffers are apart.
      Latency: the statistics are those of the samples.

    Theorems about code that does not do what it means to are marked as such
    in their comments (the heartbeat manager, the SM thread's lookup, the size
    classes of the allocator, the wheel's slot width).

    ** Conditions

    Three conditions recur. The bit scan of [math_utils.h] leaves its result for 0
    undefined, and the allocator computes the class of sizes up to 64 with it:
    what the code then finds is the parameter [bsr_zero], and theorems that reach
    this case say so ([HugeAlloc.bsrl_defined]). [shmat] is presumed to succeed
    ([HugeAlloc.ShmOsOk]). The theorems on sessions hold as long as at most
    [kMaxSessions] sessions have been made, when 16-bit numbers wrap around.

    ** Fuel

    [w_fuel] bounds the allocator's search for an unused SHM key; [scan_loop] is
    given [num_slots], which bounds the list of active RPCs; [ibv_poll_fuel]
    exceeds the polls a completion takes ([vo_wait]); [do_one] is given one more
    than the queued events; the drain of a DPDK queue one more than the packets
    that can be in it ([eo_max]); [snapshot_cqe] one more than the strides that
    can be free, since a retry means that a packet arrived; [event_loop] counts
    the iterations before the timeout. The theorems show that this fuel is
    enough, except for [w_fuel] and [event_loop], which depend on the operating
    system and on the clock.

    ** Not modelled

    - The TX path, flow rules and queue set-up of the Raw transport: another
      transport than the configured one, and the file names members of an earlier
      version and does not compile.
    - The DPDK daemon's main loop and [get_summary] (output), [dpdk_flow_rules.cc]
      (not called).
    - [fake_transport]: empty functions.
    - [barrier.h], [numautils], [virt2phy.h], [pmem.h], the UDP sockets,
      [hdr_histogram_wrapper.h]: system calls, inline assembly, other libraries.
    - Logging, [to_string] and statistics printing; the client and server
      programs, which read a configuration and start threads.

    Locks guard single operations and are left out; operations of different
    threads interleave at their granularity. *)
From stdpp Require Export base tactics decidable numbers list gmap fin_maps strings.
From Stdlib Require Export ZArith Lia.

#[global] Open Scope Z_scope.

(** ** Machine integers

    A [w]-bit unsigned integer is a [Z] in [0, 2^w); every operation that can
    leave that range wraps explicitly. *)
Definition wrap (w z : Z) : Z := z mod 2 ^ w.
Abbreviation u8 := (wrap 8).
Abbreviation u16 := (wrap 16).
Abbreviation u32 := (wrap 32).
Abbreviation u64 := (wrap 64).

(** Unsigned [size_t] subtraction and addition. *)
Definition sub64 (a b : Z) : Z := u64 (a - b).
Definition add64 (a b : Z) : Z := u64 (a + b).

Definition in_u (w z : Z) : Prop := 0 <= z < 2 ^ w.

Lemma wrap_range w z : 0 <= w -> in_u w (wrap w z).
Proof. intros Hw. apply Z.mod_pos_bound. lia. Qed.

Lemma wrap_small w z : in_u w z -> wrap w z = z.
Proof. apply Z.mod_small. Qed.

Lemma wrap_idemp w z : 0 <= w -> wrap w (wrap w z) = wrap w z.
Proof. intros Hw. apply wrap_small, wrap_range, Hw. Qed.

Lemma wrap_wrap w v z : 0 <= w <= v -> wrap w (wrap v z) = wrap w z.
Proof.
  intros H. unfold wrap. symmetry. apply Znumtheory.Zmod_div_mod; [lia..|].
  exists (2 ^ (v - w)). rewrite <- Z.pow_add_r by lia. f_equal. lia.
Qed.
Lemma wrap_add_l w a b : wrap w (wrap w a + b) = wrap w (a + b).
Proof. apply Zplus_mod_idemp_l. Qed.

Lemma sub64_small a b : 0 <= b <= a -> a < 2 ^ 64 -> sub64 a b = a - b.
Proof. intros ??. apply wrap_small. unfold in_u. lia. Qed.

Lemma add64_small a b : 0 <= a + b < 2 ^ 64 -> add64 a b = a + b.
Proof. intros ?. by apply wrap_small. Qed.

(** [std::min] and [std::max] on integers are [Z.min] and [Z.max]. *)

(** ** Failures

    A failed [assert] (debug builds), a thrown exception or [exit], and a use
    of an invalid pointer all stop the modelled computation; they differ only
    in what they report. [EFuel] is the model's own: a loop whose bound was
    too small. *)
Inductive err : Type :=
  | EAssert (what : string)     (* assert() failed *)
  | EThrow (what : string)      (* std::runtime_error, exit, abort *)
  | ENull (what : string)       (* null, dangling or out-of-range access *)
  | EFuel.

Definition is_throw (e : err) : Prop :=
  match e with EThrow _ => True | _ => False end.

#[export] Instance err_eq_dec : EqDecision err.
Proof. solve_decision. Defined.

(** ** A state and error monad *)
Inductive res (S A : Type) : Type :=
  | Ok (a : A) (s : S)
  | Fail (e : err).
Arguments Ok {_ _} _ _.
Arguments Fail {_ _} _.

Definition M (S A : Type) : Type := S -> res S A.

Section Monad.
Context {S : Type}.

#[export] Instance M_ret : MRet (M S) := fun A a s => Ok a s.
#[export] Instance M_bind : MBind (M S) := fun A B k m s =>
  match m s with Ok a s' => k a s' | Fail e => Fail e end.

Definition fail {A} (e : err) : M S A := fun _ => Fail e.
Definition get : M S S := fun s => Ok s s.
Definition gets {A} (f : S -> A) : M S A := fun s => Ok (f s) s.
Definition modify (f : S -> S) : M S unit := fun s => Ok tt (f s).

(** [assert(b)] *)
Definition assert_ (b : bool) (what : string) : M S unit :=
  if b then mret tt else fail (EAssert what).
(** [rt_assert(b, what)] *)
Definition rt_assert (b : bool) (what : string) : M S unit :=
  if b then mret tt else fail (EThrow what).
(** Dereference: [None] is an invalid pointer. *)
Definition deref {A} (o : option A) (what : string) : M S A :=
  match o with Some a => mret a | None => fail (ENull what) end.

Definition when (b : bool) (m : M S unit) : M S unit :=
  if b then m else mret tt.

(** [for (x : l) f(x)] *)
Fixpoint miter {A} (f : A -> M S unit) (l : list A) : M S unit :=
  match l with
  | [] => mret tt
  | x :: l => f x ;; miter f l
  end.

(** [n] iterations of a loop body. *)
Fixpoint mrepeat (n : nat) (f : M S unit) : M S unit :=
  match n with
  | O => mret tt
  | Datatypes.S n => f ;; mrepeat n f
  end.
End Monad.

(** Run a computation on a part of the state. *)
Definition zoom {S T A} (g : S -> T) (p : T -> S -> S) (m : M T A) : M S A :=
  fun s => match m (g s) with
           | Ok a t => Ok a (p t s)
           | Fail e => Fail e
           end.

(** ** Weakest preconditions

    [wpe E m Q s]: from [s], [m] either returns with [Q] or stops with an error
    that [E] allows. [wp] allows none; [wpt] allows thrown exceptions only. *)
Definition wpe {S A} (E : err -> Prop) (m : M S A) (Q : A -> S -> Prop) (s : S) : Prop :=
  match m s with Ok a s' => Q a s' | Fail e => E e end.
Abbreviation wp := (wpe (fun _ => False)).
Abbreviation wpt := (wpe is_throw).

Section Wp.
Context {S : Type} {E : err -> Prop}.
Implicit Types s : S.

Lemma wp_ret {A} (a : A) (Q : A -> S -> Prop) s : Q a s -> wpe E (mret a) Q s.
Proof. done. Qed.

Lemma wp_bind {A B} (m : M S A) (k : A -> M S B) Q s :
  wpe E m (fun a => wpe E (k a) Q) s -> wpe E (m ≫= k) Q s.
Proof. unfold wpe, mbind, M_bind. by destruct (m s). Qed.

Lemma wp_mono {A} (m : M S A) (P Q : A -> S -> Prop) s :
  wpe E m P s -> (forall a s', P a s' -> Q a s') -> wpe E m Q s.
Proof. unfold wpe. destruct (m s); auto. Qed.

Lemma wp_err_mono {A} (E' : err -> Prop) (m : M S A) (Q : A -> S -> Prop) s :
  wpe E' m Q s -> (forall e, E' e -> E e) -> wpe E m Q s.
Proof. unfold wpe. destruct (m s); auto. Qed.

Lemma wp_conj {A} (m : M S A) (P Q : A -> S -> Prop) s :
  wpe E m P s -> wpe E m Q s -> wpe E m (fun a s' => P a s' /\ Q a s') s.
Proof. unfold wpe. destruct (m s); auto. Qed.

Lemma wp_gets {A} (f : S -> A) (Q : A -> S -> Prop) s :
  Q (f s) s -> wpe E (gets f) Q s.
Proof. done. Qed.

Lemma wp_get (Q : S -> S -> Prop) s : Q s s -> wpe E get Q s.
Proof. done. Qed.

Lemma wp_modify (f : S -> S) (Q : unit -> S -> Prop) s :
  Q tt (f s) -> wpe E (modify f) Q s.
Proof. done. Qed.

Lemma wp_fail {A} e (Q : A -> S -> Prop) s : E e -> wpe E (fail e) Q s.
Proof. done. Qed.

Lemma wp_assert b what (Q : unit -> S -> Prop) s :
  b = true -> Q tt s -> wpe E (assert_ b what) Q s.
Proof. by intros ->. Qed.

Lemma wp_rt_assert b what (Q : unit -> S -> Prop) s :
  (b = false -> E (EThrow what)) -> (b = true -> Q tt s) ->
  wpe E (rt_assert b what) Q s.
Proof. destruct b; intros H1 H2; [by apply H2|by apply H1]. Qed.

Lemma wp_deref {A} (o : option A) a what (Q : A -> S -> Prop) s :
  o = Some a -> Q a s -> wpe E (deref o what) Q s.
Proof. by intros ->. Qed.

Lemma wp_when (b : bool) (m : M S unit) (Q : unit -> S -> Prop) s :
  (b = true -> wpe E m Q s) -> (b = false -> Q tt s) -> wpe E (when b m) Q s.
Proof. intros H1 H2. destruct b; [by apply H1|by apply H2]. Qed.

Lemma wp_if {A} (b : bool) (m1 m2 : M S A) Q s :
  (b = true -> wpe E m1 Q s) -> (b = false -> wpe E m2 Q s) ->
  wpe E (if b then m1 else m2) Q s.
Proof. destruct b; auto. Qed.

(** Loop rule: an invariant indexed by the processed prefix. *)
Lemma wp_miter {A} (f : A -> M S unit) (I : list A -> S -> Prop) l s :
  I [] s ->
  (forall done_ x todo s', l = done_ ++ x :: todo -> I done_ s' ->
     wpe E (f x) (fun _ => I (done_ ++ [x])) s') ->
  wpe E (miter f l) (fun _ => I l) s.
Proof.
  intros H0 Hstep.
  cut (forall todo done_ s', l = done_ ++ todo -> I done_ s' ->
         wpe E (miter f todo) (fun _ => I l) s').
  { intros H. by apply (H l []). }
  induction todo as [|x todo IH]; intros done_ s' Hl HI; cbn.
  - rewrite app_nil_r in Hl. by subst.
  - apply wp_bind. eapply wp_mono; [by eapply Hstep|].
    intros [] s'' HI'. apply (IH (done_ ++ [x])); [|done].
    by rewrite <- app_assoc.
Qed.

Lemma wp_mrepeat (f : M S unit) (I : nat -> S -> Prop) n s :
  I O s ->
  (forall k s', (k < n)%nat -> I k s' -> wpe E f (fun _ => I (Datatypes.S k)) s') ->
  wpe E (mrepeat n f) (fun _ => I n) s.
Proof.
  intros H0 Hstep.
  cut (forall m k s', (k + m = n)%nat -> I k s' ->
         wpe E (mrepeat m f) (fun _ => I n) s').
  { intros H. by apply (H n O). }
  induction m as [|m IH]; intros k s' Hk HI; cbn.
  - by replace n with k by lia.
  - apply wp_bind. eapply wp_mono; [apply (Hstep k); [lia|done]|].
    intros [] s'' HI'. apply (IH (Datatypes.S k)); [lia|done].
Qed.
End Wp.

(** A run that satisfies a [wp] is a run that returns. *)
Lemma wp_run {S A} (m : M S A) Q s :
  wp m Q s <-> exists a s', m s = Ok a s' /\ Q a s'.
Proof.
  unfold wpe. destruct (m s) as [a s'|e].
  - split; [eauto|]. by intros (? & ? & [= -> ->] & ?).
  - split; [done|]. by intros (? & ? & ? & ?).
Qed.

(** Partial correctness: any error may stop the run. *)
Definition any_err (_ : err) : Prop := True.
Lemma wp_any_deref {S A} (o : option A) what (Q : A -> S -> Prop) s :
  (forall a, o = Some a -> Q a s) -> wpe any_err (deref o what) Q s.
Proof. intros H. destruct o as [a|]; [by apply (H a)|done]. Qed.
Lemma wp_any_assert {S} (b : bool) what (Q : unit -> S -> Prop) s :
  (b = true -> Q tt s) -> wpe any_err (assert_ b what) Q s.
Proof. intros H. destruct b; [by apply H|done]. Qed.
Lemma wpe_run {S A} E (m : M S A) (Q : A -> S -> Prop) s a s' :
  wpe E m Q s -> m s = Ok a s' -> Q a s'.
Proof. unfold wpe. intros H Hr. by rewrite Hr in H. Qed.

(** From a checked run: the boolean [f] is evaluated, [P] is what a theorem says. *)
Lemma run_checked {S A} (E : err -> Prop) (r : res S A) (P : A -> S -> Prop)
    (f : A -> S -> bool) :
  match r with Ok a s => P a s | Fail e => E e end ->
  match r with Ok a s => f a s | Fail _ => false end = true ->
  exists a s, r = Ok a s /\ f a s = true /\ P a s.
Proof. destruct r as [a s|e]; [eauto|done]. Qed.

Lemma wp_match {S A E} (m : M S A) Q s :
  wpe E m Q s -> match m s with Ok a s' => Q a s' | Fail e => E e end.
Proof. done. Qed.

Lemma wp_zoom {S T A E} (g : S -> T) (p : T -> S -> S) (m : M T A) Q s :
  wpe E m (fun a t => Q a (p t s)) (g s) -> wpe E (zoom g p m) Q s.
Proof. unfold wpe, zoom. by destruct (m (g s)). Qed.

Arguments wpe : simpl never.

(** One step of a weakest-precondition proof. *)
Ltac wp_step :=
  lazymatch goal with
  | |- wpe _ (mret _) _ _ => apply wp_ret
  | |- wpe _ (mbind _ _) _ _ => apply wp_bind
  | |- wpe _ (gets _) _ _ => apply wp_gets
  | |- wpe _ get _ _ => apply wp_get
  | |- wpe _ (modify _) _ _ => apply wp_modify
  | |- wpe _ (fail _) _ _ => apply wp_fail
  | |- wpe _ (assert_ _ _) _ _ => apply wp_assert
  | |- wpe _ (rt_assert _ _) _ _ => apply wp_rt_assert; intros ?
  | |- wpe _ (when _ _) _ _ => apply wp_when; intros ?
  | |- wpe _ (if _ then _ else _) _ _ => apply wp_if; intros ?
  end.
(** The same, in an operation that may stop with an error. *)
Ltac any_step :=
  first [ apply wp_any_deref; intros ?? | apply wp_any_assert; intros ? | wp_step; try done ].

(** ** Record update

    [r <| f ::= g |>] applies [g] to field [f]; the update function of a field
    is computed from the record's [Eta] instance, which lists its fields. *)
Class Eta (R : Type) := eta : R -> R.
Class Update {R E : Type} (f : R -> E) := update : (E -> E) -> R -> R.
Arguments update {R E} f {_} g r : simpl never.

Ltac solve_update :=
  lazymatch goal with
  | |- @Update ?R ?E ?f =>
      let i := constr:(ltac:(typeclasses eauto) : Eta R) in
      let i := lazymatch i with ?j => j end in
      let b := eval red in i in
      lazymatch eval pattern f in b with
      | ?upd _ =>
          let t := constr:(fun (g : E -> E) => upd (fun r => g (f r))) in
          let t := eval cbv beta in t in exact t
      end
  end.
#[export] Hint Extern 1 (Update _) => solve_update : typeclass_instances.

Declare Scope update_scope.
Delimit Scope update_scope with upd.
#[global] Open Scope update_scope.
Notation "r <| f ::= g |>" := (update f g r)
  (at level 1, f at next level, g at level 99, left associativity) : update_scope.
Notation "r <| f := v |>" := (update f (fun _ => v) r)
  (at level 1, f at next level, v at level 99, left associativity) : update_scope.

(** Simplify [field (r <| ... |>)]. *)
Ltac rsimp1 :=
  match goal with
  | |- context [?g (@update ?R ?E ?h ?I ?f ?r)] =>
      first
        [ change (g (@update R E h I f r)) with (g r)
        | change (g (@update R E h I f r)) with (f (g r)) ]
  end.
Ltac rsimp_in1 H :=
  match type of H with
  | context [?g (@update ?R ?E ?h ?I ?f ?r)] =>
      first
        [ change (g (@update R E h I f r)) with (g r) in H
        | change (g (@update R E h I f r)) with (f (g r)) in H ]
  end.
Ltac rsimp := repeat (rsimp1; cbv beta).
Tactic Notation "rsimp" "in" hyp(H) := repeat (rsimp_in1 H; cbv beta in H).

(** ** Lists *)

(** [l[i]] with a [size_t] index. *)
Definition zlookup {A} (l : list A) (i : Z) : option A :=
  if 0 <=? i then l !! Z.to_nat i else None.
(** [l[i] = x]; out of range this is a memory error, so callers check first. *)
Definition zinsert {A} (i : Z) (x : A) (l : list A) : list A :=
  if 0 <=? i then <[Z.to_nat i := x]> l else l.
Definition zlength {A} (l : list A) : Z := Z.of_nat (length l).

Lemma zlength_nonneg {A} (l : list A) : 0 <= zlength l.
Proof. unfold zlength. lia. Qed.

Lemma zlength_app {A} (l k : list A) : zlength (l ++ k) = zlength l + zlength k.
Proof. unfold zlength. rewrite length_app. lia. Qed.

Lemma zlength_zinsert {A} i (x : A) l : zlength (zinsert i x l) = zlength l.
Proof. unfold zlength, zinsert. case_match; [|done]. by rewrite length_insert. Qed.

Lemma zlookup_lt {A} (l : list A) i x : zlookup l i = Some x -> 0 <= i < zlength l.
Proof.
  unfold zlookup, zlength. case_match; [|done].
  intros ?%lookup_lt_Some. lia.
Qed.

Lemma zlookup_is_Some {A} (l : list A) i :
  0 <= i < zlength l -> is_Some (zlookup l i).
Proof.
  unfold zlookup, zlength. intros Hi.
  replace (0 <=? i) with true by (symmetry; lia).
  apply lookup_lt_is_Some. lia.
Qed.

Lemma zlookup_zinsert_eq {A} (l : list A) i x :
  0 <= i < zlength l -> zlookup (zinsert i x l) i = Some x.
Proof.
  unfold zlookup, zinsert, zlength. intros Hi.
  replace (0 <=? i) with true by (symmetry; lia).
  apply list_lookup_insert_eq. lia.
Qed.

Lemma zinsert_zinsert {A} (l : list A) i x y : zinsert i x (zinsert i y l) = zinsert i x l.
Proof. unfold zinsert. case_match; [apply list_insert_insert_eq|done]. Qed.

Lemma zinsert_id {A} (l : list A) i x : zlookup l i = Some x -> zinsert i x l = l.
Proof. unfold zlookup, zinsert. case_match; [apply list_insert_id|done]. Qed.

Lemma zlookup_zinsert_ne {A} (l : list A) i j x :
  i <> j -> zlookup (zinsert i x l) j = zlookup l j.
Proof.
  unfold zlookup, zinsert. intros Hij. repeat case_match; try done.
  apply list_lookup_insert_ne. lia.
Qed.

(** Sums over lists of [Z]. *)
Fixpoint zsum {A} (f : A -> Z) (l : list A) : Z :=
  match l with [] => 0 | x :: l => f x + zsum f l end.

Lemma zsum_app {A} (f : A -> Z) l k : zsum f (l ++ k) = zsum f l + zsum f k.
Proof. induction l as [|x l IH]; cbn; lia. Qed.

Lemma zsum_insert {A} (f : A -> Z) (l : list A) i x y :
  l !! i = Some x -> zsum f (<[i := y]> l) = zsum f l - f x + f y.
Proof.
  revert i. induction l as [|z l IH]; intros [|i] H; simplify_eq/=; try lia.
  rewrite (IH i H). lia.
Qed.
Lemma zsum_zinsert {A} (f : A -> Z) l i x y :
  zlookup l i = Some x -> zsum f (zinsert i y l) = zsum f l - f x + f y.
Proof. unfold zlookup, zinsert. case_match; [|done]. apply zsum_insert. Qed.

Lemma zsum_nonneg {A} (f : A -> Z) l :
  (forall x, x ∈ l -> 0 <= f x) -> 0 <= zsum f l.
Proof.
  induction l as [|x l IH]; intros H; cbn; [lia|].
  assert (0 <= f x) by (apply H; left).
  assert (0 <= zsum f l) by (apply IH; intros; apply H; by right). lia.
Qed.

Lemma zsum_ge_elem {A} (f : A -> Z) l i x :
  (forall y, y ∈ l -> 0 <= f y) -> l !! i = Some x -> f x <= zsum f l.
Proof.
  intros Hp Hi. rewrite <- (take_drop_middle l i x Hi), zsum_app; cbn.
  assert (0 <= zsum f (take i l)).
  { apply zsum_nonneg. intros y Hy. apply Hp.
    rewrite <- (take_drop i l). apply elem_of_app. by left. }
  assert (0 <= zsum f (drop (S i) l)); [|lia].
  apply zsum_nonneg. intros y Hy. apply Hp.
  rewrite <- (take_drop (S i) l). apply elem_of_app. by right.
Qed.

Lemma zsum_ext {A} (f g : A -> Z) l :
  (forall x, x ∈ l -> f x = g x) -> zsum f l = zsum g l.
Proof.
  induction l as [|x l IH]; intros H; cbn; [done|].
  rewrite (H x) by left. rewrite IH; [done|]. intros; apply H. by right.
Qed.

(** Pairwise relations on lists, up to reordering. *)
Section Pairwise.
Context {A : Type} (R : A -> A -> Prop) `{!Symmetric R}.

Fixpoint pairwise (l : list A) : Prop :=
  match l with [] => True | x :: l => Forall (R x) l /\ pairwise l end.

#[export] Instance pairwise_perm : Proper ((≡ₚ) ==> iff) pairwise.
Proof.
  assert (forall l k, l ≡ₚ k -> pairwise l -> pairwise k) as H.
  { induction 1 as [|x l k Hp IH|x y l|l k m _ IH1 _ IH2]; cbn; auto.
    - intros [Hx Hl]. split; [by rewrite <- Hp|auto].
    - rewrite !Forall_cons. intros ([Hyx Hy] & Hx & Hl). auto. }
  intros l k Hp. split; apply H; [done|by symmetry].
Qed.

Lemma pairwise_app l k :
  pairwise (l ++ k) <-> pairwise l /\ pairwise k /\ Forall (fun x => Forall (R x) k) l.
Proof.
  induction l as [|x l IH]; cbn; [by rewrite Forall_nil; tauto|].
  rewrite Forall_app, Forall_cons, IH. tauto.
Qed.
End Pairwise.

(** Replacing one list of a list of lists. *)
Lemma concat_insert {A} (ls : list (list A)) c l l' :
  ls !! c = Some l -> l ++ concat (<[c := l']> ls) ≡ₚ l' ++ concat ls.
Proof.
  revert c. induction ls as [|k ls IH]; intros [|c] H; simplify_eq/=.
  - by rewrite !app_assoc, (Permutation_app_comm l).
  - rewrite (Permutation_app_swap_app l), (Permutation_app_swap_app l').
    by rewrite (IH c H).
Qed.

(** Slices of byte buffers: [n] bytes from [off], and [memcpy] into [off]. *)
Definition slice {A} (off n : Z) (l : list A) : list A :=
  take (Z.to_nat n) (drop (Z.to_nat off) l).
Definition blit {A} (off : Z) (src dst : list A) : list A :=
  take (Z.to_nat off) dst ++ src ++ drop (Z.to_nat off + length src) dst.

Lemma length_slice {A} off n (l : list A) :
  0 <= off -> 0 <= n -> off + n <= zlength l -> zlength (slice off n l) = n.
Proof.
  unfold slice, zlength. intros. rewrite length_take, length_drop. lia.
Qed.

Lemma length_blit {A} off (src dst : list A) :
  0 <= off -> off + zlength src <= zlength dst ->
  zlength (blit off src dst) = zlength dst.
Proof.
  unfold blit, zlength. intros.
  rewrite !length_app, length_take, length_drop. lia.
Qed.

Lemma Forall_insert_2 {A} (P : A -> Prop) (l : list A) i x :
  Forall P l -> P x -> Forall P (<[i := x]> l).
Proof. intros. by apply Forall_insert. Qed.

(** ** Automation of the common cases *)
Create HintDb erpc.
Create Rewrite HintDb erpc.
#[export] Hint Resolve zlength_nonneg wrap_range : erpc.
#[export] Hint Extern 2 (_ <= _) => lia : erpc.
#[export] Hint Extern 2 (_ < _) => lia : erpc.
#[export] Hint Rewrite @zlength_app @zlength_zinsert @length_insert : erpc.
