(* ===== verification/Config.v ===== *)
(** * Compile-time configuration and integer helpers

    Constants of [common.h], [rpc_constants.h], [tweakme.h], [sm_types.h] and
    [transport.h]; the [TTr] interface that every transport class gives to the
    [Rpc] template; the integer functions of [util/math_utils.h]. *)
From S2P Require Import Prelude.

(** ** rpc_constants.h *)
Definition kMaxNumERpcProcesses : Z := 32.
Definition kMaxRpcId : Z := 255 - 1.
Definition kBaseSmUdpPort : Z := 31850.
Definition kMaxNumaNodes : Z := 8.
Definition kMaxBgThreads : Z := 8.
Definition kMaxPhyPorts : Z := 16.
Definition kMachineFailureTimeoutMs : Z := 500.

(** The datapath UDP port of an Rpc object. The subtraction is cast to
    [uint16_t]; the sum is computed in [size_t] and returned as [uint16_t]. *)
Definition get_dpath_udp_port (mgmt_udp_port rpc_id : Z) : Z :=
  u16 (kBaseSmUdpPort + kMaxNumERpcProcesses
       + u16 (mgmt_udp_port - kBaseSmUdpPort) * kMaxRpcId + rpc_id).

(** ** common.h *)
Definition KB (x : Z) : Z := Z.shiftl x 10.
Definition MB (x : Z) : Z := Z.shiftl x 20.
Definition kReqTypeArraySize : Z := 1 + 255.
Definition kHugepageSize : Z := 2 * 1024 * 1024.
Definition kMaxHostnameLen : Z := 128.
Definition kInvalidRpcId : Z := kMaxRpcId + 1.
Definition kInvalidReqType : Z := kReqTypeArraySize - 1.
Definition kInvalidBgETid : Z := kMaxBgThreads.

(** [hostname.find("akalia") != npos ? hostname.substr(0, find(".")) : hostname];
    [substr(0, npos)] is the whole string. *)
Definition trim_hostname (hostname : string) : string :=
  match String.index 0 "akalia" hostname with
  | Some _ =>
      match String.index 0 "." hostname with
      | Some n => String.substring 0 n hostname
      | None => hostname
      end
  | None => hostname
  end.

(** ** tweakme.h *)
Definition kRpcRTOUs : Z := 5000.
Definition kEnableCc : bool := true.
Definition kEnableCcOpts : bool := true.
Definition kCcRTT : bool := kEnableCc.
Definition kCcRateComp : bool := kEnableCc.
Definition kCcPacing : bool := kEnableCc.
Definition kCcOptBatchTsc : bool := kEnableCcOpts.
Definition kCcOptWheelBypass : bool := kEnableCcOpts.
Definition kCcOptTimelyBypass : bool := kEnableCcOpts.
Definition kZeroCopyRX : bool := true.
Definition kDatapathStats : bool := false.
(** [ERPC_TESTING] is not defined by the build files. *)
Definition kTesting : bool := false.

(** [dpath_stat_inc] *)
Definition dpath_stat_inc (stat val : Z) : Z :=
  if kDatapathStats then wrap 64 (stat + val) else stat.

(** ** sm_types.h *)
Definition kSessionCredits : Z := 32.
Definition kSessionReqWindow : Z := 8.
Definition kInvalidSessionNum : Z := 65535.

(** ** transport.h *)
Definition kNumRxRingEntries : Z := 4096.

(** ** math_utils.h *)
Definition is_power_of_two (x : Z) : bool :=
  negb (x =? 0) && (Z.land x (u64 (x - 1)) =? 0).

Definition round_up (power_of_two_number x : Z) : Z :=
  Z.land (u64 (x + (power_of_two_number - 1)))
         (u64 (Z.lnot (power_of_two_number - 1))).

(** [bsrl] leaves its destination undefined when the source is zero: the value
    found there is the parameter [bsr_zero]. The [int] shift [x << 1] keeps
    its 32 low bits. *)
Definition bsrl (bsr_zero x : Z) : Z := if x =? 0 then bsr_zero else Z.log2 x.
Definition msb_index (bsr_zero x : Z) : Z := bsrl bsr_zero (u32 (Z.shiftl x 1)).

(** ** The transport interface

    The compile-time members of a transport class that the [Rpc] template
    reads. [kHeadroom] is set by the build configuration. *)
Class TTr := {
  kHeadroom : Z;
  kMTU : Z;
  kPostlist : Z;
  kUnsigBatch : Z;
}.

Section Derived.
Context {T : TTr}.
Definition sizeof_pkthdr : Z := kHeadroom + 16.
Definition kMaxDataPerPkt : Z := kMTU - sizeof_pkthdr.
Definition k_max_class_size : Z := MB 8.
Definition kMaxMsgSize : Z :=
  k_max_class_size - (k_max_class_size / kMaxDataPerPkt) * sizeof_pkthdr.
(** [Rpc::data_size_to_num_pkts] *)
Definition data_size_to_num_pkts (data_size : Z) : Z :=
  if data_size <=? kMaxDataPerPkt then 1
  else (data_size + kMaxDataPerPkt - 1) / kMaxDataPerPkt.
End Derived.

(** What the static assertions of [pkthdr.h], [rpc.h] and the transports
    require of a transport. *)
Class TTrOk (T : TTr) : Prop := {
  ttr_headroom : kHeadroom = 0 \/ kHeadroom = 40;
  ttr_data_pos : 0 < kMaxDataPerPkt;
  ttr_data_lt : kMaxDataPerPkt < 2 ^ 16;
  ttr_msg_size_bits : kMaxMsgSize <= 2 ^ 24;
  ttr_pkt_num_bits : 2 * kMaxMsgSize < 2 ^ 14 * kMaxDataPerPkt;
  ttr_postlist_pos : 0 < kPostlist;
  ttr_postlist_unsig : kPostlist <= kUnsigBatch;
}.

Module Transports.
Definition IBTransport (kIsRoCE : bool) : TTr :=
  {| kHeadroom := 0; kMTU := if kIsRoCE then 1024 else 3840;
     kPostlist := 16; kUnsigBatch := 64 |}.
Definition RawTransport : TTr :=
  {| kHeadroom := 40; kMTU := 1024; kPostlist := 16; kUnsigBatch := 64 |}.
Definition DpdkTransport : TTr :=
  {| kHeadroom := 40; kMTU := 1024; kPostlist := 32; kUnsigBatch := 32 |}.
Definition FakeTransport : TTr :=
  {| kHeadroom := 0; kMTU := 1024; kPostlist := 16; kUnsigBatch := 64 |}.

Ltac ttr_ok :=
  constructor;
  cbv [kHeadroom kMTU kPostlist kUnsigBatch kMaxDataPerPkt sizeof_pkthdr
       kMaxMsgSize k_max_class_size IBTransport RawTransport DpdkTransport
       FakeTransport];
  solve [ by left | by right | vm_compute; reflexivity
        | vm_compute; discriminate ].

#[export] Instance IBTransport_ok r : TTrOk (IBTransport r).
Proof. destruct r; ttr_ok. Qed.
#[export] Instance RawTransport_ok : TTrOk RawTransport.
Proof. ttr_ok. Qed.
#[export] Instance DpdkTransport_ok : TTrOk DpdkTransport.
Proof. ttr_ok. Qed.
#[export] Instance FakeTransport_ok : TTrOk FakeTransport.
Proof. ttr_ok. Qed.
End Transports.

(** ** Properties *)

(** Management ports and Rpc IDs below [kMaxRpcId] are recovered from the
    datapath port; the port does not overflow. *)
Lemma get_dpath_udp_port_value p i :
  0 <= p < kMaxNumERpcProcesses -> 0 <= i <= kMaxRpcId ->
  get_dpath_udp_port (kBaseSmUdpPort + p) i = 31882 + p * 254 + i.
Proof.
  unfold get_dpath_udp_port, kMaxNumERpcProcesses, kMaxRpcId, kBaseSmUdpPort.
  intros Hp Hi. rewrite (wrap_small 16 (31850 + p - 31850)).
  2:{ unfold in_u. lia. }
  rewrite wrap_small; unfold in_u; lia.
Qed.

Section Round.
Lemma land_lnot_mask x n :
  0 <= n <= 64 -> 0 <= x < 2 ^ 64 ->
  Z.land x (u64 (Z.lnot (2 ^ n - 1))) = 2 ^ n * (x / 2 ^ n).
Proof.
  intros Hn Hx.
  assert (H2n : 0 < 2 ^ n) by (apply Z.pow_pos_nonneg; lia).
  replace (2 ^ n * (x / 2 ^ n)) with (Z.ldiff x (Z.ones n)).
  2:{ rewrite Z.ldiff_ones_r, Z.shiftl_mul_pow2, Z.shiftr_div_pow2 by lia. lia. }
  replace (2 ^ n - 1) with (Z.ones n) by (rewrite Z.ones_equiv; lia).
  apply Z.bits_inj'. intros k Hk. unfold wrap.
  rewrite Z.land_spec, Z.ldiff_spec, <- Z.land_ones, Z.land_spec, Z.lnot_spec by lia.
  destruct (Z.lt_ge_cases k 64) as [Hlt|Hge].
  - rewrite (Z.ones_spec_low 64 k) by lia. by rewrite andb_true_r.
  - replace (Z.testbit x k) with false; [done|].
    symmetry. destruct (Z.eq_dec x 0) as [->|]; [by apply Z.bits_0|].
    apply Z.bits_above_log2; [lia|].
    apply Z.log2_lt_pow2; [lia|].
    apply Z.lt_le_trans with (2 ^ 64); [lia|]. by apply Z.pow_le_mono_r.
Qed.

(** [round_up] is the least multiple of the power of two that is not below
    [x], as long as the addition does not wrap. *)
Lemma round_up_value n x :
  0 <= n < 64 -> 0 <= x -> x + 2 ^ n - 1 < 2 ^ 64 ->
  round_up (2 ^ n) x = 2 ^ n * ((x + 2 ^ n - 1) / 2 ^ n).
Proof.
  intros Hn Hx Hov. unfold round_up.
  assert (0 < 2 ^ n) by (apply Z.pow_pos_nonneg; lia).
  rewrite (wrap_small 64 (x + _)) by (unfold in_u; lia).
  rewrite land_lnot_mask by lia. do 2 f_equal. lia.
Qed.

Lemma round_up_bounds n x :
  0 <= n < 64 -> 0 <= x -> x + 2 ^ n - 1 < 2 ^ 64 ->
  x <= round_up (2 ^ n) x < x + 2 ^ n /\ (2 ^ n | round_up (2 ^ n) x).
Proof.
  intros Hn Hx Hov. rewrite round_up_value by done.
  assert (0 < 2 ^ n) by (apply Z.pow_pos_nonneg; lia).
  split; [|by exists ((x + 2 ^ n - 1) / 2 ^ n); lia].
  pose proof (Z.div_mod (x + 2 ^ n - 1) (2 ^ n)).
  pose proof (Z.mod_pos_bound (x + 2 ^ n - 1) (2 ^ n)). lia.
Qed.
End Round.

(** [data_size_to_num_pkts] is the rounded-up quotient, and at least one. *)
Section NumPkts.
Context {T : TTr} {TOk : TTrOk T}.

Lemma data_size_to_num_pkts_pos d : 1 <= data_size_to_num_pkts d.
Proof.
  unfold data_size_to_num_pkts. case_match eqn:E; [lia|].
  apply Z.leb_gt in E. pose proof ttr_data_pos.
  apply Z.div_le_lower_bound; lia.
Qed.

(** The packets hold the data, and one packet fewer does not. *)
Lemma data_size_to_num_pkts_spec d :
  0 <= d ->
  (data_size_to_num_pkts d - 1) * kMaxDataPerPkt < Z.max d 1 /\
  d <= data_size_to_num_pkts d * kMaxDataPerPkt.
Proof.
  intros Hd. pose proof ttr_data_pos. unfold data_size_to_num_pkts.
  case_match eqn:E.
  - apply Z.leb_le in E. lia.
  - apply Z.leb_gt in E.
    pose proof (Z.div_mod (d + kMaxDataPerPkt - 1) kMaxDataPerPkt).
    pose proof (Z.mod_pos_bound (d + kMaxDataPerPkt - 1) kMaxDataPerPkt).
    nia.
Qed.

Lemma data_size_to_num_pkts_one d :
  data_size_to_num_pkts d = 1 <-> d <= kMaxDataPerPkt.
Proof.
  pose proof ttr_data_pos. unfold data_size_to_num_pkts. case_match eqn:E.
  - apply Z.leb_le in E. tauto.
  - apply Z.leb_gt in E. split; [|lia]. intros H1.
    assert (2 <= (d + kMaxDataPerPkt - 1) / kMaxDataPerPkt); [|lia].
    apply Z.div_le_lower_bound; lia.
Qed.
End NumPkts.
