(* ===== verification/HugeAlloc.v ===== *)
(** * The hugepage allocator: [util/huge_alloc.h], [util/huge_alloc.cc]

    Per-class free lists of [Buffer]s, refilled from SHM regions. The operating
    system (shmget, shmat, mbind), the random keys, the NIC registration
    function and the value [bsrl] leaves for a zero source are parameters. A
    vector used only at its back is a list whose head is the back. *)
From S2P Require Import Prelude Config.

(** [util/buffer.h]. A null [buf_] is 0. *)
Record Buffer := mkBuffer { b_buf : Z; b_class_size : Z; b_lkey : Z }.
#[export] Instance Buffer_eq_dec : EqDecision Buffer.
Proof. solve_decision. Defined.
#[export] Instance eta_Buffer : Eta Buffer :=
  fun b => mkBuffer (b_buf b) (b_class_size b) (b_lkey b).
Definition nullBuffer : Buffer := mkBuffer 0 0 0.

Record shm_region_t := mkShmRegion {
  shm_key : Z; shm_buf : Z; shm_size : Z; shm_registered : bool
}.

Inductive DoRegister := DoRegister_kTrue | DoRegister_kFalse.

(** ** The operating system *)
Inductive shmget_res :=
  | ShmId (id : Z) | ShmEEXIST | ShmEACCES | ShmEINVAL | ShmENOMEM | ShmOther.

Class ShmOs := {
  slow_rand : nat -> Z;                 (* slow_rand_.next_u64(), per attempt *)
  shmget : nat -> Z -> Z -> shmget_res; (* attempt, key, size *)
  shmat : Z -> Z;                       (* shm id -> address *)
  mbind : Z -> Z -> Z;                  (* address, size -> return code *)
  reg_mr : Z -> Z -> option Z;          (* address, size -> lkey; None throws *)
  bsr_zero : Z;                         (* bsrl's destination for source 0 *)
}.

Record HugeAlloc := mkHugeAlloc {
  ha_shm_list : list shm_region_t;
  ha_freelist : list (list Buffer);
  ha_prev_allocation_size : Z;
  ha_shm_reserved : Z;
  ha_user_alloc_tot : Z;
  ha_attempts : nat;  (* SHM attempts so far: indexes the OS's answers *)
}.
#[export] Instance eta_HugeAlloc : Eta HugeAlloc := fun a =>
  mkHugeAlloc (ha_shm_list a) (ha_freelist a) (ha_prev_allocation_size a)
    (ha_shm_reserved a) (ha_user_alloc_tot a) (ha_attempts a).

Definition k_min_class_size : Z := 64.
Definition k_min_class_bit_shift : Z := 6.
Definition k_num_classes : nat := 18.
Definition class_max_size (class_i : nat) : Z := k_min_class_size * 2 ^ Z.of_nat class_i.

Definition HugeAlloc_new (initial_size : Z) : HugeAlloc :=
  mkHugeAlloc [] (replicate k_num_classes [])
    (if initial_size <? k_max_class_size then k_max_class_size else initial_size)
    0 0 0.

Section HugeAlloc.
Context `{Os : ShmOs}.
Abbreviation MA := (M HugeAlloc).

Definition get_class (size : Z) : MA nat :=
  assert_ ((1 <=? size) && (size <=? k_max_class_size)) "get_class: size";;
  let x := Z.shiftr (size - 1) k_min_class_bit_shift in
  assert_ (x <? 2147483647 / 2) "msb_index: x";;
  mret (Z.to_nat (u64 (msb_index bsr_zero x))).

(** [while (size > class_lim) { size_class++; class_lim *= 2; }] *)
Fixpoint get_class_slow_loop (fuel : nat) (size : Z) (size_class : nat)
    (class_lim : Z) : option nat :=
  if size <=? class_lim then Some size_class
  else match fuel with
       | O => None
       | S fuel => get_class_slow_loop fuel size (S size_class) (class_lim * 2)
       end.
Definition get_class_slow (size : Z) : MA nat :=
  assert_ ((1 <=? size) && (size <=? k_max_class_size)) "get_class_slow: size";;
  deref (get_class_slow_loop k_num_classes size 0 k_min_class_size) "loop".

Definition get_freelist (c : nat) : MA (list Buffer) :=
  fl ← gets ha_freelist; deref (fl !! c) "freelist_".
Definition set_freelist (c : nat) (l : list Buffer) : MA unit :=
  modify (fun a => a <| ha_freelist ::= <[c := l]> |>).

Definition split (size_class : nat) : MA unit :=
  assert_ (1 <=? Z.of_nat size_class) "split: size_class";;
  fl ← get_freelist size_class;
  fl1 ← get_freelist (size_class - 1);
  assert_ (bool_decide (fl <> [])) "split: empty class";;
  assert_ (bool_decide (fl1 = [])) "split: previous class not empty";;
  match fl with
  | [] => fail (ENull "back() of an empty freelist")
  | buffer :: fl' =>
      set_freelist size_class fl';;
      assert_ (b_class_size buffer =? class_max_size size_class) "split: class_size";;
      let half := b_class_size buffer / 2 in
      let buffer_0 := mkBuffer (b_buf buffer) half (b_lkey buffer) in
      let buffer_1 := mkBuffer (b_buf buffer + half) half (b_lkey buffer) in
      set_freelist (size_class - 1) (buffer_1 :: buffer_0 :: fl1)
  end.

(** The assertion on [class_size_] in the code is an assignment; debug builds
    execute it. *)
Definition alloc_from_class (size_class : nat) : MA Buffer :=
  assert_ (bool_decide (size_class < k_num_classes)%nat) "alloc_from_class";;
  fl ← get_freelist size_class;
  match fl with
  | [] => fail (ENull "back() of an empty freelist")
  | buffer :: fl' =>
      let buffer := buffer <| b_class_size := class_max_size size_class |> in
      set_freelist size_class fl';;
      modify (fun a => a <| ha_user_alloc_tot ::=
                           fun t => add64 t (b_class_size buffer) |>);;
      mret buffer
  end.

(** [static_cast<int>] then [std::abs]. *)
Definition shm_key_of (r : Z) : Z :=
  let x := u32 r in Z.abs (if x <? 2 ^ 31 then x else x - 2 ^ 32).

(** The key-selection loop; [fuel] bounds the EEXIST retries. *)
Fixpoint shm_loop (fuel : nat) (size : Z) : MA (option (Z * Z)) :=
  match fuel with
  | O => fail EFuel
  | S fuel =>
      n ← gets ha_attempts;
      modify (fun a => a <| ha_attempts ::= S |>);;
      let key := shm_key_of (slow_rand n) in
      match shmget n key size with
      | ShmEEXIST => shm_loop fuel size
      | ShmEACCES => fail (EThrow "SHM: insufficient permissions")
      | ShmEINVAL => fail (EThrow "SHM: SHMMAX/SHMIN mismatch")
      | ShmENOMEM => mret None
      | ShmOther => fail (EThrow "SHM: unexpected error")
      | ShmId id => mret (Some (key, id))
      end
  end.

Definition registers (d : DoRegister) : bool :=
  match d with DoRegister_kTrue => true | DoRegister_kFalse => false end.

Definition alloc_raw (fuel : nat) (size : Z) (do_register : DoRegister) : MA Buffer :=
  let size := round_up kHugepageSize size in
  r ← shm_loop fuel size;
  match r with
  | None => mret nullBuffer
  | Some (key, id) =>
      let buf := shmat id in
      rt_assert (negb (buf =? 0)) "shmat() failed";;
      rt_assert (mbind buf size =? 0) "mbind() failed";;
      let reg := registers do_register in
      lkey ← (if reg then match reg_mr buf size with
                          | Some k => mret k
                          | None => fail (EThrow "Failed to register mr.")
                          end
              else mret (2 ^ 32 - 1));
      assert_ (size mod kHugepageSize =? 0) "shm_region_t: size";;
      modify (fun a => a <| ha_shm_list ::= fun l => l ++ [mkShmRegion key buf size reg] |>
                         <| ha_shm_reserved ::= fun t => add64 t size |>);;
      mret (mkBuffer buf (2 ^ 64 - 1) lkey)
  end.

(** The [num_buffers] buffers of the largest class carved from a region. *)
Definition carve (buf lkey : Z) (n : nat) : list Buffer :=
  (fun i => mkBuffer (buf + Z.of_nat i * k_max_class_size) k_max_class_size lkey)
    <$> seq 0 n.

Definition reserve_hugepages (fuel : nat) (size : Z) : MA bool :=
  assert_ (k_max_class_size <=? size) "reserve_hugepages: size";;
  buffer ← alloc_raw fuel size DoRegister_kTrue;
  if b_buf buffer =? 0 then mret false
  else
    let num_buffers := size / k_max_class_size in
    assert_ (1 <=? num_buffers) "reserve_hugepages: num_buffers";;
    fl ← get_freelist (k_num_classes - 1);
    set_freelist (k_num_classes - 1)
      (rev (carve (b_buf buffer) (b_lkey buffer) (Z.to_nat num_buffers)) ++ fl);;
    mret true.

(** [for (; next_class < k_num_classes; next_class++) if (!empty) break;] *)
Fixpoint first_nonempty (fls : list (list Buffer)) (next_class : nat) : nat :=
  match fls with
  | [] => next_class
  | [] :: fls => first_nonempty fls (S next_class)
  | _ :: _ => next_class
  end.

(** [while (next_class != size_class) { split(next_class); next_class--; }] *)
Fixpoint split_down (n : nat) (next_class : nat) : MA unit :=
  match n with
  | O => mret tt
  | S n => split next_class;; split_down n (next_class - 1)
  end.

Definition alloc (fuel : nat) (size : Z) : MA Buffer :=
  assert_ (size <=? k_max_class_size) "alloc: size";;
  size_class ← get_class size;
  assert_ (bool_decide (size_class < k_num_classes)%nat) "alloc: size_class";;
  fl ← get_freelist size_class;
  match fl with
  | _ :: _ => alloc_from_class size_class
  | [] =>
      fls ← gets ha_freelist;
      let next_class := first_nonempty (drop (S size_class) fls) (S size_class) in
      ok_next ← (if bool_decide (next_class = k_num_classes) then
        modify (fun a => a <| ha_prev_allocation_size ::= fun p => u64 (p * 2) |>);;
        prev ← gets ha_prev_allocation_size;
        success ← reserve_hugepages fuel prev;
        if (success : bool) then mret (Some (k_num_classes - 1)%nat)
        else
          modify (fun a => a <| ha_prev_allocation_size ::= fun p => p / 2 |>);;
          mret None
      else mret (Some next_class));
      match ok_next with
      | None => mret nullBuffer
      | Some next_class =>
          assert_ (bool_decide (next_class < k_num_classes)%nat) "alloc: next_class";;
          split_down (next_class - size_class) next_class;;
          alloc_from_class size_class
      end
  end.

Definition free_buf (buffer : Buffer) : MA unit :=
  assert_ (negb (b_buf buffer =? 0)) "free_buf: null";;
  size_class ← get_class (b_class_size buffer);
  assert_ (class_max_size size_class =? b_class_size buffer) "free_buf: class_size";;
  fl ← get_freelist size_class;
  set_freelist size_class (buffer :: fl);;
  modify (fun a => a <| ha_user_alloc_tot ::= fun t => sub64 t (b_class_size buffer) |>).

(** Addresses whose mapping the destructor deregisters and detaches. *)
Definition HugeAlloc_delete (a : HugeAlloc) : list Z * list Z :=
  (shm_buf <$> filter (fun r => shm_registered r = true) (ha_shm_list a),
   shm_buf <$> ha_shm_list a).

Definition get_stat_shm_reserved : MA Z :=
  t ← gets ha_shm_reserved;
  assert_ (t mod kHugepageSize =? 0) "shm_reserved";; mret t.
Definition get_stat_user_alloc_tot : MA Z :=
  t ← gets ha_user_alloc_tot;
  assert_ (t mod k_min_class_size =? 0) "user_alloc_tot";; mret t.
End HugeAlloc.

(** ** Size classes

    [c] is the class of [size]: the least class whose size is not below it. *)
Definition fits (size : Z) (c : nat) : Prop :=
  size <= class_max_size c /\ (c = O \/ class_max_size (c - 1) < size).

Lemma class_max_size_S c : class_max_size (S c) = 2 * class_max_size c.
Proof.
  unfold class_max_size. rewrite Nat2Z.inj_succ, Z.pow_succ_r by lia. lia.
Qed.

Lemma class_max_size_mono c d : (c <= d)%nat -> class_max_size c <= class_max_size d.
Proof.
  intros H. unfold class_max_size, k_min_class_size.
  assert (2 ^ Z.of_nat c <= 2 ^ Z.of_nat d) by (apply Z.pow_le_mono_r; lia). lia.
Qed.

Lemma class_max_size_pos c : 64 <= class_max_size c.
Proof. apply (class_max_size_mono 0 c). lia. Qed.

Lemma fits_unique size c d : fits size c -> fits size d -> c = d.
Proof.
  assert (forall c d, fits size c -> fits size d -> (c < d)%nat -> False) as H.
  { intros c' d' [Hc _] [_ [->|Hd]] Hlt; [lia|].
    pose proof (class_max_size_mono c' (d' - 1)). lia. }
  intros Hc Hd. destruct (lt_eq_lt_dec c d) as [[Hlt|Heq]|Hgt]; [|done|];
    exfalso; eauto.
Qed.

Lemma fits_lt size c : size <= k_max_class_size -> fits size c -> (c < k_num_classes)%nat.
Proof.
  intros Hs [_ [->|Hc]]; [unfold k_num_classes; lia|].
  apply Nat.nle_gt. intros Hge.
  pose proof (class_max_size_mono 17 (c - 1)).
  assert (class_max_size 17 = k_max_class_size) by reflexivity.
  unfold k_num_classes in *. lia.
Qed.

Lemma get_class_slow_loop_fits fuel size c :
  (c = O \/ class_max_size (c - 1) < size) ->
  size <= class_max_size (c + fuel) ->
  exists d, get_class_slow_loop fuel size c (class_max_size c) = Some d /\ fits size d.
Proof.
  revert c. induction fuel as [|fuel IH]; intros c Hlo Hhi; cbn; case_match eqn:E.
  - apply Z.leb_le in E. exists c. done.
  - rewrite Nat.add_0_r in Hhi. apply Z.leb_gt in E. lia.
  - apply Z.leb_le in E. exists c. done.
  - apply Z.leb_gt in E.
    replace (class_max_size c * 2) with (class_max_size (S c))
      by (rewrite class_max_size_S; lia).
    apply IH; [right|].
    + by replace (S c - 1)%nat with c by lia.
    + by replace (S c + fuel)%nat with (c + S fuel)%nat by lia.
Qed.

Section ClassSpec.
Context `{Os : ShmOs}.

Lemma get_class_slow_wp E size (Q : nat -> HugeAlloc -> Prop) a :
  1 <= size <= k_max_class_size ->
  (forall c, fits size c -> Q c a) -> wpe E (get_class_slow size) Q a.
Proof.
  intros Hs HQ. unfold get_class_slow. wp_step. wp_step; [lia|].
  destruct (get_class_slow_loop_fits k_num_classes size 0) as (d & Hd & Hf).
  { by left. }
  { pose proof (class_max_size_mono 17 18).
    assert (class_max_size 17 = k_max_class_size) by reflexivity.
    unfold k_num_classes. cbn. lia. }
  eapply wp_deref; [exact Hd|by apply HQ].
Qed.

(** Sizes above the smallest class: [bsrl] has a defined result. *)
Lemma msb_index_fits size :
  64 < size <= k_max_class_size ->
  fits size (Z.to_nat (u64 (msb_index bsr_zero (Z.shiftr (size - 1) 6)))).
Proof.
  intros Hs. unfold k_max_class_size in Hs.
  assert (HM : MB 8 = 8388608) by reflexivity.
  rewrite Z.shiftr_div_pow2 by lia. change (2 ^ 6) with 64.
  pose proof (Z.div_mod (size - 1) 64) as Hdm.
  pose proof (Z.mod_pos_bound (size - 1) 64) as Hmod.
  assert (Hx : 1 <= (size - 1) / 64 <= 131071).
  { assert ((size - 1) / 64 < 131072) by (apply Z.div_lt_upper_bound; lia).
    assert (1 <= (size - 1) / 64) by (apply Z.div_le_lower_bound; lia). lia. }
  generalize dependent ((size - 1) / 64). intros x Hdm Hx.
  unfold msb_index, bsrl. rewrite Z.shiftl_mul_pow2, Z.pow_1_r by lia.
  rewrite (wrap_small 32) by (unfold in_u; lia).
  replace (x * 2 =? 0) with false by (symmetry; apply Z.eqb_neq; lia).
  rewrite (Z.mul_comm x), Z.log2_double by lia.
  pose proof (Z.log2_spec x). pose proof (Z.log2_nonneg x).
  assert (Z.log2 x <= 17) by (apply (Z.log2_le_mono x 131072); lia).
  rewrite wrap_small by (unfold in_u; lia).
  unfold fits, class_max_size, k_min_class_size.
  replace (Z.to_nat (Z.succ (Z.log2 x)) - 1)%nat with (Z.to_nat (Z.log2 x)) by lia.
  rewrite !Z2Nat.id by lia.
  rewrite Z.pow_succ_r in * by lia. split; [|right]; lia.
Qed.

(** The bit scan of [get_class] is given a source other than 0, or finds 0 in the
    destination that it leaves undefined for the source 0. *)
Definition bsrl_defined (size : Z) : Prop := 64 < size \/ bsr_zero = 0.

Lemma get_class_wp E size (Q : nat -> HugeAlloc -> Prop) a :
  bsrl_defined size -> 1 <= size <= k_max_class_size ->
  (forall c, fits size c -> Q c a) -> wpe E (get_class size) Q a.
Proof.
  intros Hz Hs HQ. unfold get_class. wp_step. wp_step; [lia|]. wp_step. wp_step.
  { unfold k_max_class_size in Hs. assert (MB 8 = 8388608) by reflexivity.
    unfold k_min_class_bit_shift. rewrite Z.shiftr_div_pow2 by lia.
    apply Z.ltb_lt, Z.div_lt_upper_bound; [lia|].
    change (2147483647 / 2) with 1073741823. lia. }
  wp_step. apply HQ. destruct (Z_lt_le_dec 64 size).
  - apply msb_index_fits. lia.
  - unfold k_min_class_bit_shift. rewrite Z.shiftr_div_pow2 by lia.
    destruct Hz as [|Hz]; [lia|]. rewrite Z.div_small by lia. cbn. rewrite Hz. cbn. split; [|by left].
    unfold class_max_size, k_min_class_size. lia.
Qed.
End ClassSpec.

(** ** Allocator invariant *)
Definition buf_disj (b1 b2 : Buffer) : Prop :=
  b_buf b1 + b_class_size b1 <= b_buf b2 \/ b_buf b2 + b_class_size b2 <= b_buf b1.
#[export] Instance buf_disj_sym : Symmetric buf_disj.
Proof. intros ??. unfold buf_disj. tauto. Qed.

Definition in_region (b : Buffer) (r : shm_region_t) : Prop :=
  0 < shm_buf r /\ shm_buf r <= b_buf b /\
  b_buf b + b_class_size b <= shm_buf r + shm_size r.

Definition region_disj (a1 s1 a2 s2 : Z) : Prop := a1 + s1 <= a2 \/ a2 + s2 <= a1.

(** What the allocator relies on in the operating system: distinct mappings do not
    overlap, are not at address 0, fit in the user address space; fewer than
    [fuel] consecutive random keys are taken. One clause is the allocator's own
    presumption: that [shmat] attaches every segment that [shmget] gives, since
    the code compares its result with null and would take the pointer -1, the
    documented failure, for an address. *)
Definition shmat_failed : Z := 2 ^ 64 - 1.
Class ShmOsOk (Os : ShmOs) (fuel : nat) : Prop := {
  os_map n key size id :
    shmget n key size = ShmId id -> shmat id <> shmat_failed -> 0 < shmat id /\ size <= 2 ^ 47;
  os_attach n key size id : shmget n key size = ShmId id -> shmat id <> shmat_failed;
  os_disj n1 k1 s1 i1 n2 k2 s2 i2 :
    n1 <> n2 -> shmget n1 k1 s1 = ShmId i1 -> shmget n2 k2 s2 = ShmId i2 ->
    region_disj (shmat i1) s1 (shmat i2) s2;
  os_progress n size :
    exists k, (k < fuel)%nat /\
      shmget (n + k) (shm_key_of (slow_rand (n + k))) size <> ShmEEXIST;
}.
Lemma os_mapped {Os : ShmOs} {fuel : nat} {OsOk : ShmOsOk Os fuel} n key size id :
  shmget n key size = ShmId id -> 0 < shmat id /\ size <= 2 ^ 47.
Proof. intros H. eapply os_map; [exact H|by eapply os_attach]. Qed.

Section AllocInv.
Context `{Os : ShmOs} (fuel : nat) {OsOk : ShmOsOk Os fuel}.

Definition from_os (a : HugeAlloc) (r : shm_region_t) : Prop :=
  exists n id, (n < ha_attempts a)%nat /\
    shmget n (shm_key r) (shm_size r) = ShmId id /\ shm_buf r = shmat id.

(** [live] are the buffers handed out and not freed. *)
Record alloc_inv (live : list Buffer) (a : HugeAlloc) : Prop := {
  ai_len : length (ha_freelist a) = k_num_classes;
  ai_class c fl b : ha_freelist a !! c = Some fl -> b ∈ fl ->
    b_class_size b = class_max_size c;
  ai_live b : b ∈ live ->
    exists c, (c < k_num_classes)%nat /\ b_class_size b = class_max_size c;
  ai_disj : pairwise buf_disj (live ++ concat (ha_freelist a));
  ai_in : Forall (fun b => Exists (in_region b) (ha_shm_list a))
            (live ++ concat (ha_freelist a));
  ai_os : Forall (from_os a) (ha_shm_list a);
  ai_tot : ha_user_alloc_tot a = u64 (zsum b_class_size live);
  ai_prev : k_max_class_size <= ha_prev_allocation_size a <= 2 ^ 47;
}.

Lemma alloc_inv_new initial_size :
  initial_size <= 2 ^ 47 -> alloc_inv [] (HugeAlloc_new initial_size).
Proof.
  intros Hi.
  assert (Hc : forall n, concat (replicate n (@nil Buffer)) = []).
  { induction n; [done|]. by cbn. }
  constructor; cbn [HugeAlloc_new ha_freelist ha_shm_list ha_user_alloc_tot
                    ha_prev_allocation_size]; rewrite ?Hc; cbn.
  - done.
  - intros c fl b Hl. change (replicate k_num_classes (@nil Buffer) !! c = Some fl) in Hl.
    apply lookup_replicate in Hl as [-> _]. by intros ?%elem_of_nil.
  - by intros b ?%elem_of_nil.
  - done.
  - by constructor.
  - constructor.
  - done.
  - assert (k_max_class_size = 8388608) by reflexivity.
    case_match eqn:E; [lia|]. apply Z.ltb_ge in E. lia.
Qed.

Lemma get_freelist_wp E c fl (Q : list Buffer -> HugeAlloc -> Prop) a :
  ha_freelist a !! c = Some fl -> Q fl a -> wpe E (get_freelist c) Q a.
Proof. intros Hc HQ. unfold get_freelist. do 2 wp_step. by eapply wp_deref. Qed.

Lemma freelist_lookup live a c :
  alloc_inv live a -> (c < k_num_classes)%nat ->
  exists fl, ha_freelist a !! c = Some fl.
Proof.
  intros HI Hc. apply lookup_lt_is_Some. by rewrite (ai_len _ _ HI).
Qed.

(** Moving buffers between the live set and the free lists, keeping the set
    of all buffers, keeps the invariant. *)
Lemma alloc_inv_shuffle live a live' fls' tot' :
  alloc_inv live a ->
  length fls' = k_num_classes ->
  (forall c fl b, fls' !! c = Some fl -> b ∈ fl -> b_class_size b = class_max_size c) ->
  (forall b, b ∈ live' ->
     exists c, (c < k_num_classes)%nat /\ b_class_size b = class_max_size c) ->
  live' ++ concat fls' ≡ₚ live ++ concat (ha_freelist a) ->
  tot' = u64 (zsum b_class_size live') ->
  alloc_inv live' (a <| ha_freelist := fls' |> <| ha_user_alloc_tot := tot' |>).
Proof.
  intros HI Hlen Hcl Hlive Hp Htot. destruct HI.
  constructor; rsimp; try done.
  - by rewrite Hp.
  - by rewrite Hp.
Qed.

Lemma split_halves c b :
  b_class_size b = class_max_size (S c) ->
  let h := b_class_size b / 2 in
  h = class_max_size c /\ b_class_size b = h + h.
Proof.
  intros Hb. rewrite Hb, class_max_size_S, Z.mul_comm, Z.div_mul by lia. cbn. lia.
Qed.

(** The state after [split(S c)]. *)
Definition split_result (c : nat) (b : Buffer) (fl : list Buffer) (a : HugeAlloc) :=
  let h := b_class_size b / 2 in
  a <| ha_freelist :=
    <[c := [mkBuffer (b_buf b + h) h (b_lkey b); mkBuffer (b_buf b) h (b_lkey b)]]>
      (<[S c := fl]> (ha_freelist a)) |>.

Lemma split_inv live a c b fl :
  alloc_inv live a ->
  ha_freelist a !! S c = Some (b :: fl) -> ha_freelist a !! c = Some [] ->
  alloc_inv live (split_result c b fl a).
Proof.
  intros HI HS Hc. pose proof HI as HI'. destruct HI' as [Hlen Hcl Hlive Hd Hin ? ? ?].
  assert (Hb : b_class_size b = class_max_size (S c)) by (eapply Hcl; [done|left]).
  destruct (split_halves c b Hb) as [Hh Hsum].
  unfold split_result. cbv zeta. set (h := b_class_size b / 2) in *.
  assert (Hc' : <[S c := fl]> (ha_freelist a) !! c = Some []).
  { rewrite list_lookup_insert_ne; [done|lia]. }
  assert (Hp1 : b :: concat (<[S c := fl]> (ha_freelist a)) ≡ₚ concat (ha_freelist a)).
  { apply (Permutation_app_inv_l fl).
    rewrite <- (concat_insert _ _ _ fl HS). cbn. by rewrite Permutation_middle. }
  pose proof (concat_insert _ _ _ [mkBuffer (b_buf b + h) h (b_lkey b);
    mkBuffer (b_buf b) h (b_lkey b)] Hc') as Hp2. cbn in Hp2.
  set (R := concat (<[S c := fl]> (ha_freelist a))) in *.
  rewrite <- Hp1, <- Permutation_middle in Hd, Hin.
  destruct Hd as [Hdb Hd]. apply Forall_cons in Hin as [Hbin Hin].
  constructor; rsimp; try done.
  - by rewrite !length_insert.
  - intros d fl' b' Hd' Hb'. destruct (decide (d = c)) as [->|Hne].
    { rewrite list_lookup_insert_eq in Hd'.
      2:{ rewrite length_insert. by eapply lookup_lt_Some. }
      simplify_eq. apply list_elem_of_In in Hb'. cbn in Hb'.
      destruct Hb' as [<-|[<-|[]]]; done. }
    rewrite list_lookup_insert_ne in Hd' by done.
    destruct (decide (d = S c)) as [->|Hne'].
    { rewrite list_lookup_insert_eq in Hd' by (by eapply lookup_lt_Some).
      simplify_eq. eapply Hcl; [done|by right]. }
    rewrite list_lookup_insert_ne in Hd' by done. by eapply Hcl.
  - pose proof (class_max_size_pos c).
    rewrite Hp2, <- !Permutation_middle. cbn.
    rewrite Forall_cons. repeat split; try done.
    + unfold buf_disj; cbn; lia.
    + eapply Forall_impl; [exact Hdb|]. unfold buf_disj; cbn. intros x. lia.
    + eapply Forall_impl; [exact Hdb|]. unfold buf_disj; cbn. intros x. lia.
  - rewrite Hp2, <- !Permutation_middle. rewrite !Forall_cons.
    pose proof (class_max_size_pos c).
    repeat split; try done;
      (eapply Exists_impl; [exact Hbin|]; unfold in_region; cbn; intros r; lia).
Qed.

Lemma split_wp E live a c b fl (Q : unit -> HugeAlloc -> Prop) :
  alloc_inv live a ->
  ha_freelist a !! S c = Some (b :: fl) -> ha_freelist a !! c = Some [] ->
  Q tt (split_result c b fl a) -> wpe E (split (S c)) Q a.
Proof.
  intros HI HS Hc HQ. unfold split. wp_step. wp_step; [by apply Z.leb_le; lia|].
  wp_step. eapply get_freelist_wp; [done|].
  wp_step. replace (S c - 1)%nat with c by lia.
  eapply get_freelist_wp; [done|].
  wp_step. wp_step; [by rewrite bool_decide_eq_true|].
  wp_step. wp_step; [by rewrite bool_decide_eq_true|].
  wp_step. unfold set_freelist. wp_step. wp_step. wp_step.
  { apply Z.eqb_eq. eapply (ai_class _ _ HI); [done|left]. }
  by wp_step.
Qed.
End AllocInv.

Section AllocOps.
Context `{Os : ShmOs} (fuel : nat) {OsOk : ShmOsOk Os fuel}.

(** [split] from the first non-empty class down to the wanted one. *)
Lemma split_down_wp E live n c a (Q : unit -> HugeAlloc -> Prop) :
  alloc_inv live a -> (c + n < k_num_classes)%nat ->
  (exists b fl, ha_freelist a !! (c + n)%nat = Some (b :: fl)) ->
  (forall d, (c <= d < c + n)%nat -> ha_freelist a !! d = Some []) ->
  (forall a', alloc_inv live a' ->
     (exists b fl, ha_freelist a' !! c = Some (b :: fl)) -> Q tt a') ->
  wpe E (split_down n (c + n)) Q a.
Proof.
  revert a. induction n as [|n IH]; intros a HI Hlt (b & fl & Hb) Hempty HQ; cbn.
  - apply wp_ret, HQ; [done|]. rewrite Nat.add_0_r in Hb. eauto.
  - wp_step. rewrite Nat.add_succ_r in *.
    eapply (split_wp E live a (c + n) b fl); [done..|apply Hempty; lia|].
    replace (S (c + n) - 1)%nat with (c + n)%nat by lia.
    apply IH.
    + apply split_inv; [done..|]. apply Hempty. lia.
    + lia.
    + unfold split_result. rsimp. rewrite list_lookup_insert_eq; [eauto|].
      rewrite length_insert, (ai_len _ _ HI). lia.
    + intros d Hd. unfold split_result. rsimp.
      rewrite !list_lookup_insert_ne by lia. apply Hempty. lia.
    + done.
Qed.

Lemma alloc_from_class_wp E live c b fl a (Q : Buffer -> HugeAlloc -> Prop) :
  alloc_inv live a -> ha_freelist a !! c = Some (b :: fl) ->
  (forall a', alloc_inv (b :: live) a' -> Q b a') ->
  wpe E (alloc_from_class c) Q a.
Proof.
  intros HI Hb HQ.
  assert (Hc : (c < k_num_classes)%nat).
  { rewrite <- (ai_len _ _ HI). by eapply lookup_lt_Some. }
  assert (Hcs : b_class_size b = class_max_size c)
    by (eapply (ai_class _ _ HI); [done|left]).
  unfold alloc_from_class. wp_step. wp_step; [by rewrite bool_decide_eq_true|].
  wp_step. eapply get_freelist_wp; [done|].
  assert (Hbe : b <| b_class_size := class_max_size c |> = b)
    by (destruct b; cbn in *; by subst).
  unfold set_freelist. do 5 wp_step. rewrite Hbe. apply HQ.
  set (fls' := <[c := fl]> (ha_freelist a)).
  set (t := add64 (ha_user_alloc_tot a) (b_class_size b)).
  assert (Ha : alloc_inv (b :: live)
    (a <| ha_freelist := fls' |> <| ha_user_alloc_tot := t |>)); [|exact Ha].
  apply (alloc_inv_shuffle live); [done| | | | |].
  - unfold fls'. by rewrite length_insert, (ai_len _ _ HI).
  - intros d fl' b' Hd' Hb'. unfold fls' in Hd'.
    destruct (decide (d = c)) as [->|Hne].
    + rewrite list_lookup_insert_eq in Hd' by (by rewrite (ai_len _ _ HI)).
      simplify_eq. eapply (ai_class _ _ HI); [done|by right].
    + rewrite list_lookup_insert_ne in Hd' by done. by eapply (ai_class _ _ HI).
  - intros b' [->|Hb']%elem_of_cons; [eauto|by apply (ai_live _ _ HI)].
  - cbn. rewrite Permutation_middle. apply Permutation_app_head.
    apply (Permutation_app_inv_l fl).
    rewrite <- (concat_insert _ _ _ fl Hb). cbn. by rewrite Permutation_middle.
  - unfold t. rewrite (ai_tot _ _ HI). cbn. unfold add64, wrap.
    rewrite Z.add_mod_idemp_l by lia. f_equal. lia.
Qed.

Lemma shm_loop_wp n size a (Q : option (Z * Z) -> HugeAlloc -> Prop) :
  (exists k, (k < n)%nat /\
    shmget (ha_attempts a + k) (shm_key_of (slow_rand (ha_attempts a + k))) size
      <> ShmEEXIST) ->
  (forall m, (ha_attempts a <= m)%nat ->
     Q None (a <| ha_attempts := S m |>) /\
     forall key id, shmget m key size = ShmId id ->
       Q (Some (key, id)) (a <| ha_attempts := S m |>)) ->
  wpt (shm_loop n size) Q a.
Proof.
  revert a. induction n as [|n IH]; intros a (k & Hk & Hkey) HQ; [lia|]. cbn.
  do 4 wp_step. destruct (shmget (ha_attempts a) _ size) as [id| | | | |] eqn:E.
  - wp_step. by eapply (HQ (ha_attempts a)).
  - apply IH.
    + rsimp. destruct k as [|k]; [by rewrite Nat.add_0_r in Hkey|].
      exists k. split; [lia|]. by rewrite Nat.add_succ_r in Hkey.
    + rsimp. intros m Hm. apply (HQ m). lia.
  - done.
  - done.
  - wp_step. by apply (HQ (ha_attempts a)).
  - done.
Qed.

Lemma region_fresh a r m key size id :
  from_os a r -> (ha_attempts a <= m)%nat -> shmget m key size = ShmId id ->
  region_disj (shm_buf r) (shm_size r) (shmat id) size.
Proof.
  intros (n & id' & Hn & Hget & ->) Hm Hid.
  eapply (os_disj (Os := Os) (fuel := fuel) n _ _ _ m); [lia|done|done].
Qed.

(** A new region: not mapped before, at least as large as asked. *)
Lemma alloc_raw_wp size dr a (Q : Buffer -> HugeAlloc -> Prop) :
  0 <= size < 2 ^ 60 ->
  (forall m, (ha_attempts a < m)%nat ->
     Q nullBuffer (a <| ha_attempts := m |>)) ->
  (forall m id key sz res lkey,
     (ha_attempts a <= m)%nat -> shmget m key sz = ShmId id -> size <= sz ->
     Q (mkBuffer (shmat id) (2 ^ 64 - 1) lkey)
       (a <| ha_attempts := S m |>
          <| ha_shm_list := ha_shm_list a ++ [mkShmRegion key (shmat id) sz (registers dr)] |>
          <| ha_shm_reserved := res |>)) ->
  wpt (alloc_raw fuel size dr) Q a.
Proof.
  intros Hs HQ1 HQ2. unfold alloc_raw. cbv zeta.
  destruct (round_up_bounds 21 size) as [Hr [q Hq]]; [lia..|].
  change (2 ^ 21) with kHugepageSize in *.
  wp_step. eapply shm_loop_wp; [apply os_progress|].
  intros m Hm. split.
  { wp_step. apply HQ1. lia. }
  intros key id Hid. destruct (os_mapped _ _ _ _ Hid) as [Hpos Hle].
  wp_step. wp_step; [done|]. wp_step. wp_step; [done|].
  wp_step. fold (registers dr). set (m2 := if registers dr then _ else _).
  assert (Hreg : forall R, (forall l, R l (a <| ha_attempts := S m |>)) ->
    wpt m2 R (a <| ha_attempts := S m |>)).
  { intros R HR. unfold m2. destruct (registers dr); [|apply wp_ret, HR].
    destruct (reg_mr _ _); [apply wp_ret, HR|done]. }
  apply Hreg. intros lkey. wp_step. wp_step.
  { apply Z.eqb_eq. rewrite Hq. apply Z.mod_mul. unfold kHugepageSize. lia. }
  wp_step. wp_step. wp_step.
  eapply (HQ2 m id key); [done|done|lia].
Qed.

(** Any raw allocation keeps the invariant: it only adds a mapped region. *)
Lemma alloc_raw_inv live size dr a (Q : Buffer -> HugeAlloc -> Prop) :
  alloc_inv live a -> 0 <= size < 2 ^ 60 ->
  (forall b a', alloc_inv live a' -> b_buf b = 0 \/ (0 < b_buf b /\ size <= 2 ^ 47) -> Q b a') ->
  wpt (alloc_raw fuel size dr) Q a.
Proof.
  intros [Hlen Hcl Hlive Hd Hin Hos Htot Hprev] Hs HQ.
  assert (Hmore : forall m, (ha_attempts a <= m)%nat -> forall r, from_os a r ->
            from_os (a <| ha_attempts := S m |>) r).
  { intros m Hm r (n & i & ? & ?). exists n, i. rsimp. split; [lia|done]. }
  apply alloc_raw_wp; [done| |].
  - intros m Hm. apply HQ; [|by left]. destruct m as [|m]; [lia|].
    constructor; rsimp; try done.
    eapply Forall_impl; [exact Hos|]. apply Hmore. lia.
  - intros m id key sz res lkey Hm Hid Hsz.
    destruct (os_mapped (fuel := fuel) _ _ _ _ Hid) as [Hpos ?].
    apply HQ; [|right; cbn; lia]. constructor; rsimp; try done.
    + eapply Forall_impl; [exact Hin|]. intros b Hb. apply Exists_app. by left.
    + apply Forall_app. split.
      * eapply Forall_impl; [exact Hos|]. by apply Hmore.
      * constructor; [|done]. exists m, id. rsimp. split; [lia|done].
Qed.

Lemma carve_class buf lkey n b :
  b ∈ carve buf lkey n -> b_class_size b = k_max_class_size /\
    buf <= b_buf b /\ b_buf b + k_max_class_size <= buf + Z.of_nat n * k_max_class_size.
Proof.
  intros (i & -> & Hi%elem_of_seq)%list_elem_of_fmap. cbn.
  assert (0 < k_max_class_size) by done. split; [done|nia].
Qed.

Lemma carve_pairwise buf lkey n : pairwise buf_disj (carve buf lkey n).
Proof.
  assert (0 < k_max_class_size) by done.
  unfold carve. generalize 0%nat. induction n as [|n IH]; intros i; cbn; [done|].
  split; [|apply IH]. apply Forall_forall.
  intros b (j & -> & Hj%elem_of_seq)%list_elem_of_fmap.
  left. cbn. nia.
Qed.

(** Reserving [2 * prev] bytes when the largest class is empty. *)
Lemma reserve_inv live a m id key sz res lkey :
  alloc_inv live a -> ha_freelist a !! (k_num_classes - 1)%nat = Some [] ->
  (ha_attempts a <= m)%nat -> shmget m key sz = ShmId id ->
  let size := 2 * ha_prev_allocation_size a in
  size <= sz ->
  let bufs := rev (carve (shmat id) lkey (Z.to_nat (size / k_max_class_size))) in
  alloc_inv live
    (a <| ha_prev_allocation_size := size |>
       <| ha_attempts := S m |>
       <| ha_shm_list := ha_shm_list a ++ [mkShmRegion key (shmat id) sz true] |>
       <| ha_shm_reserved := res |>
       <| ha_freelist ::= <[(k_num_classes - 1)%nat := bufs]> |>).
Proof.
  intros HI Hlast Hm Hid size Hsz bufs.
  destruct (os_mapped _ _ _ _ Hid) as [Hpos Hle].
  pose proof HI as [Hlen Hcl Hlive Hd Hin Hos Htot [Hp1 Hp2]].
  assert (Hmax : k_max_class_size = 8388608) by reflexivity.
  assert (Hcarve : forall b, b ∈ bufs ->
    b_class_size b = k_max_class_size /\ shmat id <= b_buf b /\
    b_buf b + k_max_class_size <= shmat id + sz).
  { intros b Hb. unfold bufs in Hb. rewrite <- Permutation_rev in Hb.
    apply carve_class in Hb as (? & ? & ?).
    pose proof (Z.mul_div_le size k_max_class_size). repeat split; try done.
    assert (0 <= size / k_max_class_size) by (apply Z.div_pos; lia). lia. }
  pose proof (concat_insert _ _ _ bufs Hlast) as Hp. cbn in Hp.
  constructor; rsimp; try done.
  - by rewrite length_insert.
  - intros c fl b Hc Hb. destruct (decide (c = k_num_classes - 1)%nat) as [->|Hne].
    + rewrite list_lookup_insert_eq in Hc by (rewrite Hlen; unfold k_num_classes; lia).
      simplify_eq. by apply Hcarve in Hb as [-> _].
    + rewrite list_lookup_insert_ne in Hc by done. by eapply Hcl.
  - rewrite Hp, (Permutation_app_swap_app live). rewrite pairwise_app.
    repeat split; [|done|].
    + unfold bufs. rewrite <- Permutation_rev. apply carve_pairwise.
    + apply Forall_forall. intros b Hb. apply Hcarve in Hb as (Hbs & ? & ?).
      eapply Forall_impl; [exact Hin|]. cbn. intros b' (r & Hr & Hin')%Exists_exists.
      rewrite Forall_forall in Hos. pose proof (Hos _ Hr) as Hfrom.
      eapply (region_fresh _ _ m) in Hfrom; [|done..].
      unfold in_region, region_disj, buf_disj in *. lia.
  - rewrite Hp, (Permutation_app_swap_app live). apply Forall_app. split.
    + apply Forall_forall. intros b Hb.
      apply Exists_app. right. apply Exists_cons_hd.
      apply Hcarve in Hb as (? & ? & ?). unfold in_region. cbn. lia.
    + eapply Forall_impl; [exact Hin|]. cbn. intros b Hb. apply Exists_app. by left.
  - apply Forall_app. split.
    + eapply Forall_impl; [exact Hos|]. intros r (n & i & ? & ?). exists n, i.
      rsimp. split; [lia|done].
    + constructor; [|done]. exists m, id. rsimp. split; [lia|done].
  - lia.
Qed.

Lemma reserve_hugepages_wp live a (Q : bool -> HugeAlloc -> Prop) :
  alloc_inv live a -> ha_freelist a !! (k_num_classes - 1)%nat = Some [] ->
  let a2 := a <| ha_prev_allocation_size := 2 * ha_prev_allocation_size a |> in
  (forall m, (ha_attempts a < m)%nat -> Q false (a2 <| ha_attempts := m |>)) ->
  (forall a', alloc_inv live a' ->
     (exists b bs, ha_freelist a' !! (k_num_classes - 1)%nat = Some (b :: bs)) ->
     (forall d, (d < k_num_classes - 1)%nat ->
        ha_freelist a' !! d = ha_freelist a !! d) -> Q true a') ->
  wpt (reserve_hugepages fuel (2 * ha_prev_allocation_size a)) Q a2.
Proof.
  intros HI Hlast a2 HQ1 HQ2. subst a2. unfold reserve_hugepages.
  pose proof (ai_prev _ _ HI) as [Hp1 Hp2].
  assert (Hmax : k_max_class_size = 8388608) by reflexivity.
  assert (Hnb : 1 <= 2 * ha_prev_allocation_size a / k_max_class_size)
    by (apply Z.div_le_lower_bound; lia).
  wp_step. wp_step; [lia|]. wp_step. eapply alloc_raw_wp; [lia| |].
  { intros m Hm. cbn. apply wp_ret. by apply HQ1. }
  intros m id key sz res lkey Hm Hid Hsz. cbn [b_buf].
  destruct (os_mapped _ _ _ _ Hid) as [Hpos _].
  replace (shmat id =? 0) with false by (symmetry; lia).
  wp_step. wp_step; [lia|]. wp_step. eapply get_freelist_wp; [exact Hlast|].
  wp_step. unfold set_freelist. wp_step. wp_step. rewrite app_nil_r. apply HQ2.
  - by eapply (reserve_inv live a m id key sz res lkey).
  - rsimp. rewrite list_lookup_insert_eq
      by (rewrite (ai_len _ _ HI); unfold k_num_classes; lia).
    destruct (rev (carve _ _ _)) as [|b bs] eqn:E; [|eauto].
    apply (f_equal length) in E. unfold carve in E.
    rewrite length_rev, length_fmap, length_seq in E. cbn in E. lia.
  - intros d Hd. rsimp. rewrite list_lookup_insert_ne by lia. done.
Qed.

Lemma first_nonempty_spec (fls : list (list Buffer)) k :
  (k <= first_nonempty fls k <= k + length fls)%nat /\ (forall d, (k <= d < first_nonempty fls k)%nat -> fls !! (d - k)%nat = Some []) /\ ((first_nonempty fls k < k + length fls)%nat ->
     exists b fl, fls !! (first_nonempty fls k - k)%nat = Some (b :: fl)).
Proof.
  revert k. induction fls as [|fl fls IH]; intros k; cbn; [repeat split; lia|].
  destruct fl as [|b fl].
  - destruct (IH (S k)) as (H1 & H2 & H3). repeat split; [lia..| |].
    + intros d Hd. destruct (decide (d = k)) as [->|]; [by rewrite Nat.sub_diag|].
      replace (d - k)%nat with (S (d - S k)) by lia. cbn. apply H2. lia.
    + intros Hlt. destruct H3 as (b & fl & H3); [lia|]. exists b, fl.
      by replace (first_nonempty fls (S k) - k)%nat
        with (S (first_nonempty fls (S k) - S k)) by lia.
  - repeat split; [lia..|]. intros _. rewrite Nat.sub_diag. cbn. eauto.
Qed.
End AllocOps.

(** ** Properties *)
Section Correct.
Context `{Os : ShmOs}.

(** C22 The optimised size-class function agrees with the reference loop on
    every valid size, if [bsrl] leaves 0 for a zero source. *)
Theorem get_class_eq_slow size a :
  bsr_zero = 0 -> 1 <= size <= k_max_class_size ->
  exists c, get_class size a = Ok c a /\ get_class_slow size a = Ok c a /\ fits size c.
Proof.
  intros Hz Hs.
  assert (H1 : wp (get_class size) (fun c a' => fits size c /\ a' = a) a)
    by (apply get_class_wp; [by right|auto..]).
  assert (H2 : wp (get_class_slow size) (fun c a' => fits size c /\ a' = a) a)
    by (apply get_class_slow_wp; auto).
  apply wp_run in H1 as (c & a1 & E1 & Hc & ->).
  apply wp_run in H2 as (d & a2 & E2 & Hd & ->).
  rewrite (fits_unique _ _ _ Hd Hc) in E2. eauto.
Qed.

(** For the smallest class the optimised function returns whatever the
    hardware leaves in the destination of [bsrl]. *)
Theorem get_class_small_undefined size a :
  1 <= size <= 64 -> get_class size a = Ok (Z.to_nat (u64 bsr_zero)) a.
Proof.
  intros Hs. unfold get_class, mbind, M_bind, assert_.
  replace (1 <=? size) with true by (symmetry; lia).
  replace (size <=? k_max_class_size) with true
    by (symmetry; apply Z.leb_le; assert (k_max_class_size = 8388608) by done; lia).
  unfold k_min_class_bit_shift. rewrite Z.shiftr_div_pow2 by lia.
  by rewrite Z.div_small by lia.
Qed.

Context (fuel : nat) {OsOk : ShmOsOk Os fuel}.

(** What [alloc(size)] promises: no hugepages left, or a buffer of the least
    class that holds [size], disjoint from every live and free buffer. *)
Definition alloc_post (live : list Buffer) (size : Z) (b : Buffer) (a' : HugeAlloc) : Prop :=
  (b = nullBuffer /\ alloc_inv live a') \/
  (alloc_inv (b :: live) a' /\
   exists c, fits size c /\ b_class_size b = class_max_size c).

Lemma alloc_from_fitting live size c b fl a :
  alloc_inv live a -> fits size c -> ha_freelist a !! c = Some (b :: fl) ->
  wpt (alloc_from_class c) (alloc_post live size) a.
Proof.
  intros HI Hc Hb. eapply alloc_from_class_wp; [done..|].
  intros a' HI'. right. split; [done|]. exists c. split; [done|].
  eapply (ai_class _ _ HI); [done|left].
Qed.

(** Splitting from class [n], the first non-empty one above [c]. *)
Lemma alloc_from_larger live size c n a :
  alloc_inv live a -> fits size c -> (c <= n < k_num_classes)%nat ->
  (exists b fl, ha_freelist a !! n = Some (b :: fl)) ->
  (forall d, (c <= d < n)%nat -> ha_freelist a !! d = Some []) ->
  wpt (split_down (n - c) n;; alloc_from_class c) (alloc_post live size) a.
Proof.
  intros HI Hc Hn Hb Hem. wp_step.
  replace n with (c + (n - c))%nat at 2 by lia.
  eapply split_down_wp; [done|lia| | |].
  - by replace (c + (n - c))%nat with n by lia.
  - intros d Hd. apply Hem. lia.
  - intros a' HI' (b & fl & Hb'). by eapply alloc_from_fitting.
Qed.

(** The empty classes between the wanted one and the first non-empty one. *)
Lemma first_nonempty_empty live a c d :
  alloc_inv live a -> (c < k_num_classes)%nat -> ha_freelist a !! c = Some [] ->
  (c <= d < first_nonempty (drop (S c) (ha_freelist a)) (S c))%nat ->
  ha_freelist a !! d = Some [].
Proof.
  intros HI Hc Hfl Hd. destruct (decide (d = c)) as [->|]; [done|].
  destruct (first_nonempty_spec (drop (S c) (ha_freelist a)) (S c)) as (_ & H2 & _).
  rewrite <- (H2 d) by lia. rewrite lookup_drop. f_equal. lia.
Qed.

Lemma first_nonempty_found live a c :
  alloc_inv live a -> (c < k_num_classes)%nat ->
  let nc := first_nonempty (drop (S c) (ha_freelist a)) (S c) in
  (c < nc <= k_num_classes)%nat /\
  (nc <> k_num_classes -> exists b fl, ha_freelist a !! nc = Some (b :: fl)).
Proof.
  intros HI Hc nc.
  destruct (first_nonempty_spec (drop (S c) (ha_freelist a)) (S c)) as (H1 & _ & H3).
  fold nc in H1, H3. rewrite length_drop, (ai_len _ _ HI) in H1, H3.
  split; [lia|]. intros Hne. destruct H3 as (b & fl & H3); [lia|].
  exists b, fl. rewrite <- H3, lookup_drop. f_equal. lia.
Qed.

(** A failed reservation restores the allocator. *)
Lemma reserve_failed_inv live a m :
  alloc_inv live a -> (ha_attempts a < m)%nat ->
  alloc_inv live
    (a <| ha_prev_allocation_size := 2 * ha_prev_allocation_size a |>
       <| ha_attempts := m |>
       <| ha_prev_allocation_size ::= fun p => p / 2 |>).
Proof.
  intros [] Hm. constructor; rsimp; try done.
  - eapply Forall_impl; [done|]. intros r (n & i & ? & ?).
    exists n, i. rsimp. split; [lia|done].
  - rewrite Z.mul_comm, Z.div_mul by lia. done.
Qed.

Lemma prev_doubled live a :
  alloc_inv live a ->
  a <| ha_prev_allocation_size ::= fun p => u64 (p * 2) |> =
  a <| ha_prev_allocation_size := 2 * ha_prev_allocation_size a |>.
Proof.
  intros HI. pose proof (ai_prev _ _ HI) as [? ?].
  assert (k_max_class_size = 8388608) by reflexivity.
  destruct a; cbn in *. unfold update; cbn.
  rewrite wrap_small by (unfold in_u; lia). by rewrite Z.mul_comm.
Qed.

Lemma alloc_spec live a size :
  alloc_inv live a -> 1 <= size <= k_max_class_size -> bsrl_defined size ->
  wpt (alloc fuel size) (alloc_post live size) a.
Proof.
  intros HI Hs Hbsr. unfold alloc. wp_step. wp_step; [lia|]. wp_step.
  apply get_class_wp; [exact Hbsr|lia|]. intros c Hc.
  assert (Hlt : (c < k_num_classes)%nat) by (eapply fits_lt; [|done]; lia).
  wp_step. wp_step; [by rewrite bool_decide_eq_true|]. wp_step.
  destruct (freelist_lookup _ _ c HI Hlt) as [fl Hfl].
  eapply get_freelist_wp; [done|]. destruct fl as [|b fl]; [|by eapply alloc_from_fitting].
  do 2 wp_step. pose proof (first_nonempty_empty live a c) as Hempty.
  destruct (first_nonempty_found live a c HI Hlt) as [Hnc Hfound].
  set (nc := first_nonempty _ _) in *.
  assert (Hk : (0 < k_num_classes)%nat) by (unfold k_num_classes; lia).
  wp_step. wp_step; rewrite ?bool_decide_eq_true, ?bool_decide_eq_false in *.
  - wp_step. wp_step. rewrite (prev_doubled live a HI). do 2 wp_step. rsimp.
    wp_step. eapply (reserve_hugepages_wp fuel live); [exact HI|apply Hempty; [done..|lia]| |].
    + intros m Hm. do 4 wp_step. left. split; [done|]. by apply reserve_failed_inv.
    + intros a' HI' Hne Hsame. do 2 wp_step.
      wp_step; [rewrite bool_decide_eq_true; lia|].
      apply alloc_from_larger; [done|done|lia|done|].
      intros d Hd. rewrite Hsame by lia. apply Hempty; [done..|lia].
  - do 2 wp_step. wp_step; [rewrite bool_decide_eq_true; lia|].
    apply alloc_from_larger; [done|done|lia|by apply Hfound|].
    intros d Hd. by apply Hempty.
Qed.


Lemma free_buf_spec live a b :
  alloc_inv (b :: live) a -> bsrl_defined (b_class_size b) ->
  wp (free_buf b) (fun _ a' => alloc_inv live a') a.
Proof.
  intros HI Hbsr. pose proof HI as [Hlen Hcl Hlive Hd Hin Hos Htot Hprev].
  apply Forall_cons in Hin as [Hb Hin]. apply Exists_exists in Hb as (r & _ & Hr).
  destruct (Hlive b) as (c & Hc & Hbs); [left|].
  pose proof (class_max_size_pos c).
  assert (Hcle : class_max_size c <= k_max_class_size).
  { change k_max_class_size with (class_max_size 17).
    apply class_max_size_mono. unfold k_num_classes in Hc. lia. }
  assert (Hfits : fits (b_class_size b) c).
  { split; [lia|]. destruct c as [|c]; [by left|right].
    replace (S c - 1)%nat with c by lia. rewrite Hbs, class_max_size_S.
    pose proof (class_max_size_pos c). lia. }
  unfold free_buf. wp_step. wp_step.
  { unfold in_region in Hr. apply negb_true_iff, Z.eqb_neq. lia. }
  wp_step. apply get_class_wp; [exact Hbsr|lia|].
  intros d Hd'. rewrite (fits_unique _ _ _ Hd' Hfits).
  wp_step. wp_step; [lia|]. wp_step.
  destruct (freelist_lookup _ _ c HI Hc) as [fl Hfl].
  eapply get_freelist_wp; [done|]. unfold set_freelist. do 3 wp_step.
  set (t := sub64 (ha_user_alloc_tot a) (b_class_size b)).
  assert (Ha : alloc_inv live (a <| ha_freelist := <[c := b :: fl]> (ha_freelist a) |>
     <| ha_user_alloc_tot := t |>)); [|exact Ha].
  eapply alloc_inv_shuffle; [done| | | | |].
  - by rewrite length_insert.
  - intros d' fl' b' Hd'' Hb'. destruct (decide (d' = c)) as [->|Hne].
    + rewrite list_lookup_insert_eq in Hd'' by (by rewrite Hlen).
      simplify_eq. apply elem_of_cons in Hb' as [->|Hb']; [done|by eapply Hcl].
    + rewrite list_lookup_insert_ne in Hd'' by done. by eapply Hcl.
  - intros b' Hb'. apply Hlive. by right.
  - cbn. rewrite Permutation_middle. apply Permutation_app_head.
    apply (Permutation_app_inv_l fl).
    rewrite (concat_insert _ _ _ (b :: fl) Hfl). cbn. by rewrite Permutation_middle.
  - unfold t. rewrite Htot. cbn. unfold sub64, wrap.
    rewrite Zminus_mod_idemp_l. f_equal. lia.
Qed.

(** C21 Freeing a live buffer never fails and returns it to its class. For buffers
    of the least class this needs the result that [bsrl] leaves undefined to be 0. *)
Theorem free_buf_correct live a b :
  alloc_inv (b :: live) a -> bsrl_defined (b_class_size b) -> wp (free_buf b) (fun _ a' => alloc_inv live a') a.
Proof. apply free_buf_spec. Qed.
End Correct.

(** ** A concrete operating system

    Every attempt gets a fresh 2 GiB-aligned mapping of at most 1 GiB. *)
Definition BumpOs : ShmOs := {|
  slow_rand n := Z.of_nat n;
  shmget n _ size := if size <=? 2 ^ 30 then ShmId (Z.of_nat n) else ShmENOMEM;
  shmat id := (id + 1) * 2 ^ 31;
  mbind _ _ := 0;
  reg_mr _ _ := Some 7;
  bsr_zero := 0;
|}.

#[export] Instance BumpOs_ok : ShmOsOk BumpOs 1.
Proof.
  constructor.
  - intros n key size id. cbn. case_match eqn:E; intros [= <-].
    apply Z.leb_le in E. intros _. split; lia.
  - intros n key size id. cbn. case_match eqn:E; intros [= <-]. unfold shmat_failed. lia.
  - intros n1 k1 s1 i1 n2 k2 s2 i2 Hn. cbn.
    do 2 case_match; intros [= <-] [= <-]. unfold region_disj. lia.
  - intros n size. exists O. split; [lia|]. cbn. by case_match.
Qed.

Lemma get_class_eq_slow_witness :
  exists c, @get_class BumpOs 100 (HugeAlloc_new 0) = Ok c (HugeAlloc_new 0) /\
    get_class_slow 100 (HugeAlloc_new 0) = Ok c (HugeAlloc_new 0) /\ fits 100 c.
Proof. apply (@get_class_eq_slow BumpOs); [reflexivity|vm_compute; split; discriminate]. Defined.

Lemma get_class_small_undefined_witness :
  @get_class BumpOs 24 (HugeAlloc_new 0) = Ok 0%nat (HugeAlloc_new 0).
Proof. apply (@get_class_small_undefined BumpOs 24); lia. Defined.

#[local] Existing Instance BumpOs.


(** The first allocation succeeds with a 128-byte buffer. *)
Lemma bump_first_ok :
  exists b a, alloc 1 100 (HugeAlloc_new (MB 8)) = Ok b a /\
    b_class_size b = 128 /\ alloc_inv [b] a.
Proof.
  assert (Hnew : alloc_inv [] (HugeAlloc_new (MB 8))).
  { apply alloc_inv_new. vm_compute. discriminate. }
  assert (Hs : 1 <= 100 <= k_max_class_size) by (vm_compute; split; discriminate).
  destruct (run_checked is_throw (alloc 1 100 (HugeAlloc_new (MB 8)))
    (alloc_post [] 100)
    (fun b _ => (b_class_size b =? 128) && negb (b_buf b =? 0)))
    as (b & a & E & Hrun & H).
  - apply (wp_match (alloc 1 100)), (alloc_spec 1); [done..|left; lia].
  - vm_compute. reflexivity.
  - exists b, a. split; [exact E|].
    apply andb_true_iff in Hrun as [Hcs Hb].
    split; [by apply Z.eqb_eq|]. clear E. by destruct H as [[-> _]|[H _]].
Qed.

Lemma free_buf_correct_witness :
  exists b a, alloc 1 100 (HugeAlloc_new (MB 8)) = Ok b a /\
    wp (free_buf b) (fun _ a' => alloc_inv [] a') a.
Proof.
  destruct bump_first_ok as (b & a & E & Hc & H).
  exists b, a. split; [exact E|]. apply (free_buf_correct [] a b H). left. rewrite Hc. lia.
Defined.
