(* ===== verification/PktHdr.v ===== *)
(** * Packet headers: [pkthdr.h]

    A header is a record whose fields are stored truncated to their bit-field
    widths; [encode] and [decode] are the packed little-endian layout. *)
From S2P Require Import Prelude Config.

Definition kHeadroomHackBits : Z := 16.
Definition kMsgSizeBits : Z := 24.
Definition kReqNumBits : Z := 44.
Definition kPktNumBits : Z := 14.
Definition k_pkt_hdr_magic_bits : Z :=
  128 - (kHeadroomHackBits + 8 + kMsgSizeBits + 16 + 2 + kPktNumBits + kReqNumBits).
Definition kPktHdrMagic : Z := 11.

(** [enum PktType : uint64_t]; the header stores its number. *)
Definition kReq : Z := 0.
Definition kRFR : Z := 1.
Definition kExplCR : Z := 2.
Definition kResp : Z := 3.

(** [None] is the exception for an invalid packet type. *)
Definition pkt_type_str (pkt_type : Z) : option string :=
  if pkt_type =? kReq then Some "REQ"%string
  else if pkt_type =? kRFR then Some "RFR"%string
  else if pkt_type =? kExplCR then Some "CR"%string
  else if pkt_type =? kResp then Some "RESP"%string
  else None.

Record pkthdr_t := mkPkthdr {
  headroom_ : list Z;
  req_type_ : Z;
  msg_size_ : Z;
  dest_session_num_ : Z;
  pkt_type_ : Z;
  pkt_num_ : Z;
  req_num_ : Z;
  magic_ : Z;
}.
#[export] Instance eta_pkthdr : Eta pkthdr_t := fun h =>
  mkPkthdr (headroom_ h) (req_type_ h) (msg_size_ h) (dest_session_num_ h)
    (pkt_type_ h) (pkt_num_ h) (req_num_ h) (magic_ h).
#[export] Instance pkthdr_eq_dec : EqDecision pkthdr_t.
Proof. solve_decision. Defined.

(** Assignments to bit fields keep the low bits. *)
Definition set_req_type (v : Z) (h : pkthdr_t) := h <| req_type_ := wrap 8 v |>.
Definition set_msg_size (v : Z) (h : pkthdr_t) := h <| msg_size_ := wrap kMsgSizeBits v |>.
Definition set_dest_session_num (v : Z) (h : pkthdr_t) := h <| dest_session_num_ := u16 v |>.
Definition set_pkt_type (v : Z) (h : pkthdr_t) := h <| pkt_type_ := wrap 2 v |>.
Definition set_pkt_num (v : Z) (h : pkthdr_t) := h <| pkt_num_ := wrap kPktNumBits v |>.
Definition set_req_num (v : Z) (h : pkthdr_t) := h <| req_num_ := wrap kReqNumBits v |>.
Definition set_magic (v : Z) (h : pkthdr_t) := h <| magic_ := wrap k_pkt_hdr_magic_bits v |>.

Definition format (req_type msg_size dest_session_num pkt_type pkt_num req_num : Z)
    (h : pkthdr_t) : pkthdr_t :=
  set_magic kPktHdrMagic (set_req_num req_num (set_pkt_num pkt_num
    (set_pkt_type pkt_type (set_dest_session_num dest_session_num
      (set_msg_size msg_size (set_req_type req_type h)))))).

Definition matches (h : pkthdr_t) (pkt_type pkt_num : Z) : bool :=
  (pkt_type_ h =? pkt_type) && (pkt_num_ h =? pkt_num).
Definition check_magic (h : pkthdr_t) : bool := magic_ h =? kPktHdrMagic.
Definition is_req (h : pkthdr_t) : bool := pkt_type_ h =? kReq.
Definition is_rfr (h : pkthdr_t) : bool := pkt_type_ h =? kRFR.
Definition is_resp (h : pkthdr_t) : bool := pkt_type_ h =? kResp.
Definition is_expl_cr (h : pkthdr_t) : bool := pkt_type_ h =? kExplCR.

(** A header as it is in memory: every field within its width. *)
Definition is_byte (b : Z) : Prop := in_u 8 b.
Record pkthdr_wf `{TTr} (h : pkthdr_t) : Prop := {
  hw_headroom : zlength (headroom_ h) = kHeadroom + 2;
  hw_bytes : Forall is_byte (headroom_ h);
  hw_req_type : in_u 8 (req_type_ h);
  hw_msg_size : in_u 24 (msg_size_ h);
  hw_dsn : in_u 16 (dest_session_num_ h);
  hw_pkt_type : in_u 2 (pkt_type_ h);
  hw_pkt_num : in_u 14 (pkt_num_ h);
  hw_req_num : in_u 44 (req_num_ h);
  hw_magic : in_u 4 (magic_ h);
}.

(** ** The packed layout *)

(** [n] bytes, least significant first, and back. *)
Fixpoint le_bytes (n : nat) (z : Z) : list Z :=
  match n with
  | O => []
  | S n => z mod 256 :: le_bytes n (z / 256)
  end.
Fixpoint le_val (l : list Z) : Z :=
  match l with [] => 0 | b :: l => b + 256 * le_val l end.

Definition encode (h : pkthdr_t) : list Z :=
  headroom_ h
  ++ le_bytes 4 (Z.lor (req_type_ h) (Z.shiftl (msg_size_ h) 8))
  ++ le_bytes 2 (dest_session_num_ h)
  ++ le_bytes 8 (Z.lor (pkt_type_ h) (Z.lor (Z.shiftl (pkt_num_ h) 2)
       (Z.lor (Z.shiftl (req_num_ h) 16) (Z.shiftl (magic_ h) 60)))).

Definition decode `{TTr} (bs : list Z) : pkthdr_t :=
  let e := drop (Z.to_nat (kHeadroom + 2)) bs in
  let w0 := le_val (take 4 e) in
  let w1 := le_val (take 2 (drop 4 e)) in
  let w2 := le_val (take 8 (drop 6 e)) in
  mkPkthdr (take (Z.to_nat (kHeadroom + 2)) bs)
    (wrap 8 w0) (wrap 24 (Z.shiftr w0 8)) w1
    (wrap 2 w2) (wrap 14 (Z.shiftr w2 2)) (wrap 44 (Z.shiftr w2 16))
    (wrap 4 (Z.shiftr w2 60)).

(** ** Properties *)
Lemma length_le_bytes n z : length (le_bytes n z) = n.
Proof. revert z. induction n; intros; cbn; auto. Qed.

Lemma le_val_bytes n z : 0 <= z < 256 ^ Z.of_nat n -> le_val (le_bytes n z) = z.
Proof.
  revert z. induction n as [|n IH]; intros z Hz; cbn; [cbn in Hz; lia|].
  rewrite Nat2Z.inj_succ, Z.pow_succ_r in Hz by lia.
  rewrite IH; [pose proof (Z.div_mod z 256); lia|].
  split; [apply Z.div_pos; lia|apply Z.div_lt_upper_bound; lia].
Qed.

Lemma le_bytes_are_bytes n z : Forall is_byte (le_bytes n z).
Proof.
  revert z. induction n as [|n IH]; intros z; cbn; constructor; [|done].
  apply Z.mod_pos_bound. lia.
Qed.

(** Adjacent bit fields: the low one is the remainder, the high one the rest. *)
Lemma lor_shiftl_add n a b : 0 <= n -> in_u n a -> Z.lor a (Z.shiftl b n) = a + b * 2 ^ n.
Proof.
  intros Hn Ha. rewrite <- Z.shiftl_mul_pow2 by done.
  assert (Hd : Z.land a (Z.shiftl b n) = 0).
  { apply Z.bits_inj'. intros k Hk. rewrite Z.land_spec, Z.bits_0.
    destruct (Z.lt_ge_cases k n).
    - rewrite Z.shiftl_spec_low by done. by rewrite andb_false_r.
    - rewrite <- (Z.mod_small a (2 ^ n)), Z.mod_pow2_bits_high by done. done. }
  rewrite <- Z.lxor_lor by done. symmetry. by apply Z.add_nocarry_lxor.
Qed.

Lemma field_low n a b : 0 <= n -> in_u n a -> wrap n (a + b * 2 ^ n) = a.
Proof. intros Hn Ha. unfold wrap. rewrite Z.mod_add by lia. by apply Z.mod_small. Qed.

Lemma field_high n a b : 0 <= n -> in_u n a -> Z.shiftr (a + b * 2 ^ n) n = b.
Proof.
  intros Hn Ha. rewrite Z.shiftr_div_pow2, Z.div_add by lia.
  rewrite Z.div_small by done. lia.
Qed.

(** The two bit-field words. *)
Definition pack_word0 (h : pkthdr_t) : Z :=
  Z.lor (req_type_ h) (Z.shiftl (msg_size_ h) 8).
Definition pack_word2 (h : pkthdr_t) : Z :=
  Z.lor (pkt_type_ h) (Z.lor (Z.shiftl (pkt_num_ h) 2)
    (Z.lor (Z.shiftl (req_num_ h) 16) (Z.shiftl (magic_ h) 60))).

Section RoundTrip.
Context {T : TTr} {TOk : TTrOk T}.

Lemma pack_word0_fields h :
  pkthdr_wf h ->
  0 <= pack_word0 h < 256 ^ 4 /\ wrap 8 (pack_word0 h) = req_type_ h /\
  wrap 24 (Z.shiftr (pack_word0 h) 8) = msg_size_ h.
Proof.
  intros [_ _ Hrt Hms _ _ _ _ _]. unfold pack_word0.
  rewrite lor_shiftl_add by done.
  rewrite field_low, field_high, wrap_small by done.
  unfold in_u in *. split; [lia|done].
Qed.

Lemma pack_word2_fields h :
  pkthdr_wf h ->
  0 <= pack_word2 h < 256 ^ 8 /\ wrap 2 (pack_word2 h) = pkt_type_ h /\
  wrap 14 (Z.shiftr (pack_word2 h) 2) = pkt_num_ h /\
  wrap 44 (Z.shiftr (pack_word2 h) 16) = req_num_ h /\
  wrap 4 (Z.shiftr (pack_word2 h) 60) = magic_ h.
Proof.
  intros [_ _ _ _ _ Hpt Hpn Hrn Hm]. unfold pack_word2.
  set (A := req_num_ h + magic_ h * 2 ^ 44).
  set (B := pkt_num_ h + A * 2 ^ 14).
  assert (E : Z.lor (pkt_type_ h) (Z.lor (Z.shiftl (pkt_num_ h) 2)
    (Z.lor (Z.shiftl (req_num_ h) 16) (Z.shiftl (magic_ h) 60))) = pkt_type_ h + B * 2 ^ 2).
  { change 16 with (14 + 2). change 60 with (44 + 14 + 2).
    rewrite <- !Z.shiftl_shiftl, <- !Z.shiftl_lor by lia.
    rewrite !lor_shiftl_add by done. done. }
  rewrite E.
  assert (HB : Z.shiftr (pkt_type_ h + B * 2 ^ 2) 2 = B) by (by apply field_high).
  assert (HA : Z.shiftr (pkt_type_ h + B * 2 ^ 2) 16 = A).
  { change 16 with (2 + 14). rewrite <- Z.shiftr_shiftr, HB by lia. by apply field_high. }
  assert (Hmag : Z.shiftr (pkt_type_ h + B * 2 ^ 2) 60 = magic_ h).
  { change 60 with (16 + 44). rewrite <- Z.shiftr_shiftr, HA by lia. by apply field_high. }
  rewrite HB, HA, Hmag. split; [unfold A, B, in_u in *; lia|].
  unfold A, B. rewrite !field_low by done. by rewrite wrap_small.
Qed.

Lemma length_encode h : pkthdr_wf h -> zlength (encode h) = sizeof_pkthdr.
Proof.
  intros H. unfold encode. rewrite !zlength_app, (hw_headroom h H).
  unfold zlength. rewrite !length_le_bytes. unfold sizeof_pkthdr. lia.
Qed.

Lemma decode_encode h : pkthdr_wf h -> decode (encode h) = h.
Proof.
  intros H. pose proof (hw_headroom h H) as Hl.
  destruct (pack_word0_fields h H) as (H0 & Hrt & Hms).
  destruct (pack_word2_fields h H) as (H2 & Hpt & Hpn & Hrn & Hm).
  assert (Hds : 0 <= dest_session_num_ h < 256 ^ 2) by apply (hw_dsn h H).
  unfold decode, encode. fold (pack_word0 h) (pack_word2 h).
  replace (Z.to_nat (kHeadroom + 2)) with (length (headroom_ h))
    by (unfold zlength in Hl; lia).
  rewrite take_app_length, drop_app_length.
  change 6%nat with (4 + 2)%nat. rewrite <- drop_drop.
  rewrite (take_app_length' (le_bytes 4 _)), (drop_app_length' (le_bytes 4 _)),
    (take_app_length' (le_bytes 2 _)), (drop_app_length' (le_bytes 2 _)),
    (take_ge (le_bytes 8 _)) by (by rewrite length_le_bytes).
  rewrite !le_val_bytes by done. rewrite Hrt, Hms, Hpt, Hpn, Hrn, Hm. by destruct h.
Qed.

(** The packed header is [kHeadroom + 16] bytes and decoding it gives the
    header back. *)
Theorem pkthdr_roundtrip h :
  pkthdr_wf h ->
  decode (encode h) = h /\ zlength (encode h) = sizeof_pkthdr /\
  Forall is_byte (encode h).
Proof.
  intros H. split; [by apply decode_encode|]. split; [by apply length_encode|].
  unfold encode. rewrite !Forall_app. repeat split; auto using le_bytes_are_bytes.
  apply H.
Qed.

(** Setting a field keeps a header well formed. *)
Lemma set_fields_wf h v :
  pkthdr_wf h ->
  pkthdr_wf (set_req_type v h) /\ pkthdr_wf (set_msg_size v h) /\
  pkthdr_wf (set_dest_session_num v h) /\ pkthdr_wf (set_pkt_type v h) /\
  pkthdr_wf (set_pkt_num v h) /\ pkthdr_wf (set_req_num v h) /\
  pkthdr_wf (set_magic v h).
Proof.
  intros []. split_and!; constructor; cbn; try done; apply wrap_range; done.
Qed.

Lemma format_wf rt ms ds pt pn rn h :
  pkthdr_wf h -> pkthdr_wf (format rt ms ds pt pn rn h).
Proof. intros H. unfold format. repeat apply set_fields_wf. done. Qed.
End RoundTrip.

(** A formatted request header, in range, is what was asked for. *)
Lemma format_fields rt ms ds pt pn rn h :
  in_u 8 rt -> in_u 24 ms -> in_u 16 ds -> in_u 2 pt -> in_u 14 pn -> in_u 44 rn ->
  format rt ms ds pt pn rn h = mkPkthdr (headroom_ h) rt ms ds pt pn rn kPktHdrMagic.
Proof.
  intros. unfold format, set_magic, set_req_num, set_pkt_num, set_pkt_type,
    set_dest_session_num, set_msg_size, set_req_type, update; cbn.
  unfold kMsgSizeBits, kPktNumBits, kReqNumBits. rewrite !wrap_small by done. done.
Qed.

Lemma pkthdr_roundtrip_witness :
  let T := Transports.FakeTransport in
  let h := mkPkthdr [0; 0] 3 70000 12 kResp 69 (2 ^ 40 + 5) kPktHdrMagic in
  encode h = [0; 0; 3; 112; 17; 1; 12; 0; 23; 1; 5; 0; 0; 0; 0; 177] /\
  decode (encode h) = h.
Proof.
  split; [vm_compute; reflexivity|].
  apply (pkthdr_roundtrip (T := Transports.FakeTransport)).
  constructor; try (by vm_compute).
  by repeat (apply Forall_cons_2; [by vm_compute|]); apply Forall_nil_2.
Defined.
