(* ===== verification/Msg.v ===== *)
(** * Message buffers: [msg_buffer.h], with the memory they point to

    [Mem] is the process memory as the datapath uses it: data bytes by address,
    and packet headers by the address of their first byte. Headers and data
    never overlap ([msgbuf_layout]). A [MsgBuffer] is the C++ object: sizes and
    a pointer; 0 is the null pointer. *)
From S2P Require Import Prelude Config PktHdr HugeAlloc.

(** ** Memory *)
Record Mem := mkMem { m_byte : Z -> Z; m_hdr : Z -> pkthdr_t }.
#[export] Instance eta_Mem : Eta Mem := fun m => mkMem (m_byte m) (m_hdr m).

Definition write_hdr (a : Z) (h : pkthdr_t) (m : Mem) : Mem :=
  m <| m_hdr ::= fun f x => if x =? a then h else f x |>.
Definition upd_hdr (a : Z) (g : pkthdr_t -> pkthdr_t) (m : Mem) : Mem :=
  write_hdr a (g (m_hdr m a)) m.
(** [memcpy] of data bytes. *)
Definition memcpy (dst src n : Z) (m : Mem) : Mem :=
  m <| m_byte ::= fun f x => if (dst <=? x) && (x <? dst + n) then f (src + (x - dst)) else f x |>.
(** The [n] data bytes at [a]. *)
Definition read_bytes (m : Mem) (a n : Z) : list Z :=
  map (fun i => m_byte m (a + Z.of_nat i)) (seq 0 (Z.to_nat n)).

(** ** The MsgBuffer object *)
Record MsgBuffer := mkMsgBuffer {
  buffer_ : Buffer;
  max_data_size_ : Z;
  data_size_ : Z;
  max_num_pkts_ : Z;
  num_pkts_ : Z;
  buf_ : Z;
}.
#[export] Instance eta_MsgBuffer : Eta MsgBuffer := fun b =>
  mkMsgBuffer (buffer_ b) (max_data_size_ b) (data_size_ b) (max_num_pkts_ b)
    (num_pkts_ b) (buf_ b).
#[export] Instance MsgBuffer_eq_dec : EqDecision MsgBuffer.
Proof. solve_decision. Defined.

(** The object after [memset(0)]. *)
Definition zeroMsgBuffer : MsgBuffer := mkMsgBuffer nullBuffer 0 0 0 0 0.

Definition is_dynamic (mb : MsgBuffer) : bool := negb (b_buf (buffer_ mb) =? 0).
Definition is_buried (mb : MsgBuffer) : bool :=
  (buf_ mb =? 0) && (b_buf (buffer_ mb) =? 0).

Section MsgBuffer.
Context {T : TTr}.

Definition get_pkthdr_0 (mb : MsgBuffer) : Z := buf_ mb - sizeof_pkthdr.
Definition get_pkthdr_n (mb : MsgBuffer) (n : Z) : Z :=
  if n =? 0 then get_pkthdr_0 mb
  else buf_ mb + round_up 8 (max_data_size_ mb) + (n - 1) * sizeof_pkthdr.

Definition get_pkt_size (mb : MsgBuffer) (pkt_idx : Z) : Z :=
  let offset := u64 (pkt_idx * kMaxDataPerPkt) in
  sizeof_pkthdr + Z.min kMaxDataPerPkt (sub64 (data_size_ mb) offset).

(** The dynamic constructor. *)
Definition MsgBuffer_new (buffer : Buffer) (max_data_size max_num_pkts : Z) : M Mem MsgBuffer :=
  assert_ (negb (b_buf buffer =? 0)) "MsgBuffer: null buffer";;
  assert_ (1 <=? max_num_pkts) "MsgBuffer: max_num_pkts";;
  assert_ (max_data_size + max_num_pkts * sizeof_pkthdr <=? b_class_size buffer)
    "MsgBuffer: class_size";;
  let mb := mkMsgBuffer buffer max_data_size max_data_size max_num_pkts max_num_pkts
              (b_buf buffer + sizeof_pkthdr) in
  modify (upd_hdr (get_pkthdr_0 mb) (set_magic kPktHdrMagic));;
  modify (upd_hdr (get_pkthdr_0 mb)
            (fun h => h <| headroom_ ::= fun l => zinsert (kHeadroom + 1) 0 (zinsert kHeadroom 0 l) |>));;
  mret mb.

(** The "fake" constructor, for a received packet. The backing buffer's other
    fields are left indeterminate by the code; they are 0 here. *)
Definition MsgBuffer_fake (pkthdr max_data_size : Z) : MsgBuffer :=
  mkMsgBuffer nullBuffer max_data_size max_data_size 1 1 (pkthdr + sizeof_pkthdr).

Definition resize {S} (mb : MsgBuffer) (new_data_size new_num_pkts : Z) : M S MsgBuffer :=
  assert_ (new_data_size <=? max_data_size_ mb) "resize: data size";;
  assert_ (new_num_pkts <=? max_num_pkts_ mb) "resize: packets";;
  mret (mb <| data_size_ := new_data_size |> <| num_pkts_ := new_num_pkts |>).

(** [Rpc::resize_msg_buffer] *)
Definition resize_msg_buffer {S} (mb : MsgBuffer) (new_data_size : Z) : M S MsgBuffer :=
  assert_ (new_data_size <=? max_data_size_ mb) "resize_msg_buffer";;
  resize mb new_data_size (data_size_to_num_pkts new_data_size).

(** [Rpc::copy_data_to_msgbuf]: the data bytes follow the packet header. *)
Definition copy_data_to_msgbuf (mb : MsgBuffer) (pkt_idx pkthdr : Z) (m : Mem) : Mem :=
  let offset := u64 (pkt_idx * kMaxDataPerPkt) in
  let to_copy := Z.min kMaxDataPerPkt (sub64 (msg_size_ (m_hdr m pkthdr)) offset) in
  memcpy (buf_ mb + offset) (pkthdr + sizeof_pkthdr) to_copy m.

(** [memcpy] between [ehdrptr()]s: all but the first [kHeadroom] bytes. *)
Definition copy_ehdr (src dst : Z) (m : Mem) : Mem :=
  upd_hdr dst (fun d =>
    let s := m_hdr m src in
    s <| headroom_ := take (Z.to_nat kHeadroom) (headroom_ d)
                      ++ drop (Z.to_nat kHeadroom) (headroom_ s) |>) m.

(** The data bytes of packet [pkt_idx], as transports read them from a
    message buffer ([get_pkt_size] less the header). *)
Definition pkt_payload (m : Mem) (mb : MsgBuffer) (pkt_idx : Z) : list Z :=
  read_bytes m (buf_ mb + pkt_idx * kMaxDataPerPkt) (get_pkt_size mb pkt_idx - sizeof_pkthdr).
End MsgBuffer.

(** ** Memory lemmas *)
Lemma length_read_bytes m a n : 0 <= n -> zlength (read_bytes m a n) = n.
Proof. intros. unfold read_bytes, zlength. rewrite length_map, length_seq. lia. Qed.

Lemma lookup_read_bytes m a n i :
  0 <= i < n -> read_bytes m a n !! Z.to_nat i = Some (m_byte m (a + i)).
Proof.
  intros Hi. unfold read_bytes. rewrite list_lookup_fmap, lookup_seq_lt by lia.
  cbn. f_equal. f_equal. lia.
Qed.

Lemma read_bytes_ext m m' a a' n :
  (forall i, 0 <= i < n -> m_byte m (a + i) = m_byte m' (a' + i)) <->
  read_bytes m a n = read_bytes m' a' n.
Proof.
  split.
  - intros H. apply list_eq. intros i. unfold read_bytes. rewrite !list_lookup_fmap.
    destruct (decide (i < Z.to_nat n)%nat).
    + rewrite lookup_seq_lt by done. cbn. f_equal. apply H. lia.
    + by rewrite lookup_seq_ge by lia.
  - intros H i Hi. pose proof (lookup_read_bytes m a n i Hi) as H1.
    rewrite H, (lookup_read_bytes m' a' n i Hi) in H1. congruence.
Qed.

Lemma memcpy_in dst src n m x :
  dst <= x < dst + n -> m_byte (memcpy dst src n m) x = m_byte m (src + (x - dst)).
Proof.
  intros Hx. unfold memcpy. rsimp.
  replace ((dst <=? x) && (x <? dst + n)) with true; [done|].
  symmetry. apply andb_true_iff. lia.
Qed.

Lemma memcpy_out dst src n m x :
  x < dst \/ dst + n <= x -> m_byte (memcpy dst src n m) x = m_byte m x.
Proof.
  intros Hx. unfold memcpy. rsimp.
  replace ((dst <=? x) && (x <? dst + n)) with false; [done|].
  symmetry. apply andb_false_iff. lia.
Qed.

Lemma memcpy_hdr dst src n m : m_hdr (memcpy dst src n m) = m_hdr m.
Proof. done. Qed.

(** ** Layout *)
Definition range_disj (a n b k : Z) : Prop := a + n <= b \/ b + k <= a.

Section Layout.
Context {T : TTr} {TOk : TTrOk T}.

(** A buffer as [MsgBuffer_new] makes it from an allocator buffer. *)
Record msgbuf_ok (mb : MsgBuffer) : Prop := {
  mo_buf : buf_ mb = b_buf (buffer_ mb) + sizeof_pkthdr;
  mo_nonnull : 0 < b_buf (buffer_ mb);
  mo_class : max_data_size_ mb + max_num_pkts_ mb * sizeof_pkthdr <= b_class_size (buffer_ mb);
  mo_aligned : (8 | b_class_size (buffer_ mb));
  mo_max : 0 <= max_data_size_ mb < 2 ^ 32;
  mo_pkts : 1 <= num_pkts_ mb <= max_num_pkts_ mb;
  mo_data : 0 <= data_size_ mb <= max_data_size_ mb;
}.

Lemma sizeof_pkthdr_mult : exists k, sizeof_pkthdr = 8 * k /\ 2 <= k.
Proof. unfold sizeof_pkthdr. destruct ttr_headroom as [->| ->]; [exists 2|exists 7]; lia. Qed.

Lemma round_up_8 x :
  0 <= x < 2 ^ 32 -> x <= round_up 8 x < x + 8 /\ exists k, round_up 8 x = 8 * k.
Proof.
  intros Hx. change 8 with (2 ^ 3).
  destruct (round_up_bounds 3 x) as [H [k Hk]]; [lia..|].
  split; [done|]. exists k. lia.
Qed.

Lemma get_pkthdr_n_range mb n :
  msgbuf_ok mb -> 0 <= n < max_num_pkts_ mb ->
  b_buf (buffer_ mb) <= get_pkthdr_n mb n /\
  get_pkthdr_n mb n + sizeof_pkthdr <= b_buf (buffer_ mb) + b_class_size (buffer_ mb).
Proof.
  intros [Hb Hnn Hc [q Hq] Hm Hp Hd] Hn. unfold get_pkthdr_n, get_pkthdr_0.
  destruct sizeof_pkthdr_mult as (k & Hk & Hk2).
  destruct (round_up_8 _ Hm) as [Hr [r Hr8]]. rewrite Hb.
  set (sz := sizeof_pkthdr) in *.
  assert (Hs : (n + 1) * sz <= max_num_pkts_ mb * sz)
    by (apply Z.mul_le_mono_nonneg_r; lia).
  assert (0 <= n * sz) by (apply Z.mul_nonneg_nonneg; lia).
  (* the class size and the headers are multiples of eight, so the rounding fits *)
  assert (8 * r + max_num_pkts_ mb * sz <= 8 * q) by (rewrite Hk in *; lia).
  rewrite Hr8 in *. clear Hk Hk2 Hr8. case_match eqn:E; [split; lia|]. apply Z.eqb_neq in E.
  assert (0 <= (n - 1) * sz) by (apply Z.mul_nonneg_nonneg; lia). split; lia.
Qed.

(** Every packet header of a dynamic message buffer lies inside the
    allocator's buffer, apart from the data and from every other header. *)
Theorem msgbuf_layout mb i j :
  msgbuf_ok mb -> 0 <= i < max_num_pkts_ mb -> 0 <= j < max_num_pkts_ mb -> i <> j ->
  (b_buf (buffer_ mb) <= get_pkthdr_n mb i /\
   get_pkthdr_n mb i + sizeof_pkthdr <= b_buf (buffer_ mb) + b_class_size (buffer_ mb)) /\
  range_disj (get_pkthdr_n mb i) sizeof_pkthdr (buf_ mb) (max_data_size_ mb) /\
  range_disj (get_pkthdr_n mb i) sizeof_pkthdr (get_pkthdr_n mb j) sizeof_pkthdr.
Proof.
  intros Hok Hi Hj Hij. split; [by apply get_pkthdr_n_range|].
  destruct sizeof_pkthdr_mult as (k & Hk & Hk2).
  destruct (round_up_8 _ (mo_max _ Hok)) as [Hr _]. pose proof (mo_max _ Hok).
  unfold range_disj, get_pkthdr_n, get_pkthdr_0.
  set (sz := sizeof_pkthdr) in *.
  assert (Hstep : forall a b, a < b -> a * sz + sz <= b * sz).
  { intros a b Hab. replace (a * sz + sz) with ((a + 1) * sz) by lia.
    apply Z.mul_le_mono_nonneg_r; lia. }
  clear Hk Hk2 k.
  split.
  - case_match eqn:E; [left; lia|right]. pose proof (Hstep (-1) (i - 1)). lia.
  - pose proof (Hstep (-1) 0). pose proof (Hstep (-1) (i - 1)).
    pose proof (Hstep (-1) (j - 1)).
    pose proof (Hstep (i - 1) (j - 1)). pose proof (Hstep (j - 1) (i - 1)).
    case_match eqn:Ei; case_match eqn:Ej; lia.
Qed.

(** [MsgBuffer_new] on a sufficient buffer passes its assertions and gives such
    a buffer, with the magic number in its first header. *)
Lemma MsgBuffer_new_wp buffer d n m (Q : MsgBuffer -> Mem -> Prop) :
  0 < b_buf buffer -> 1 <= n -> 0 <= d < 2 ^ 32 -> (8 | b_class_size buffer) ->
  d + n * sizeof_pkthdr <= b_class_size buffer ->
  (forall mb m', msgbuf_ok mb -> buffer_ mb = buffer -> max_data_size_ mb = d ->
     data_size_ mb = d -> num_pkts_ mb = n -> max_num_pkts_ mb = n ->
     m_byte m' = m_byte m -> check_magic (m_hdr m' (get_pkthdr_0 mb)) = true ->
     (forall a, a <> b_buf buffer -> m_hdr m' a = m_hdr m a) -> Q mb m') ->
  wp (MsgBuffer_new buffer d n) Q m.
Proof.
  intros Hb Hn Hd H8 Hc HQ. unfold MsgBuffer_new.
  do 2 (wp_step; wp_step; [rewrite ?negb_true_iff, ?Z.eqb_neq; lia|]).
  wp_step. wp_step; [by apply Z.leb_le|]. do 5 wp_step.
  apply HQ; [constructor| | | | | | | |]; cbn; try done; try lia.
  - unfold upd_hdr, write_hdr, get_pkthdr_0; cbn. unfold check_magic. rsimp.
    rewrite !Z.eqb_refl. done.
  - intros a Ha. unfold upd_hdr, write_hdr, get_pkthdr_0. rsimp.
    cbn [buf_]. rewrite Z.add_simpl_r.
    by rewrite (proj2 (Z.eqb_neq _ _) Ha).
Qed.
End Layout.

(** ** Fragmentation and reassembly *)
Section Reassembly.
Context {T : TTr} {TOk : TTrOk T}.

(** Packets [(index, header address)] copied one after the other. *)
Definition reassemble (rb : MsgBuffer) (ps : list (Z * Z)) (m : Mem) : Mem :=
  foldl (fun m p => copy_data_to_msgbuf rb p.1 p.2 m) m ps.

(** The data bytes that packet [i] of a [d]-byte message carries. *)
Definition frag_len (d i : Z) : Z := Z.min kMaxDataPerPkt (d - i * kMaxDataPerPkt).

(** A received packet [i] of the message [sb] of memory [ms], away from the
    receiver's buffer. *)
Definition frag_at (ms : Mem) (sb rb : MsgBuffer) (m : Mem) (p : Z * Z) : Prop :=
  0 <= p.1 < num_pkts_ sb /\
  msg_size_ (m_hdr m p.2) = data_size_ sb /\
  read_bytes m (p.2 + sizeof_pkthdr) (frag_len (data_size_ sb) p.1) = pkt_payload ms sb p.1 /\
  range_disj (p.2 + sizeof_pkthdr) kMaxDataPerPkt (buf_ rb) (data_size_ sb).

Lemma kMaxDataPerPkt_bounds : 0 < kMaxDataPerPkt < 2 ^ 16.
Proof. pose proof ttr_data_pos. pose proof ttr_data_lt. lia. Qed.

Lemma frag_offset d i :
  0 <= d < 2 ^ 32 -> 0 <= i < data_size_to_num_pkts d -> i = 0 \/ i * kMaxDataPerPkt < d.
Proof.
  intros Hd Hi. pose proof (data_size_to_num_pkts_spec d) as Hs.
  pose proof kMaxDataPerPkt_bounds. nia.
Qed.

Lemma frag_sub64 d i :
  0 <= d < 2 ^ 32 -> 0 <= i < data_size_to_num_pkts d ->
  u64 (i * kMaxDataPerPkt) = i * kMaxDataPerPkt /\
  Z.min kMaxDataPerPkt (sub64 d (i * kMaxDataPerPkt)) = frag_len d i /\
  0 <= frag_len d i.
Proof.
  intros Hd Hi. destruct (frag_offset d i Hd Hi); pose proof kMaxDataPerPkt_bounds;
  unfold frag_len; rewrite wrap_small, sub64_small by (unfold in_u; nia); lia.
Qed.

Lemma copy_data_spec rb m i a d :
  0 <= d < 2 ^ 32 -> 0 <= i < data_size_to_num_pkts d -> msg_size_ (m_hdr m a) = d ->
  copy_data_to_msgbuf rb i a m =
  memcpy (buf_ rb + i * kMaxDataPerPkt) (a + sizeof_pkthdr) (frag_len d i) m.
Proof.
  intros Hd Hi Hm. unfold copy_data_to_msgbuf. rewrite Hm.
  destruct (frag_sub64 d i Hd Hi) as (-> & -> & _). done.
Qed.

(** Packet [i] of the message has been copied. *)
Definition frag_done (ms : Mem) (sb rb : MsgBuffer) (m : Mem) (i : Z) : Prop :=
  read_bytes m (buf_ rb + i * kMaxDataPerPkt) (frag_len (data_size_ sb) i) = pkt_payload ms sb i.

Context (ms : Mem) (sb rb : MsgBuffer).
Context (Hd : 0 <= data_size_ sb < 2 ^ 32)
  (Hn : num_pkts_ sb = data_size_to_num_pkts (data_size_ sb)).

Lemma copy_one m i a :
  frag_at ms sb rb m (i, a) ->
  frag_done ms sb rb (copy_data_to_msgbuf rb i a m) i /\
  (forall j, 0 <= j < num_pkts_ sb -> frag_done ms sb rb m j ->
     frag_done ms sb rb (copy_data_to_msgbuf rb i a m) j) /\
  (forall p, frag_at ms sb rb m p -> frag_at ms sb rb (copy_data_to_msgbuf rb i a m) p).
Proof using Hd Hn TOk.
  intros (Hi & Hm & Hb & Hdisj); cbn [fst snd] in *. rewrite Hn in Hi.
  rewrite (copy_data_spec _ _ _ _ _ Hd Hi Hm).
  set (m' := memcpy _ _ _ _). pose proof kMaxDataPerPkt_bounds.
  assert (Hhere : frag_done ms sb rb m' i).
  { unfold frag_done. rewrite <- Hb. apply read_bytes_ext. intros x Hx.
    unfold m'. rewrite memcpy_in by lia. f_equal. lia. }
  assert (Hout : forall x, (forall y, 0 <= y < frag_len (data_size_ sb) i ->
            x <> buf_ rb + i * kMaxDataPerPkt + y) -> m_byte m' x = m_byte m x).
  { intros x Hx. unfold m'. apply memcpy_out.
    destruct (Z.lt_ge_cases x (buf_ rb + i * kMaxDataPerPkt)); [by left|right].
    destruct (Z.lt_ge_cases x (buf_ rb + i * kMaxDataPerPkt + frag_len (data_size_ sb) i));
      [|lia].
    exfalso. apply (Hx (x - (buf_ rb + i * kMaxDataPerPkt))); lia. }
  split; [done|]. split.
  - intros j Hj Hdone. destruct (decide (j = i)) as [->|Hne]; [done|].
    unfold frag_done. rewrite <- Hdone. apply read_bytes_ext. intros x Hx.
    apply Hout. intros y Hy. unfold frag_len in *. nia.
  - intros p (Hp1 & Hp2 & Hp3 & Hp4). split; [done|]. split; [done|].
    split; [|done]. rewrite <- Hp3. apply read_bytes_ext. intros x Hx.
    apply Hout. intros y Hy. unfold range_disj, frag_len in *.
    destruct (frag_offset _ i Hd Hi); nia.
Qed.

Lemma reassemble_done ps m :
  Forall (frag_at ms sb rb m) ps ->
  Forall (fun p => frag_done ms sb rb (reassemble rb ps m) p.1) ps /\
  (forall j, 0 <= j < num_pkts_ sb -> frag_done ms sb rb m j ->
     frag_done ms sb rb (reassemble rb ps m) j).
Proof using Hd Hn TOk.
  revert m. induction ps as [|[i a] ps IH]; intros m; [done|].
  rewrite Forall_cons. intros [Hia Hps]. cbn.
  destruct (copy_one m i a Hia) as (H1 & H2 & H3).
  destruct (IH (copy_data_to_msgbuf rb i a m)) as [IH1 IH2].
  { eapply Forall_impl; [exact Hps|]. apply H3. }
  split; [|auto]. constructor; [|done]. apply IH2; [apply Hia|done].
Qed.
End Reassembly.

Section ReassemblyThm.
Context {T : TTr} {TOk : TTrOk T}.

(** C26 Packets of one message, received in any order and with any
    duplication, but each at least once, reassemble to the sender's bytes. *)
Theorem reassemble_correct ms sb rb m ps :
  0 <= data_size_ sb < 2 ^ 32 ->
  num_pkts_ sb = data_size_to_num_pkts (data_size_ sb) ->
  Forall (frag_at ms sb rb m) ps ->
  (forall i, 0 <= i < num_pkts_ sb -> i ∈ ps.*1) ->
  read_bytes (reassemble rb ps m) (buf_ rb) (data_size_ sb) =
  read_bytes ms (buf_ sb) (data_size_ sb).
Proof.
  intros Hd Hn Hps Hall. destruct (reassemble_done ms sb rb Hd Hn ps m Hps) as [Hdone _].
  apply read_bytes_ext. intros x Hx. pose proof kMaxDataPerPkt_bounds.
  pose proof (Z.div_mod x kMaxDataPerPkt). set (i := x / kMaxDataPerPkt) in *.
  pose proof (Z.mod_pos_bound x kMaxDataPerPkt).
  assert (Hi : 0 <= i < num_pkts_ sb).
  { pose proof (data_size_to_num_pkts_spec (data_size_ sb)). rewrite Hn.
    assert (0 <= i) by (apply Z.div_pos; lia). nia. }
  apply Hall in Hi as Hin. apply list_elem_of_fmap in Hin as (p & -> & Hp).
  rewrite Forall_forall in Hdone. specialize (Hdone p Hp).
  unfold frag_done, pkt_payload, get_pkt_size in Hdone.
  rewrite Hn in Hi. destruct (frag_sub64 _ _ Hd Hi) as (E1 & E2 & _).
  rewrite E1, E2 in Hdone.
  replace (sizeof_pkthdr + _ - sizeof_pkthdr) with (frag_len (data_size_ sb) p.1) in Hdone by lia.
  rewrite <- read_bytes_ext in Hdone.
  specialize (Hdone (x mod kMaxDataPerPkt)). unfold frag_len in Hdone.
  replace (buf_ rb + x) with (buf_ rb + p.1 * kMaxDataPerPkt + x mod kMaxDataPerPkt) by lia.
  replace (buf_ sb + x) with (buf_ sb + p.1 * kMaxDataPerPkt + x mod kMaxDataPerPkt) by lia.
  apply Hdone. lia.
Qed.
End ReassemblyThm.

(** ** Concrete instances *)
Module Examples.

Definition T := Transports.FakeTransport.
#[local] Instance T_ok : TTrOk T := Transports.FakeTransport_ok.
Definition hdr0 : pkthdr_t := mkPkthdr [0; 0] 0 0 0 0 0 0 kPktHdrMagic.

(** A 2000-byte message of two packets at 65552, received out of order at
    131072 and 135168, to be copied to 262160. *)
Definition sbuf : MsgBuffer := mkMsgBuffer (mkBuffer 65536 4096 7) 2001 2000 2 2 65552.
Definition rbuf : MsgBuffer := mkMsgBuffer (mkBuffer 262144 4096 7) 2001 2000 2 2 262160.
Definition smem : Mem := mkMem (fun a => (a * 7) mod 251) (fun _ => hdr0).
Definition rmem : Mem :=
  mkMem (fun a => if a <? 135000 then m_byte smem (65552 + 1008 + (a - 131088))
                  else m_byte smem (65552 + (a - 135184)))
        (fun _ => set_msg_size 2000 hdr0).

Lemma msgbuf_layout_witness :
  (b_buf (buffer_ sbuf) <= get_pkthdr_n (T := T) sbuf 1 /\
   get_pkthdr_n (T := T) sbuf 1 + sizeof_pkthdr (T := T)
     <= b_buf (buffer_ sbuf) + b_class_size (buffer_ sbuf)) /\
  range_disj (get_pkthdr_n (T := T) sbuf 1) (sizeof_pkthdr (T := T))
    (buf_ sbuf) (max_data_size_ sbuf) /\
  range_disj (get_pkthdr_n (T := T) sbuf 1) (sizeof_pkthdr (T := T))
    (get_pkthdr_n (T := T) sbuf 0) (sizeof_pkthdr (T := T)).
Proof.
  apply (msgbuf_layout (T := T)); try lia; try (cbn; lia).
  constructor; cbn; try lia; first [reflexivity|vm_compute; discriminate|exists 512; reflexivity].
Defined.

Lemma reassemble_correct_witness :
  read_bytes (reassemble (T := T) rbuf [(1, 131072); (0, 135168)] rmem) 262160 2000 =
  read_bytes smem 65552 2000.
Proof.
  apply (reassemble_correct (T := T) smem sbuf rbuf).
  - cbn. lia.
  - by vm_compute.
  - repeat (apply Forall_cons_2; [split; [cbn; lia|split; [by vm_compute|split;
      [by vm_compute|vm_compute; left; discriminate]]]|]). apply Forall_nil_2.
  - intros i Hi. cbn in Hi |- *. assert (i = 0 \/ i = 1) as [-> | ->] by lia.
    + right. left.
    + left.
Defined.
End Examples.
