(* ===== verification/Uri.v ===== *)
(** * URIs: [util/autorun_helpers.h]

    [split], [is_valid_uri], the two extractors and the standard-library
    functions they use ([getline], [std::string::find], [std::stoi],
    [std::to_string]); endpoints print as URIs that parse back. *)
From S2P Require Import Prelude Config.
From Stdlib Require Import Ascii.

#[local] Open Scope string_scope.
#[local] Open Scope Z_scope.
#[local] Infix "+:+" := String.append (at level 60, right associativity).

(** [while (getline(ss, token, delimiter)) ret.push_back(token);] [getline]
    fails when it reaches the end without extracting a character. *)
Fixpoint split_go (d : ascii) (cur s : string) : list string :=
  match s with
  | EmptyString => if decide (cur = "") then [] else [cur]
  | String c s =>
      if decide (c = d) then cur :: split_go d "" s
      else split_go d (cur +:+ String c "") s
  end.
Definition split (input : string) (delimiter : ascii) : list string :=
  split_go delimiter "" input.

Definition is_valid_uri (uri : string) : bool :=
  match split uri ":" with
  | [h; p] => Nat.ltb 0 (String.length h) && Nat.ltb 0 (String.length p)
  | _ => false
  end.

(** [std::string::find(char)]; [None] is [npos]. *)
Fixpoint find_char (c : ascii) (s : string) : option nat :=
  match s with
  | EmptyString => None
  | String c' s => if decide (c' = c) then Some O else S <$> find_char c s
  end.

(** [std::stoi]: leading white space, an optional sign, then digits; [None] is
    an exception (no digit, or a value outside [int]). *)
Definition is_space (c : ascii) : bool :=
  let n := nat_of_ascii c in (Nat.leb 9 n && Nat.leb n 13) || Nat.eqb n 32.
Definition digit_val (c : ascii) : option Z :=
  let n := Z.of_nat (nat_of_ascii c) in
  if (48 <=? n) && (n <=? 57) then Some (n - 48) else None.
Fixpoint stoi_go (v : Z) (s : string) : Z :=
  match s with
  | EmptyString => v
  | String c s =>
      match digit_val c with Some d => stoi_go (v * 10 + d) s | None => v end
  end.
Definition stoi_digits (s : string) : option Z :=
  match s with
  | String c _ => match digit_val c with Some _ => Some (stoi_go 0 s) | None => None end
  | EmptyString => None
  end.
Definition stoi_signed (s : string) : option Z :=
  match s with
  | String c s' =>
      if decide (c = "-"%char) then Z.opp <$> stoi_digits s'
      else if decide (c = "+"%char) then stoi_digits s'
      else stoi_digits s
  | EmptyString => None
  end.
Fixpoint stoi_skip (s : string) : option Z :=
  match s with
  | String c s' => if is_space c then stoi_skip s' else stoi_signed s
  | EmptyString => None
  end.
Definition stoi (s : string) : option Z :=
  v ← stoi_skip s;
  if (- 2 ^ 31 <=? v) && (v <? 2 ^ 31) then Some v else None.

(** [std::to_string] of an unsigned value. *)
Definition digit_char (d : Z) : ascii := ascii_of_nat (Z.to_nat (48 + d)).
Fixpoint dec_go (fuel : nat) (n : Z) (acc : string) : string :=
  match fuel with
  | O => acc
  | S fuel =>
      let acc := String (digit_char (n mod 10)) acc in
      if n / 10 =? 0 then acc else dec_go fuel (n / 10) acc
  end.
Definition to_string (n : Z) : string := dec_go 20 n "".

Section Extract.
Context {St : Type}.

Definition extract_hostname_from_uri (uri : string) : M St string :=
  assert_ (is_valid_uri uri) "is_valid_uri";;
  mret match find_char ":" uri with
       | Some colon_pos => String.substring 0 colon_pos uri
       | None => uri
       end.

(** [npos + 1] is 0. The [int] is narrowed to [uint16_t]. *)
Definition extract_udp_port_from_uri (uri : string) : M St Z :=
  assert_ (is_valid_uri uri) "is_valid_uri";;
  let start := match find_char ":" uri with Some colon_pos => S colon_pos | None => O end in
  match stoi (String.substring start (String.length uri) uri) with
  | Some v => mret (u16 v)
  | None => fail (EThrow "stoi")
  end.

Definition split_uri (uri : string) : M St (string * Z) :=
  h ← extract_hostname_from_uri uri;
  p ← extract_udp_port_from_uri uri;
  mret (h, p).
End Extract.

(** A parser that returns does not change the state. *)
Lemma extract_hostname_any {St} (uri : string) (Q : string -> St -> Prop) s :
  (forall h, Q h s) -> wpe any_err (extract_hostname_from_uri uri) Q s.
Proof. intros HQ. unfold extract_hostname_from_uri. by repeat any_step. Qed.
Lemma extract_udp_port_any {St} (uri : string) (Q : Z -> St -> Prop) s :
  (forall p, Q p s) -> wpe any_err (extract_udp_port_from_uri uri) Q s.
Proof.
  intros HQ. unfold extract_udp_port_from_uri. repeat any_step. case_match; by any_step.
Qed.

(** [hostname:port] *)
Definition make_uri (hostname : string) (port : Z) : string :=
  hostname +:+ ":" +:+ to_string port.

(** ** Properties *)
Lemma append_nil s : "" +:+ s = s.
Proof. done. Qed.
Lemma append_cons c s t : String c s +:+ t = String c (s +:+ t).
Proof. done. Qed.
Lemma append_assoc s t u : (s +:+ t) +:+ u = s +:+ (t +:+ u).
Proof. induction s as [|c s IH]; [done|]. apply (f_equal (String c)), IH. Qed.
Lemma append_empty s : s +:+ "" = s.
Proof. induction s as [|c s IH]; [done|]. apply (f_equal (String c)), IH. Qed.

Lemma nat_of_digit d : 0 <= d < 10 -> nat_of_ascii (digit_char d) = Z.to_nat (48 + d).
Proof. intros Hd. apply nat_ascii_embedding. lia. Qed.

Lemma digit_val_char d : 0 <= d < 10 -> digit_val (digit_char d) = Some d.
Proof.
  intros Hd. unfold digit_val. rewrite nat_of_digit by done.
  replace (Z.of_nat (Z.to_nat (48 + d))) with (48 + d) by lia.
  replace ((48 <=? 48 + d) && (48 + d <=? 57)) with true by lia. f_equal. lia.
Qed.

Lemma digit_char_plain d :
  0 <= d < 10 -> is_space (digit_char d) = false /\ digit_char d <> "-"%char /\
  digit_char d <> "+"%char /\ digit_char d <> ":"%char.
Proof.
  intros Hd. assert (d = 0 \/ d = 1 \/ d = 2 \/ d = 3 \/ d = 4 \/ d = 5 \/ d = 6 \/ d = 7 \/
    d = 8 \/ d = 9) as H by lia.
  repeat destruct H as [->|H]; subst; repeat split; discriminate.
Qed.

Lemma stoi_go_dec f n acc :
  0 <= n < 10 ^ Z.of_nat f -> stoi_go 0 (dec_go f n acc) = stoi_go n acc.
Proof.
  revert n acc. induction f as [|f IH]; intros n acc Hn.
  - cbn in Hn. by replace n with 0 by lia.
  - rewrite Nat2Z.inj_succ, Z.pow_succ_r in Hn by lia. cbn.
    pose proof (Z.div_mod n 10). pose proof (Z.mod_pos_bound n 10).
    case_match eqn:E.
    + cbn. rewrite digit_val_char by lia. f_equal. lia.
    + rewrite IH by (split; [apply Z.div_pos; lia|apply Z.div_lt_upper_bound; lia]).
      cbn. rewrite digit_val_char by lia. f_equal. lia.
Qed.

(** Every character of a printed number is a digit; there is at least one. *)
Fixpoint all_digits (s : string) : Prop :=
  match s with
  | EmptyString => True
  | String c s => (exists d, 0 <= d < 10 /\ c = digit_char d) /\ all_digits s
  end.

Lemma dec_go_digits f n acc : 0 <= n -> all_digits acc -> all_digits (dec_go f n acc).
Proof.
  revert n acc. induction f as [|f IH]; intros n acc Hn Ha; [done|]. cbn.
  pose proof (Z.mod_pos_bound n 10).
  assert (all_digits (String (digit_char (n mod 10)) acc)) by (split; [eexists; split; [|done]; lia|done]).
  case_match; [done|]. apply IH; [apply Z.div_pos; lia|done].
Qed.

Lemma dec_go_nonempty f n acc : acc <> "" -> dec_go f n acc <> "".
Proof. revert n acc. induction f; intros n acc; cbn; [done|]. case_match; auto. Qed.

Lemma to_string_nonempty n : to_string n <> "".
Proof. unfold to_string. cbn. case_match; [done|]. by apply (dec_go_nonempty 19). Qed.

Lemma stoi_to_string n : 0 <= n < 2 ^ 31 -> stoi (to_string n) = Some n.
Proof.
  intros Hn. assert (Hd : all_digits (to_string n)) by (apply dec_go_digits; [lia|done]).
  pose proof (to_string_nonempty n) as Hne.
  assert (Hgo : stoi_go 0 (to_string n) = n).
  { unfold to_string. rewrite stoi_go_dec; [done|]. change (10 ^ Z.of_nat 20) with (10 ^ 20). lia. }
  unfold stoi. destruct (to_string n) as [|c s] eqn:E; [done|].
  destruct Hd as [(d & Hd & ->) _]. destruct (digit_char_plain d Hd) as (H1 & H2 & H3 & _).
  unfold stoi_skip. rewrite H1. unfold stoi_signed. rewrite !decide_False by done.
  unfold stoi_digits. rewrite digit_val_char, Hgo by done. cbn.
  replace ((_ <=? n) && (n <? _)) with true; [done|]. symmetry. lia.
Qed.

(** Hostnames without a colon. *)
Fixpoint no_colon (s : string) : Prop :=
  match s with EmptyString => True | String c s => c <> ":"%char /\ no_colon s end.

Lemma all_digits_no_colon s : all_digits s -> no_colon s.
Proof.
  induction s as [|c s IH]; [done|]. intros [(d & Hd & ->) Hs]. split; [|auto].
  by apply digit_char_plain.
Qed.

Lemma split_go_no_colon cur s :
  no_colon s -> cur +:+ s <> "" -> split_go ":" cur s = [cur +:+ s].
Proof.
  revert cur. induction s as [|c s IH]; intros cur Hs Hne; rewrite ?append_cons, ?append_nil; cbn [split_go].
  - rewrite append_empty in *. by rewrite decide_False.
  - destruct Hs as [Hc Hs]. rewrite decide_False by done.
    assert (E : (cur +:+ String c "") +:+ s = cur +:+ String c s) by (by rewrite append_assoc).
    rewrite IH; [by rewrite E|done|by rewrite E].
Qed.

Lemma split_go_colon cur h t :
  no_colon h -> split_go ":" cur (h +:+ ":" +:+ t) = (cur +:+ h) :: split_go ":" "" t.
Proof.
  revert cur. induction h as [|c h IH]; intros cur Hh.
  - change ("" +:+ ":" +:+ t) with (String ":" t). cbn [split_go].
    by rewrite decide_True, append_empty.
  - change (String c h +:+ ":" +:+ t) with (String c (h +:+ ":" +:+ t)).
    cbn [split_go]. destruct Hh as [Hc Hh].
    rewrite decide_False, (IH _ Hh) by done. by rewrite append_assoc.
Qed.

Lemma find_char_colon h t : no_colon h -> find_char ":" (h +:+ ":" +:+ t) = Some (String.length h).
Proof.
  induction h as [|c h IH]; intros Hh.
  - change ("" +:+ ":" +:+ t) with (String ":" t). cbn [find_char]. by rewrite decide_True.
  - change (String c h +:+ ":" +:+ t) with (String c (h +:+ ":" +:+ t)).
    cbn [find_char String.length]. destruct Hh as [Hc Hh].
    by rewrite decide_False, (IH Hh) by done.
Qed.

Lemma substring_prefix h t : String.substring 0 (String.length h) (h +:+ t) = h.
Proof. induction h as [|c h IH]; [by destruct t|]. apply (f_equal (String c)), IH. Qed.
Lemma substring_all n s : (String.length s <= n)%nat -> String.substring 0 n s = s.
Proof. revert n. induction s as [|c s IH]; intros [|n] H; cbn in *; try done; [lia|]. by rewrite IH by lia. Qed.
Lemma substring_after h t n :
  (String.length t <= n)%nat -> String.substring (S (String.length h)) n (h +:+ ":" +:+ t) = t.
Proof. intros Hn. induction h as [|c h IH]; cbn; [by apply substring_all|done]. Qed.
Lemma length_append s t : String.length (s +:+ t) = (String.length s + String.length t)%nat.
Proof. induction s as [|c s IH]; [done|]. rewrite append_cons. cbn. by rewrite IH. Qed.
Lemma length_pos s : s <> "" -> Nat.ltb 0 (String.length s) = true.
Proof. destruct s; done. Qed.

Lemma make_uri_valid h p : no_colon h -> h <> "" -> 0 <= p -> is_valid_uri (make_uri h p) = true.
Proof.
  intros Hh Hne Hp. unfold is_valid_uri, split, make_uri. rewrite split_go_colon by done.
  rewrite split_go_no_colon.
  - by rewrite append_nil, !length_pos by (done || apply to_string_nonempty).
  - apply all_digits_no_colon, dec_go_digits; done.
  - apply to_string_nonempty.
Qed.

(** A printed endpoint URI is valid and parses back to its hostname and
    port. *)
Theorem uri_roundtrip {St} (s : St) h p :
  no_colon h -> h <> "" -> 0 <= p < 2 ^ 16 ->
  split_uri (make_uri h p) s = Ok (h, p) s.
Proof.
  intros Hh Hne Hp. unfold split_uri, extract_hostname_from_uri, extract_udp_port_from_uri.
  rewrite make_uri_valid by (done || lia). unfold make_uri.
  rewrite find_char_colon, substring_prefix, substring_after
    by (done || (rewrite !length_append; lia)).
  rewrite stoi_to_string by lia. rewrite wrap_small by (unfold in_u; lia). done.
Qed.

Lemma uri_roundtrip_witness :
  make_uri "akalia-cmudesk" 31850 = "akalia-cmudesk:31850" /\
  split_uri (make_uri "akalia-cmudesk" 31850) tt = Ok ("akalia-cmudesk", 31850) tt.
Proof.
  split; [vm_compute; reflexivity|].
  apply uri_roundtrip; [|discriminate|lia]. repeat split; discriminate.
Defined.
