(* ===== verification/SmTypes.v ===== *)
(** * Session management types: [sm_types.h], [rpc_types.h], the transport
    names of [transport.h] *)
From S2P Require Import Prelude Config Uri.
#[local] Open Scope string_scope.
#[local] Open Scope Z_scope.
#[local] Infix "+:+" := String.append (at level 60, right associativity).

Inductive TransportType := kInfiniBand | kRaw | kDPDK | kFake | kInvalid.
#[export] Instance TransportType_eq_dec : EqDecision TransportType.
Proof. solve_decision. Defined.
Definition get_name (t : TransportType) : string :=
  match t with
  | kInfiniBand => "[InfiniBand]" | kRaw => "[Raw Ethernet]" | kDPDK => "[DPDK]"
  | kFake => "[Fake, for compilation only]" | kInvalid => "[Invalid]"
  end.

Inductive SessionState :=
  | kConnectInProgress | kConnected | kDisconnectInProgress | kResetInProgress.
#[export] Instance SessionState_eq_dec : EqDecision SessionState.
Proof. solve_decision. Defined.
Definition session_state_str (s : SessionState) : string :=
  match s with
  | kConnectInProgress => "[Connect in progress]"
  | kConnected => "[Connected]"
  | kDisconnectInProgress => "[Disconnect in progress]"
  | kResetInProgress => "[Reset in progress]"
  end.

Inductive SmPktType :=
  | kUnblock | kPingReq | kPingResp | kConnectReq | kConnectResp
  | kDisconnectReq | kDisconnectResp.
#[export] Instance SmPktType_eq_dec : EqDecision SmPktType.
Proof. solve_decision. Defined.
Definition sm_pkt_type_str (t : SmPktType) : string :=
  match t with
  | kUnblock => "[Unblock SM thread request]"
  | kPingReq => "[Heartbeat ping request]"
  | kPingResp => "[Heartbeat ping response]"
  | kConnectReq => "[Connect request]"
  | kConnectResp => "[Connect response]"
  | kDisconnectReq => "[Disconnect request]"
  | kDisconnectResp => "[Disconnect response]"
  end.
Definition sm_pkt_type_is_req (t : SmPktType) : bool :=
  match t with
  | kPingReq | kConnectReq | kDisconnectReq => true
  | kPingResp | kUnblock | kConnectResp | kDisconnectResp => false
  end.

Inductive SmErrType :=
  | kNoError | kSrvDisconnected | kRingExhausted | kOutOfMemory
  | kRoutingResolutionFailure | kInvalidRemoteRpcId | kInvalidTransport.
#[export] Instance SmErrType_eq_dec : EqDecision SmErrType.
Proof. solve_decision. Defined.
Definition sm_err_type_str (e : SmErrType) : string :=
  match e with
  | kNoError => "[No error]"
  | kSrvDisconnected => "[Server disconnected]"
  | kRingExhausted => "[Ring buffers exhausted]"
  | kOutOfMemory => "[Out of memory]"
  | kRoutingResolutionFailure => "[Routing resolution failure]"
  | kInvalidRemoteRpcId => "[Invalid remote Rpc ID]"
  | kInvalidTransport => "[Invalid transport]"
  end.

Inductive SmEventType :=
  | Event_kConnected | Event_kConnectFailed | Event_kDisconnected | Event_kDisconnectFailed.
#[export] Instance SmEventType_eq_dec : EqDecision SmEventType.
Proof. solve_decision. Defined.
Definition sm_event_type_str (e : SmEventType) : string :=
  match e with
  | Event_kConnected => "[Connected]"
  | Event_kConnectFailed => "[Connect failed]"
  | Event_kDisconnected => "[Disconnected]"
  | Event_kDisconnectFailed => "[kDisconnect failed]"
  end.

(** [Transport::routing_info_t]: 48 bytes. *)
Definition routing_info_t : Type := list Z.
Definition kMaxRoutingInfoSize : nat := 48.

(** [hostname_] is the C string in the array. *)
Record SessionEndpoint := mkSessionEndpoint {
  transport_type_ : TransportType;
  hostname_ : string;
  sm_udp_port_ : Z;
  rpc_id_ : Z;
  session_num_ : Z;
  routing_info_ : routing_info_t;
}.
#[export] Instance eta_SessionEndpoint : Eta SessionEndpoint := fun e =>
  mkSessionEndpoint (transport_type_ e) (hostname_ e) (sm_udp_port_ e) (rpc_id_ e)
    (session_num_ e) (routing_info_ e).
#[export] Instance SessionEndpoint_eq_dec : EqDecision SessionEndpoint.
Proof. solve_decision. Defined.

(** The constructor leaves the transport type as it is found in memory. *)
Definition SessionEndpoint_new (t : TransportType) : SessionEndpoint :=
  mkSessionEndpoint t "" 0 kInvalidRpcId kInvalidSessionNum
    (replicate kMaxRoutingInfoSize 0).

Definition endpoint_uri (e : SessionEndpoint) : string :=
  hostname_ e +:+ ":" +:+ to_string (sm_udp_port_ e).
Definition endpoint_name (e : SessionEndpoint) : string :=
  let session_num_str :=
    if session_num_ e =? kInvalidSessionNum then "XX" else to_string (session_num_ e) in
  "[H: " +:+ trim_hostname (hostname_ e) +:+ ":" +:+ to_string (sm_udp_port_ e)
  +:+ ", R: " +:+ to_string (rpc_id_ e) +:+ ", S: " +:+ session_num_str +:+ "]".
Definition endpoint_rpc_name (e : SessionEndpoint) : string :=
  "[H: " +:+ trim_hostname (hostname_ e) +:+ ":" +:+ to_string (sm_udp_port_ e)
  +:+ ", R: " +:+ to_string (rpc_id_ e) +:+ "]".

(** [operator==]: routing info is left out. *)
Definition endpoint_eqb (a b : SessionEndpoint) : bool :=
  bool_decide (transport_type_ a = transport_type_ b)
  && bool_decide (hostname_ a = hostname_ b)
  && (sm_udp_port_ a =? sm_udp_port_ b) && (rpc_id_ a =? rpc_id_ b)
  && (session_num_ a =? session_num_ b).

Record SmPkt := mkSmPkt {
  sm_pkt_type_ : SmPktType;
  sm_err_type_ : SmErrType;
  sm_uniq_token_ : Z;
  sm_client_ : SessionEndpoint;
  sm_server_ : SessionEndpoint;
}.
#[export] Instance eta_SmPkt : Eta SmPkt := fun p =>
  mkSmPkt (sm_pkt_type_ p) (sm_err_type_ p) (sm_uniq_token_ p) (sm_client_ p) (sm_server_ p).
#[export] Instance SmPkt_eq_dec : EqDecision SmPkt.
Proof. solve_decision. Defined.

Definition sm_is_req (p : SmPkt) : bool := sm_pkt_type_is_req (sm_pkt_type_ p).
Definition sm_is_resp (p : SmPkt) : bool := negb (sm_is_req p).
Definition make_ping_resp (ping_req : SmPkt) : SmPkt :=
  ping_req <| sm_pkt_type_ := kPingResp |>.

Section Resp.
Context {St : Type}.

Definition sm_pkt_type_req_to_resp (t : SmPktType) : M St SmPktType :=
  assert_ (sm_pkt_type_is_req t) "sm_pkt_type_is_req";;
  match t with
  | kPingReq => mret kPingResp
  | kConnectReq => mret kConnectResp
  | kDisconnectReq => mret kDisconnectResp
  | _ => fail (EThrow "Invalid session management packet type.")
  end.

Definition sm_construct_resp (req : SmPkt) (err_type : SmErrType) : M St SmPkt :=
  t ← sm_pkt_type_req_to_resp (sm_pkt_type_ req);
  mret (req <| sm_pkt_type_ := t |> <| sm_err_type_ := err_type |>).

(** [strcpy] into [hostname_[kMaxHostnameLen]]: the terminator must fit. *)
Definition strcpy_hostname (s : string) : M St string :=
  if Z.of_nat (String.length s) <? kMaxHostnameLen then mret s
  else fail (ENull "strcpy past hostname_").
End Resp.

(** [SmWorkItem] *)
Inductive SmWorkItem :=
  | WiPkt (rpc_id : Z) (pkt : SmPkt)
  | WiReset (rem_hostname : string).
Definition wi_is_reset (w : SmWorkItem) : bool :=
  match w with WiReset _ => true | WiPkt _ _ => false end.

(** ** rpc_types.h *)
Inductive ReqFuncType := kForeground | kBackground.
#[export] Instance ReqFuncType_eq_dec : EqDecision ReqFuncType.
Proof. solve_decision. Defined.

(** A handler pointer is a number; [None] is null. *)
Record ReqFunc := mkReqFunc { req_func_ : option Z; req_func_type_ : ReqFuncType }.
#[export] Instance ReqFunc_eq_dec : EqDecision ReqFunc.
Proof. solve_decision. Defined.
Definition is_background (f : ReqFunc) : bool := bool_decide (req_func_type_ f = kBackground).
Definition is_registered (f : ReqFunc) : bool := bool_decide (req_func_ f <> None).
(** The default constructor sets only the pointer. *)
Definition ReqFunc_null : ReqFunc := mkReqFunc None kForeground.
Definition ReqFunc_new {St} (f : option Z) (t : ReqFuncType) : M St ReqFunc :=
  rt_assert (bool_decide (f <> None)) "Invalid Ops with null handler function";;
  mret (mkReqFunc f t).

(** ** Properties *)
Lemma endpoint_eqb_spec a b :
  endpoint_eqb a b = true <->
  a <| routing_info_ := [] |> = b <| routing_info_ := [] |>.
Proof.
  destruct a, b. unfold endpoint_eqb, update; cbn.
  rewrite !andb_true_iff, !bool_decide_eq_true, !Z.eqb_eq. split.
  - intros ((((-> & ->) & ->) & ->) & ->). done.
  - intros [= -> -> -> -> ->]. done.
Qed.

Lemma endpoint_eqb_refl a : endpoint_eqb a a = true.
Proof. by apply endpoint_eqb_spec. Qed.

(** A response is built for a request only; it keeps the request's token and
    endpoints. *)
Lemma sm_construct_resp_wp {St} E req e (Q : SmPkt -> St -> Prop) s :
  sm_is_req req = true ->
  (forall r, sm_is_resp r = true -> sm_err_type_ r = e ->
     sm_pkt_type_ r <> kUnblock ->
     sm_uniq_token_ r = sm_uniq_token_ req -> sm_client_ r = sm_client_ req ->
     sm_server_ r = sm_server_ req -> Q r s) ->
  wpe E (sm_construct_resp req e) Q s.
Proof.
  unfold sm_construct_resp, sm_pkt_type_req_to_resp, sm_is_req. intros Hr HQ.
  do 2 wp_step. wp_step; [done|].
  destruct (sm_pkt_type_ req); try done; do 2 wp_step; by apply HQ.
Qed.
