(* ===== verification/Timer.v ===== *)
(** * Doubles and timers: [util/timer.h]

    A [double] is the standard library's executable IEEE-754 specification
    ([spec_float] at precision 53, maximal exponent 1024); each operation
    rounds separately. A [size_t] converts to the nearest double; a double
    converts to [size_t] by truncation, and the conversion is undefined
    ([None]) when the truncated value does not fit. *)
From S2P Require Import Prelude Config.
From Stdlib Require Export SpecFloat.

Abbreviation double := spec_float.
Abbreviation fadd := (SFadd 53 1024).
Abbreviation fsub := (SFsub 53 1024).
Abbreviation fmul := (SFmul 53 1024).
Abbreviation fdiv := (SFdiv 53 1024).
Abbreviation flt := SFltb.
Abbreviation fle := SFleb.
Abbreviation feq := SFeqb.

Definition of_size (z : Z) : double := binary_normalize 53 1024 z 0 false.
(** A decimal constant: the double nearest to [num / den]. *)
Definition fconst (num den : Z) : double := fdiv (of_size num) (of_size den).

Definition double_trunc (f : double) : option Z :=
  match f with
  | S754_zero _ => Some 0
  | S754_finite s m e =>
      let v := if 0 <=? e then Zpos m * 2 ^ e else Zpos m / 2 ^ (- e) in
      Some (if s then - v else v)
  | _ => None
  end.
Definition to_size (f : double) : option Z :=
  v ← double_trunc f; if (0 <=? v) && (v <? 2 ^ 64) then Some v else None.

Lemma to_size_range f v : to_size f = Some v -> 0 <= v < 2 ^ 64.
Proof.
  unfold to_size. destruct (double_trunc f) as [x|]; cbn; [|done].
  destruct (_ && _) eqn:E; [|done]. intros [= ->]. lia.
Qed.

Definition is_nan (f : double) : bool := match f with S754_nan => true | _ => false end.

(** [std::max] and [std::min] on doubles. *)
Definition fmax (a b : double) : double := if flt a b then b else a.
Definition fmin (a b : double) : double := if flt b a then b else a.

#[export] Instance double_eq_dec : EqDecision double.
Proof. solve_decision. Defined.

(** ** timer.h *)
Definition to_sec (cycles : Z) (freq_ghz : double) : double :=
  fdiv (of_size cycles) (fmul freq_ghz (of_size 1000000000)).
Definition to_msec (cycles : Z) (freq_ghz : double) : double :=
  fdiv (of_size cycles) (fmul freq_ghz (of_size 1000000)).
Definition to_usec (cycles : Z) (freq_ghz : double) : double :=
  fdiv (of_size cycles) (fmul freq_ghz (of_size 1000)).
Definition to_nsec (cycles : Z) (freq_ghz : double) : double :=
  fdiv (of_size cycles) freq_ghz.
Definition ms_to_cycles (ms freq_ghz : double) : option Z :=
  to_size (fmul (fmul (fmul ms (of_size 1000)) (of_size 1000)) freq_ghz).
Definition us_to_cycles (us freq_ghz : double) : option Z :=
  to_size (fmul (fmul us (of_size 1000)) freq_ghz).
Definition ns_to_cycles (ns freq_ghz : double) : option Z :=
  to_size (fmul ns freq_ghz).

(** [TscTimer] *)
Record TscTimer := mkTscTimer { tt_start_tsc : Z; tt_tsc_sum : Z; tt_num_calls : Z }.
#[export] Instance eta_TscTimer : Eta TscTimer := fun t =>
  mkTscTimer (tt_start_tsc t) (tt_tsc_sum t) (tt_num_calls t).
Definition TscTimer_start (rdtsc : Z) (t : TscTimer) : TscTimer :=
  t <| tt_start_tsc := rdtsc |>.
Definition TscTimer_stop (rdtsc : Z) (t : TscTimer) : TscTimer :=
  t <| tt_tsc_sum ::= fun s => add64 s (sub64 rdtsc (tt_start_tsc t)) |>
    <| tt_num_calls ::= fun n => add64 n 1 |>.
Definition TscTimer_reset : TscTimer := mkTscTimer 0 0 0.
(** Division by zero is a fault. *)
Definition TscTimer_avg_cycles (t : TscTimer) : option Z :=
  if tt_num_calls t =? 0 then None else Some (tt_tsc_sum t / tt_num_calls t).

(** ** Comparison lemmas *)
Lemma SFcompare_refl f : is_nan f = false -> SFcompare f f = Some Eq.
Proof.
  destruct f as [s|s| |s m e]; try done; intros _; cbn; [by destruct s|].
  rewrite Z.compare_refl. change (Pos.compare_cont Eq m m) with (Pos.compare m m).
  rewrite Pos.compare_refl. by destruct s.
Qed.

Lemma SFcompare_nan a b :
  SFcompare a b = None -> is_nan a = true \/ is_nan b = true.
Proof. destruct a, b; cbn; try done; auto. Qed.

Lemma SFcompare_swap a b : SFcompare b a = CompOpp <$> SFcompare a b.
Proof.
  destruct a as [s|s| |s m e], b as [s'|s'| |s' m' e']; cbn; try done;
    try (by destruct s, s'); try (by destruct s); try (by destruct s').
  destruct s, s'; try done;
    rewrite (Z.compare_antisym e e'); destruct (e ?= e'); cbn; try done;
    change (Pos.compare_cont Eq m' m) with (Pos.compare m' m);
    change (Pos.compare_cont Eq m m') with (Pos.compare m m');
    rewrite (Pos.compare_antisym m m'); done.
Qed.

Lemma fle_refl f : is_nan f = false -> fle f f = true.
Proof. intros H. unfold SFleb. by rewrite SFcompare_refl. Qed.

(** On numbers, not-less is greater-or-equal. *)
Lemma flt_false_fle a b :
  is_nan a = false -> is_nan b = false -> flt a b = false -> fle b a = true.
Proof.
  intros Ha Hb. unfold SFltb, SFleb. rewrite (SFcompare_swap a b).
  destruct (SFcompare a b) as [[]|] eqn:E; try done.
  apply SFcompare_nan in E. intuition congruence.
Qed.

Lemma flt_fle a b : flt a b = true -> fle a b = true.
Proof. unfold SFltb, SFleb. by destruct (SFcompare a b) as [[]|]. Qed.

Lemma flt_not_nan a b : flt a b = true -> is_nan a = false /\ is_nan b = false.
Proof. unfold SFltb. by destruct a, b. Qed.

(** The clamp of a number between two bounds. *)
Lemma fclamp_bounds lo hi r :
  is_nan lo = false -> is_nan hi = false -> is_nan r = false -> fle lo hi = true ->
  let r' := fmax (fmin r hi) lo in
  is_nan r' = false /\ fle lo r' = true /\ fle r' hi = true.
Proof.
  intros Hlo Hhi Hr Hle r'. unfold r', fmax, fmin.
  destruct (flt hi r) eqn:E1.
  - destruct (flt hi lo) eqn:E2.
    + by rewrite fle_refl.
    + rewrite fle_refl, Hhi by done. split; [done|].
      split; [by apply flt_false_fle|done].
  - destruct (flt r lo) eqn:E2.
    + by rewrite fle_refl.
    + split; [done|]. by split; apply flt_false_fle.
Qed.
