(* ===== verification/Timely.v ===== *)
(** * Timely congestion control: [cc/timely.h], [cc/timely_sweep_params.h]

    The three debugging features ([kVerbose], [kRecord], [kLatencyStats]) are
    off in the source, so their code is not part of the state. *)
From S2P Require Import Prelude Config Timer.

Definition kPatched : bool := false.
Definition kEwmaAlpha : double := fconst 46 100.
Definition kBeta : double := fconst 26 100.

Definition kMinRate : double := fmul (fmul (of_size 15) (of_size 1000)) (of_size 1000).
Definition kAddRate : double := fmul (fmul (of_size 5) (of_size 1000)) (of_size 1000).
Definition kMinRTT : double := of_size 2.
Definition kTLow : double := of_size 50.
Definition kTHigh : double := of_size 1000.
Definition kHaiThresh : Z := 5.
Definition f0 : double := S754_zero false.
Definition f1 : double := of_size 1.

Record Timely := mkTimely {
  rate_ : double;
  neg_gradient_count_ : Z;
  prev_rtt_ : double;
  avg_rtt_diff_ : double;
  last_update_tsc_ : Z;
  min_rtt_tsc_ : double;
  t_low_tsc_ : double;
  tl_freq_ghz_ : double;
  tl_link_bandwidth_ : double;
}.
#[export] Instance eta_Timely : Eta Timely := fun t =>
  mkTimely (rate_ t) (neg_gradient_count_ t) (prev_rtt_ t) (avg_rtt_diff_ t)
    (last_update_tsc_ t) (min_rtt_tsc_ t) (t_low_tsc_ t) (tl_freq_ghz_ t)
    (tl_link_bandwidth_ t).

(** [Timely()] and [Timely(freq_ghz, link_bandwidth)]. *)
Definition Timely_default : Timely :=
  mkTimely f0 0 kMinRTT f0 0 f0 f0 f0 f0.
Definition Timely_new (rdtsc : Z) (freq_ghz link_bandwidth : double) : Timely :=
  mkTimely link_bandwidth 0 kMinRTT f0 rdtsc
    (fmul (fmul kMinRTT freq_ghz) (of_size 1000))
    (fmul (fmul kTLow freq_ghz) (of_size 1000))
    freq_ghz link_bandwidth.

Definition w_func {S} (g : double) : M S double :=
  assert_ kPatched "kPatched";;
  if fle g (SFopp (fconst 25 100)) then mret f0
  else if fle (fconst 25 100) g then mret f1
  else mret (fadd (fmul (of_size 2) g) (fconst 5 10)).

(** The new rate before clamping. *)
Definition new_rate_of {S} (t : Timely) (sample_rtt delta_factor : double) : M S double :=
  let ai_factor := fmul kAddRate delta_factor in
  if flt sample_rtt kTLow then mret (fadd (rate_ t) ai_factor)
  else
    let md_factor := fmul delta_factor kBeta in
    let norm_grad := fdiv (avg_rtt_diff_ t) kMinRTT in
    if fle sample_rtt kTHigh then
      if kPatched then
        wght ← w_func norm_grad;
        let err := fdiv (fsub sample_rtt kTLow) kTLow in
        mret (fadd (fmul (rate_ t) (fsub f1 (fmul (fmul md_factor wght) err)))
                   (fmul ai_factor (fsub f1 wght)))
      else if fle norm_grad f0 then
        let n := if kHaiThresh <=? neg_gradient_count_ t then 5 else 1 in
        mret (fadd (rate_ t) (fmul (of_size n) ai_factor))
      else mret (fmul (rate_ t) (fsub f1 (fmul md_factor norm_grad)))
    else
      mret (fmul (rate_ t) (fsub f1 (fmul md_factor (fsub f1 (fdiv kTHigh sample_rtt))))).

(** The three assignments to [rate_]. *)
Definition clamp_rate (t : Timely) (new_rate : double) : double :=
  fmax (fmin (fmax new_rate (fmul (rate_ t) (fconst 5 10))) (tl_link_bandwidth_ t)) kMinRate.

Definition update_rate (rdtsc sample_rtt_tsc : Z) : M Timely unit :=
  t ← get;
  assert_ ((1000000000 <=? rdtsc) && (last_update_tsc_ t <=? rdtsc)) "update_rate: sanity";;
  if kCcOptTimelyBypass && (feq (rate_ t) (tl_link_bandwidth_ t)
       && fle (of_size sample_rtt_tsc) (t_low_tsc_ t)) then mret tt
  else if flt (of_size sample_rtt_tsc) (min_rtt_tsc_ t) then mret tt
  else
    let sample_rtt := to_usec sample_rtt_tsc (tl_freq_ghz_ t) in
    let rtt_diff := fsub sample_rtt (prev_rtt_ t) in
    let neg := if flt rtt_diff f0 then add64 (neg_gradient_count_ t) 1 else 0 in
    let avg := fadd (fmul (fsub f1 kEwmaAlpha) (avg_rtt_diff_ t)) (fmul kEwmaAlpha rtt_diff) in
    let delta_factor :=
      fmin (fdiv (of_size (sub64 rdtsc (last_update_tsc_ t))) (min_rtt_tsc_ t)) f1 in
    let t1 := t <| neg_gradient_count_ := neg |> <| avg_rtt_diff_ := avg |> in
    modify (fun _ => t1);;
    new_rate ← new_rate_of t1 sample_rtt delta_factor;
    modify (fun t => t <| rate_ := clamp_rate t new_rate |> <| prev_rtt_ := sample_rtt |>
                       <| last_update_tsc_ := rdtsc |>).

Definition rate_to_gbps (r : double) : double :=
  fmul (fdiv r (of_size (1000 * 1000 * 1000))) (of_size 8).
Definition gbps_to_rate (r : double) : double :=
  fmul (fdiv r (of_size 8)) (of_size (1000 * 1000 * 1000)).
Definition get_rate_gbps (t : Timely) : double := rate_to_gbps (rate_ t).
Definition get_avg_rtt_diff (t : Timely) : double := avg_rtt_diff_ t.

(** ** Properties *)

(** The rate is a number between the minimum rate and the link bandwidth. *)
Definition rate_in_bounds (t : Timely) : Prop :=
  is_nan (rate_ t) = false /\ fle kMinRate (rate_ t) = true /\
  fle (rate_ t) (tl_link_bandwidth_ t) = true.

Definition rate_ok (t : Timely) : Prop := is_nan (rate_ t) = true \/ rate_in_bounds t.

(** The assertion, and the samples an update leaves out: those at full rate with
    a short round trip, and round trips shorter than the minimum. *)
Definition sane (rdtsc : Z) (t : Timely) : bool := (1000000000 <=? rdtsc) && (last_update_tsc_ t <=? rdtsc).
Definition left_out (srtt : Z) (t : Timely) : bool :=
  kCcOptTimelyBypass && (feq (rate_ t) (tl_link_bandwidth_ t) && fle (of_size srtt) (t_low_tsc_ t))
  || flt (of_size srtt) (min_rtt_tsc_ t).
Definition update_post (rdtsc srtt : Z) (t t' : Timely) : Prop :=
  if left_out srtt t then t' = t
  else
    rate_ok t' /\ last_update_tsc_ t' = rdtsc /\ prev_rtt_ t' = to_usec srtt (tl_freq_ghz_ t) /\
    neg_gradient_count_ t' = (if flt (fsub (prev_rtt_ t') (prev_rtt_ t)) f0 then u64 (neg_gradient_count_ t + 1) else 0) /\
    tl_link_bandwidth_ t' = tl_link_bandwidth_ t /\ min_rtt_tsc_ t' = min_rtt_tsc_ t /\
    t_low_tsc_ t' = t_low_tsc_ t /\ tl_freq_ghz_ t' = tl_freq_ghz_ t.

(** The states of a session's controller: from its construction, by updates. *)
Inductive timely_reach (link_bandwidth : double) : Timely -> Prop :=
  | reach_new rdtsc freq_ghz : timely_reach link_bandwidth (Timely_new rdtsc freq_ghz link_bandwidth)
  | reach_update rdtsc srtt t t' :
      timely_reach link_bandwidth t -> update_rate rdtsc srtt t = Ok tt t' -> timely_reach link_bandwidth t'.

Lemma clamp_rate_bounds t r :
  is_nan (tl_link_bandwidth_ t) = false -> fle kMinRate (tl_link_bandwidth_ t) = true ->
  is_nan (clamp_rate t r) = true \/
  (is_nan (clamp_rate t r) = false /\ fle kMinRate (clamp_rate t r) = true /\
   fle (clamp_rate t r) (tl_link_bandwidth_ t) = true).
Proof.
  intros Hl Hm. unfold clamp_rate. set (x := fmax r _).
  destruct (is_nan x) eqn:Ex.
  - left. destruct x; try done. unfold fmin, fmax, SFltb.
    destruct (tl_link_bandwidth_ t); done.
  - right. by apply fclamp_bounds.
Qed.

Lemma new_rate_of_ok {S} t srtt df (Q : double -> S -> Prop) s :
  (forall r, Q r s) -> wp (new_rate_of t srtt df) Q s.
Proof.
  intros HQ. unfold new_rate_of. case_match; [by wp_step|].
  case_match; [|by wp_step]. cbn. case_match; by wp_step.
Qed.

Lemma update_rate_ok rdtsc srtt t :
  sane rdtsc t = true ->
  is_nan (tl_link_bandwidth_ t) = false -> fle kMinRate (tl_link_bandwidth_ t) = true ->
  wp (update_rate rdtsc srtt) (fun _ t' => update_post rdtsc srtt t t') t.
Proof.
  intros Hs Hl Hm. unfold update_rate, update_post, left_out. do 2 wp_step. wp_step.
  wp_step; [exact Hs|]. wp_step; [wp_step; by rewrite H|].
  rewrite H. wp_step; [wp_step; by rewrite H0|]. rewrite H0. cbn [orb]. do 2 wp_step. wp_step.
  apply new_rate_of_ok. intros r. wp_step. split_and!; try done. by apply clamp_rate_bounds.
Qed.
Lemma update_rate_insane rdtsc srtt t :
  sane rdtsc t = false -> update_rate rdtsc srtt t = Fail (EAssert "update_rate: sanity").
Proof. unfold sane, update_rate. intros Hs. unfold base.mbind, M_bind, get, assert_. by rewrite Hs. Qed.
Lemma reach_ok lb t :
  is_nan lb = false -> fle kMinRate lb = true -> timely_reach lb t -> tl_link_bandwidth_ t = lb /\ rate_ok t.
Proof.
  intros Hn Hm. induction 1 as [tsc f|tsc srtt t t' _ [IHl IHr] Hu].
  - split; [done|]. right. split; [done|]. split; [done|by apply fle_refl].
  - destruct (sane tsc t) eqn:Hs; [|by rewrite update_rate_insane in Hu].
    pose proof (update_rate_ok tsc srtt t Hs) as Hw. rewrite IHl in Hw.
    apply (wpe_run _ _ _ _ _ _ (Hw Hn Hm)) in Hu. unfold update_post in Hu.
    case_match; [by subst|]. destruct Hu as (? & _ & _ & _ & -> & _). by split.
Qed.

(** C25 For a link bandwidth that is a number of at least [kMinRate], and whatever
    updates a controller has seen since its construction: its rate is between
    [kMinRate] and the link bandwidth, unless the arithmetic has produced a NaN.
    The next update fails exactly when its timestamp is below 10^9 or before the
    last one that was taken, which is what the assertion says. Else it leaves the
    state as it is for a sample that is left out (a short round trip at full rate,
    or one below the minimum), and otherwise records the round trip, the count of
    negative gradients and the timestamp, with the new rate between the bounds. *)
Theorem update_rate_bounds lb t rdtsc srtt :
  is_nan lb = false -> fle kMinRate lb = true -> timely_reach lb t ->
  tl_link_bandwidth_ t = lb /\ rate_ok t /\
  if sane rdtsc t then exists t', update_rate rdtsc srtt t = Ok tt t' /\ update_post rdtsc srtt t t'
  else update_rate rdtsc srtt t = Fail (EAssert "update_rate: sanity").
Proof.
  intros Hn Hm Hr. destruct (reach_ok lb t Hn Hm Hr) as [Hl Hok]. split_and!; [done..|].
  destruct (sane rdtsc t) eqn:Hs; [|by apply update_rate_insane].
  pose proof (update_rate_ok rdtsc srtt t Hs) as Hw. rewrite Hl in Hw. specialize (Hw Hn Hm).
  apply wp_run in Hw as ([] & t' & ? & ?). by exists t'.
Qed.

(** 3.125 GB/s link at 2.6 GHz: after one 1 ms round trip the rate is lower. *)
Definition ex_lb : double := of_size 3125000000.
Definition ex_timely : Timely := Timely_new 1000000000 (fconst 26 10) ex_lb.
Definition ex_timely2 : Timely :=
  match update_rate 2000000000 3000000 ex_timely with Ok _ t => t | Fail _ => ex_timely end.

Lemma update_rate_bounds_witness :
  flt (rate_ ex_timely2) (rate_ ex_timely) = true /\
  (exists t', update_rate 2100000000 2800000 ex_timely2 = Ok tt t' /\ update_post 2100000000 2800000 ex_timely2 t') /\
  update_rate 1500000000 2800000 ex_timely2 = Fail (EAssert "update_rate: sanity").
Proof.
  assert (Hr : timely_reach ex_lb ex_timely2).
  { apply (reach_update ex_lb 2000000000 3000000 ex_timely); [apply reach_new|by vm_compute]. }
  split; [by vm_compute|]. split.
  - exact (proj2 (proj2 (update_rate_bounds ex_lb ex_timely2 2100000000 2800000 ltac:(by vm_compute) ltac:(by vm_compute) Hr))).
  - exact (proj2 (proj2 (update_rate_bounds ex_lb ex_timely2 1500000000 2800000 ltac:(by vm_compute) ltac:(by vm_compute) Hr))).
Defined.
