(* ===== verification/MemPool.v ===== *)
(** * Object pools: [util/mempool.h]

    A pool hands out pointers into hugepage extents. A pointer is the pair of
    the extent's index and the object's index in it; its address is
    [b_buf extent + sizeof(T) * index]. The vector [pool_] is used at its back,
    which is the head of the list here. *)
From S2P Require Import Prelude Config HugeAlloc.

Definition pptr : Type := nat * nat.

Record MemPool := mkMemPool {
  mp_num_to_alloc : Z;
  mp_pool : list pptr;
  mp_extents : list (Buffer * nat);   (* backing buffer, number of objects *)
}.
#[export] Instance eta_MemPool : Eta MemPool := fun p =>
  mkMemPool (mp_num_to_alloc p) (mp_pool p) (mp_extents p).

Section MemPool.
Context `{Os : ShmOs} (fuel : nat) (sizeofT : Z).

Definition MemPool_new : MemPool := mkMemPool (MB 2 / sizeofT) [] [].

Definition pool_address (p : MemPool) (q : pptr) : option Z :=
  (fun e => b_buf (fst e) + sizeofT * Z.of_nat q.2) <$> mp_extents p !! q.1.

Definition extend_pool : M (HugeAlloc * MemPool) unit :=
  n ← gets (fun s => mp_num_to_alloc s.2);
  let alloc_sz := u64 (sizeofT * n) in
  b ← zoom fst (fun a s => (a, s.2)) (alloc_raw fuel alloc_sz DoRegister_kFalse);
  rt_assert (negb (b_buf b =? 0)) "Hugepage allocation failed";;
  modify (fun s =>
    let p := s.2 in
    let e := length (mp_extents p) in
    (s.1, p <| mp_pool ::= fun l => rev ((fun i => (e, i)) <$> seq 0 (Z.to_nat n)) ++ l |>
            <| mp_extents ::= fun l => l ++ [(b, Z.to_nat n)] |>
            <| mp_num_to_alloc ::= fun n => u64 (n * 2) |>)).

Definition pool_alloc : M (HugeAlloc * MemPool) pptr :=
  l ← gets (fun s => mp_pool s.2);
  when (bool_decide (l = [])) extend_pool;;
  l ← gets (fun s => mp_pool s.2);
  match l with
  | [] => fail (ENull "back() of an empty pool")
  | t :: l => modify (fun s => (s.1, s.2 <| mp_pool := l |>));; mret t
  end.

Definition pool_free (t : pptr) : M (HugeAlloc * MemPool) unit :=
  modify (fun s => (s.1, s.2 <| mp_pool ::= cons t |>)).
End MemPool.

(** ** Properties *)
Section MemPoolOk.
Context `{Os : ShmOs} (fuel : nat) {OsOk : ShmOsOk Os fuel} (sizeofT : Z).
Context (Hsize : 1 <= sizeofT <= MB 2).

Definition ptr_valid (p : MemPool) (q : pptr) : Prop :=
  exists e, mp_extents p !! q.1 = Some e /\ (q.2 < e.2)%nat.

(** [used] are the objects handed out and not returned. *)
Record pool_inv (used : list pptr) (p : MemPool) : Prop := {
  pi_nodup : NoDup (used ++ mp_pool p);
  pi_valid : Forall (ptr_valid p) (used ++ mp_pool p);
  pi_num : 1 <= mp_num_to_alloc p /\ sizeofT * mp_num_to_alloc p <= 2 ^ 48;
}.

Lemma pool_inv_new : pool_inv [] (MemPool_new sizeofT).
Proof using Hsize.
  constructor; cbn; [apply NoDup_nil_2|done|].
  change (MB 2) with 2097152 in *. split.
  - apply Z.div_le_lower_bound; lia.
  - pose proof (Z.mul_div_le 2097152 sizeofT). lia.
Qed.

Lemma pool_inv_perm used used' p :
  used ≡ₚ used' -> pool_inv used p -> pool_inv used' p.
Proof. intros Hp [H1 H2 H3]. constructor; [by rewrite <- Hp..|done]. Qed.
#[export] Instance pool_inv_proper : Proper ((≡ₚ) ==> (=) ==> iff) pool_inv.
Proof. intros u u' Hu p ? <-. by split; apply pool_inv_perm. Qed.

(** The objects of a new extent. *)
Lemma extend_fresh used p b n :
  pool_inv used p -> 1 <= n -> sizeofT * n <= 2 ^ 47 ->
  mp_num_to_alloc p = n ->
  pool_inv used
    (p <| mp_pool ::= fun l => rev ((fun i => (length (mp_extents p), i)) <$> seq 0 (Z.to_nat n)) ++ l |>
       <| mp_extents ::= fun l => l ++ [(b, Z.to_nat n)] |>
       <| mp_num_to_alloc ::= fun n => u64 (n * 2) |>).
Proof using Hsize.
  intros [Hnd Hv Hn] Hn1 Hn2 Hnum. set (e := length (mp_extents p)).
  set (new := (fun i => (e, i)) <$> seq 0 (Z.to_nat n)).
  assert (Hnew : forall q, q ∈ rev new -> q.1 = e /\ (q.2 < Z.to_nat n)%nat).
  { intros q. rewrite <- Permutation_rev. unfold new.
    intros (i & -> & Hi%elem_of_seq)%list_elem_of_fmap. cbn. lia. }
  constructor; rsimp.
  - rewrite (Permutation_app_swap_app used). apply NoDup_app. split_and!; [| |done].
    + rewrite <- Permutation_rev. apply NoDup_fmap; [by intros ?? [=]|apply NoDup_seq].
    + intros q Hq Hq'. apply Hnew in Hq as [Hq _].
      rewrite Forall_forall in Hv. destruct (Hv q Hq') as (x & Hx & _).
      apply lookup_lt_Some in Hx. unfold e in Hq. lia.
  - rewrite (Permutation_app_swap_app used). apply Forall_app. split.
    + apply Forall_forall. intros q Hq. apply Hnew in Hq as [Hq1 Hq2].
      exists (b, Z.to_nat n). rsimp. split; [|done]. rewrite Hq1.
      unfold e. by rewrite lookup_app_r, Nat.sub_diag by lia.
    + eapply Forall_impl; [exact Hv|]. intros q (x & Hx & Hlt). exists x. rsimp.
      split; [|done]. by apply lookup_app_l_Some.
  - rewrite Hnum, wrap_small by (unfold in_u; nia). lia.
Qed.

Lemma extend_pool_wp live used a p (Q : unit -> HugeAlloc * MemPool -> Prop) :
  alloc_inv live a -> pool_inv used p ->
  (forall a' p', alloc_inv live a' -> pool_inv used p' -> mp_pool p' <> [] -> Q tt (a', p')) ->
  wpt (extend_pool fuel sizeofT) Q (a, p).
Proof using Hsize OsOk.
  intros Ha Hp HQ. pose proof (pi_num _ _ Hp) as [Hn1 Hn2]. unfold extend_pool.
  do 2 wp_step. cbn [fst snd].
  rewrite wrap_small by (unfold in_u; nia). wp_step. apply wp_zoom.
  eapply alloc_raw_inv; [exact OsOk|exact Ha|cbn [fst]; nia|].
  intros b a' Ha' Hb. wp_step. wp_step; [done|]. wp_step. cbn [fst snd].
  rename select (negb _ = true) into Hnn. apply negb_true_iff, Z.eqb_neq in Hnn.
  destruct Hb as [|[_ Hb]]; [done|].
  apply HQ; [done| |].
  - by apply extend_fresh.
  - rsimp. intros E. apply app_nil in E as [E _]. apply (f_equal length) in E.
    rewrite length_rev, length_fmap, length_seq in E. cbn in E. lia.
Qed.

(** [alloc] hands out an object that is valid and not in use. *)
Lemma pool_alloc_wp live used a p (Q : pptr -> HugeAlloc * MemPool -> Prop) :
  alloc_inv live a -> pool_inv used p ->
  (forall q a' p', alloc_inv live a' -> pool_inv (q :: used) p' -> Q q (a', p')) ->
  wpt (pool_alloc fuel sizeofT) Q (a, p).
Proof using Hsize OsOk.
  intros Ha Hp HQ. unfold pool_alloc.
  assert (Hpop : forall a p, alloc_inv live a -> pool_inv used p -> mp_pool p <> [] ->
    wpt (l ← gets (fun s : HugeAlloc * MemPool => mp_pool s.2);
      match l with
      | [] => fail (ENull "back() of an empty pool")
      | t :: l => modify (fun s => (s.1, s.2 <| mp_pool := l |>));; mret t
      end) Q (a, p)).
  { clear a p Ha Hp. intros a p Ha [Hnd Hv Hnum] Hne. do 2 wp_step. cbn [fst snd].
    destruct (mp_pool p) as [|t l] eqn:E; [done|]. do 3 wp_step.
    apply HQ; [done|]. constructor; rsimp; [| |done].
    - by rewrite <- app_comm_cons, Permutation_middle.
    - rewrite <- app_comm_cons, Permutation_middle. exact Hv. }
  do 2 wp_step. cbn [fst snd]. wp_step. wp_step.
  - eapply extend_pool_wp; [done|done|]. intros a' p' Ha' Hp' Hne. by apply Hpop.
  - apply Hpop; [done|done|]. by apply bool_decide_eq_false in H.
Qed.

(** No more objects are in use than the extents hold. *)
Definition all_ptrs (extents : list (Buffer * nat)) : list pptr :=
  concat (imap (fun e x => pair e <$> seq 0 x.2) extents).

Lemma length_all_ptrs extents : length (all_ptrs extents) = sum_list_with snd extents.
Proof.
  unfold all_ptrs. rewrite length_concat. generalize (@pair nat nat).
  induction extents as [|x l IH]; intros f; [done|]. rewrite imap_cons. cbn.
  rewrite length_fmap, length_seq. f_equal. apply (IH (fun e => f (S e))).
Qed.

Lemma ptr_valid_all p q : ptr_valid p q -> q ∈ all_ptrs (mp_extents p).
Proof.
  intros (x & Hx & Hlt). unfold all_ptrs. apply list_elem_of_In, in_concat.
  exists (pair q.1 <$> seq 0 x.2). rewrite <- !list_elem_of_In. split.
  - apply elem_of_lookup_imap. by exists q.1, x.
  - apply list_elem_of_fmap. exists q.2. split; [by destruct q|]. apply elem_of_seq. lia.
Qed.

Lemma pool_used_bound used p :
  pool_inv used p -> (length used <= sum_list_with snd (mp_extents p))%nat.
Proof.
  intros [Hnd Hv _]. rewrite <- length_all_ptrs. apply submseteq_length, NoDup_submseteq.
  - by apply NoDup_app in Hnd as [? _].
  - intros q Hq. apply ptr_valid_all. rewrite Forall_forall in Hv. apply Hv, elem_of_app. by left.
Qed.

Lemma pool_free_inv q used p :
  pool_inv (q :: used) p -> pool_inv used (p <| mp_pool ::= cons q |>).
Proof.
  intros [Hnd Hv Hnum]. constructor; rsimp; [| |done].
  - by rewrite <- Permutation_middle.
  - rewrite <- Permutation_middle. exact Hv.
Qed.

Lemma pool_alloc_spec live used a p :
  alloc_inv live a -> pool_inv used p ->
  wpt (pool_alloc fuel sizeofT)
    (fun q s => (q ∉ used) /\ ptr_valid s.2 q /\ alloc_inv live s.1 /\ pool_inv (q :: used) s.2)
    (a, p).
Proof using Hsize OsOk.
  intros Ha Hp. apply (pool_alloc_wp live used); [done..|].
  intros q a' p' Ha' Hp'. cbn. pose proof Hp' as [Hnd Hv _]. split_and!; try done.
  - apply NoDup_cons in Hnd as [Hnd _]. intros Hq. apply Hnd, elem_of_app. by left.
  - by apply Forall_cons in Hv as [? _].
Qed.
End MemPoolOk.

Section MemPoolThm.
Context `{Os : ShmOs} (fuel : nat) {OsOk : ShmOsOk Os fuel} (sizeofT : Z).

(** A pool never hands out an object that is in use, extends itself with
    fresh objects when it is empty, and fails only when hugepages run out. *)
Theorem pool_alloc_fresh live used a p :
  1 <= sizeofT <= MB 2 -> alloc_inv live a -> pool_inv sizeofT used p ->
  match pool_alloc fuel sizeofT (a, p) with
  | Ok q (a', p') => (q ∉ used) /\ ptr_valid p' q /\ alloc_inv live a' /\ pool_inv sizeofT (q :: used) p'
  | Fail e => is_throw e
  end.
Proof.
  intros Hs Ha Hp. pose proof (wp_match _ _ _ (pool_alloc_spec fuel sizeofT Hs live used a p Ha Hp)) as H.
  destruct (pool_alloc _ _ _) as [q [a' p']|e]; exact H.
Qed.
End MemPoolThm.

#[local] Existing Instance BumpOs.
Lemma pool_alloc_fresh_witness :
  match pool_alloc 1 4096 (HugeAlloc_new 0, MemPool_new 4096) with
  | Ok q (a', p') => (q ∉ []) /\ ptr_valid p' q /\ alloc_inv [] a' /\ pool_inv 4096 [q] p'
  | Fail e => is_throw e
  end.
Proof.
  assert (Hs : 1 <= 4096 <= MB 2) by (vm_compute; split; discriminate).
  assert (Ha : alloc_inv [] (HugeAlloc_new 0)) by (apply alloc_inv_new; vm_compute; discriminate).
  exact (pool_alloc_fresh 1 4096 [] [] _ _ Hs Ha (pool_inv_new 4096 Hs)).
Defined.
