(* ===== verification/TimingWheel.v ===== *)
(** * The timing wheel: [cc/timing_wheel.h]

    Wheel slots hold chains of five-entry buckets: the first bucket of a chain
    is in the wheel array, the others come from the bucket pool and are linked
    by pointers. The proofs relate this to an abstract wheel, the list of slot
    queues in time order. [kWheelRecord] is off in the source. *)
From S2P Require Import Prelude Config HugeAlloc MemPool Timer Timely.

(** A pointer to a session slot: session number and slot index. *)
Definition sref : Type := Z * Z.

(** [erpc::ceil] *)
Definition ceil (num : double) : option Z :=
  n ← to_size num;
  Some (if feq (of_size n) num then n else n + (if flt f0 num then 1 else 0)).

Definition kWheelSlotWidthUs : double := fconst 5 10.
Definition kWheelHorizonUs `{TTr} : double :=
  fdiv (of_size (1000000 * (kSessionCredits * kMTU))) kMinRate.
Definition kWheelNumWslots `{TTr} : Z :=
  1 + default 0 (ceil (fdiv kWheelHorizonUs kWheelSlotWidthUs)).

Record wheel_ent_t := mkWheelEnt { we_sslot : sref; we_pkt_num : Z }.
#[export] Instance wheel_ent_eq_dec : EqDecision wheel_ent_t.
Proof. solve_decision. Defined.
(** The packet number is stored in 16 bits. *)
Definition wheel_ent_new (sslot : sref) (pkt_num : Z) : wheel_ent_t :=
  mkWheelEnt sslot (u16 pkt_num).

Definition kWheelBucketCap : Z := 5.
Definition kNumBktEntriesBits : Z := 3.
Definition kTscBits : Z := 64 - kNumBktEntriesBits.

Inductive bptr := BW (ws_i : nat) | BP (q : pptr).
#[export] Instance bptr_eq_dec : EqDecision bptr.
Proof. solve_decision. Defined.

Record wheel_bkt_t := mkBkt {
  num_entries_ : Z;
  tx_tsc_ : Z;
  last_ : option bptr;
  next_ : option bptr;
  entry_ : list wheel_ent_t;
}.
#[export] Instance eta_bkt : Eta wheel_bkt_t := fun b =>
  mkBkt (num_entries_ b) (tx_tsc_ b) (last_ b) (next_ b) (entry_ b).

(** A bucket of fresh memory. *)
Definition zero_bkt : wheel_bkt_t :=
  mkBkt 0 0 None None (replicate 5 (mkWheelEnt (0, 0) 0)).

Record TimingWheel := mkWheel {
  tw_wslot_width_tsc : Z;
  tw_horizon_tsc : Z;
  tw_wheel : list wheel_bkt_t;
  tw_pool_mem : pptr -> wheel_bkt_t;   (* the memory of pool buckets *)
  tw_cur_wslot : nat;
  tw_bkt_pool : MemPool;
  tw_ready_queue : list wheel_ent_t;
}.
#[export] Instance eta_wheel : Eta TimingWheel := fun w =>
  mkWheel (tw_wslot_width_tsc w) (tw_horizon_tsc w) (tw_wheel w) (tw_pool_mem w)
    (tw_cur_wslot w) (tw_bkt_pool w) (tw_ready_queue w).

Definition WS : Type := HugeAlloc * TimingWheel.

Definition sizeof_bkt : Z := 64.

Section Wheel.
Context {T : TTr} `{Os : ShmOs} (fuel : nat).

Definition bkt_at (w : TimingWheel) (p : bptr) : option wheel_bkt_t :=
  match p with BW i => tw_wheel w !! i | BP q => Some (tw_pool_mem w q) end.
Definition upd_bkt (p : bptr) (f : wheel_bkt_t -> wheel_bkt_t) (w : TimingWheel) : TimingWheel :=
  match p with
  | BW i => w <| tw_wheel ::= alter f i |>
  | BP q => w <| tw_pool_mem ::= fun g x => if decide (x = q) then f (g q) else g x |>
  end.

Definition get_bkt (p : bptr) : M WS wheel_bkt_t :=
  w ← gets snd; deref (bkt_at w p) "bucket".
Definition wmod (f : TimingWheel -> TimingWheel) : M WS unit :=
  modify (fun s => (s.1, f s.2)).

Definition reset_bkt (b : wheel_bkt_t) : wheel_bkt_t :=
  b <| next_ := None |> <| num_entries_ := 0 |>.

Definition with_pool {A} (m : M (HugeAlloc * MemPool) A) : M WS A :=
  zoom (fun s => (s.1, tw_bkt_pool s.2))
       (fun t s => (t.1, s.2 <| tw_bkt_pool := t.2 |>)) m.

Definition alloc_bkt : M WS pptr :=
  q ← with_pool (pool_alloc fuel sizeof_bkt);
  wmod (upd_bkt (BP q) reset_bkt);;
  mret q.

(** [TimingWheel(args)]; [base_tsc] is the constructor's [rdtsc()]. *)
Definition TimingWheel_new (freq_ghz : double) (base_tsc : Z) : M HugeAlloc TimingWheel :=
  width ← deref (us_to_cycles kWheelSlotWidthUs freq_ghz) "double to size_t";
  horizon ← deref (us_to_cycles kWheelHorizonUs freq_ghz) "double to size_t";
  wheel_buffer ← alloc_raw fuel (u64 (kWheelNumWslots * sizeof_bkt)) DoRegister_kFalse;
  rt_assert (negb (b_buf wheel_buffer =? 0)) "Failed to allocate wheel.";;
  mret (mkWheel width horizon
    ((fun ws_i => reset_bkt zero_bkt
        <| tx_tsc_ := wrap kTscBits (base_tsc + (Z.of_nat ws_i + 1) * width) |>
        <| last_ := Some (BW ws_i) |>) <$> seq 0 (Z.to_nat kWheelNumWslots))
    (fun _ => zero_bkt) 0 (MemPool_new sizeof_bkt) []).

(** The chain walk of [reap_wslot]; [n] bounds the chain's length. *)
Fixpoint reap_chain (n : nat) (ws_i : nat) (bkt : option bptr) : M WS unit :=
  match bkt with
  | None => mret tt
  | Some p =>
      match n with
      | O => fail EFuel
      | S n =>
          b ← get_bkt p;
          wmod (fun w => w <| tw_ready_queue ::= fun r => r ++ take (Z.to_nat (num_entries_ b)) (entry_ b) |>);;
          let tmp_next := next_ b in
          wmod (upd_bkt p reset_bkt);;
          match p with
          | BP q => with_pool (pool_free q)
          | BW _ => mret tt
          end;;
          reap_chain n ws_i tmp_next
      end
  end.

(** Buckets in existence: a chain has no more. *)
Definition num_bkts (w : TimingWheel) : nat :=
  S (sum_list_with snd (mp_extents (tw_bkt_pool w))).

Definition reap_wslot (ws_i : nat) : M WS unit :=
  w ← gets snd;
  reap_chain (num_bkts w) ws_i (Some (BW ws_i));;
  wmod (upd_bkt (BW ws_i) (fun b => b <| last_ := Some (BW ws_i) |>)).

(** The loop of [reap]; [n] bounds its iterations. *)
Fixpoint reap_loop (n : nat) (reap_tsc : Z) : M WS unit :=
  w ← gets snd;
  b ← get_bkt (BW (tw_cur_wslot w));
  if tx_tsc_ b <=? reap_tsc then
    match n with
    | O => fail EFuel
    | S n =>
        reap_wslot (tw_cur_wslot w);;
        wmod (upd_bkt (BW (tw_cur_wslot w)) (fun b => b <| tx_tsc_ ::= fun t =>
          wrap kTscBits (t + u64 (tw_wslot_width_tsc w * kWheelNumWslots)) |>));;
        wmod (fun w => w <| tw_cur_wslot ::= S |>);;
        wmod (fun w => if bool_decide (Z.of_nat (tw_cur_wslot w) = kWheelNumWslots)
                       then w <| tw_cur_wslot := 0%nat |> else w);;
        reap_loop n reap_tsc
    end
  else mret tt.

(** Iterations needed: one per slot width up to [reap_tsc]. *)
Definition reap_fuel (w : TimingWheel) (reap_tsc : Z) : nat :=
  match tw_wheel w !! tw_cur_wslot w with
  | Some b => S (Z.to_nat ((reap_tsc - tx_tsc_ b) / tw_wslot_width_tsc w + 1))
  | None => O
  end.

Definition reap (reap_tsc : Z) : M WS unit :=
  w ← gets snd; reap_loop (reap_fuel w reap_tsc) reap_tsc.

(** [catchup]: each iteration reads the clock twice; the readings are given. *)
Fixpoint catchup (readings : list (Z * Z)) : M WS unit :=
  match readings with
  | [] => fail EFuel
  | (t1, t2) :: readings =>
      w ← gets snd;
      b ← get_bkt (BW (tw_cur_wslot w));
      if tx_tsc_ b <? t1 then reap t2;; catchup readings else mret tt
  end.

Definition insert_into_wslot (ws_i : nat) (ent : wheel_ent_t) : M WS unit :=
  b ← get_bkt (BW ws_i);
  last_p ← deref (last_ b) "last_";
  last_bkt ← get_bkt last_p;
  assert_ (bool_decide (next_ last_bkt = None)) "insert_into_wslot: next_";;
  assert_ (num_entries_ last_bkt <? kWheelBucketCap) "insert_into_wslot: full";;
  wmod (upd_bkt last_p (fun b => b <| entry_ ::= zinsert (num_entries_ last_bkt) ent |>));;
  wmod (upd_bkt last_p (fun b => b <| num_entries_ ::= fun n => wrap kNumBktEntriesBits (n + 1) |>));;
  last_bkt ← get_bkt last_p;
  when (num_entries_ last_bkt =? kWheelBucketCap) (
    new_bkt ← alloc_bkt;
    wmod (upd_bkt last_p (fun b => b <| next_ := Some (BP new_bkt) |>));;
    wmod (upd_bkt (BW ws_i) (fun b => b <| last_ := Some (BP new_bkt) |>))).

Definition wheel_insert (ent : wheel_ent_t) (ref_tsc desired_tx_tsc : Z) : M WS unit :=
  w ← gets snd;
  assert_ (ref_tsc <=? desired_tx_tsc) "insert: desired_tx_tsc";;
  assert_ (sub64 desired_tx_tsc ref_tsc <=? tw_horizon_tsc w) "insert: horizon";;
  reap ref_tsc;;
  w ← gets snd;
  b ← get_bkt (BW (tw_cur_wslot w));
  assert_ (ref_tsc <? tx_tsc_ b) "insert: not advanced";;
  dst_wslot ← (if desired_tx_tsc <=? tx_tsc_ b then mret (tw_cur_wslot w)
    else
      let wslot_delta := 1 + sub64 desired_tx_tsc (tx_tsc_ b) / tw_wslot_width_tsc w in
      assert_ (wslot_delta <? kWheelNumWslots) "insert: wslot_delta";;
      let dst := Z.of_nat (tw_cur_wslot w) + wslot_delta in
      mret (Z.to_nat (if kWheelNumWslots <=? dst then dst - kWheelNumWslots else dst)));
  insert_into_wslot dst_wslot ent.
End Wheel.
