(* ===== verification/WheelChain.v ===== *)
(** * Bucket chains of the timing wheel

    The representation of a slot's queue as a chain of buckets, and the two
    operations on a chain: appending an entry ([insert_into_wslot]) and
    emptying it into the ready queue ([reap_wslot]). *)
From S2P Require Import Prelude Config HugeAlloc MemPool Timer Timely TimingWheel.

(** ** Memory updates *)
Section Mem.
Implicit Types w : TimingWheel.

Lemma bkt_at_upd_eq w p f b : bkt_at w p = Some b -> bkt_at (upd_bkt p f w) p = Some (f b).
Proof.
  unfold bkt_at, upd_bkt. destruct p as [i|q]; intros H; rsimp.
  - by rewrite list_lookup_alter_eq, H.
  - rewrite decide_True by done. congruence.
Qed.

Lemma bkt_at_upd_ne w p p' f : p <> p' -> bkt_at (upd_bkt p f w) p' = bkt_at w p'.
Proof.
  unfold bkt_at, upd_bkt. intros Hne. destruct p as [i|q], p' as [j|q']; rsimp; try done.
  - apply list_lookup_alter_ne. congruence.
  - rewrite decide_False by congruence. done.
Qed.

Lemma upd_bkt_fields w p f :
  tw_wslot_width_tsc (upd_bkt p f w) = tw_wslot_width_tsc w /\
  tw_horizon_tsc (upd_bkt p f w) = tw_horizon_tsc w /\
  tw_cur_wslot (upd_bkt p f w) = tw_cur_wslot w /\
  tw_bkt_pool (upd_bkt p f w) = tw_bkt_pool w /\
  tw_ready_queue (upd_bkt p f w) = tw_ready_queue w /\
  length (tw_wheel (upd_bkt p f w)) = length (tw_wheel w).
Proof. destruct p; split_and!; try done. unfold upd_bkt. rsimp. by rewrite length_alter. Qed.
End Mem.

(** ** Chains *)
Section Chain.
Implicit Types (g : bptr -> option wheel_bkt_t) (p : bptr) (c : list pptr).

(** The full buckets before the last one, holding [full]. *)
Fixpoint linked g p c (full : list wheel_ent_t) : Prop :=
  match c with
  | [] => full = []
  | x :: c' => exists b full', g p = Some b /\ next_ b = Some (BP x) /\
      num_entries_ b = 5 /\ zlength (entry_ b) = 5 /\
      full = entry_ b ++ full' /\ linked g (BP x) c' full'
  end.

Definition lastp p c : bptr := default p (BP <$> last c).

(** The last bucket has room. *)
Definition open_bkt (b : wheel_bkt_t) : Prop :=
  next_ b = None /\ 0 <= num_entries_ b < 5 /\ zlength (entry_ b) = 5.
Definition bkt_ents (b : wheel_bkt_t) : list wheel_ent_t :=
  take (Z.to_nat (num_entries_ b)) (entry_ b).

Definition chain g p c (q : list wheel_ent_t) : Prop :=
  exists full b, linked g p c full /\ g (lastp p c) = Some b /\ open_bkt b /\
    q = full ++ bkt_ents b.

Lemma lastp_cons p x c : lastp p (x :: c) = lastp (BP x) c.
Proof. unfold lastp. rewrite last_cons. by destruct (last c). Qed.

Lemma lastp_snoc p c x : lastp p (c ++ [x]) = BP x.
Proof. unfold lastp. by rewrite last_snoc. Qed.

Lemma lastp_elem p c : lastp p c ∈ p :: (BP <$> c).
Proof.
  revert p. induction c as [|x c IH]; intros p; [by left|].
  rewrite lastp_cons. right. apply IH.
Qed.

(** What a chain says of a bucket. *)
Definition core (b : wheel_bkt_t) := (num_entries_ b, next_ b, entry_ b).

Lemma core_some g g' y b :
  core <$> g' y = core <$> g y -> g y = Some b ->
  exists b', g' y = Some b' /\ num_entries_ b' = num_entries_ b /\ next_ b' = next_ b /\
    entry_ b' = entry_ b.
Proof.
  intros E Hb. rewrite Hb in E. destruct (g' y) as [b'|]; [|done].
  exists b'. unfold core in E. cbn in E. injection E as -> -> ->. done.
Qed.

Lemma linked_ext g g' p c full :
  NoDup (p :: (BP <$> c)) ->
  (forall y, y ∈ p :: (BP <$> c) -> y <> lastp p c -> core <$> g' y = core <$> g y) ->
  linked g p c full -> linked g' p c full.
Proof.
  revert p full. induction c as [|x c IH]; intros p full Hnd Hext; [done|].
  cbn [linked]. intros (b & full' & Hb & Hn & Hnum & Hlen & -> & Hl).
  rewrite fmap_cons in Hnd, Hext. apply NoDup_cons in Hnd as [Hp Hnd].
  destruct (core_some g g' p b) as (b' & Hb' & E1 & E2 & E3); [|done|].
  { apply Hext; [by left|]. rewrite lastp_cons. intros E. apply Hp.
    rewrite E. apply lastp_elem. }
  exists b', full'. rewrite E1, E2, E3. split_and!; try done.
  apply IH; [done| |done]. intros y Hy Hne. apply Hext; [by right|].
  by rewrite lastp_cons.
Qed.

Lemma chain_ext g g' p c q :
  (forall y, y ∈ p :: (BP <$> c) -> core <$> g' y = core <$> g y) -> NoDup (p :: (BP <$> c)) ->
  chain g p c q -> chain g' p c q.
Proof.
  intros Hext Hnd (full & b & Hl & Hb & (Ho1 & Ho2 & Ho3) & ->).
  destruct (core_some g g' (lastp p c) b) as (b' & Hb' & E1 & E2 & E3); [|done|].
  { apply Hext, lastp_elem. }
  exists full, b'. unfold open_bkt, bkt_ents. rewrite E1, E2, E3. split_and!; try done; try lia.
  eapply linked_ext; [done| |done]. auto.
Qed.

Lemma linked_snoc g p c full b x :
  linked g p c full -> g (lastp p c) = Some b -> next_ b = Some (BP x) ->
  num_entries_ b = 5 -> zlength (entry_ b) = 5 ->
  linked g p (c ++ [x]) (full ++ entry_ b).
Proof.
  revert p full. induction c as [|y c IH]; intros p full.
  - cbn. intros -> Hb Hn Hnum Hlen. exists b, []. by rewrite app_nil_r.
  - rewrite lastp_cons. cbn. intros (b' & full' & H1 & H2 & H3 & H4 & -> & Hl) Hb Hn Hnum Hlen.
    exists b', (full' ++ entry_ b). rewrite app_assoc. split_and!; try done. by apply IH.
Qed.

(** The entry appended to an open bucket. *)
Definition add_ent (e : wheel_ent_t) (b : wheel_bkt_t) : wheel_bkt_t :=
  (b <| entry_ ::= zinsert (num_entries_ b) e |>)
    <| num_entries_ ::= fun n => wrap kNumBktEntriesBits (n + 1) |>.

Lemma add_ent_spec e b :
  open_bkt b ->
  num_entries_ (add_ent e b) = num_entries_ b + 1 /\
  zlength (entry_ (add_ent e b)) = 5 /\ next_ (add_ent e b) = None /\
  bkt_ents (add_ent e b) = bkt_ents b ++ [e].
Proof.
  intros (Hn & Hnum & Hlen). unfold add_ent, bkt_ents. rsimp.
  assert (Hw : wrap kNumBktEntriesBits (num_entries_ b + 1) = num_entries_ b + 1)
    by (apply wrap_small; unfold in_u, kNumBktEntriesBits; lia).
  rewrite Hw, zlength_zinsert. split_and!; try done.
  replace (Z.to_nat (num_entries_ b + 1)) with (S (Z.to_nat (num_entries_ b))) by lia.
  unfold zinsert. replace (0 <=? num_entries_ b) with true by lia.
  unfold zlength in Hlen. rewrite (take_S_r _ _ e).
  - by rewrite take_insert_ge by lia.
  - apply list_lookup_insert_eq. lia.
Qed.

Lemma full_bkt_ents b : num_entries_ b = 5 -> zlength (entry_ b) = 5 -> bkt_ents b = entry_ b.
Proof. unfold bkt_ents, zlength. intros -> ?. apply take_ge. lia. Qed.
End Chain.

(** ** A wheel slot *)
Section Slot.
Implicit Types w : TimingWheel.

Record slot_rep w (i : nat) (tx : Z) (c : list pptr) (q : list wheel_ent_t) : Prop := {
  sr_bkt : exists b, bkt_at w (BW i) = Some b /\ tx_tsc_ b = tx /\
             last_ b = Some (lastp (BW i) c);
  sr_chain : chain (bkt_at w) (BW i) c q;
  sr_nodup : NoDup c;
}.

Lemma ptrs_nodup i c : NoDup c -> NoDup (BW i :: (BP <$> c)).
Proof.
  intros H. apply NoDup_cons. split.
  - by intros (x & [=] & _)%list_elem_of_fmap.
  - apply NoDup_fmap; [by intros ?? [=]|done].
Qed.

Lemma slot_rep_frame w w' i tx c q :
  (forall p, p ∈ BW i :: (BP <$> c) -> bkt_at w' p = bkt_at w p) ->
  slot_rep w i tx c q -> slot_rep w' i tx c q.
Proof.
  intros H [(b & Hb & ? & ?) Hc Hnd]. constructor; [|eapply chain_ext; [|by apply ptrs_nodup|done]|done].
  - exists b. rewrite H by left. done.
  - intros y Hy. by rewrite H.
Qed.

(** Everything but the buckets, the pool and the ready queue. *)
Definition same_meta w w' : Prop :=
  tw_wslot_width_tsc w' = tw_wslot_width_tsc w /\
  tw_horizon_tsc w' = tw_horizon_tsc w /\ tw_cur_wslot w' = tw_cur_wslot w /\
  length (tw_wheel w') = length (tw_wheel w).

Lemma same_meta_refl w : same_meta w w.
Proof. done. Qed.
Lemma same_meta_trans w1 w2 w3 : same_meta w1 w2 -> same_meta w2 w3 -> same_meta w1 w3.
Proof. unfold same_meta. intuition congruence. Qed.
Lemma same_meta_upd w w' p f : same_meta w w' -> same_meta w (upd_bkt p f w').
Proof.
  intros H. destruct (upd_bkt_fields w' p f) as (E1 & E2 & E3 & _ & _ & E6).
  unfold same_meta in *. rewrite E1, E2, E3, E6. done.
Qed.

Definition pool_mem_ok w : Prop := forall q, zlength (entry_ (tw_pool_mem w q)) = 5.

Lemma pool_mem_ok_upd w p f :
  pool_mem_ok w -> (forall b, zlength (entry_ b) = 5 -> zlength (entry_ (f b)) = 5) ->
  pool_mem_ok (upd_bkt p f w).
Proof.
  intros H Hf. destruct p as [i|q]; [done|]. intros q'. unfold upd_bkt. rsimp.
  case_decide; [apply Hf, H|apply H].
Qed.
End Slot.

(** ** Fresh buckets of the pool *)
Section Pool.
Context {T : TTr} `{Os : ShmOs} (fuel : nat) {OsOk : ShmOsOk Os fuel}.
Context (live : list Buffer).

Lemma alloc_bkt_wp used a w (Q : pptr -> WS -> Prop) :
  alloc_inv live a -> pool_inv sizeof_bkt used (tw_bkt_pool w) ->
  (forall q a' p', alloc_inv live a' -> q ∉ used -> pool_inv sizeof_bkt (q :: used) p' ->
     Q q (a', upd_bkt (BP q) reset_bkt (w <| tw_bkt_pool := p' |>))) ->
  wpt (alloc_bkt fuel) Q (a, w).
Proof using OsOk.
  intros Ha Hp HQ. unfold alloc_bkt, with_pool. wp_step. apply wp_zoom. cbn [fst snd].
  eapply pool_alloc_wp; [exact OsOk|by vm_compute|exact Ha|exact Hp|].
  intros q a' p' Ha' Hp'. unfold wmod. do 3 wp_step. cbn [fst snd]. apply HQ; try done.
  destruct Hp' as [Hnd _ _]. apply NoDup_cons in Hnd as [Hnd _].
  intros Hq. apply Hnd, elem_of_app. by left.
Qed.

(** The state after an entry was added to slot [i]. *)
Definition insert_post (w : TimingWheel) (i : nat) (tx : Z) (c others : list pptr)
    (q : list wheel_ent_t) (e : wheel_ent_t) (s : WS) : Prop :=
  exists c', alloc_inv live s.1 /\ slot_rep s.2 i tx c' (q ++ [e]) /\
    pool_inv sizeof_bkt (c' ++ others) (tw_bkt_pool s.2) /\
    pool_mem_ok s.2 /\ same_meta w s.2 /\ tw_ready_queue s.2 = tw_ready_queue w /\
    (forall p, p <> BW i -> p ∉ BP <$> c' -> bkt_at s.2 p = bkt_at w p).

Lemma insert_fits w w2 i tx c others q e bl full b a :
  alloc_inv live a -> slot_rep w i tx c q ->
  pool_inv sizeof_bkt (c ++ others) (tw_bkt_pool w) -> pool_mem_ok w ->
  let lp := lastp (BW i) c in
  linked (bkt_at w) (BW i) c full -> bkt_at w lp = Some bl -> open_bkt bl ->
  q = full ++ bkt_ents bl -> b = add_ent e bl -> num_entries_ b <> 5 ->
  bkt_at w2 lp = Some b -> (forall p, p <> lp -> bkt_at w2 p = bkt_at w p) ->
  same_meta w w2 -> tw_bkt_pool w2 = tw_bkt_pool w -> tw_ready_queue w2 = tw_ready_queue w ->
  pool_mem_ok w2 -> insert_post w i tx c others q e (a, w2).
Proof.
  intros Ha [(b0 & Hb0 & Htx & Hlast) Hch Hnd] Hp Hpm lp Hl Hbl Ho -> -> Hn5 Hb2 Hf Hm Hpool Hr Hpm2.
  destruct (add_ent_spec e bl Ho) as (E1 & E2 & E3 & E4).
  exists c. cbn [fst snd]. split_and!; try done.
  - constructor; [| |done].
    + destruct (decide (lp = BW i)) as [E|E].
      * exists (add_ent e bl). rewrite E in Hb2, Hbl. rewrite Hb0 in Hbl.
        injection Hbl as <-. done.
      * exists b0. by rewrite Hf by done.
    + exists full, (add_ent e bl). split_and!; try done.
      * eapply linked_ext; [by apply ptrs_nodup| |done]. intros y _ Hy. by rewrite Hf.
      * unfold open_bkt in *. rewrite E1, E2, E3. rewrite E1 in Hn5. split_and!; try done; lia.
      * by rewrite E4, app_assoc.
  - by rewrite Hpool.
  - intros p Hp1 Hp2. apply Hf. intros ->. pose proof (lastp_elem (BW i) c) as [?|?]%elem_of_cons; done.
Qed.

(** The bucket filled up: a fresh one is linked behind it. *)
Lemma insert_grows w w2 i tx c others q e bl full b a new p' :
  alloc_inv live a -> slot_rep w i tx c q -> pool_mem_ok w ->
  let lp := lastp (BW i) c in
  linked (bkt_at w) (BW i) c full -> bkt_at w lp = Some bl -> open_bkt bl ->
  q = full ++ bkt_ents bl -> b = add_ent e bl -> num_entries_ b = 5 ->
  bkt_at w2 lp = Some b -> (forall p, p <> lp -> bkt_at w2 p = bkt_at w p) ->
  same_meta w w2 -> tw_ready_queue w2 = tw_ready_queue w -> pool_mem_ok w2 ->
  new ∉ c ++ others -> pool_inv sizeof_bkt (new :: (c ++ others)) p' ->
  insert_post w i tx c others q e
    (a, upd_bkt (BW i) (fun b => b <| last_ := Some (BP new) |>)
         (upd_bkt lp (fun b => b <| next_ := Some (BP new) |>)
           (upd_bkt (BP new) reset_bkt (w2 <| tw_bkt_pool := p' |>)))).
Proof.
  intros Ha [(b0 & Hb0 & Htx & Hlast) Hch Hnd] Hpm lp Hl Hbl Ho -> -> Hn5 Hb2 Hf Hm Hr Hpm2 Hnew Hp'.
  destruct (add_ent_spec e bl Ho) as (E1 & E2 & E3 & E4).
  set (w3 := upd_bkt (BP new) reset_bkt _). set (w4 := upd_bkt lp _ w3).
  set (w5 := upd_bkt (BW i) _ w4).
  assert (Hnc : new ∉ c) by (intros ?; apply Hnew, elem_of_app; by left).
  assert (Hlpn : lp <> BP new).
  { intros E. pose proof (lastp_elem (BW i) c) as Hin. fold lp in Hin. rewrite E in Hin.
    apply elem_of_cons in Hin as [?|(x & [= <-] & ?)%list_elem_of_fmap]; done. }
  assert (G3 : forall p, p <> BP new -> bkt_at w3 p = bkt_at w2 p).
  { intros p Hne. unfold w3. rewrite bkt_at_upd_ne by congruence. done. }
  assert (Hnewb : bkt_at w5 (BP new) = Some (reset_bkt (tw_pool_mem w2 new))).
  { unfold w5, w4. rewrite !bkt_at_upd_ne by congruence. unfold w3. by apply bkt_at_upd_eq. }
  assert (G4 : bkt_at w4 lp = Some ((add_ent e bl) <| next_ := Some (BP new) |>)).
  { unfold w4. apply bkt_at_upd_eq. by rewrite G3. }
  assert (G5 : forall p, p <> lp -> p <> BW i -> p <> BP new -> bkt_at w5 p = bkt_at w p).
  { intros p H1 H2 H3. unfold w5. rewrite bkt_at_upd_ne by congruence. unfold w4.
    rewrite bkt_at_upd_ne by congruence. rewrite G3 by done. by apply Hf. }
  assert (Hw : exists bw, bkt_at w4 (BW i) = Some bw /\ tx_tsc_ bw = tx /\
             (lp <> BW i -> core bw = core b0)).
  { destruct (decide (lp = BW i)) as [E|E].
    - eexists. rewrite E in G4, Hbl. split; [exact G4|]. rewrite Hb0 in Hbl.
      injection Hbl as <-. done.
    - exists b0. unfold w4. rewrite bkt_at_upd_ne by done. by rewrite G3, Hf. }
  destruct Hw as (bw & Hbw & Htxw & Hcore).
  assert (G6 : exists b6, bkt_at w5 lp = Some b6 /\ next_ b6 = Some (BP new) /\
             num_entries_ b6 = 5 /\ zlength (entry_ b6) = 5 /\ entry_ b6 = bkt_ents (add_ent e bl)).
  { rewrite (full_bkt_ents _ Hn5 E2). unfold w5. destruct (decide (lp = BW i)) as [E|E].
    - eexists. rewrite E in G4 |- *. rewrite (bkt_at_upd_eq _ _ _ _ G4). done.
    - eexists. rewrite bkt_at_upd_ne by done. rewrite G4. done. }
  destruct G6 as (b6 & H6 & H6n & H6num & H6l & H6e).
  exists (c ++ [new]). cbn [fst snd]. split_and!; try done.
  - constructor.
    + eexists. unfold w5 at 1. rewrite (bkt_at_upd_eq _ _ _ _ Hbw). split; [done|].
      rsimp. by rewrite lastp_snoc.
    + exists (full ++ entry_ b6), (reset_bkt (tw_pool_mem w2 new)). rewrite lastp_snoc.
      split_and!; try done.
      * apply linked_snoc; try done. eapply linked_ext; [by apply ptrs_nodup| |exact Hl].
        intros y Hy Hne. fold lp in Hne. destruct (decide (y = BW i)) as [->|Hy'].
        -- unfold w5. rewrite (bkt_at_upd_eq _ _ _ _ Hbw), Hb0. cbn. f_equal. by apply Hcore.
        -- rewrite G5; [done..|]. intros ->.
           apply elem_of_cons in Hy as [?|(x & [= <-] & ?)%list_elem_of_fmap]; done.
      * split_and!; try done. apply Hpm2.
      * rewrite H6e, E4. unfold bkt_ents at 3. unfold reset_bkt. rsimp.
        by rewrite take_0, app_nil_r, app_assoc.
    + apply NoDup_app. split_and!; [done| |by apply NoDup_singleton].
      intros x Hx ->%list_elem_of_singleton. done.
  - unfold w5, w4, w3. rewrite !(proj1 (proj2 (proj2 (proj2 (upd_bkt_fields _ _ _))))).
    eapply pool_inv_perm; [|exact Hp']. rewrite <- app_assoc. cbn. apply Permutation_middle.
  - unfold w5, w4, w3. repeat apply pool_mem_ok_upd; done.
  - unfold w5, w4, w3. do 3 apply same_meta_upd. done.
  - rewrite <- Hr. unfold w5, w4, w3.
    by rewrite !(proj1 (proj2 (proj2 (proj2 (proj2 (upd_bkt_fields _ _ _)))))).
  - intros p Hp1 Hp2. apply G5; [|done|].
    + intros ->. apply Hp2. rewrite fmap_app. apply elem_of_app. left.
      pose proof (lastp_elem (BW i) c) as [?|?]%elem_of_cons; done.
    + intros ->. apply Hp2. rewrite fmap_app. apply elem_of_app. right. by left.
Qed.

Lemma get_bkt_wp E p b (Q : wheel_bkt_t -> WS -> Prop) a w :
  bkt_at w p = Some b -> Q b (a, w) -> wpe E (get_bkt p) Q (a, w).
Proof. intros Hb HQ. unfold get_bkt. do 2 wp_step. cbn [snd]. by eapply wp_deref. Qed.

Lemma insert_into_wslot_wp w i tx c others q e a :
  alloc_inv live a -> slot_rep w i tx c q ->
  pool_inv sizeof_bkt (c ++ others) (tw_bkt_pool w) -> pool_mem_ok w ->
  wpt (insert_into_wslot fuel i e) (fun _ => insert_post w i tx c others q e) (a, w).
Proof using OsOk.
  intros Ha Hs Hp Hpm. pose proof Hs as [(b0 & Hb0 & Htx & Hlast) Hch Hnd].
  destruct Hch as (full & bl & Hl & Hbl & Ho & ->).
  destruct (add_ent_spec e bl Ho) as (E1 & E2 & E3 & E4).
  unfold insert_into_wslot. wp_step. eapply get_bkt_wp; [exact Hb0|].
  wp_step. eapply wp_deref; [exact Hlast|]. wp_step. eapply get_bkt_wp; [exact Hbl|].
  wp_step. wp_step; [rewrite bool_decide_eq_true; apply Ho|].
  wp_step. wp_step; [unfold open_bkt, kWheelBucketCap in *; lia|].
  unfold wmod. do 4 wp_step. cbn [fst snd].
  set (lp := lastp (BW i) c) in *. set (w2 := upd_bkt lp _ (upd_bkt lp _ w)).
  assert (Hb2 : bkt_at w2 lp = Some (add_ent e bl)).
  { unfold w2, add_ent. eapply (bkt_at_upd_eq _ _ _ (bl <| entry_ ::= zinsert (num_entries_ bl) e |>)).
    exact (bkt_at_upd_eq _ _ _ _ Hbl). }
  assert (Hf : forall p, p <> lp -> bkt_at w2 p = bkt_at w p)
    by (intros p Hne; unfold w2; by rewrite !bkt_at_upd_ne by congruence).
  assert (Hm : same_meta w w2) by (unfold w2; repeat apply same_meta_upd; done).
  assert (Hpool : tw_bkt_pool w2 = tw_bkt_pool w)
    by (unfold w2; by rewrite !(proj1 (proj2 (proj2 (proj2 (upd_bkt_fields _ _ _)))))).
  assert (Hr : tw_ready_queue w2 = tw_ready_queue w)
    by (unfold w2; by rewrite !(proj1 (proj2 (proj2 (proj2 (proj2 (upd_bkt_fields _ _ _))))))).
  assert (Hpm2 : pool_mem_ok w2).
  { unfold w2. repeat apply pool_mem_ok_upd; [done| |done]. intros b Hb. rsimp.
    by rewrite zlength_zinsert. }
  wp_step. eapply get_bkt_wp; [exact Hb2|]. wp_step.
  - rename select ((_ =? _) = true) into Hfull. apply Z.eqb_eq in Hfull. wp_step.
    eapply alloc_bkt_wp; [exact Ha|by rewrite Hpool|]. intros new a' p' Ha' Hnew Hp'.
    do 3 wp_step. cbn [fst snd]. by eapply insert_grows.
  - rename select ((_ =? _) = false) into Hfull. apply Z.eqb_neq in Hfull.
    by eapply insert_fits.
Qed.

(** ** Emptying a chain *)

(** One pool bucket reaped: its entries [r] are ready, and it is free again. *)
Definition reaped_bkt (x : pptr) (r : list wheel_ent_t) (w : TimingWheel) : TimingWheel :=
  (upd_bkt (BP x) reset_bkt (w <| tw_ready_queue ::= fun l => l ++ r |>))
    <| tw_bkt_pool ::= fun p => p <| mp_pool ::= cons x |> |>.

Lemma reaped_bkt_spec x r w :
  pool_mem_ok w ->
  same_meta w (reaped_bkt x r w) /\ tw_ready_queue (reaped_bkt x r w) = tw_ready_queue w ++ r /\
  pool_mem_ok (reaped_bkt x r w) /\
  (forall p, p <> BP x -> bkt_at (reaped_bkt x r w) p = bkt_at w p).
Proof.
  intros Hpm. split_and!; try done.
  - by apply (pool_mem_ok_upd w (BP x)).
  - intros [j|q] Hne; [done|]. by apply (bkt_at_upd_ne w (BP x) (BP q)).
Qed.

(** The pool part of a chain: its buckets return to the pool. *)
Lemma reap_chain_pool_wp E x c q others w i a n (Q : unit -> WS -> Prop) :
  (S (length c) <= n)%nat ->
  chain (bkt_at w) (BP x) c q -> NoDup (x :: c) ->
  pool_inv sizeof_bkt ((x :: c) ++ others) (tw_bkt_pool w) -> pool_mem_ok w ->
  (forall w', same_meta w w' -> tw_ready_queue w' = tw_ready_queue w ++ q ->
     pool_inv sizeof_bkt others (tw_bkt_pool w') -> pool_mem_ok w' ->
     (forall p, p ∉ BP <$> (x :: c) -> bkt_at w' p = bkt_at w p) -> Q tt (a, w')) ->
  wpe E (reap_chain n i (Some (BP x))) Q (a, w).
Proof.
  revert x q w n. induction c as [|y c IH]; intros x q w n Hn Hc Hnd Hp Hpm HQ;
    (destruct n as [|n]; [cbn in Hn; lia|]); cbn [reap_chain];
    destruct Hc as (full & bl & Hl & Hbl & Ho & ->).
  - cbn [linked] in Hl. subst full. unfold lastp in Hbl. cbn in Hbl.
    wp_step. eapply get_bkt_wp; [exact Hbl|]. unfold wmod, with_pool, pool_free.
    do 2 wp_step. cbv zeta. do 3 wp_step. apply wp_zoom. wp_step. cbn [fst snd].
    destruct Ho as (Hnext & Hnum & Hlen). rewrite Hnext. destruct n; apply wp_ret.
    all: destruct (reaped_bkt_spec x (bkt_ents bl) w Hpm) as (H1 & H2 & H3 & H4).
    all: apply (HQ (reaped_bkt x (bkt_ents bl) w)); try done.
    all: try (by apply pool_free_inv; exact Hp).
    all: intros p Hp'; apply H4; intros ->; apply Hp'; by left.
  - cbn [linked] in Hl. destruct Hl as (b & full' & Hb & Hnext & Hnum & Hlen & -> & Hl).
    wp_step. eapply get_bkt_wp; [exact Hb|]. unfold wmod, with_pool, pool_free.
    do 2 wp_step. cbv zeta. do 3 wp_step. apply wp_zoom. wp_step. cbn [fst snd]. rewrite Hnext.
    pose proof (full_bkt_ents b Hnum Hlen) as Hfull. unfold bkt_ents in Hfull. rewrite Hfull.
    destruct (reaped_bkt_spec x (entry_ b) w Hpm) as (H1 & H2 & H3 & H4).
    apply NoDup_cons in Hnd as [Hx Hnd].
    eapply (IH y (full' ++ bkt_ents bl) (reaped_bkt x (entry_ b) w) n); [cbn in Hn; lia| |done| |done|].
    + rewrite lastp_cons in Hbl. apply chain_ext with (g := bkt_at w).
      * intros p Hp'. rewrite H4; [done|]. intros ->.
        change (BP y :: (BP <$> c)) with (BP <$> (y :: c)) in Hp'.
        apply list_elem_of_fmap in Hp' as (z & [= <-] & Hz). done.
      * change (BP y :: (BP <$> c)) with (BP <$> (y :: c)). apply NoDup_fmap; [by intros ?? [=]|done].
      * exists full', bl. done.
    + apply pool_free_inv. exact Hp.
    + intros w' M R P PM F. apply HQ; [by eapply same_meta_trans| |done|done|].
      * by rewrite R, H2, <- !app_assoc.
      * intros p Hp'. rewrite fmap_cons in Hp'. apply not_elem_of_cons in Hp' as [Hp1 Hp2].
        rewrite F by done. by apply H4.
Qed.

(** The state after slot [i] was reaped. *)
Definition reaped_post (w : TimingWheel) (i : nat) (tx : Z) (c others : list pptr)
    (q : list wheel_ent_t) (w' : TimingWheel) : Prop :=
  slot_rep w' i tx [] [] /\ same_meta w w' /\
  tw_ready_queue w' = tw_ready_queue w ++ q /\
  pool_inv sizeof_bkt others (tw_bkt_pool w') /\ pool_mem_ok w' /\
  (forall p, p <> BW i -> p ∉ BP <$> c -> bkt_at w' p = bkt_at w p).

(** The first bucket, reset, and the last pointer set back to it. *)
Lemma reset_first_rep w i b :
  bkt_at w (BW i) = Some b -> zlength (entry_ b) = 5 ->
  next_ b = None -> num_entries_ b = 0 ->
  slot_rep (upd_bkt (BW i) (fun b => b <| last_ := Some (BW i) |>) w) i (tx_tsc_ b) [] [].
Proof.
  intros Hb Hlen Hn Hnum. set (w' := upd_bkt _ _ _).
  assert (Hb' : bkt_at w' (BW i) = Some (b <| last_ := Some (BW i) |>)) by by apply bkt_at_upd_eq.
  constructor; [by eexists| |apply NoDup_nil_2].
  exists [], (b <| last_ := Some (BW i) |>). split_and!; try done.
  - unfold open_bkt. rsimp. rewrite Hn, Hnum. done.
  - unfold bkt_ents. rsimp. by rewrite Hnum.
Qed.

Lemma reap_wslot_wp E w i tx c others q a (Q : unit -> WS -> Prop) :
  slot_rep w i tx c q -> pool_inv sizeof_bkt (c ++ others) (tw_bkt_pool w) -> pool_mem_ok w ->
  (forall w', reaped_post w i tx c others q w' -> Q tt (a, w')) ->
  wpe E (reap_wslot i) Q (a, w).
Proof.
  intros [(b0 & Hb0 & Htx & Hlast) (full & bl & Hl & Hbl & Ho & ->) Hnd] Hp Hpm HQ.
  unfold reap_wslot. do 3 wp_step. cbn [snd].
  assert (Hfuel : (length c <= sum_list_with snd (mp_extents (tw_bkt_pool w)))%nat).
  { pose proof (pool_used_bound _ _ _ Hp) as H. rewrite length_app in H. lia. }
  unfold num_bkts. cbn [reap_chain]. wp_step. eapply get_bkt_wp; [exact Hb0|].
  unfold wmod. do 2 wp_step. cbv zeta. do 3 wp_step. wp_step. cbn [fst snd].
  set (r0 := take _ (entry_ b0)).
  set (w1 := upd_bkt (BW i) reset_bkt (w <| tw_ready_queue ::= fun r => r ++ r0 |>)).
  assert (Hb1 : bkt_at w1 (BW i) = Some (reset_bkt b0)) by (by apply (bkt_at_upd_eq _ (BW i))).
  assert (Hf1 : forall p, p <> BW i -> bkt_at w1 p = bkt_at w p)
    by (intros p Hne; unfold w1; rewrite bkt_at_upd_ne by congruence; by destruct p).
  assert (Hm1 : same_meta w w1) by (apply (same_meta_upd w); done).
  destruct c as [|x c].
  - cbn in Hl. subst full. change (bkt_at w (BW i) = Some bl) in Hbl. rewrite Hb0 in Hbl.
    injection Hbl as <-. destruct Ho as (Hnext & Hnum & Hlen). rewrite Hnext.
    assert (Hdone : reaped_post w i tx [] others (bkt_ents b0)
              (upd_bkt (BW i) (fun b => b <| last_ := Some (BW i) |>) w1)).
    { split_and!; try done.
      - rewrite <- Htx. by apply (reset_first_rep w1 i (reset_bkt b0)).
      - by apply same_meta_upd.
      - intros p Hne _. rewrite bkt_at_upd_ne by congruence. by apply Hf1. }
    destruct (sum_list_with _ _); apply wp_ret, HQ; exact Hdone.
  - destruct Hl as (b & full' & Hb & Hnext & Hnum & Hlen & -> & Hl).
    rewrite Hb0 in Hb. injection Hb as <-. rewrite Hnext.
    assert (Hr0 : r0 = entry_ b0) by (by apply (full_bkt_ents b0)).
    eapply (reap_chain_pool_wp E x c (full' ++ bkt_ents bl) others w1); [cbn in Hfuel; lia| |done|done|done|].
    { rewrite lastp_cons in Hbl. apply (chain_ext (bkt_at w)).
      - intros p Hp'. rewrite Hf1; [done|]. intros ->.
        apply elem_of_cons in Hp' as [?|(z & [=] & _)%list_elem_of_fmap]. done.
      - change (BP x :: (BP <$> c)) with (BP <$> (x :: c)). apply NoDup_fmap; [by intros ?? [=]|done].
      - by exists full', bl. }
    intros w2 M R P PM F. wp_step. cbn [fst snd]. apply HQ.
    assert (Hb2 : bkt_at w2 (BW i) = Some (reset_bkt b0)).
    { rewrite F; [done|]. by intros (z & [=] & _)%list_elem_of_fmap. }
    split_and!; try done.
    + rewrite <- Htx. by apply (reset_first_rep w2 i (reset_bkt b0)).
    + apply same_meta_upd. by eapply same_meta_trans.
    + change (tw_ready_queue w2 = tw_ready_queue w ++ (entry_ b0 ++ full') ++ bkt_ents bl).
      rewrite R. unfold w1 at 1. change (tw_ready_queue (upd_bkt _ _ _)) with (tw_ready_queue w ++ r0).
      rewrite Hr0, <- !app_assoc. done.
    + intros p Hp1 Hp2. rewrite bkt_at_upd_ne by congruence. rewrite F by done. by apply Hf1.
Qed.
End Pool.
