(* ===== verification/WheelSpec.v ===== *)
(** * The timing wheel against its specification

    The abstract wheel is a list of queues in time order. [reap] moves exactly
    the queues that are due to the ready queue, in order; [insert] appends to
    the queue of the first slot that is not before the desired time. *)
From S2P Require Import Prelude Config HugeAlloc MemPool Timer Timely TimingWheel WheelChain.

(** ** The abstract wheel *)
Record AWheel := mkAWheel {
  aw_t0 : Z;                          (* time of the current slot *)
  aw_slots : list (list wheel_ent_t); (* queues, from the current slot on *)
  aw_ready : list wheel_ent_t;
}.

Definition aw_step (w : Z) (a : AWheel) : AWheel :=
  mkAWheel (aw_t0 a + w) (tail (aw_slots a) ++ [[]])
    (aw_ready a ++ default [] (head (aw_slots a))).

(** Slots due at [tsc]. *)
Definition aw_due (w tsc t0 : Z) : nat :=
  if t0 <=? tsc then Z.to_nat ((tsc - t0) / w + 1) else O.
Definition aw_reap (w tsc : Z) (a : AWheel) : AWheel :=
  Nat.iter (aw_due w tsc (aw_t0 a)) (aw_step w) a.

(** The slot for a desired time. *)
Definition aw_index (w d t0 : Z) : nat :=
  if d <=? t0 then O else Z.to_nat (1 + (d - t0) / w).
Definition aw_insert (w d : Z) (e : wheel_ent_t) (a : AWheel) : AWheel :=
  mkAWheel (aw_t0 a) (alter (fun q => q ++ [e]) (aw_index w d (aw_t0 a)) (aw_slots a))
    (aw_ready a).

(** All entries, in the order in which they become ready. *)
Definition aw_entries (a : AWheel) : list wheel_ent_t := aw_ready a ++ concat (aw_slots a).

Section Abstract.
Context (w : Z) (Hw : 0 < w).

Lemma aw_step_entries a : aw_entries (aw_step w a) = aw_entries a.
Proof.
  unfold aw_entries, aw_step; cbn. destruct (aw_slots a) as [|q l]; cbn;
    rewrite ?concat_app, ?app_nil_r; cbn; rewrite ?app_nil_r, <- ?app_assoc; done.
Qed.

Lemma aw_iter_entries n a : aw_entries (Nat.iter n (aw_step w) a) = aw_entries a.
Proof. induction n as [|n IH]; [done|]. by rewrite Nat.iter_succ, aw_step_entries. Qed.

Lemma aw_iter_t0 n a : aw_t0 (Nat.iter n (aw_step w) a) = aw_t0 a + Z.of_nat n * w.
Proof. induction n as [|n IH]; [cbn; lia|]. rewrite Nat.iter_succ. unfold aw_step at 1. cbn [aw_t0]. lia. Qed.

Lemma aw_iter_length n a :
  (0 < length (aw_slots a))%nat -> length (aw_slots (Nat.iter n (aw_step w) a)) = length (aw_slots a).
Proof.
  intros H. induction n as [|n IH]; [done|]. rewrite Nat.iter_succ. cbn [aw_step aw_slots].
  rewrite length_app. destruct (aw_slots (Nat.iter _ _ _)); cbn [length tail] in *; lia.
Qed.

Lemma aw_due_spec tsc t0 :
  tsc < t0 + Z.of_nat (aw_due w tsc t0) * w /\
  (forall i, (i < aw_due w tsc t0)%nat -> t0 + Z.of_nat i * w <= tsc).
Proof using Hw.
  unfold aw_due. case_match eqn:E; [|split; [lia|intros; lia]].
  apply Z.leb_le in E. pose proof (Z.div_mod (tsc - t0) w).
  pose proof (Z.mod_pos_bound (tsc - t0) w).
  assert (0 <= (tsc - t0) / w) by (apply Z.div_pos; lia). split; [nia|].
  intros i Hi. assert (Z.of_nat i <= (tsc - t0) / w) by lia. nia.
Qed.

Lemma aw_due_step tsc t0 :
  t0 <= tsc -> aw_due w tsc t0 = S (aw_due w tsc (t0 + w)).
Proof using Hw.
  intros H. unfold aw_due. replace (t0 <=? tsc) with true by lia.
  replace (tsc - (t0 + w)) with (tsc - t0 + (-1) * w) by lia. rewrite Z.div_add by lia.
  assert (0 <= (tsc - t0) / w) by (apply Z.div_pos; lia).
  case_match eqn:E; [apply Z.leb_le in E; lia|]. apply Z.leb_gt in E.
  rewrite Z.div_small by lia. done.
Qed.

Lemma aw_index_spec d t0 :
  d <= t0 + Z.of_nat (aw_index w d t0) * w /\
  (t0 < d -> t0 + Z.of_nat (aw_index w d t0) * w <= d + w).
Proof using Hw.
  unfold aw_index. case_match eqn:E; [split; lia|].
  apply Z.leb_gt in E. pose proof (Z.div_mod (d - t0) w).
  pose proof (Z.mod_pos_bound (d - t0) w).
  assert (0 <= (d - t0) / w) by (apply Z.div_pos; lia). nia.
Qed.
End Abstract.

(** ** Representation *)
Definition ix (n cur k : nat) : nat := if Nat.ltb (cur + k) n then (cur + k)%nat else (cur + k - n)%nat.

Lemma ix_inj n cur k k' : (cur < n)%nat -> (k < n)%nat -> (k' < n)%nat -> ix n cur k = ix n cur k' -> k = k'.
Proof. unfold ix. intros. destruct (Nat.ltb_spec (cur + k) n), (Nat.ltb_spec (cur + k') n); lia. Qed.

Lemma ix_lt n cur k : (cur < n)%nat -> (k < n)%nat -> (ix n cur k < n)%nat.
Proof. unfold ix. intros. destruct (Nat.ltb_spec (cur + k) n); lia. Qed.

Lemma ix_0 n cur : (cur < n)%nat -> ix n cur 0 = cur.
Proof. unfold ix. intros. destruct (Nat.ltb_spec (cur + 0) n); lia. Qed.

(** The current slot after a step of [reap]. *)
Definition next_cur (n cur : nat) : nat := if decide (S cur = n) then O else S cur.
Lemma ix_next n cur k : (cur < n)%nat -> (S k < n)%nat -> ix n (next_cur n cur) k = ix n cur (S k).
Proof.
  unfold ix, next_cur. intros. case_decide;
    repeat match goal with |- context [Nat.ltb ?a ?b] => destruct (Nat.ltb_spec a b) end; lia.
Qed.
Lemma ix_last n cur : (cur < n)%nat -> ix n (next_cur n cur) (n - 1) = cur.
Proof.
  unfold ix, next_cur. intros. case_decide;
    repeat match goal with |- context [Nat.ltb ?a ?b] => destruct (Nat.ltb_spec a b) end; lia.
Qed.

Section Rep.
Context {T : TTr}.

Lemma kWheelNumWslots_pos : 1 <= kWheelNumWslots.
Proof.
  unfold kWheelNumWslots, ceil. destruct (to_size _) as [n|] eqn:E; cbn; [|lia].
  unfold to_size in E. destruct (double_trunc _) as [v|]; [|done]. cbn in E.
  case_match eqn:E'; [|done]. injection E as ->. repeat case_match; lia.
Qed.
Definition nslots : nat := Z.to_nat kWheelNumWslots.

(** [cs] are the pool buckets of each slot's chain. *)
Record wheel_rep (tw : TimingWheel) (a : AWheel) (cs : list (list pptr)) : Prop := {
  wr_len : length (tw_wheel tw) = nslots;
  wr_slots : length (aw_slots a) = nslots;
  wr_cs : length cs = nslots;
  wr_cur : (tw_cur_wslot tw < nslots)%nat;
  wr_width : 0 < tw_wslot_width_tsc tw;
  wr_t0 : 0 <= aw_t0 a;
  wr_pool : pool_inv sizeof_bkt (concat cs) (tw_bkt_pool tw);
  wr_mem : pool_mem_ok tw;
  wr_ready : tw_ready_queue tw = aw_ready a;
  wr_rep k c q : cs !! k = Some c -> aw_slots a !! k = Some q ->
    slot_rep tw (ix nslots (tw_cur_wslot tw) k)
      (aw_t0 a + Z.of_nat k * tw_wslot_width_tsc tw) c q;
}.

(** Chains of different slots share no bucket. *)
Lemma chains_disjoint (cs : list (list pptr)) k k' c c' x l :
  NoDup (concat cs ++ l) -> cs !! k = Some c -> cs !! k' = Some c' -> k <> k' ->
  x ∈ c -> x ∉ c'.
Proof.
  revert k k'. induction cs as [|c0 cs IH]; intros [|k] [|k'] Hnd Hk Hk' Hne Hx Hx';
    simplify_eq/=; try lia.
  all: rewrite <- app_assoc in Hnd; apply NoDup_app in Hnd as (_ & Hd & Hnd).
  - apply (Hd x Hx), elem_of_app. left. apply list_elem_of_In, in_concat.
    exists c'. rewrite <- !list_elem_of_In. split; [by eapply list_elem_of_lookup_2|done].
  - apply (Hd x Hx'), elem_of_app. left. apply list_elem_of_In, in_concat.
    exists c. rewrite <- !list_elem_of_In. split; [by eapply list_elem_of_lookup_2|done].
  - by apply (IH k k' Hnd); auto.
Qed.

Lemma rep_other tw a cs k k' c c' q w' :
  wheel_rep tw a cs -> cs !! k = Some c -> cs !! k' = Some c' -> aw_slots a !! k' = Some q ->
  k <> k' -> (k < nslots)%nat ->
  (forall p, p <> BW (ix nslots (tw_cur_wslot tw) k) -> p ∉ BP <$> c ->
     bkt_at w' p = bkt_at tw p) ->
  slot_rep w' (ix nslots (tw_cur_wslot tw) k')
    (aw_t0 a + Z.of_nat k' * tw_wslot_width_tsc tw) c' q.
Proof.
  intros R Hk Hk' Hq Hne Hkn Hf. pose proof (lookup_lt_Some _ _ _ Hk') as Hlt.
  rewrite (wr_cs _ _ _ R) in Hlt.
  eapply slot_rep_frame; [|by eapply wr_rep]. intros p Hp. apply Hf.
  - intros ->. apply elem_of_cons in Hp as [[= E]|(x & [=] & _)%list_elem_of_fmap].
    apply Hne. eapply ix_inj; [| | |exact E]; [apply R|done|done].
  - intros (x & -> & Hx)%list_elem_of_fmap.
    apply elem_of_cons in Hp as [[=]|(y & [= <-] & Hy)%list_elem_of_fmap].
    eapply chains_disjoint; [apply (pi_nodup _ _ _ (wr_pool _ _ _ R))|exact Hk|exact Hk'|..]; done.
Qed.

(** Changing a slot's time changes nothing else of it. *)
Lemma slot_rep_tx tw i tx tx' c q f :
  slot_rep tw i tx c q -> (forall b, tx_tsc_ b = tx -> f b = b <| tx_tsc_ := tx' |>) ->
  slot_rep (upd_bkt (BW i) f tw) i tx' c q.
Proof.
  intros [(b & Hb & Htx & Hlast) Hc Hnd] Hf.
  assert (Hb' := bkt_at_upd_eq tw (BW i) f b Hb). rewrite (Hf b Htx) in Hb'.
  constructor; [by eexists| |done].
  eapply chain_ext; [|by apply ptrs_nodup|done]. intros y _.
  destruct (decide (y = BW i)) as [->|Hne]; [by rewrite Hb', Hb|].
  by rewrite bkt_at_upd_ne by congruence.
Qed.

(** One iteration of [reap] after the slot was emptied: [w1]. *)
Lemma rep_step tw a cs c q w1 :
  wheel_rep tw a cs -> cs !! O = Some c -> aw_slots a !! O = Some q ->
  aw_t0 a + Z.of_nat nslots * tw_wslot_width_tsc tw < 2 ^ 61 ->
  reaped_post tw (tw_cur_wslot tw) (aw_t0 a) c (concat (tail cs)) q w1 ->
  let w2 := upd_bkt (BW (tw_cur_wslot w1)) (fun b => b <| tx_tsc_ ::= fun t =>
    wrap kTscBits (t + u64 (tw_wslot_width_tsc tw * kWheelNumWslots)) |>) w1 in
  wheel_rep (w2 <| tw_cur_wslot := next_cur nslots (tw_cur_wslot tw) |>)
    (aw_step (tw_wslot_width_tsc tw) a) (tail cs ++ [[]]).
Proof.
  intros R Hc Hq Hb (Srep & (M1 & M2 & M3 & M4) & Rdy & P & PM & F) w2.
  pose proof (wr_cur _ _ _ R) as Hcur. pose proof (wr_t0 _ _ _ R) as Ht0.
  pose proof (wr_width _ _ _ R) as Hw. pose proof kWheelNumWslots_pos as HN.
  set (w := tw_wslot_width_tsc tw) in *. set (cur := tw_cur_wslot tw) in *.
  assert (HNn : kWheelNumWslots = Z.of_nat nslots) by (unfold nslots; lia).
  assert (Hwn : w * kWheelNumWslots = Z.of_nat nslots * w) by (rewrite HNn; lia).
  assert (Hwn0 : 0 <= Z.of_nat nslots * w) by nia.
  destruct (upd_bkt_fields w1 (BW (tw_cur_wslot w1)) (fun b => b <| tx_tsc_ ::= fun t =>
    wrap kTscBits (t + u64 (w * kWheelNumWslots)) |>)) as (U1 & U2 & U3 & U4 & U5 & U6).
  fold w2 in U1, U2, U3, U4, U5, U6.
  assert (Hslot : slot_rep w2 cur (aw_t0 a + w + Z.of_nat (nslots - 1) * w) [] []).
  { unfold w2. rewrite M3. apply (slot_rep_tx _ _ (aw_t0 a)); [done|]. intros b Hbt.
    destruct b; unfold update; cbn in Hbt |- *. rewrite Hbt, Hwn. f_equal.
    rewrite (wrap_small 64), wrap_small by (unfold in_u, kTscBits, kNumBktEntriesBits; lia).
    replace (Z.of_nat nslots) with (Z.of_nat (nslots - 1) + 1) by lia. lia. }
  constructor; rsimp; cbn [aw_step aw_t0 aw_slots aw_ready].
  - rewrite U6, M4. apply R.
  - rewrite length_app. pose proof (wr_slots _ _ _ R). destruct (aw_slots a); cbn [length tail] in *; lia.
  - rewrite length_app. pose proof (wr_cs _ _ _ R). destruct cs; cbn [length tail] in *; lia.
  - unfold next_cur. case_decide; lia.
  - by rewrite U1, M1.
  - lia.
  - rewrite concat_app, app_nil_r, U4. exact P.
  - by apply (pool_mem_ok_upd w1 (BW _)).
  - rewrite U5, Rdy, (wr_ready _ _ _ R). destruct (aw_slots a); [done|]. by simplify_eq/=.
  - intros k c' q' Hk Hq'. rewrite U1, M1. fold w.
    assert (Hlen : length (tail cs) = (nslots - 1)%nat)
      by (pose proof (wr_cs _ _ _ R); destruct cs; cbn [length tail] in *; lia).
    assert (Hlen' : length (tail (aw_slots a)) = (nslots - 1)%nat)
      by (pose proof (wr_slots _ _ _ R); destruct (aw_slots a); cbn [length tail] in *; lia).
    destruct (decide (k < nslots - 1)%nat) as [Hlt|Hge].
    + rewrite lookup_app_l, lookup_tail in Hk by lia.
      rewrite lookup_app_l, lookup_tail in Hq' by lia.
      rewrite ix_next by lia.
      replace (aw_t0 a + w + Z.of_nat k * w) with (aw_t0 a + Z.of_nat (S k) * w) by lia.
      apply (slot_rep_frame w1).
      { intros p Hp. assert (p <> BW (tw_cur_wslot w1)).
        { intros ->. rewrite M3 in Hp.
          apply elem_of_cons in Hp as [[= E]|(x & [=] & _)%list_elem_of_fmap].
          rewrite <- (ix_0 nslots cur) in E at 1 by done. apply ix_inj in E; lia. }
        transitivity (bkt_at w2 p); [by destruct p|]. apply bkt_at_upd_ne. congruence. }
      apply (rep_other tw a cs 0 (S k) c); try done; [lia|].
      intros p Hp. fold cur in Hp. rewrite ix_0 in Hp by done. by apply F.
    + apply lookup_lt_Some in Hk as Hk'. rewrite length_app in Hk'. cbn in Hk'.
      assert (k = nslots - 1)%nat as -> by lia.
      rewrite lookup_app_r, Hlen, Nat.sub_diag in Hk by lia.
      rewrite lookup_app_r, Hlen', Nat.sub_diag in Hq' by lia.
      simplify_eq/=. rewrite ix_last by done.
      apply (slot_rep_frame w2); [by intros [] _|exact Hslot].
Qed.

(** [insert_into_wslot] on the [k]-th slot from the current one. *)
Lemma rep_insert `{Os : ShmOs} live tw a cs c q e k s :
  wheel_rep tw a cs -> cs !! k = Some c -> aw_slots a !! k = Some q ->
  insert_post live tw (ix nslots (tw_cur_wslot tw) k)
    (aw_t0 a + Z.of_nat k * tw_wslot_width_tsc tw) c (concat (<[k := []]> cs)) q e s ->
  exists cs', alloc_inv live s.1 /\
    wheel_rep s.2 (mkAWheel (aw_t0 a) (alter (fun q => q ++ [e]) k (aw_slots a)) (aw_ready a)) cs'.
Proof.
  intros R Hc Hq (c' & Ha & S & P & PM & (M1 & M2 & M3 & M4) & Rdy & F).
  pose proof (lookup_lt_Some _ _ _ Hc) as Hk. rewrite (wr_cs _ _ _ R) in Hk.
  pose proof (concat_insert (<[k := []]> cs) k [] c') as Hp.
  rewrite list_lookup_insert_eq in Hp by (by rewrite (wr_cs _ _ _ R)).
  specialize (Hp eq_refl). rewrite list_insert_insert_eq in Hp. cbn in Hp.
  exists (<[k := c']> cs). split; [done|].
  constructor; cbn [aw_t0 aw_slots aw_ready].
  - rewrite M4. apply R.
  - rewrite length_alter. apply R.
  - rewrite length_insert. apply R.
  - rewrite M3. apply R.
  - rewrite M1. apply R.
  - apply R.
  - by rewrite Hp.
  - done.
  - rewrite Rdy. apply R.
  - intros k' c0 q0 Hk' Hq'. rewrite M1, M3. destruct (decide (k' = k)) as [->|Hne].
    + rewrite list_lookup_insert_eq in Hk' by (by rewrite (wr_cs _ _ _ R)).
      rewrite list_lookup_alter_eq, Hq in Hq'. simplify_eq/=. exact S.
    + rewrite list_lookup_insert_ne in Hk' by done. rewrite list_lookup_alter_ne in Hq' by done.
      eapply slot_rep_frame; [|by eapply wr_rep]. intros p Hp'. apply F.
      * intros ->. apply elem_of_cons in Hp' as [[= E]|(x & [=] & _)%list_elem_of_fmap].
        apply Hne. symmetry. eapply ix_inj; [| | |exact E]; [apply R|done|].
        rewrite <- (wr_cs _ _ _ R). by eapply lookup_lt_Some.
      * intros (x & -> & Hx)%list_elem_of_fmap.
        apply elem_of_cons in Hp' as [[=]|(y & [= <-] & Hy)%list_elem_of_fmap].
        destruct P as [Hnd _ _]. rewrite <- app_assoc in Hnd.
        apply NoDup_app in Hnd as (_ & Hd & _). apply (Hd x Hx), elem_of_app. left.
        apply list_elem_of_In, in_concat. exists c0. rewrite <- !list_elem_of_In.
        split; [|done]. apply list_elem_of_lookup. exists k'.
        by rewrite list_lookup_insert_ne by done.
Qed.
End Rep.

(** ** The operations against the abstract wheel *)
Section Refine.
Context {T : TTr} `{Os : ShmOs} (fuel : nat) {OsOk : ShmOsOk Os fuel}.
Context (live : list Buffer).

Lemma rep_first tw a cs :
  wheel_rep tw a cs -> exists c q, cs !! O = Some c /\ aw_slots a !! O = Some q /\
    exists b, bkt_at tw (BW (tw_cur_wslot tw)) = Some b /\ tx_tsc_ b = aw_t0 a.
Proof.
  intros R. pose proof (wr_cur _ _ _ R).
  destruct (lookup_lt_is_Some_2 cs 0) as [c Hc]; [rewrite (wr_cs _ _ _ R); lia|].
  destruct (lookup_lt_is_Some_2 (aw_slots a) 0) as [q Hq]; [rewrite (wr_slots _ _ _ R); lia|].
  exists c, q. split; [done|]. split; [done|].
  destruct (wr_rep _ _ _ R 0 c q Hc Hq) as [(b & Hb & Htx & _) _ _].
  rewrite ix_0 in Hb by done. exists b. split; [done|]. lia.
Qed.

Lemma wmod_wp E f (Q : unit -> WS -> Prop) a tw :
  Q tt (a, f tw) -> wpe E (wmod f) Q (a, tw).
Proof. done. Qed.

Lemma reap_loop_wp E n tsc a0 tw a cs (Q : unit -> WS -> Prop) :
  wheel_rep tw a cs -> (aw_due (tw_wslot_width_tsc tw) tsc (aw_t0 a) <= n)%nat ->
  tsc + (Z.of_nat nslots + 1) * tw_wslot_width_tsc tw < 2 ^ 61 ->
  (forall tw' cs', wheel_rep tw' (aw_reap (tw_wslot_width_tsc tw) tsc a) cs' ->
     tw_wslot_width_tsc tw' = tw_wslot_width_tsc tw -> tw_horizon_tsc tw' = tw_horizon_tsc tw ->
     Q tt (a0, tw')) ->
  wpe E (reap_loop n tsc) Q (a0, tw).
Proof.
  revert tw a cs. induction n as [|n IH]; intros tw a cs R Hn Hb HQ;
    destruct (rep_first _ _ _ R) as (c & q & Hc & Hq & b & Hbk & Htx);
    pose proof (wr_width _ _ _ R) as Hw; pose proof (wr_cur _ _ _ R) as Hcur;
    cbn [reap_loop]; do 2 wp_step; cbn [snd]; wp_step;
    (eapply get_bkt_wp; [exact Hbk|]); wp_step; rewrite Htx in *.
  1,3: rename select ((_ <=? _) = true) into Hle; apply Z.leb_le in Hle.
  3,4: rename select ((_ <=? _) = false) into Hle; apply Z.leb_gt in Hle.
  3,4: assert (E0 : aw_reap (tw_wslot_width_tsc tw) tsc a = a)
         by (unfold aw_reap, aw_due; by replace (aw_t0 a <=? tsc) with false by lia).
  3,4: wp_step; apply (HQ tw cs); [by rewrite E0|done|done].
  { rewrite aw_due_step in Hn by done. lia. }
  wp_step. eapply (reap_wslot_wp E tw _ _ c (concat (tail cs)) q).
  { pose proof (wr_rep _ _ _ R 0 c q Hc Hq) as S0. rewrite ix_0 in S0 by done.
    by replace (aw_t0 a + Z.of_nat 0 * tw_wslot_width_tsc tw) with (aw_t0 a) in S0 by lia. }
  { replace (c ++ concat (tail cs)) with (concat cs) by (destruct cs; [done|]; by simplify_eq/=).
    apply R. }
  { apply R. }
  intros w1 Hpost. pose proof Hpost as (_ & (M1 & M2 & M3 & M4) & _).
  wp_step. apply wmod_wp. wp_step. apply wmod_wp. wp_step. apply wmod_wp.
  assert (Rs := rep_step tw a cs c q w1 R Hc Hq ltac:(nia) Hpost). cbv zeta in Rs.
  rewrite M3 in Rs. set (w2 := upd_bkt _ _ w1) in *.
  assert (Hc2 : tw_cur_wslot w2 = tw_cur_wslot tw) by exact M3.
  match goal with |- wpe _ _ _ (_, ?w) =>
    assert (Hw2 : w = w2 <| tw_cur_wslot := next_cur nslots (tw_cur_wslot tw) |>) end.
  { unfold next_cur. rsimp. rewrite Hc2. pose proof kWheelNumWslots_pos.
    case_decide as D1; case_bool_decide as D2; unfold nslots in *; try lia.
    all: destruct w2; unfold update; cbn in Hc2 |- *; by subst. }
  rewrite Hw2. eapply IH; [exact Rs| | |]; rsimp; cbn [aw_step aw_t0];
    change (tw_wslot_width_tsc w2) with (tw_wslot_width_tsc w1); rewrite M1.
  - rewrite aw_due_step in Hn by done. lia.
  - done.
  - intros tw' cs' R' E1 E2. apply (HQ tw' cs'); [|by rewrite E1|].
    + unfold aw_reap in *. rewrite aw_due_step by done. rewrite Nat.iter_succ_r. exact R'.
    + rewrite E2. exact M2.
Qed.

Lemma reap_wp E tsc a0 tw a cs (Q : unit -> WS -> Prop) :
  wheel_rep tw a cs -> tsc + (Z.of_nat nslots + 1) * tw_wslot_width_tsc tw < 2 ^ 61 ->
  (forall tw' cs', wheel_rep tw' (aw_reap (tw_wslot_width_tsc tw) tsc a) cs' ->
     tw_wslot_width_tsc tw' = tw_wslot_width_tsc tw -> tw_horizon_tsc tw' = tw_horizon_tsc tw ->
     Q tt (a0, tw')) ->
  wpe E (reap tsc) Q (a0, tw).
Proof.
  intros R Hb HQ. unfold reap. do 2 wp_step. cbn [snd].
  eapply reap_loop_wp; [exact R| |done|done].
  destruct (rep_first _ _ _ R) as (c & q & _ & _ & b & Hbk & Htx).
  unfold reap_fuel. cbn in Hbk. rewrite Hbk, Htx. unfold aw_due. case_match; lia.
Qed.

(** The slot for a desired time within the horizon exists. *)
Lemma aw_index_lt w ref d t0 horizon n :
  0 < w -> ref < t0 -> d - ref <= horizon -> horizon <= (Z.of_nat n - 1) * w -> (0 < n)%nat ->
  (aw_index w d t0 < n)%nat /\ (t0 < d -> 1 + (d - t0) / w < Z.of_nat n).
Proof.
  intros Hw Hr Hd Hh Hn. unfold aw_index.
  assert (H : t0 < d -> 1 + (d - t0) / w < Z.of_nat n).
  { intros Hlt. assert ((d - t0) / w < Z.of_nat n - 1); [|lia].
    apply Z.div_lt_upper_bound; lia. }
  split; [|done]. case_match eqn:E; [done|]. apply Z.leb_gt in E.
  specialize (H E). assert (0 <= (d - t0) / w) by (apply Z.div_pos; lia). lia.
Qed.

Lemma wheel_insert_wp e ref d a0 tw a cs (Q : unit -> WS -> Prop) :
  let w := tw_wslot_width_tsc tw in
  alloc_inv live a0 -> wheel_rep tw a cs -> 0 <= ref <= d -> d - ref <= tw_horizon_tsc tw ->
  tw_horizon_tsc tw <= (kWheelNumWslots - 1) * w ->
  d + (Z.of_nat nslots + 1) * w < 2 ^ 61 ->
  (forall a0' tw' cs', alloc_inv live a0' ->
     wheel_rep tw' (aw_insert w d e (aw_reap w ref a)) cs' ->
     tw_wslot_width_tsc tw' = w -> tw_horizon_tsc tw' = tw_horizon_tsc tw -> Q tt (a0', tw')) ->
  wpt (wheel_insert fuel e ref d) Q (a0, tw).
Proof using OsOk.
  intros w Ha R Href Hhz Hcov Hb HQ. assert (Hw : 0 < w) by apply (wr_width _ _ _ R).
  assert (Hw0 : 0 <= (Z.of_nat nslots + 1) * w) by nia. unfold wheel_insert. do 2 wp_step. cbn [snd].
  wp_step. wp_step; [lia|]. wp_step. wp_step; [rewrite sub64_small by lia; lia|].
  wp_step. eapply reap_wp; [exact R|fold w; lia|]. fold w.
  intros tw1 cs1 R1 M1 M2. do 2 wp_step. cbn [snd].
  set (a1 := aw_reap w ref a) in *.
  destruct (rep_first _ _ _ R1) as (_ & _ & _ & _ & b & Hbk & Htx).
  wp_step. eapply get_bkt_wp; [exact Hbk|]. rewrite Htx.
  assert (Ht1 : ref < aw_t0 a1).
  { unfold a1, aw_reap. rewrite aw_iter_t0. by apply aw_due_spec. }
  pose proof (wr_cur _ _ _ R1) as Hcur. pose proof kWheelNumWslots_pos as HN.
  assert (HNn : kWheelNumWslots = Z.of_nat nslots) by (unfold nslots; lia).
  destruct (aw_index_lt w ref d (aw_t0 a1) (tw_horizon_tsc tw) nslots) as [Hi Hi2];
    [done|done|done|lia|lia|].
  wp_step. wp_step; [lia|].
  cut (wpt (insert_into_wslot fuel (ix nslots (tw_cur_wslot tw1) (aw_index w d (aw_t0 a1))) e)
         Q (a0, tw1)).
  { intros Hins. wp_step. rewrite M1. wp_step.
    - rename select ((_ <=? _) = true) into Hle. wp_step.
      unfold aw_index in Hins. rewrite Hle, ix_0 in Hins by done. exact Hins.
    - rename select ((_ <=? _) = false) into Hle. apply Z.leb_gt in Hle as Hlt.
      pose proof (wr_t0 _ _ _ R1). rewrite sub64_small by lia.
      wp_step. wp_step; [specialize (Hi2 Hlt); lia|]. wp_step.
      unfold aw_index in Hins. rewrite Hle in Hins. revert Hins.
      assert (0 <= (d - aw_t0 a1) / w) by (apply Z.div_pos; lia).
      set (dl := 1 + (d - aw_t0 a1) / w) in *. intros Hins.
      assert (E : Z.to_nat (if kWheelNumWslots <=? Z.of_nat (tw_cur_wslot tw1) + dl
                  then Z.of_nat (tw_cur_wslot tw1) + dl - kWheelNumWslots
                  else Z.of_nat (tw_cur_wslot tw1) + dl)
                = ix nslots (tw_cur_wslot tw1) (Z.to_nat dl)).
      { unfold ix. rewrite HNn.
        destruct (Nat.ltb_spec (tw_cur_wslot tw1 + Z.to_nat dl) nslots);
          case_match eqn:E; lia. }
      rewrite E. exact Hins. }
  set (k := aw_index w d (aw_t0 a1)) in *.
  destruct (lookup_lt_is_Some_2 cs1 k) as [c Hc]; [by rewrite (wr_cs _ _ _ R1)|].
  destruct (lookup_lt_is_Some_2 (aw_slots a1) k) as [q Hq]; [by rewrite (wr_slots _ _ _ R1)|].
  eapply wp_mono; [eapply (insert_into_wslot_wp fuel live tw1 _ _ c (concat (<[k := []]> cs1)) q)|].
  - done.
  - by eapply wr_rep.
  - pose proof (concat_insert cs1 k c [] Hc) as Hp. cbn in Hp. rewrite Hp. apply R1.
  - apply R1.
  - intros [] [a2 tw2] Hpost.
    destruct (rep_insert live tw1 a1 cs1 c q e k (a2, tw2) R1 Hc Hq) as (cs2 & Ha2 & R2).
    { by rewrite M1 in Hpost |- *. }
    cbn in Ha2, R2. destruct Hpost as (c' & _ & _ & _ & _ & (E1 & E2 & _) & _). cbn in E1, E2.
    eapply HQ; [done|exact R2| |]; congruence.
Qed.
End Refine.

(** ** A new wheel *)
Section New.
Context {T : TTr} `{Os : ShmOs} (fuel : nat) {OsOk : ShmOsOk Os fuel}.

Lemma concat_replicate_nil {A} n : concat (replicate n (@nil A)) = [].
Proof. induction n; [done|]. by cbn. Qed.

Lemma new_wheel_rep w h base :
  0 < w -> 0 <= base -> base + (Z.of_nat nslots + 1) * w < 2 ^ 61 ->
  wheel_rep
    (mkWheel w h
      ((fun ws_i => reset_bkt zero_bkt
          <| tx_tsc_ := wrap kTscBits (base + (Z.of_nat ws_i + 1) * w) |>
          <| last_ := Some (BW ws_i) |>) <$> seq 0 nslots)
      (fun _ => zero_bkt) 0 (MemPool_new sizeof_bkt) [])
    (mkAWheel (base + w) (replicate nslots []) []) (replicate nslots []).
Proof.
  intros Hw Hb Hov. pose proof kWheelNumWslots_pos.
  constructor; rsimp; cbn [aw_slots aw_t0 aw_ready tw_wheel tw_cur_wslot tw_wslot_width_tsc
    tw_bkt_pool tw_ready_queue].
  - by rewrite length_fmap, length_seq.
  - by rewrite length_replicate.
  - by rewrite length_replicate.
  - unfold nslots. lia.
  - done.
  - lia.
  - rewrite concat_replicate_nil. apply pool_inv_new. by vm_compute.
  - intros q. done.
  - done.
  - intros k c q [-> Hk]%lookup_replicate [-> _]%lookup_replicate.
    assert (Hix : ix nslots 0 k = k) by (unfold ix; destruct (Nat.ltb_spec (0 + k) nslots); lia).
    rewrite Hix. set (tw := mkWheel _ _ _ _ _ _ _).
    assert (Hbk : bkt_at tw (BW k) = Some (reset_bkt zero_bkt
          <| tx_tsc_ := wrap kTscBits (base + (Z.of_nat k + 1) * w) |>
          <| last_ := Some (BW k) |>)).
    { unfold bkt_at, tw; cbn [tw_wheel]. by rewrite list_lookup_fmap, lookup_seq_lt by done. }
    constructor; [|exists [], (reset_bkt zero_bkt
          <| tx_tsc_ := wrap kTscBits (base + (Z.of_nat k + 1) * w) |>
          <| last_ := Some (BW k) |>)|apply NoDup_nil_2].
    + eexists. split; [exact Hbk|]. unfold reset_bkt. rsimp. split; [|done].
      assert ((Z.of_nat k + 1) * w <= (Z.of_nat nslots + 1) * w)
        by (apply Z.mul_le_mono_nonneg_r; lia).
      assert (0 <= Z.of_nat k * w) by (apply Z.mul_nonneg_nonneg; lia).
      rewrite wrap_small; [lia|].
      change kTscBits with 61. unfold in_u. split; [nia|lia].
    + split_and!; done.
Qed.
End New.

(** ** Theorems *)
Section Facts.
Context (w : Z) (Hw : 0 < w).

Lemma aw_iter_ready n a :
  aw_ready (Nat.iter n (aw_step w) a) = aw_ready a ++ concat (take n (aw_slots a)).
Proof.
  revert a. induction n as [|n IH]; intros a; [by rewrite take_0, app_nil_r|].
  rewrite Nat.iter_succ_r, IH. cbn [aw_step aw_ready aw_slots].
  rewrite <- app_assoc. f_equal. destruct (aw_slots a) as [|q l]; [by destruct n as [|[|n]]|].
  cbn. f_equal. rewrite take_app, concat_app.
  destruct (n - length l)%nat as [|[|m]]; cbn; by rewrite ?app_nil_r.
Qed.

Lemma aw_insert_entries d e a :
  (aw_index w d (aw_t0 a) < length (aw_slots a))%nat ->
  aw_entries (aw_insert w d e a) ≡ₚ e :: aw_entries a.
Proof.
  intros Hlt. unfold aw_entries, aw_insert; cbn. set (i := aw_index _ _ _) in *.
  destruct (lookup_lt_is_Some_2 _ _ Hlt) as [q Hq].
  rewrite (Permutation_middle (aw_ready a)). apply Permutation_app_head.
  rewrite (list_alter_ext _ (fun _ => q ++ [e]) _ (aw_slots a)) by (done || congruence).
  rewrite <- list_insert_alter.
  apply (Permutation_app_inv_l q). rewrite (concat_insert _ _ _ (q ++ [e]) Hq).
  rewrite <- app_assoc. done.
Qed.
End Facts.

Section Claims.
Context {T : TTr} `{Os : ShmOs} (fuel : nat) {OsOk : ShmOsOk Os fuel}.

(** C24 [reap] terminates without failing. Exactly the slots that are due at
    [reap_tsc] are emptied into the ready queue, oldest first; no entry is lost
    or reordered, and the wheel ends up ahead of [reap_tsc]. *)
Theorem wheel_reap_correct tsc a0 tw a cs :
  let w := tw_wslot_width_tsc tw in
  wheel_rep tw a cs -> tsc + (Z.of_nat nslots + 1) * w < 2 ^ 61 ->
  exists tw' a' cs', reap tsc (a0, tw) = Ok tt (a0, tw') /\ wheel_rep tw' a' cs' /\
    aw_ready a' = aw_ready a ++ concat (take (aw_due w tsc (aw_t0 a)) (aw_slots a)) /\
    aw_entries a' = aw_entries a /\ tsc < aw_t0 a' /\
    (forall i, (i < aw_due w tsc (aw_t0 a))%nat -> aw_t0 a + Z.of_nat i * w <= tsc).
Proof.
  intros w R Hb. assert (Hw : 0 < w) by apply (wr_width _ _ _ R).
  destruct (proj1 (wp_run (reap tsc) (fun _ s => s.1 = a0 /\ exists cs', wheel_rep s.2 (aw_reap w tsc a) cs') (a0, tw)))
    as ([] & [a1 tw'] & E & <- & cs' & R').
  { eapply reap_wp; [exact R|done|]. intros tw' cs' R' _ _. by split; [|exists cs']. }
  exists tw', (aw_reap w tsc a), cs'. split; [done|]. split; [done|].
  unfold aw_reap. rewrite aw_iter_ready, aw_iter_entries, aw_iter_t0.
  destruct (aw_due_spec w Hw tsc (aw_t0 a)) as [H1 H2]. done.
Qed.

(** C23 [insert], with a desired time within the horizon and slots that cover
    it, passes its assertions (only hugepage exhaustion can throw). The entry is
    appended to the first slot that is not before the desired time and at most
    one slot width after it; everything else stays in order. *)
Theorem wheel_insert_correct live e ref d a0 tw a cs :
  let w := tw_wslot_width_tsc tw in
  alloc_inv live a0 -> wheel_rep tw a cs -> 0 <= ref <= d -> d - ref <= tw_horizon_tsc tw ->
  tw_horizon_tsc tw <= (kWheelNumWslots - 1) * w ->
  d + (Z.of_nat nslots + 1) * w < 2 ^ 61 ->
  match wheel_insert fuel e ref d (a0, tw) with
  | Ok _ (a0', tw') => exists a' cs', wheel_rep tw' a' cs' /\ alloc_inv live a0' /\
      a' = aw_insert w d e (aw_reap w ref a) /\
      aw_entries a' ≡ₚ e :: aw_entries a /\
      let i := aw_index w d (aw_t0 a') in
      d <= aw_t0 a' + Z.of_nat i * w /\
      (aw_t0 a' < d -> aw_t0 a' + Z.of_nat i * w <= d + w)
  | Fail err => is_throw err
  end.
Proof.
  intros w Ha R Href Hhz Hcov Hb. assert (Hw : 0 < w) by apply (wr_width _ _ _ R).
  pose proof (wp_match (E := is_throw) (wheel_insert fuel e ref d) (fun _ s => alloc_inv live s.1 /\
    exists cs', wheel_rep s.2 (aw_insert w d e (aw_reap w ref a)) cs') (a0, tw)) as H.
  destruct (wheel_insert fuel e ref d (a0, tw)) as [[] [a0' tw']|err].
  2:{ apply H. eapply wheel_insert_wp; try done. intros a0' tw' cs' ? ? _ _. by split; [|exists cs']. }
  destruct H as (Ha' & cs' & R').
  { eapply wheel_insert_wp; try done. intros a0'' tw'' cs' ? ? _ _. by split; [|exists cs']. }
  exists (aw_insert w d e (aw_reap w ref a)), cs'. split_and!; try done.
  - rewrite aw_insert_entries; [unfold aw_reap; by rewrite aw_iter_entries|].
    pose proof kWheelNumWslots_pos. pose proof (wr_slots _ _ _ R) as Hlen.
    assert (Hlen' : length (aw_slots (aw_reap w ref a)) = nslots).
    { unfold aw_reap. rewrite aw_iter_length by (rewrite Hlen; unfold nslots; lia). done. }
    rewrite Hlen'.
    apply (aw_index_lt w ref d _ (tw_horizon_tsc tw)); try done; unfold nslots; try lia.
    unfold aw_reap. rewrite aw_iter_t0. by apply aw_due_spec.
  - apply aw_index_spec; done.
Qed.
End Claims.

(** ** Concrete wheels: the InfiniBand transport's horizon of 8192 us *)
Module WheelExamples.

#[local] Existing Instance BumpOs.
#[local] Instance T : TTr := Transports.IBTransport false.

Lemma nslots_value : kWheelNumWslots = 16385.
Proof. by vm_compute. Qed.

(** A 2.6 GHz wheel created at time 1000: slots of 1300 cycles. *)
Definition wheel26 : TimingWheel :=
  mkWheel 1300 21299200
    ((fun ws_i => reset_bkt zero_bkt
        <| tx_tsc_ := wrap kTscBits (1000 + (Z.of_nat ws_i + 1) * 1300) |>
        <| last_ := Some (BW ws_i) |>) <$> seq 0 nslots)
    (fun _ => zero_bkt) 0 (MemPool_new sizeof_bkt) [].

Lemma wheel26_rep :
  wheel_rep wheel26 (mkAWheel 2300 (replicate nslots []) []) (replicate nslots []).
Proof. apply (new_wheel_rep 1300 21299200 1000); unfold nslots; rewrite ?nslots_value; lia. Qed.

(** It is what the constructor makes. *)
Lemma wheel26_new :
  match TimingWheel_new 1 (fconst 26 10) 1000 (HugeAlloc_new 0) with
  | Ok tw _ => (tw_wslot_width_tsc tw =? 1300) && (tw_horizon_tsc tw =? 21299200)
      && bool_decide (length (tw_wheel tw) = length (tw_wheel wheel26))
      && bool_decide (tx_tsc_ <$> tw_wheel tw !! 16384%nat = tx_tsc_ <$> tw_wheel wheel26 !! 16384%nat)
  | Fail _ => false
  end = true.
Proof. vm_compute. reflexivity. Qed.

Lemma wheel_reap_correct_witness :
  exists tw' a' cs', reap 5000 (HugeAlloc_new 0, wheel26) = Ok tt (HugeAlloc_new 0, tw') /\
    wheel_rep tw' a' cs' /\
    aw_ready a' = [] ++ concat (take (aw_due 1300 5000 2300) (replicate nslots [])) /\
    aw_entries a' = aw_entries (mkAWheel 2300 (replicate nslots []) []) /\ 5000 < aw_t0 a' /\
    (forall i, (i < aw_due 1300 5000 2300)%nat -> 2300 + Z.of_nat i * 1300 <= 5000).
Proof.
  apply (wheel_reap_correct 5000 (HugeAlloc_new 0) wheel26 _ _ wheel26_rep).
  change (tw_wslot_width_tsc wheel26) with 1300. unfold nslots. rewrite nslots_value. lia.
Defined.

Lemma wheel_insert_correct_witness :
  match wheel_insert 1 (wheel_ent_new (0, 3) 7) 5000 9000 (HugeAlloc_new 0, wheel26) with
  | Ok _ (a0', tw') => exists a' cs', wheel_rep tw' a' cs' /\ alloc_inv [] a0' /\
      a' = aw_insert 1300 9000 (wheel_ent_new (0, 3) 7)
             (aw_reap 1300 5000 (mkAWheel 2300 (replicate nslots []) [])) /\
      aw_entries a' ≡ₚ wheel_ent_new (0, 3) 7 :: aw_entries (mkAWheel 2300 (replicate nslots []) []) /\
      let i := aw_index 1300 9000 (aw_t0 a') in
      9000 <= aw_t0 a' + Z.of_nat i * 1300 /\
      (aw_t0 a' < 9000 -> aw_t0 a' + Z.of_nat i * 1300 <= 9000 + 1300)
  | Fail err => is_throw err
  end.
Proof.
  apply (wheel_insert_correct 1 [] (wheel_ent_new (0, 3) 7) 5000 9000 (HugeAlloc_new 0) wheel26 _ (replicate nslots [])).
  - apply alloc_inv_new. vm_compute. discriminate.
  - exact wheel26_rep.
  - lia.
  - change (tw_horizon_tsc wheel26) with 21299200. lia.
  - change (tw_horizon_tsc wheel26) with 21299200.
    change (tw_wslot_width_tsc wheel26) with 1300. rewrite nslots_value. lia.
  - change (tw_wslot_width_tsc wheel26) with 1300. unfold nslots. rewrite nslots_value. lia.
Defined.

(** At 2.5991 GHz the slot width is truncated from 1299.55 to 1299 cycles,
    the slots no longer cover the horizon, and an insertion within the horizon
    fails [assert(wslot_delta < kWheelNumWslots)]. *)
Theorem wheel_insert_truncated_width :
  match TimingWheel_new 1 (fconst 25991 10000) 1000 (HugeAlloc_new 0) with
  | Ok tw a =>
      (tw_wslot_width_tsc tw =? 1299) && (tw_horizon_tsc tw =? 21291827) &&
      match wheel_insert 1 (wheel_ent_new (0, 0) 0) 1000 (1000 + 21291827) (a, tw) with
      | Fail e => bool_decide (e = EAssert "insert: wslot_delta")
      | Ok _ _ => false
      end
  | Fail _ => false
  end = true.
Proof. vm_compute. reflexivity. Qed.
End WheelExamples.
