(* ===== verification/Session.v ===== *)
(** * Sessions and session slots: [session.h], [sslot.h], [util/fixed_vector.h]

    A pointer to a session is its index in [Rpc::session_vec_] (sessions are
    only appended, and a destroyed session's entry is null, so a dangling
    pointer is an index whose entry is null). A pointer to a slot is that index
    with the slot's own. Pointers to [MsgBuffer] objects are [mbptr]s. *)
From S2P Require Import Prelude Config HugeAlloc PktHdr Msg SmTypes Timer Timely TimingWheel.

(** ** [FixedVector<T, N>] *)
Section FixedVector.
Context {A : Type}.

Record FixedVector := mkFixedVector { arr_ : list A; free_index_ : Z }.

(** [arr_] is uninitialized storage of [N] elements. *)
Definition FixedVector_new (storage : list A) : FixedVector := mkFixedVector storage 0.
Definition fv_capacity (v : FixedVector) : Z := zlength (arr_ v).
Definition fv_size (v : FixedVector) : Z := free_index_ v.

Definition fv_push_back {S} (t : A) (v : FixedVector) : M S FixedVector :=
  assert_ (free_index_ v <? fv_capacity v) "FixedVector::push_back";;
  mret (mkFixedVector (zinsert (free_index_ v) t (arr_ v)) (free_index_ v + 1)).
Definition fv_pop_back {S} (v : FixedVector) : M S (A * FixedVector) :=
  assert_ (0 <? free_index_ v) "FixedVector::pop_back";;
  t ← deref (zlookup (arr_ v) (free_index_ v - 1)) "arr_";
  mret (t, mkFixedVector (arr_ v) (free_index_ v - 1)).
Definition fv_at {S} (v : FixedVector) (i : Z) : M S A :=
  assert_ (i <? free_index_ v) "FixedVector::operator[]";;
  deref (zlookup (arr_ v) i) "arr_".

(** The elements, and the bounds every operation keeps. *)
Definition fv_list (v : FixedVector) : list A := take (Z.to_nat (free_index_ v)) (arr_ v).
Definition fv_ok (v : FixedVector) : Prop := 0 <= free_index_ v <= fv_capacity v.
End FixedVector.
Arguments FixedVector : clear implicits.

(** ** Pointers *)
Inductive mbptr :=
  | MbUser (n : Z)             (* a MsgBuffer object of the application *)
  | MbPre (s : sref)           (* a slot's pre_resp_msgbuf_ *)
  | MbDyn (s : sref)           (* a slot's dyn_resp_msgbuf_ *)
  | MbCtrl (i : nat).          (* Rpc::ctrl_msgbufs_[i] *)
#[export] Instance mbptr_eq_dec : EqDecision mbptr.
Proof. solve_decision. Defined.

(** A node of the intrusive list of active RPCs: a slot or a sentinel. *)
Inductive aref := ARoot | ATail | ASlot (s : sref).
#[export] Instance aref_eq_dec : EqDecision aref.
Proof. solve_decision. Defined.

(** ** Slots

    The C++ union of the client's and the server's fields is kept as two
    records; [is_client_] says which one is meant, and the accessors of
    [RpcState] fail on the other. *)
Record ClientInfo := mkClientInfo {
  resp_msgbuf_ : option mbptr;
  cont_func_ : Z;
  tag_ : Z;
  num_tx_ : Z;
  num_rx_ : Z;
  progress_tsc_ : Z;
  cont_etid_ : Z;
  ci_prev_ : option aref;
  ci_next_ : option aref;
  in_wheel_ : list bool;
  wheel_count_ : Z;
  tx_ts_ : list Z;
}.
#[export] Instance eta_ClientInfo : Eta ClientInfo := fun c =>
  mkClientInfo (resp_msgbuf_ c) (cont_func_ c) (tag_ c) (num_tx_ c) (num_rx_ c)
    (progress_tsc_ c) (cont_etid_ c) (ci_prev_ c) (ci_next_ c) (in_wheel_ c)
    (wheel_count_ c) (tx_ts_ c).

Record ServerInfo := mkServerInfo {
  req_msgbuf_ : MsgBuffer;
  si_req_type_ : Z;
  si_req_func_type_ : ReqFuncType;
  si_num_rx_ : Z;
  sav_num_req_pkts_ : Z;
}.
#[export] Instance eta_ServerInfo : Eta ServerInfo := fun s =>
  mkServerInfo (req_msgbuf_ s) (si_req_type_ s) (si_req_func_type_ s) (si_num_rx_ s)
    (sav_num_req_pkts_ s).

Record SSlot := mkSSlot {
  pre_resp_msgbuf_ : MsgBuffer;
  dyn_resp_msgbuf_ : MsgBuffer;
  is_client_ : bool;
  index_ : Z;
  tx_msgbuf_ : option mbptr;
  cur_req_num_ : Z;
  client_info_ : ClientInfo;
  server_info_ : ServerInfo;
}.
#[export] Instance eta_SSlot : Eta SSlot := fun s =>
  mkSSlot (pre_resp_msgbuf_ s) (dyn_resp_msgbuf_ s) (is_client_ s) (index_ s)
    (tx_msgbuf_ s) (cur_req_num_ s) (client_info_ s) (server_info_ s).

(** [memset(0)] *)
Definition zero_ci : ClientInfo :=
  mkClientInfo None 0 0 0 0 0 0 None None
    (replicate (Z.to_nat kSessionCredits) false) 0
    (replicate (Z.to_nat kSessionCredits) 0).
Definition zero_si : ServerInfo := mkServerInfo zeroMsgBuffer 0 kForeground 0 0.

(** ** [enq_req_args_t], [enq_resp_args_t] *)
Record enq_req_args_t := mkEnqReqArgs {
  ea_session_num : Z;
  ea_req_type : Z;
  ea_req_msgbuf : mbptr;
  ea_resp_msgbuf : mbptr;
  ea_cont_func : Z;
  ea_tag : Z;
  ea_cont_etid : Z;
}.
Record enq_resp_args_t := mkEnqRespArgs { er_req_handle : sref; er_resp_msgbuf : mbptr }.

(** ** Sessions *)
Inductive Role := kServer | kClient.
#[export] Instance Role_eq_dec : EqDecision Role.
Proof. solve_decision. Defined.

Record Session := mkSession {
  role_ : Role;
  uniq_token_ : Z;
  se_freq_ghz_ : double;
  link_bandwidth_ : double;
  state_ : SessionState;
  client_ : SessionEndpoint;
  server_ : SessionEndpoint;
  sslot_arr_ : list SSlot;
  local_session_num_ : Z;
  remote_session_num_ : Z;
  credits_ : Z;
  sslot_free_vec_ : FixedVector Z;
  enq_req_backlog_ : list enq_req_args_t;
  num_re_tx_ : Z;
  timely_ : Timely;
  prev_desired_tx_tsc_ : Z;
  sm_req_ts_ : Z;
}.
#[export] Instance eta_Session : Eta Session := fun s =>
  mkSession (role_ s) (uniq_token_ s) (se_freq_ghz_ s) (link_bandwidth_ s) (state_ s)
    (client_ s) (server_ s) (sslot_arr_ s) (local_session_num_ s) (remote_session_num_ s)
    (credits_ s) (sslot_free_vec_ s) (enq_req_backlog_ s) (num_re_tx_ s) (timely_ s)
    (prev_desired_tx_tsc_ s) (sm_req_ts_ s).

Definition is_client (s : Session) : bool := bool_decide (role_ s = kClient).
Definition is_server (s : Session) : bool := bool_decide (role_ s = kServer).
Definition is_connected (s : Session) : bool := bool_decide (state_ s = kConnected).
Definition is_uncongested (s : Session) : bool := feq (rate_ (timely_ s)) (link_bandwidth_ s).
(** [*remote_routing_info_]: the constructor points it at one endpoint. *)
Definition remote_routing_info (s : Session) : routing_info_t :=
  if is_client s then routing_info_ (server_ s) else routing_info_ (client_ s).
Definition get_remote_hostname (s : Session) : string :=
  if is_client s then trim_hostname (hostname_ (server_ s))
  else trim_hostname (hostname_ (client_ s)).

(** A slot as the constructor leaves it. The array [in_wheel_] is reset again
    for clients; servers mark the request type invalid. *)
Definition SSlot_init (role : Role) (sslot_i : Z) : SSlot :=
  mkSSlot zeroMsgBuffer zeroMsgBuffer (bool_decide (role = kClient)) sslot_i None sslot_i
    zero_ci
    (if bool_decide (role = kClient) then zero_si
     else zero_si <| si_req_type_ := kInvalidReqType |>).

(** The constructor. [tsc] is the clock reading of the [Timely] constructor;
    the fields it does not set (state, session numbers, timestamps, the
    endpoints' transport types) are indeterminate in the code and set by every
    caller before they are read. *)
Definition Session_new {S} (role : Role) (uniq_token : Z) (freq_ghz link_bandwidth : double)
    (tsc : Z) : M S Session :=
  let free_order := (fun i => kSessionReqWindow - 1 - Z.of_nat i)
                      <$> seq 0 (Z.to_nat kSessionReqWindow) in
  fv ← foldl (fun m sslot_i => v ← m; fv_push_back sslot_i v)
         (mret (FixedVector_new (replicate (Z.to_nat kSessionReqWindow) 0))) free_order;
  mret (mkSession role uniq_token freq_ghz link_bandwidth kConnectInProgress
    (SessionEndpoint_new kInvalid) (SessionEndpoint_new kInvalid)
    (SSlot_init role <$> (Z.of_nat <$> seq 0 (Z.to_nat kSessionReqWindow)))
    0 0 kSessionCredits fv [] 0
    (if bool_decide (role = kClient) then Timely_new tsc freq_ghz link_bandwidth
     else Timely_default)
    0 0).

(** [ns_delta] and [cycle_delta] are doubles; the sum is computed in double and
    converted back to [size_t]. *)
Definition cc_getupdate_tx_tsc {S} (s : Session) (ref_tsc pkt_size : Z) : M S (Z * Session) :=
  let ns_delta := fmul (of_size 1000000000) (fdiv (of_size pkt_size) (rate_ (timely_ s))) in
  cycles ← deref (ns_to_cycles ns_delta (se_freq_ghz_ s)) "double to size_t";
  desired ← deref (to_size (fadd (of_size (prev_desired_tx_tsc_ s)) (of_size cycles)))
              "double to size_t";
  let desired := Z.max desired ref_tsc in
  mret (desired, s <| prev_desired_tx_tsc_ := desired |>).

(** ** Lemmas *)
Section FixedVectorLemmas.
Context {A : Type}.
Implicit Types v : FixedVector A.

Lemma fv_size_length v : fv_ok v -> fv_size v = zlength (fv_list v).
Proof.
  unfold fv_ok, fv_size, fv_list, fv_capacity, zlength. intros Hv.
  rewrite length_take. lia.
Qed.

Lemma fv_push_back_wp {S} E t v (Q : FixedVector A -> S -> Prop) s :
  fv_ok v -> fv_size v < fv_capacity v ->
  (forall v', fv_ok v' -> fv_list v' = fv_list v ++ [t] -> fv_capacity v' = fv_capacity v ->
     Q v' s) ->
  wpe E (fv_push_back t v) Q s.
Proof.
  unfold fv_ok, fv_size, fv_push_back, fv_list, fv_capacity. intros Hv Hlt HQ.
  wp_step. wp_step; [lia|]. wp_step. apply HQ; cbn.
  - rewrite zlength_zinsert. lia.
  - unfold zinsert, zlength in *. replace (0 <=? free_index_ v) with true by (symmetry; lia).
    rewrite Z2Nat.inj_add by lia. change (Z.to_nat 1) with 1%nat. rewrite Nat.add_1_r.
    rewrite (take_S_r _ _ t) by (rewrite list_lookup_insert_eq by lia; done).
    by rewrite take_insert_ge by lia.
  - apply zlength_zinsert.
Qed.

Lemma fv_pop_back_wp {S} E v l t (Q : A * FixedVector A -> S -> Prop) s :
  fv_ok v -> fv_list v = l ++ [t] ->
  (forall v', fv_ok v' -> fv_list v' = l -> fv_capacity v' = fv_capacity v -> Q (t, v') s) ->
  wpe E (fv_pop_back v) Q s.
Proof.
  intros Hv Hl HQ. pose proof (fv_size_length v Hv) as Hsz. rewrite Hl in Hsz.
  unfold fv_ok, fv_size, fv_pop_back, fv_list, fv_capacity in *.
  rewrite zlength_app in Hsz. pose proof (zlength_nonneg l).
  change (zlength [t]) with 1 in Hsz.
  assert (Ht : arr_ v !! Z.to_nat (free_index_ v - 1) = Some t).
  { rewrite <- (lookup_take_lt (arr_ v) (Z.to_nat (free_index_ v))) by lia.
    rewrite Hl, lookup_app_r by (unfold zlength in Hsz; lia).
    replace (Z.to_nat (free_index_ v - 1) - length l)%nat with 0%nat
      by (unfold zlength in Hsz; lia). done. }
  wp_step. wp_step; [lia|]. wp_step. eapply wp_deref.
  { unfold zlookup. replace (0 <=? free_index_ v - 1) with true by (symmetry; lia). exact Ht. }
  wp_step. apply HQ; cbn; [lia| |done].
  apply (f_equal (take (length l))) in Hl.
  rewrite take_app_length, take_take in Hl. rewrite <- Hl. f_equal.
  unfold zlength in Hsz. lia.
Qed.
End FixedVectorLemmas.

(** The free vector of a new session pops the slots in increasing order; all
    credits are available. *)
Lemma Session_new_wp {S} E role tok fr bw tsc (Q : Session -> S -> Prop) s :
  (forall se, role_ se = role -> uniq_token_ se = tok -> credits_ se = kSessionCredits ->
     fv_ok (sslot_free_vec_ se) -> fv_capacity (sslot_free_vec_ se) = kSessionReqWindow ->
     fv_list (sslot_free_vec_ se) = [7; 6; 5; 4; 3; 2; 1; 0] ->
     enq_req_backlog_ se = [] ->
     sslot_arr_ se = SSlot_init role <$> [0; 1; 2; 3; 4; 5; 6; 7] ->
     Q se s) ->
  wpe E (Session_new role tok fr bw tsc) Q s.
Proof. intros HQ. unfold Session_new. cbn. wp_step. by apply HQ. Qed.

(** The desired transmission time is never in the past of [ref_tsc]. *)
Lemma cc_getupdate_tx_tsc_wp {S} (E : err -> Prop) s ref_tsc sz (Q : Z * Session -> S -> Prop) st :
  E (ENull "double to size_t") -> ref_tsc < 2 ^ 64 ->
  (forall d, ref_tsc <= d < 2 ^ 64 -> Q (d, s <| prev_desired_tx_tsc_ := d |>) st) ->
  wpe E (cc_getupdate_tx_tsc s ref_tsc sz) Q st.
Proof.
  intros HE Hr HQ. unfold cc_getupdate_tx_tsc. cbv zeta. wp_step.
  destruct (ns_to_cycles _ _) as [c|]; [|by apply wp_fail].
  eapply wp_deref; [done|]. wp_step.
  destruct (to_size _) as [d|] eqn:Ed; [|by apply wp_fail].
  apply to_size_range in Ed. eapply wp_deref; [done|]. wp_step. apply HQ. lia.
Qed.
