(* ===== verification/RpcState.v ===== *)
(** * The state of an Rpc endpoint: the data members of [rpc.h]

    Members that never change after construction are the class [RpcConf]; the
    outside world (clock, random device, link, address resolution) is the class
    [World]. Locks guard single operations only, so they are left out. The TX
    batch array is the list of its first [tx_batch_i_] items. Everything that
    leaves the endpoint (packets, callbacks, management packets) is appended to
    the trace. *)
From S2P Require Import Prelude Config HugeAlloc PktHdr Msg SmTypes Timer Timely MemPool TimingWheel Session.

(** ** Data *)

(** [Transport::tx_burst_item_t]; [routing_info_] points into a session. *)
Record tx_burst_item_t := mkTxItem {
  it_routing_info : Z;
  it_msg_buffer : option mbptr;
  it_pkt_idx : Z;
  it_tx_ts : option (sref * Z);
  it_drop : bool;
}.

(** A packet handed to the NIC: destination, fault injection, header, data. *)
Record wire_pkt := mkWire {
  wp_dst : routing_info_t; wp_drop : bool; wp_hdr : pkthdr_t; wp_data : list Z;
}.

(** A packet the NIC writes to a ring buffer. *)
Record rx_pkt := mkRxPkt { rx_hdr : pkthdr_t; rx_data : list Z }.

(** [Nexus::BgWorkItem] *)
Inductive BgWorkItem := BgReq (sslot : sref) | BgResp (cont_func tag : Z).

Inductive event :=
  | EvTxBurst (pkts : list wire_pkt)
  | EvTxFlush
  | EvPostRecvs (num : Z)
  | EvHandler (req_func : Z) (s : sref) (req_num : Z)
  | EvCont (cont_func tag : Z)
  | EvSmHandler (session_num : Z) (ev : SmEventType) (e : SmErrType)
  | EvSmTx (hostname : string) (port : Z) (pkt : SmPkt).

Record faults_t := mkFaults {
  fail_resolve_rinfo_ : bool;
  hard_wheel_bypass_ : bool;
  pkt_drop_prob_ : double;
  pkt_drop_thresh_billion_ : Z;
}.
#[export] Instance eta_faults : Eta faults_t := fun f =>
  mkFaults (fail_resolve_rinfo_ f) (hard_wheel_bypass_ f) (pkt_drop_prob_ f)
    (pkt_drop_thresh_billion_ f).

Record dpath_stats_t := mkDpathStats {
  ds_ev_loop_calls : Z; ds_pkts_tx : Z; ds_tx_burst_calls : Z;
  ds_pkts_rx : Z; ds_rx_burst_calls : Z;
}.
#[export] Instance eta_dpath_stats : Eta dpath_stats_t := fun d =>
  mkDpathStats (ds_ev_loop_calls d) (ds_pkts_tx d) (ds_tx_burst_calls d)
    (ds_pkts_rx d) (ds_rx_burst_calls d).

Class RpcConf := {
  c_rpc_id : Z;
  c_transport_type : TransportType;
  c_hostname : string;
  c_sm_udp_port : Z;
  c_num_bg_threads : Z;
  c_freq_ghz : double;
  c_creation_tsc : Z;
  c_req_func_arr : list ReqFunc;
  c_creator_etid : Z;
}.

Class World := {
  w_tsc : nat -> Z;                                      (* n-th clock reading *)
  w_slow_rand : nat -> Z;                                (* n-th slow_rand_.next_u64() *)
  w_bandwidth : double;                                  (* transport_->get_bandwidth() *)
  w_resolve : routing_info_t -> option routing_info_t;   (* resolve_remote_routing_info *)
  w_local_rinfo : routing_info_t;                        (* fill_local_routing_info *)
  w_fuel : nat;                                          (* SHM key retries *)
}.

Record Rpc := mkRpc {
  r_etid : Z;                          (* eRPC thread ID of the running thread *)
  r_session_vec : list (option Session);
  r_ring_entries_available : Z;
  r_tx_batch : list tx_burst_item_t;
  r_rx_ring : list Z;
  r_rx_ring_head : Z;
  r_stallq : list sref;
  r_ev_loop_tsc : Z;
  r_pkt_loss_scan_tsc : Z;
  r_root_next : option aref;           (* the sentinels' list pointers *)
  r_root_prev : option aref;
  r_tail_next : option aref;
  r_tail_prev : option aref;
  r_huge : HugeAlloc;
  r_ctrl_msgbufs : list MsgBuffer;
  r_ctrl_msgbuf_head : Z;
  r_fast_rand_seed : Z;
  r_wheel : TimingWheel;
  r_bg_enqueue_request : list enq_req_args_t;
  r_bg_enqueue_response : list enq_resp_args_t;
  r_slow_rand_reads : nat;
  r_sm_rx_queue : list SmWorkItem;
  r_bg_req_queue_arr : list (list BgWorkItem);
  r_conn_req_token_map : gmap Z Z;
  r_sm_pending_reqs : list Z;          (* a std::set: strictly increasing *)
  r_faults : faults_t;
  r_pkthdr_tx_queue : list pkthdr_t;
  r_dpath_stats : dpath_stats_t;
  r_num_re_tx : Z;
  r_still_in_wheel : Z;
  r_pre_resp_msgbuf_size : Z;
  r_retry_connect : bool;
  r_user_mb : gmap Z MsgBuffer;        (* MsgBuffer objects of the application *)
  r_mem : Mem;
  r_nic_rx : list (list rx_pkt);       (* what the next rx_burst()s will find *)
  r_tsc_reads : nat;
  r_trace : list event;
}.
#[export] Instance eta_Rpc : Eta Rpc := fun r =>
  mkRpc (r_etid r) (r_session_vec r) (r_ring_entries_available r) (r_tx_batch r)
    (r_rx_ring r) (r_rx_ring_head r) (r_stallq r) (r_ev_loop_tsc r) (r_pkt_loss_scan_tsc r)
    (r_root_next r) (r_root_prev r) (r_tail_next r) (r_tail_prev r) (r_huge r)
    (r_ctrl_msgbufs r) (r_ctrl_msgbuf_head r) (r_fast_rand_seed r) (r_wheel r)
    (r_bg_enqueue_request r) (r_bg_enqueue_response r) (r_slow_rand_reads r)
    (r_sm_rx_queue r) (r_bg_req_queue_arr r) (r_conn_req_token_map r) (r_sm_pending_reqs r)
    (r_faults r) (r_pkthdr_tx_queue r) (r_dpath_stats r) (r_num_re_tx r)
    (r_still_in_wheel r) (r_pre_resp_msgbuf_size r) (r_retry_connect r) (r_user_mb r)
    (r_mem r) (r_nic_rx r) (r_tsc_reads r) (r_trace r).

(** Update instances by name keep the terms of the proofs small. *)
#[export] Instance u_etid : Update r_etid := ltac:(solve_update).
#[export] Instance u_session_vec : Update r_session_vec := ltac:(solve_update).
#[export] Instance u_ring_entries_available : Update r_ring_entries_available := ltac:(solve_update).
#[export] Instance u_tx_batch : Update r_tx_batch := ltac:(solve_update).
#[export] Instance u_rx_ring : Update r_rx_ring := ltac:(solve_update).
#[export] Instance u_rx_ring_head : Update r_rx_ring_head := ltac:(solve_update).
#[export] Instance u_stallq : Update r_stallq := ltac:(solve_update).
#[export] Instance u_ev_loop_tsc : Update r_ev_loop_tsc := ltac:(solve_update).
#[export] Instance u_pkt_loss_scan_tsc : Update r_pkt_loss_scan_tsc := ltac:(solve_update).
#[export] Instance u_root_next : Update r_root_next := ltac:(solve_update).
#[export] Instance u_root_prev : Update r_root_prev := ltac:(solve_update).
#[export] Instance u_tail_next : Update r_tail_next := ltac:(solve_update).
#[export] Instance u_tail_prev : Update r_tail_prev := ltac:(solve_update).
#[export] Instance u_huge : Update r_huge := ltac:(solve_update).
#[export] Instance u_ctrl_msgbufs : Update r_ctrl_msgbufs := ltac:(solve_update).
#[export] Instance u_ctrl_msgbuf_head : Update r_ctrl_msgbuf_head := ltac:(solve_update).
#[export] Instance u_fast_rand_seed : Update r_fast_rand_seed := ltac:(solve_update).
#[export] Instance u_wheel : Update r_wheel := ltac:(solve_update).
#[export] Instance u_bg_enqueue_request : Update r_bg_enqueue_request := ltac:(solve_update).
#[export] Instance u_bg_enqueue_response : Update r_bg_enqueue_response := ltac:(solve_update).
#[export] Instance u_slow_rand_reads : Update r_slow_rand_reads := ltac:(solve_update).
#[export] Instance u_sm_rx_queue : Update r_sm_rx_queue := ltac:(solve_update).
#[export] Instance u_bg_req_queue_arr : Update r_bg_req_queue_arr := ltac:(solve_update).
#[export] Instance u_conn_req_token_map : Update r_conn_req_token_map := ltac:(solve_update).
#[export] Instance u_sm_pending_reqs : Update r_sm_pending_reqs := ltac:(solve_update).
#[export] Instance u_faults : Update r_faults := ltac:(solve_update).
#[export] Instance u_pkthdr_tx_queue : Update r_pkthdr_tx_queue := ltac:(solve_update).
#[export] Instance u_dpath_stats : Update r_dpath_stats := ltac:(solve_update).
#[export] Instance u_num_re_tx : Update r_num_re_tx := ltac:(solve_update).
#[export] Instance u_still_in_wheel : Update r_still_in_wheel := ltac:(solve_update).
#[export] Instance u_pre_resp_msgbuf_size : Update r_pre_resp_msgbuf_size := ltac:(solve_update).
#[export] Instance u_retry_connect : Update r_retry_connect := ltac:(solve_update).
#[export] Instance u_user_mb : Update r_user_mb := ltac:(solve_update).
#[export] Instance u_mem : Update r_mem := ltac:(solve_update).
#[export] Instance u_nic_rx : Update r_nic_rx := ltac:(solve_update).
#[export] Instance u_tsc_reads : Update r_tsc_reads := ltac:(solve_update).
#[export] Instance u_trace : Update r_trace := ltac:(solve_update).
