(* ===== verification/RpcBase.v ===== *)
(** * Access to the Rpc state, and the helper methods of [rpc.h]

    Reads and writes through session, slot and buffer pointers fail on a
    pointer that is not valid, and on the fields of the union that do not
    belong to the slot's role. *)
From S2P Require Import Prelude Config HugeAlloc PktHdr Msg SmTypes Timer Timely MemPool TimingWheel Session RpcState.

Abbreviation MR := (M Rpc).

(** ** Pointers *)
Definition sess_at (r : Rpc) (sid : Z) : option Session :=
  mjoin (zlookup (r_session_vec r) sid).
Definition slot_at (r : Rpc) (s : sref) : option SSlot :=
  se ← sess_at r s.1; zlookup (sslot_arr_ se) s.2.
Definition put_sess (sid : Z) (se : Session) (r : Rpc) : Rpc :=
  r <| r_session_vec ::= zinsert sid (Some se) |>.
Definition put_slot (s : sref) (sl : SSlot) (r : Rpc) : Rpc :=
  match sess_at r s.1 with
  | Some se => put_sess s.1 (se <| sslot_arr_ ::= zinsert s.2 sl |>) r
  | None => r
  end.

Definition mb_at (r : Rpc) (p : mbptr) : option MsgBuffer :=
  match p with
  | MbUser n => r_user_mb r !! n
  | MbPre s => pre_resp_msgbuf_ <$> slot_at r s
  | MbDyn s => dyn_resp_msgbuf_ <$> slot_at r s
  | MbCtrl i => r_ctrl_msgbufs r !! i
  end.
Definition put_mb (p : mbptr) (mb : MsgBuffer) (r : Rpc) : Rpc :=
  match p with
  | MbUser n => r <| r_user_mb ::= <[n := mb]> |>
  | MbPre s =>
      match slot_at r s with
      | Some sl => put_slot s (sl <| pre_resp_msgbuf_ := mb |>) r
      | None => r
      end
  | MbDyn s =>
      match slot_at r s with
      | Some sl => put_slot s (sl <| dyn_resp_msgbuf_ := mb |>) r
      | None => r
      end
  | MbCtrl i => r <| r_ctrl_msgbufs ::= <[i := mb]> |>
  end.

Definition get_session (sid : Z) : MR Session :=
  r ← get; deref (sess_at r sid) "session".
Definition upd_session (sid : Z) (f : Session -> Session) : MR unit :=
  se ← get_session sid; modify (put_sess sid (f se)).
Definition get_sslot (s : sref) : MR SSlot :=
  r ← get; deref (slot_at r s) "sslot".
Definition upd_sslot (s : sref) (f : SSlot -> SSlot) : MR unit :=
  sl ← get_sslot s; modify (put_slot s (f sl)).
Definition get_ci (s : sref) : MR ClientInfo :=
  sl ← get_sslot s;
  if is_client_ sl then mret (client_info_ sl) else fail (ENull "client_info_ of a server slot").
Definition upd_ci (s : sref) (f : ClientInfo -> ClientInfo) : MR unit :=
  sl ← get_sslot s;
  if is_client_ sl then modify (put_slot s (sl <| client_info_ ::= f |>))
  else fail (ENull "client_info_ of a server slot").
Definition get_si (s : sref) : MR ServerInfo :=
  sl ← get_sslot s;
  if is_client_ sl then fail (ENull "server_info_ of a client slot") else mret (server_info_ sl).
Definition upd_si (s : sref) (f : ServerInfo -> ServerInfo) : MR unit :=
  sl ← get_sslot s;
  if is_client_ sl then fail (ENull "server_info_ of a client slot")
  else modify (put_slot s (sl <| server_info_ ::= f |>)).
Definition get_mb (p : mbptr) : MR MsgBuffer :=
  r ← get; deref (mb_at r p) "MsgBuffer".
Definition set_mb (p : mbptr) (mb : MsgBuffer) : MR unit :=
  _ ← get_mb p; modify (put_mb p mb).
(** [*p] through a [MsgBuffer *] that may be null. *)
Definition get_mb_opt (p : option mbptr) : MR MsgBuffer :=
  p ← deref p "null MsgBuffer"; get_mb p.
Definition hdr_at (a : Z) : MR pkthdr_t := gets (fun r => m_hdr (r_mem r) a).
Definition mem_mod (f : Mem -> Mem) : MR unit := modify (fun r => r <| r_mem ::= f |>).
Definition emit (e : event) : MR unit := modify (fun r => r <| r_trace ::= fun t => t ++ [e] |>).

(** The allocator and the wheel as parts of the state. *)
Definition with_huge {A} (m : M HugeAlloc A) : MR A :=
  zoom r_huge (fun h r => r <| r_huge := h |>) m.
Definition with_wheel {A} (m : M WS A) : MR A :=
  zoom (fun r => (r_huge r, r_wheel r))
       (fun w r => r <| r_huge := w.1 |> <| r_wheel := w.2 |>) m.
Definition with_mem {A} (m : M Mem A) : MR A :=
  zoom r_mem (fun h r => r <| r_mem := h |>) m.

Section Base.
Context {T : TTr} {Os : ShmOs} {C : RpcConf} {W : World}.

Definition multi_threaded : bool := 0 <? c_num_bg_threads.
Definition rpc_rto_cycles : Z := default 0 (us_to_cycles (of_size kRpcRTOUs) c_freq_ghz).
Definition rpc_pkt_loss_scan_cycles : Z := rpc_rto_cycles / 10.
Definition kSMTimeoutMs : Z := if kTesting then 10 else 100.

Definition rdtsc : MR Z :=
  n ← gets r_tsc_reads; modify (fun r => r <| r_tsc_reads ::= S |>);; mret (w_tsc n).
Definition get_etid : MR Z := gets r_etid.
Definition in_dispatch : MR bool := gets (fun r => r_etid r =? c_creator_etid).
Definition assert_dispatch : MR unit := b ← in_dispatch; assert_ b "in_dispatch".

(** [FastRand::next_u32], [SlowRand::next_u64] *)
Definition fast_rand_next_u32 : MR Z :=
  modify (fun r => r <| r_fast_rand_seed ::= fun s => u64 (s * 1103515245 + 12345) |>);;
  s ← gets r_fast_rand_seed;
  mret (u32 (Z.shiftr s 32)).
Definition slow_rand_next_u64 : MR Z :=
  n ← gets r_slow_rand_reads; modify (fun r => r <| r_slow_rand_reads ::= S |>);;
  mret (w_slow_rand n).
Definition roll_pkt_drop : MR bool :=
  u ← fast_rand_next_u32;
  f ← gets r_faults;
  mret (u mod 1000000000 <? pkt_drop_thresh_billion_ f).

(** ** Message buffers *)
Definition alloc_msg_buffer (max_data_size : Z) : MR MsgBuffer :=
  assert_ (0 <? max_data_size) "alloc_msg_buffer";;
  let max_num_pkts := data_size_to_num_pkts max_data_size in
  buffer ← with_huge (alloc w_fuel (u64 (max_data_size + max_num_pkts * sizeof_pkthdr)));
  if b_buf buffer =? 0 then mret zeroMsgBuffer
  else with_mem (MsgBuffer_new buffer max_data_size max_num_pkts).
Definition alloc_msg_buffer_or_die (max_data_size : Z) : MR MsgBuffer :=
  m ← alloc_msg_buffer max_data_size;
  rt_assert (negb (buf_ m =? 0)) "Error";;
  mret m.
Definition free_msg_buffer (mb : MsgBuffer) : MR unit := with_huge (free_buf (buffer_ mb)).
(** [resize_msg_buffer(p, n)] on the object a pointer points to. *)
Definition resize_mb (p : mbptr) (new_data_size : Z) : MR unit :=
  mb ← get_mb p;
  mb ← resize_msg_buffer mb new_data_size;
  set_mb p mb.

Definition bury_resp_msgbuf_server_st (s : sref) : MR unit :=
  assert_dispatch;;
  sl ← get_sslot s;
  when (bool_decide (tx_msgbuf_ sl = Some (MbDyn s))) (
    tx_msgbuf ← get_mb (MbDyn s);
    free_msg_buffer tx_msgbuf);;
  upd_sslot s (fun sl => sl <| tx_msgbuf_ := None |>).

Definition bury_req_msgbuf_server_st (s : sref) : MR unit :=
  si ← get_si s;
  let req_msgbuf := req_msgbuf_ si in
  when (is_dynamic req_msgbuf) (
    free_msg_buffer req_msgbuf;;
    upd_si s (fun si => si <| req_msgbuf_ ::= fun m => m <| buffer_ ::= fun b => b <| b_buf := 0 |> |> |>));;
  upd_si s (fun si => si <| req_msgbuf_ ::= fun m => m <| buf_ := 0 |> |>).

(** ** Ring entries *)
Definition have_ring_entries : MR bool :=
  gets (fun r => kSessionCredits <=? r_ring_entries_available r).
Definition alloc_ring_entries : MR unit :=
  b ← have_ring_entries;
  assert_ b "alloc_ring_entries";;
  modify (fun r => r <| r_ring_entries_available ::= fun n => sub64 n kSessionCredits |>).
Definition free_ring_entries : MR unit :=
  modify (fun r => r <| r_ring_entries_available ::= fun n => add64 n kSessionCredits |>);;
  n ← gets r_ring_entries_available;
  assert_ (n <=? kNumRxRingEntries) "free_ring_entries".

(** ** Packet counting *)
Definition resp_ntoi (pkt_num num_req_pkts : Z) : Z := sub64 pkt_num (sub64 num_req_pkts 1).
Definition wire_pkts (req_msgbuf resp_msgbuf : MsgBuffer) : Z :=
  sub64 (add64 (num_pkts_ req_msgbuf) (num_pkts_ resp_msgbuf)) 1.
Definition req_pkts_pending (s : sref) : MR bool :=
  sl ← get_sslot s;
  ci ← get_ci s;
  mb ← get_mb_opt (tx_msgbuf_ sl);
  mret (num_tx_ ci <? num_pkts_ mb).

Definition in_order_client (s : sref) (pkthdr : pkthdr_t) : MR bool :=
  sl ← get_sslot s;
  if negb (req_num_ pkthdr =? cur_req_num_ sl) then mret false
  else
    ci ← get_ci s;
    if negb (pkt_num_ pkthdr =? num_rx_ ci) then mret false
    else if num_tx_ ci <=? pkt_num_ pkthdr then mret false
    else
      w ← deref (zlookup (in_wheel_ ci) (pkt_num_ pkthdr mod kSessionCredits)) "in_wheel_";
      if kCcPacing && w then
        modify (fun r => r <| r_still_in_wheel ::= fun n => add64 n 1 |>);;
        mret false
      else mret true.

Definition can_bypass_wheel (s : sref) : MR bool :=
  if negb kCcPacing then mret true
  else if kTesting then gets (fun r => hard_wheel_bypass_ (r_faults r))
  else if kCcOptWheelBypass then
    ci ← get_ci s;
    se ← get_session s.1;
    mret ((wheel_count_ ci =? 0) && is_uncongested se)
  else mret false.

(** [bump_credits(session)] *)
Definition bump_credits (sid : Z) : MR unit :=
  se ← get_session sid;
  assert_ (is_client se) "bump_credits: client";;
  assert_ (credits_ se <? kSessionCredits) "bump_credits: credits";;
  upd_session sid (fun se => se <| credits_ ::= fun c => add64 c 1 |>).

(** [update_timely_rate]: the rate controller of the slot's session. *)
Definition update_timely_rate (s : sref) (pkt_num rx_tsc : Z) : MR unit :=
  ci ← get_ci s;
  ts ← deref (zlookup (tx_ts_ ci) (pkt_num mod kSessionCredits)) "tx_ts_";
  se ← get_session s.1;
  match update_rate rx_tsc (sub64 rx_tsc ts) (timely_ se) with
  | Ok _ t => upd_session s.1 (fun se => se <| timely_ := t |>)
  | Fail e => fail e
  end.

(** ** The intrusive list of active RPCs *)
Definition get_next (a : aref) : MR (option aref) :=
  match a with
  | ARoot => gets r_root_next
  | ATail => gets r_tail_next
  | ASlot s => ci ← get_ci s; mret (ci_next_ ci)
  end.
Definition set_next (a : aref) (v : option aref) : MR unit :=
  match a with
  | ARoot => modify (fun r => r <| r_root_next := v |>)
  | ATail => modify (fun r => r <| r_tail_next := v |>)
  | ASlot s => upd_ci s (fun ci => ci <| ci_next_ := v |>)
  end.
Definition set_prev (a : aref) (v : option aref) : MR unit :=
  match a with
  | ARoot => modify (fun r => r <| r_root_prev := v |>)
  | ATail => modify (fun r => r <| r_tail_prev := v |>)
  | ASlot s => upd_ci s (fun ci => ci <| ci_prev_ := v |>)
  end.

Definition add_to_active_rpc_list (s : sref) : MR unit :=
  p ← gets r_tail_prev;
  prev_tail ← deref p "prev_tail";
  set_next prev_tail (Some (ASlot s));;
  upd_ci s (fun ci => ci <| ci_prev_ := Some prev_tail |>);;
  upd_ci s (fun ci => ci <| ci_next_ := Some ATail |>);;
  modify (fun r => r <| r_tail_prev := Some (ASlot s) |>).

Definition delete_from_active_rpc_list (s : sref) : MR unit :=
  ci ← get_ci s;
  prev ← deref (ci_prev_ ci) "prev_";
  set_next prev (ci_next_ ci);;
  ci ← get_ci s;
  next ← deref (ci_next_ ci) "next_";
  set_prev next (ci_prev_ ci).
End Base.
