(* ===== verification/RpcTx.v ===== *)
(** * Transmission: the TX batch and the wheel ([rpc.h]), [rpc_kick.cc],
    [rpc_cr.cc], [rpc_rfr.cc] (sending side), [rpc_queues.cc] *)
From S2P Require Import Prelude Config HugeAlloc PktHdr Msg SmTypes Timer Timely MemPool TimingWheel Session RpcState RpcBase.

Section Tx.
Context {T : TTr} {Os : ShmOs} {C : RpcConf} {W : World}.

(** ** The TX batch *)

(** The transport reads the batch's headers and data when it posts it. *)
Definition wire_of (it : tx_burst_item_t) : MR wire_pkt :=
  se ← get_session (it_routing_info it);
  mb ← get_mb_opt (it_msg_buffer it);
  m ← gets r_mem;
  mret (mkWire (remote_routing_info se) (it_drop it)
          (m_hdr m (get_pkthdr_n mb (it_pkt_idx it))) (pkt_payload m mb (it_pkt_idx it))).

Fixpoint wire_of_all (l : list tx_burst_item_t) : MR (list wire_pkt) :=
  match l with
  | [] => mret []
  | it :: l => w ← wire_of it; ws ← wire_of_all l; mret (w :: ws)
  end.

(** [*tx_burst_arr_[i].tx_ts_ = tsc] *)
Definition stamp_tx (batch_tsc : Z) (it : tx_burst_item_t) : MR unit :=
  match it_tx_ts it with
  | None => mret tt
  | Some (s, i) =>
      tsc ← (if kCcOptBatchTsc then mret batch_tsc else rdtsc);
      upd_ci s (fun ci => ci <| tx_ts_ ::= zinsert i tsc |>)
  end.

Definition do_tx_burst_st : MR unit :=
  assert_dispatch;;
  batch ← gets r_tx_batch;
  assert_ (0 <? zlength batch) "do_tx_burst_st: empty batch";;
  modify (fun r => r <| r_dpath_stats ::= fun d =>
    d <| ds_tx_burst_calls ::= fun n => dpath_stat_inc n 1 |>
      <| ds_pkts_tx ::= fun n => dpath_stat_inc n (zlength batch) |> |>);;
  when kCcRTT (
    batch_tsc ← (if kCcOptBatchTsc then rdtsc else mret 0);
    miter (stamp_tx batch_tsc) batch);;
  pkts ← wire_of_all batch;
  emit (EvTxBurst pkts);;
  modify (fun r => r <| r_tx_batch := [] |>).

(** [testing_.pkthdr_tx_queue_.push]: a [FixedQueue] of [kSessionCredits]. *)
Definition fixed_queue_push {A} (n : Z) (t : A) (q : list A) : list A :=
  (if zlength q =? n then tail q else q) ++ [t].

Definition testing_roll (mb : option mbptr) (pkt_idx : Z) : MR bool :=
  drop ← roll_pkt_drop;
  mb ← get_mb_opt mb;
  h ← hdr_at (get_pkthdr_n mb pkt_idx);
  modify (fun r => r <| r_pkthdr_tx_queue ::= fixed_queue_push kSessionCredits h |>);;
  mret drop.

(** The common tail of the two enqueue functions. *)
Definition enqueue_item (it : tx_burst_item_t) : MR unit :=
  modify (fun r => r <| r_tx_batch ::= fun l => l ++ [it] |>);;
  n ← gets (fun r => zlength (r_tx_batch r));
  when (n =? kPostlist) do_tx_burst_st.

Definition enqueue_pkt_tx_burst_st (s : sref) (pkt_idx : Z) (tx_ts : option (sref * Z)) : MR unit :=
  assert_dispatch;;
  sl ← get_sslot s;
  drop ← (if kTesting then testing_roll (tx_msgbuf_ sl) pkt_idx else mret false);
  enqueue_item (mkTxItem s.1 (tx_msgbuf_ sl) pkt_idx (if kCcRTT then tx_ts else None) drop).

Definition enqueue_hdr_tx_burst_st (s : sref) (ctrl_msgbuf : mbptr) (tx_ts : option (sref * Z)) : MR unit :=
  assert_dispatch;;
  _ ← get_sslot s;
  drop ← (if kTesting then testing_roll (Some ctrl_msgbuf) 0 else mret false);
  enqueue_item (mkTxItem s.1 (Some ctrl_msgbuf) 0 (if kCcRTT then tx_ts else None) drop).

Definition drain_tx_batch_and_dma_queue : MR unit :=
  n ← gets (fun r => zlength (r_tx_batch r));
  when (0 <? n) do_tx_burst_st;;
  emit EvTxFlush.

(** ** The wheel *)
Definition enqueue_wheel (s : sref) (pkt_num pktsz : Z) : MR unit :=
  ref_tsc ← rdtsc;
  se ← get_session s.1;
  p ← cc_getupdate_tx_tsc se ref_tsc pktsz;
  upd_session s.1 (fun _ => p.2);;
  with_wheel (wheel_insert w_fuel (wheel_ent_new s pkt_num) ref_tsc p.1);;
  upd_ci s (fun ci => ci <| in_wheel_ ::= zinsert (pkt_num mod kSessionCredits) true |>);;
  upd_ci s (fun ci => ci <| wheel_count_ ::= fun n => add64 n 1 |>).

Definition enqueue_wheel_req_st (s : sref) (pkt_num : Z) : MR unit :=
  sl ← get_sslot s;
  mb ← get_mb_opt (tx_msgbuf_ sl);
  enqueue_wheel s pkt_num (get_pkt_size mb pkt_num).

Definition enqueue_wheel_rfr_st (s : sref) (pkt_num : Z) : MR unit :=
  sl ← get_sslot s;
  req ← get_mb_opt (tx_msgbuf_ sl);
  ci ← get_ci s;
  resp ← get_mb_opt (resp_msgbuf_ ci);
  enqueue_wheel s pkt_num (get_pkt_size resp (resp_ntoi pkt_num (num_pkts_ req))).

(** ** Control packets *)

(** [&ctrl_msgbufs_[ctrl_msgbuf_head_]], and the head moves on. *)
Definition next_ctrl_msgbuf : MR mbptr :=
  h ← gets r_ctrl_msgbuf_head;
  modify (fun r => r <| r_ctrl_msgbuf_head := if h + 1 =? 2 * kUnsigBatch then 0 else h + 1 |>);;
  mret (MbCtrl (Z.to_nat h)).

(** Fill in a control packet's header. *)
Definition fill_ctrl_hdr (p : mbptr) (req_type dest pkt_type pkt_num req_num : Z) : MR unit :=
  mb ← get_mb p;
  mem_mod (upd_hdr (get_pkthdr_0 mb) (fun h =>
    set_magic kPktHdrMagic (set_req_num req_num (set_pkt_num pkt_num
      (set_pkt_type pkt_type (set_dest_session_num dest (set_msg_size 0
        (set_req_type req_type h)))))))).

Definition enqueue_cr_st (s : sref) (req_pkthdr : pkthdr_t) : MR unit :=
  assert_dispatch;;
  ctrl_msgbuf ← next_ctrl_msgbuf;
  se ← get_session s.1;
  fill_ctrl_hdr ctrl_msgbuf (req_type_ req_pkthdr) (remote_session_num_ se) kExplCR
    (pkt_num_ req_pkthdr) (req_num_ req_pkthdr);;
  enqueue_hdr_tx_burst_st s ctrl_msgbuf None.

(** The timestamp's index is read back from the 14-bit packet number. *)
Definition enqueue_rfr_st (s : sref) (resp_pkthdr : pkthdr_t) : MR unit :=
  assert_dispatch;;
  ctrl_msgbuf ← next_ctrl_msgbuf;
  se ← get_session s.1;
  ci ← get_ci s;
  fill_ctrl_hdr ctrl_msgbuf (req_type_ resp_pkthdr) (remote_session_num_ se) kRFR
    (num_tx_ ci) (req_num_ resp_pkthdr);;
  enqueue_hdr_tx_burst_st s ctrl_msgbuf
    (Some (s, wrap kPktNumBits (num_tx_ ci) mod kSessionCredits)).

(** ** Kicking *)

(** [ci.num_tx_++; credits--] *)
Definition pay_credit (s : sref) : MR unit :=
  upd_ci s (fun ci => ci <| num_tx_ ::= fun n => add64 n 1 |>);;
  upd_session s.1 (fun se => se <| credits_ ::= fun c => sub64 c 1 |>).

Definition kick_req_one (s : sref) (bypass : bool) : MR unit :=
  ci ← get_ci s;
  (if bypass then
     enqueue_pkt_tx_burst_st s (num_tx_ ci) (Some (s, num_tx_ ci mod kSessionCredits))
   else enqueue_wheel_req_st s (num_tx_ ci));;
  pay_credit s.

Definition kick_req_st (s : sref) : MR unit :=
  assert_dispatch;;
  se ← get_session s.1;
  assert_ (0 <? credits_ se) "kick_req_st: credits";;
  sl ← get_sslot s;
  ci ← get_ci s;
  mb ← get_mb_opt (tx_msgbuf_ sl);
  let sending := Z.min (credits_ se) (sub64 (num_pkts_ mb) (num_tx_ ci)) in
  bypass ← can_bypass_wheel s;
  mrepeat (Z.to_nat sending) (kick_req_one s bypass).

Definition kick_rfr_one (s : sref) : MR unit :=
  ci ← get_ci s;
  resp ← get_mb_opt (resp_msgbuf_ ci);
  h ← hdr_at (get_pkthdr_0 resp);
  enqueue_rfr_st s h;;
  pay_credit s.

Definition kick_rfr_st (s : sref) : MR unit :=
  assert_dispatch;;
  se ← get_session s.1;
  sl ← get_sslot s;
  ci ← get_ci s;
  assert_ (0 <? credits_ se) "kick_rfr_st: credits";;
  req ← get_mb_opt (tx_msgbuf_ sl);
  assert_ (num_pkts_ req <=? num_rx_ ci) "kick_rfr_st: num_rx";;
  resp ← get_mb_opt (resp_msgbuf_ ci);
  assert_ (num_rx_ ci <? wire_pkts req resp) "kick_rfr_st: wire_pkts";;
  let rfr_pndng := sub64 (wire_pkts req resp) (num_tx_ ci) in
  let sending := Z.min (credits_ se) rfr_pndng in
  mrepeat (Z.to_nat sending) (kick_rfr_one s).

(** [req_pkts_pending(sslot) ? kick_req_st(sslot) : kick_rfr_st(sslot)] *)
Definition kick_st (s : sref) : MR unit :=
  b ← req_pkts_pending s;
  if (b : bool) then kick_req_st s else kick_rfr_st s.

(** ** Queues *)

(** The loop of [process_credit_stall_queue_st]: the slots it re-adds, in
    order. No kick touches the queue itself. *)
Fixpoint stall_loop (l : list sref) : MR (list sref) :=
  match l with
  | [] => mret []
  | s :: l =>
      _ ← get_sslot s;
      se ← get_session s.1;
      if 0 <? credits_ se then kick_st s;; stall_loop l
      else kept ← stall_loop l; mret (s :: kept)
  end.

Definition process_credit_stall_queue_st : MR unit :=
  assert_dispatch;;
  q ← gets r_stallq;
  kept ← stall_loop q;
  modify (fun r => r <| r_stallq := kept |>).

(** One ready entry. *)
Definition process_wheel_one : MR unit :=
  q ← gets (fun r => tw_ready_queue (r_wheel r));
  ent ← deref (head q) "ready_queue_.front()";
  let s := we_sslot ent in
  let pkt_num := we_pkt_num ent in
  let crd_i := pkt_num mod kSessionCredits in
  sl ← get_sslot s;
  ci ← get_ci s;
  req ← get_mb_opt (tx_msgbuf_ sl);
  (if pkt_num <? num_pkts_ req then enqueue_pkt_tx_burst_st s pkt_num (Some (s, crd_i))
   else
     resp ← get_mb_opt (resp_msgbuf_ ci);
     h ← hdr_at (get_pkthdr_0 resp);
     enqueue_rfr_st s h);;
  upd_ci s (fun ci => ci <| wheel_count_ ::= fun n => sub64 n 1 |>);;
  upd_ci s (fun ci => ci <| in_wheel_ ::= zinsert crd_i false |>);;
  modify (fun r => r <| r_wheel ::= fun w => w <| tw_ready_queue ::= tail |> |>).

Definition process_wheel_st : MR unit :=
  assert_dispatch;;
  cur_tsc ← rdtsc;
  with_wheel (reap cur_tsc);;
  num_ready ← gets (fun r => length (tw_ready_queue (r_wheel r)));
  mrepeat num_ready process_wheel_one.
End Tx.
