(* ===== verification/RpcApi.v ===== *)
(** * The API: [enqueue_request] ([rpc_req.cc]), [enqueue_response]
    ([rpc_resp.cc]), [create_session] and [destroy_session] ([rpc_sm_api.cc],
    [rpc_sm_helpers.cc]), fault injection, and the application's callbacks

    None of these functions runs application code, so a callback is a program
    over the API: a tree of calls that may read the whole state. *)
From S2P Require Import Prelude Config HugeAlloc PktHdr Msg Uri SmTypes Timer Timely MemPool TimingWheel Session RpcState RpcBase RpcTx.

Section Api.
Context {T : TTr} {Os : ShmOs} {C : RpcConf} {W : World}.

(** ** enqueue_request *)

(** Packet 0's header. *)
Definition req_hdr_0 (a : enq_req_args_t) (mb : MsgBuffer) (dest req_num : Z) (h : pkthdr_t) : pkthdr_t :=
  set_req_num req_num (set_pkt_num 0 (set_pkt_type kReq
    (set_dest_session_num dest (set_msg_size (data_size_ mb) (set_req_type (ea_req_type a) h))))).

(** Headers [1 .. num_pkts - 1]: copies of header 0 with their own number. *)
Definition copy_hdrs (mb : MsgBuffer) (pkt_num : pkthdr_t -> Z -> Z) : MR unit :=
  miter (fun i =>
    h0 ← hdr_at (get_pkthdr_0 mb);
    mem_mod (write_hdr (get_pkthdr_n mb i) (set_pkt_num (pkt_num h0 i) h0)))
    (Z.of_nat <$> seq 1 (Z.to_nat (num_pkts_ mb - 1))).

(** The fields of a slot that starts a request. *)
Definition start_ci (a : enq_req_args_t) (tsc : Z) (ci : ClientInfo) : ClientInfo :=
  ci <| resp_msgbuf_ := Some (ea_resp_msgbuf a) |> <| cont_func_ := ea_cont_func a |>
     <| tag_ := ea_tag a |> <| progress_tsc_ := tsc |>.
Definition reset_ci (a : enq_req_args_t) (ci : ClientInfo) : ClientInfo :=
  ci <| num_rx_ := 0 |> <| num_tx_ := 0 |> <| cont_etid_ := ea_cont_etid a |>.

(** The dispatch thread's part. *)
Definition enqueue_request_st (a : enq_req_args_t) : MR unit :=
  let sid := ea_session_num a in
  se ← get_session sid;
  assert_ (is_connected se) "enqueue_request: connected";;
  if fv_size (sslot_free_vec_ se) =? 0 then
    upd_session sid (fun se => se <| enq_req_backlog_ ::= fun q => q ++ [a] |>)
  else
    p ← fv_pop_back (sslot_free_vec_ se);
    upd_session sid (fun se => se <| sslot_free_vec_ := p.2 |>);;
    let s := (sid, p.1) in
    sl ← get_sslot s;
    assert_ (bool_decide (tx_msgbuf_ sl = None)) "enqueue_request: tx_msgbuf";;
    upd_sslot s (fun sl => sl <| tx_msgbuf_ := Some (ea_req_msgbuf a) |>
                              <| cur_req_num_ ::= fun n => add64 n kSessionReqWindow |>);;
    tsc ← gets r_ev_loop_tsc;
    upd_ci s (start_ci a tsc);;
    add_to_active_rpc_list s;;
    upd_ci s (reset_ci a);;
    mb ← get_mb (ea_req_msgbuf a);
    sl ← get_sslot s;
    mem_mod (upd_hdr (get_pkthdr_0 mb) (req_hdr_0 a mb (remote_session_num_ se) (cur_req_num_ sl)));;
    when (1 <? num_pkts_ mb) (copy_hdrs mb (fun _ i => i));;
    se ← get_session sid;
    if 0 <? credits_ se then kick_req_st s
    else modify (fun r => r <| r_stallq ::= fun q => q ++ [s] |>).

Definition enqueue_request (a : enq_req_args_t) : MR unit :=
  d ← in_dispatch;
  if (d : bool) then enqueue_request_st a
  else
    etid ← get_etid;
    modify (fun r => r <| r_bg_enqueue_request ::= fun q => q ++
      [mkEnqReqArgs (ea_session_num a) (ea_req_type a) (ea_req_msgbuf a) (ea_resp_msgbuf a)
         (ea_cont_func a) (ea_tag a) etid] |>).

(** ** enqueue_response *)
Definition resp_hdr_0 (mb : MsgBuffer) (req_type dest sav req_num : Z) (h : pkthdr_t) : pkthdr_t :=
  set_req_num req_num (set_pkt_num (sub64 sav 1) (set_pkt_type kResp
    (set_dest_session_num dest (set_msg_size (data_size_ mb) (set_req_type req_type h))))).

Definition enqueue_response_st (s : sref) (resp_msgbuf : mbptr) : MR unit :=
  upd_si s (fun si => si <| sav_num_req_pkts_ := num_pkts_ (req_msgbuf_ si) |>);;
  bury_req_msgbuf_server_st s;;
  se ← get_session s.1;
  if negb (is_connected se) then
    assert_ (bool_decide (state_ se = kResetInProgress)) "enqueue_response: state";;
    si ← get_si s;
    assert_ (negb (si_req_type_ si =? kInvalidReqType)) "enqueue_response: req_type";;
    upd_si s (fun si => si <| si_req_type_ := kInvalidReqType |>)
  else
    si ← get_si s;
    sl ← get_sslot s;
    mb ← get_mb resp_msgbuf;
    mem_mod (upd_hdr (get_pkthdr_0 mb)
      (resp_hdr_0 mb (si_req_type_ si) (remote_session_num_ se) (sav_num_req_pkts_ si)
         (cur_req_num_ sl)));;
    when (1 <? num_pkts_ mb) (copy_hdrs mb (fun h0 i => add64 (pkt_num_ h0) i));;
    assert_ (bool_decide (tx_msgbuf_ sl = None)) "enqueue_response: tx_msgbuf";;
    upd_sslot s (fun sl => sl <| tx_msgbuf_ := Some resp_msgbuf |>);;
    assert_ (negb (si_req_type_ si =? kInvalidReqType)) "enqueue_response: req_type";;
    upd_si s (fun si => si <| si_req_type_ := kInvalidReqType |>);;
    enqueue_pkt_tx_burst_st s 0 None.

Definition enqueue_response (req_handle : sref) (resp_msgbuf : mbptr) : MR unit :=
  d ← in_dispatch;
  if (d : bool) then enqueue_response_st req_handle resp_msgbuf
  else modify (fun r => r <| r_bg_enqueue_response ::= fun q =>
                 q ++ [mkEnqRespArgs req_handle resp_msgbuf] |>).

(** ** Queues filled by background threads *)
Definition process_bg_queues_enqueue_request_st : MR unit :=
  assert_dispatch;;
  cmds_to_process ← gets (fun r => length (r_bg_enqueue_request r));
  mrepeat cmds_to_process (
    q ← gets r_bg_enqueue_request;
    args ← deref (head q) "front() of an empty queue";
    modify (fun r => r <| r_bg_enqueue_request ::= tail |>);;
    enqueue_request args).

Definition process_bg_queues_enqueue_response_st : MR unit :=
  assert_dispatch;;
  cmds_to_process ← gets (fun r => length (r_bg_enqueue_response r));
  mrepeat cmds_to_process (
    q ← gets r_bg_enqueue_response;
    args ← deref (head q) "front() of an empty queue";
    modify (fun r => r <| r_bg_enqueue_response ::= tail |>);;
    enqueue_response (er_req_handle args) (er_resp_msgbuf args)).

(** ** Session management requests *)

(** [std::set<uint16_t>] as its increasing list. *)
Fixpoint set_insert (n : Z) (l : list Z) : list Z :=
  match l with
  | [] => [n]
  | m :: l => if n <? m then n :: m :: l else if n =? m then m :: l else m :: set_insert n l
  end.
Definition set_erase (n : Z) (l : list Z) : list Z := filter (fun m => m <> n) l.

Definition sm_pkt_udp_tx_st (p : SmPkt) : MR unit :=
  let e := if sm_is_req p then sm_server_ p else sm_client_ p in
  emit (EvSmTx (hostname_ e) (sm_udp_port_ e) p).

Definition send_sm_req_st (sid : Z) : MR unit :=
  assert_dispatch;;
  se ← get_session sid;
  modify (fun r => r <| r_sm_pending_reqs ::= set_insert (local_session_num_ se) |>);;
  tsc ← rdtsc;
  upd_session sid (fun se => se <| sm_req_ts_ := tsc |>);;
  se ← get_session sid;
  sm_pkt_udp_tx_st (mkSmPkt
    (if bool_decide (state_ se = kConnectInProgress) then kConnectReq else kDisconnectReq)
    kNoError (uniq_token_ se) (client_ se) (server_ se)).

(** errno *)
Definition EPERM : Z := 1.
Definition EINVAL : Z := 22.
Definition ENOMEM : Z := 12.
Definition EBUSY : Z := 16.
Definition EALREADY : Z := 114.

(** The two endpoints of a session that the client creates. *)
Definition client_endpoint (lsn : Z) (hostname : string) : SessionEndpoint :=
  mkSessionEndpoint c_transport_type hostname c_sm_udp_port c_rpc_id lsn w_local_rinfo.
Definition server_endpoint (hostname : string) (port rem_rpc_id : Z) : SessionEndpoint :=
  (SessionEndpoint_new c_transport_type) <| hostname_ := hostname |>
    <| sm_udp_port_ := port |> <| rpc_id_ := rem_rpc_id |>.

(** The client session of [create_session_st], added to the session vector. *)
Definition new_client_session (rem_hostname : string) (rem_port rem_rpc_id : Z) : MR Z :=
  tok ← slow_rand_next_u64;
  tsc ← rdtsc;
  se ← Session_new kClient tok c_freq_ghz w_bandwidth tsc;
  sid ← gets (fun r => zlength (r_session_vec r));
  let lsn := u16 sid in
  lhost ← strcpy_hostname c_hostname;
  rhost ← strcpy_hostname rem_hostname;
  let se := se <| state_ := kConnectInProgress |> <| local_session_num_ := lsn |>
               <| client_ := client_endpoint lsn lhost |>
               <| server_ := server_endpoint rhost rem_port rem_rpc_id |> in
  alloc_ring_entries;;
  modify (fun r => r <| r_session_vec ::= fun v => v ++ [Some se] |>);;
  mret sid.

Definition create_session_st (remote_uri : string) (rem_rpc_id : Z) : MR Z :=
  d ← in_dispatch;
  if negb d then mret (- EPERM)
  else
    rem_hostname ← extract_hostname_from_uri remote_uri;
    rem_sm_udp_port ← extract_udp_port_from_uri remote_uri;
    let len := Z.of_nat (String.length rem_hostname) in
    if (len =? 0) || (kMaxHostnameLen <? len) then mret (- EINVAL)
    else if bool_decide (rem_hostname = c_hostname) && (rem_rpc_id =? c_rpc_id)
            && (rem_sm_udp_port =? c_sm_udp_port) then mret (- EINVAL)
    else
      b ← have_ring_entries;
      if negb b then mret (- ENOMEM)
      else
        sid ← new_client_session rem_hostname rem_sm_udp_port rem_rpc_id;
        send_sm_req_st sid;;
        mret (u16 sid).

Definition is_usr_session_num_in_range_st (session_num : Z) : MR bool :=
  assert_dispatch;;
  gets (fun r => (0 <=? session_num) && (session_num <? zlength (r_session_vec r))).

(** The loop over the slots of [destroy_session_st]. *)
Definition check_sslot_buried (sl : SSlot) : MR unit :=
  assert_ (bool_decide (tx_msgbuf_ sl = None)) "destroy_session: tx_msgbuf";;
  when (negb (is_client_ sl))
    (assert_ (buf_ (req_msgbuf_ (server_info_ sl)) =? 0) "destroy_session: req_msgbuf").

Definition destroy_session_st (session_num : Z) : MR Z :=
  d ← in_dispatch;
  if negb d then mret (- EPERM)
  else
    b ← is_usr_session_num_in_range_st session_num;
    if negb b then mret (- EINVAL)
    else
      o ← gets (fun r => sess_at r session_num);
      match o with
      | None => mret (- EPERM)
      | Some se =>
          if negb (is_client se) then mret (- EINVAL)
          else if negb (fv_size (sslot_free_vec_ se) =? kSessionReqWindow) then mret (- EBUSY)
          else
            miter check_sslot_buried (sslot_arr_ se);;
            match state_ se with
            | kConnectInProgress => mret (- EPERM)
            | kConnected =>
                upd_session session_num (fun se => se <| state_ := kDisconnectInProgress |>);;
                send_sm_req_st session_num;;
                mret 0
            | kDisconnectInProgress => mret (- EALREADY)
            | kResetInProgress => mret 0
            end
      end.

Definition num_active_sessions_st : MR Z :=
  assert_dispatch;;
  gets (fun r => zlength (filter is_Some (r_session_vec r))).

(** ** Fault injection *)
Definition fault_inject_check_ok : MR unit :=
  rt_assert kTesting "Faults disabled";;
  d ← in_dispatch;
  rt_assert d "Non-creator threads can't inject faults.".
Definition fault_inject_fail_resolve_rinfo_st : MR unit :=
  fault_inject_check_ok;;
  modify (fun r => r <| r_faults ::= fun f => f <| fail_resolve_rinfo_ := true |> |>).
Definition fault_inject_set_pkt_drop_prob_st (p : double) : MR unit :=
  fault_inject_check_ok;;
  assert_ (feq p (of_size 0)
           || (fle (fconst 1 1000000000) p && flt p (fconst 95 100))) "pkt_drop_prob";;
  v ← deref (double_trunc (fmul p (of_size 1000000000))) "double to uint32_t";
  modify (fun r => r <| r_faults ::= fun f =>
    f <| pkt_drop_prob_ := p |> <| pkt_drop_thresh_billion_ := u32 v |> |>).

(** ** Application callbacks *)
Inductive ucall :=
  | UEnqueueRequest (a : enq_req_args_t)
  | UEnqueueResponse (req_handle : sref) (resp_msgbuf : mbptr)
  | UAllocMsgBuffer (p : mbptr) (max_data_size : Z)   (* *p = alloc_msg_buffer() *)
  | UFreeMsgBuffer (p : mbptr)
  | UResizeMsgBuffer (p : mbptr) (new_data_size : Z)
  | UWrite (addr : Z) (bytes : list Z)                (* stores to message data *)
  | UCreateSession (uri : string) (rem_rpc_id : Z)
  | UDestroySession (session_num : Z).

Inductive uprog :=
  | UDone
  | UGet (k : Rpc -> uprog)
  | UCall (c : ucall) (k : uprog).

(** A store to memory. *)
Definition write_bytes (a : Z) (bs : list Z) (m : Mem) : Mem :=
  m <| m_byte ::= fun f x =>
    if (a <=? x) && (x <? a + zlength bs) then nth (Z.to_nat (x - a)) bs 0 else f x |>.

(** [*p = alloc_msg_buffer(n)]: an application object comes into being by it. *)
Definition assign_mb (p : mbptr) (mb : MsgBuffer) : MR unit :=
  match p with
  | MbUser _ => modify (put_mb p mb)
  | _ => set_mb p mb
  end.

Definition run_ucall (c : ucall) : MR unit :=
  match c with
  | UEnqueueRequest a =>
      enqueue_request (mkEnqReqArgs (ea_session_num a) (ea_req_type a) (ea_req_msgbuf a)
        (ea_resp_msgbuf a) (ea_cont_func a) (ea_tag a) kInvalidBgETid)
  | UEnqueueResponse h p => enqueue_response h p
  | UAllocMsgBuffer p n => mb ← alloc_msg_buffer n; assign_mb p mb
  | UFreeMsgBuffer p => mb ← get_mb p; free_msg_buffer mb
  | UResizeMsgBuffer p n => resize_mb p n
  | UWrite a bs => mem_mod (write_bytes a bs)
  | UCreateSession uri rid => _ ← create_session_st uri rid; mret tt
  | UDestroySession n => _ ← destroy_session_st n; mret tt
  end.

Fixpoint run_user (p : uprog) : MR unit :=
  match p with
  | UDone => mret tt
  | UGet k => fun r => run_user (k r) r
  | UCall c k => run_ucall c;; run_user k
  end.
End Api.

(** The application: its request handlers, continuations and session
    management handler. *)
Class App := {
  app_req : Z -> sref -> uprog;
  app_cont : Z -> Z -> uprog;
  app_sm : Z -> SmEventType -> SmErrType -> uprog;
}.
