(* ===== verification/RpcRx.v ===== *)
(** * Packet reception: [rpc_rx.cc], the receiving side of [rpc_req.cc],
    [rpc_resp.cc], [rpc_cr.cc], [rpc_rfr.cc]

    A packet is known by the address of its header in an RX ring buffer. *)
From S2P Require Import Prelude Config HugeAlloc PktHdr Msg SmTypes Timer Timely MemPool TimingWheel Session RpcState RpcBase RpcTx RpcApi.

Section Rx.
Context {T : TTr} {Os : ShmOs} {C : RpcConf} {W : World} {A : App}.

(** ** Callbacks and background work *)

(** [req_func.req_func_(sslot, context_)] *)
Definition call_req_func (f : ReqFunc) (s : sref) : MR unit :=
  fn ← deref (req_func_ f) "null request handler";
  sl ← get_sslot s;
  emit (EvHandler fn s (cur_req_num_ sl));;
  run_user (app_req fn s).
Definition call_cont (cont_func tag : Z) : MR unit :=
  emit (EvCont cont_func tag);;
  run_user (app_cont cont_func tag).

Definition push_bg (etid : Z) (wi : BgWorkItem) : MR unit :=
  q ← gets r_bg_req_queue_arr;
  l ← deref (zlookup q etid) "bg_req_queue_arr_";
  modify (fun r => r <| r_bg_req_queue_arr ::= zinsert etid (l ++ [wi]) |>).

Definition submit_bg_req_st (s : sref) : MR unit :=
  assert_dispatch;;
  assert_ (0 <? c_num_bg_threads) "submit_bg_req_st";;
  u ← fast_rand_next_u32;
  push_bg (u mod c_num_bg_threads) (BgReq s).

Definition submit_bg_resp_st (cont_func tag bg_etid : Z) : MR unit :=
  assert_dispatch;;
  assert_ (0 <? c_num_bg_threads) "submit_bg_resp_st";;
  assert_ (bg_etid <? c_num_bg_threads) "submit_bg_resp_st: etid";;
  push_bg bg_etid (BgResp cont_func tag).

(** [memcpy(mb.buf_, pkthdr + 1, n)] *)
Definition copy_from_pkt (mb : MsgBuffer) (pkt n : Z) : MR unit :=
  if buf_ mb =? 0 then fail (ENull "memcpy to a null MsgBuffer")
  else mem_mod (memcpy (buf_ mb) (pkt + sizeof_pkthdr) n).

(** ** Server: requests *)

(** The last step of both request functions: remember the request's metadata
    (an [enqueue_response] is now pending). *)
Definition set_pending (s : sref) (req_type : Z) : MR ReqFunc :=
  f ← deref (zlookup c_req_func_arr req_type) "req_func_arr_";
  si ← get_si s;
  assert_ (si_req_type_ si =? kInvalidReqType) "process_req: req_type";;
  upd_si s (fun si => si <| si_req_type_ := req_type |> <| si_req_func_type_ := req_func_type_ f |>);;
  mret f.

(** Re-send the first response packet of the current request. *)
Definition resend_resp (s : sref) (pkt_idx : Z) : MR unit :=
  enqueue_pkt_tx_burst_st s pkt_idx None;;
  drain_tx_batch_and_dma_queue.

Definition copy_small_req (s : sref) (pkt : Z) (h : pkthdr_t) : MR unit :=
  mb ← alloc_msg_buffer (msg_size_ h);
  upd_si s (fun si => si <| req_msgbuf_ := mb |>);;
  copy_from_pkt mb pkt (msg_size_ h).

Definition process_small_req_st (s : sref) (pkt : Z) : MR unit :=
  assert_dispatch;;
  h ← hdr_at pkt;
  sl ← get_sslot s;
  if req_num_ h <=? cur_req_num_ sl then
    if req_num_ h <? cur_req_num_ sl then mret tt
    else if bool_decide (tx_msgbuf_ sl = None) then mret tt
    else resend_resp s 0
  else
    assert_ (req_num_ h =? add64 (cur_req_num_ sl) kSessionReqWindow) "process_small_req: req_num";;
    si ← get_si s;
    assert_ (is_buried (req_msgbuf_ si)) "process_small_req: buried";;
    bury_resp_msgbuf_server_st s;;
    upd_sslot s (fun sl => sl <| cur_req_num_ := req_num_ h |>);;
    upd_si s (fun si => si <| si_num_rx_ := 1 |>);;
    f ← set_pending s (req_type_ h);
    if negb (is_background f) then
      (if kZeroCopyRX then
         upd_si s (fun si => si <| req_msgbuf_ := MsgBuffer_fake pkt (msg_size_ h) |>)
       else copy_small_req s pkt h);;
      call_req_func f s
    else
      copy_small_req s pkt h;;
      submit_bg_req_st s.

(** Packets that are neither the next of this request nor the first of the next. *)
Definition large_req_reordered (s : sref) (h : pkthdr_t) : MR unit :=
  sl ← get_sslot s;
  si ← get_si s;
  if negb (req_num_ h =? cur_req_num_ sl) || (si_num_rx_ si <? pkt_num_ h) then mret tt
  else if negb (pkt_num_ h =? data_size_to_num_pkts (msg_size_ h) - 1) then enqueue_cr_st s h
  else if bool_decide (tx_msgbuf_ sl = None) then mret tt
  else resend_resp s 0.

(** The request's buffer: allocated for packet 0. *)
Definition large_req_first (s : sref) (h : pkthdr_t) : MR unit :=
  si ← get_si s;
  assert_ (is_buried (req_msgbuf_ si)) "process_large_req: buried";;
  bury_resp_msgbuf_server_st s;;
  mb ← alloc_msg_buffer (msg_size_ h);
  upd_si s (fun si => si <| req_msgbuf_ := mb |>);;
  assert_ (negb (buf_ mb =? 0)) "process_large_req: alloc";;
  upd_sslot s (fun sl => sl <| cur_req_num_ := req_num_ h |>);;
  upd_si s (fun si => si <| si_num_rx_ := 1 |>).

Definition process_large_req_one_st (s : sref) (pkt : Z) : MR unit :=
  assert_dispatch;;
  h ← hdr_at pkt;
  sl ← get_sslot s;
  si ← get_si s;
  let is_next_pkt_same_req := (req_num_ h =? cur_req_num_ sl) && (pkt_num_ h =? si_num_rx_ si) in
  let is_first_pkt_next_req :=
    (req_num_ h =? add64 (cur_req_num_ sl) kSessionReqWindow) && (pkt_num_ h =? 0) in
  if negb (is_next_pkt_same_req || is_first_pkt_next_req) then large_req_reordered s h
  else
    (if pkt_num_ h =? 0 then large_req_first s h
     else upd_si s (fun si => si <| si_num_rx_ ::= fun n => add64 n 1 |>));;
    si ← get_si s;
    let req_msgbuf := req_msgbuf_ si in
    when (negb (pkt_num_ h =? sub64 (num_pkts_ req_msgbuf) 1)) (enqueue_cr_st s h);;
    mem_mod (copy_data_to_msgbuf req_msgbuf (pkt_num_ h) pkt);;
    if negb (si_num_rx_ si =? num_pkts_ req_msgbuf) then mret tt
    else
      f ← set_pending s (req_type_ h);
      if negb (is_background f) then call_req_func f s else submit_bg_req_st s.

(** ** Server: requests for response *)
Definition process_rfr_st (s : sref) (pkt : Z) : MR unit :=
  assert_dispatch;;
  h ← hdr_at pkt;
  sl ← get_sslot s;
  assert_ (negb (is_client_ sl)) "process_rfr: client";;
  si ← get_si s;
  assert_ (req_num_ h <=? cur_req_num_ sl) "process_rfr: req_num";;
  let in_order := (req_num_ h =? cur_req_num_ sl) && (pkt_num_ h =? si_num_rx_ si) in
  if negb in_order then
    if (req_num_ h <? cur_req_num_ sl) || (si_num_rx_ si <? pkt_num_ h) then mret tt
    else resend_resp s (resp_ntoi (pkt_num_ h) (sav_num_req_pkts_ si))
  else
    upd_si s (fun si => si <| si_num_rx_ ::= fun n => add64 n 1 |>);;
    enqueue_pkt_tx_burst_st s (resp_ntoi (pkt_num_ h) (sav_num_req_pkts_ si)) None.

(** ** Client: credit returns and responses *)

(** The bookkeeping of an in-order packet. *)
Definition client_rx_update (s : sref) (h : pkthdr_t) (rx_tsc : Z) : MR unit :=
  when kCcRateComp (update_timely_rate s (pkt_num_ h) rx_tsc);;
  bump_credits s.1;;
  tsc ← gets r_ev_loop_tsc;
  upd_ci s (fun ci => ci <| num_rx_ ::= fun n => add64 n 1 |> <| progress_tsc_ := tsc |>).

Definition process_expl_cr_st (s : sref) (pkt rx_tsc : Z) : MR unit :=
  assert_dispatch;;
  h ← hdr_at pkt;
  sl ← get_sslot s;
  assert_ (req_num_ h <=? cur_req_num_ sl) "process_expl_cr: req_num";;
  ok ← in_order_client s h;
  if negb ok then mret tt
  else
    client_rx_update s h rx_tsc;;
    b ← req_pkts_pending s;
    when b (kick_req_st s).

(** The whole response is here: free the slot, start a backlogged request, and
    run or queue the continuation. *)
Definition complete_request (s : sref) : MR unit :=
  ci ← get_ci s;
  assert_ (wheel_count_ ci =? 0) "process_resp: wheel_count";;
  upd_sslot s (fun sl => sl <| tx_msgbuf_ := None |>);;
  delete_from_active_rpc_list s;;
  se ← get_session s.1;
  sl ← get_sslot s;
  v ← fv_push_back (index_ sl) (sslot_free_vec_ se);
  upd_session s.1 (fun se => se <| sslot_free_vec_ := v |>);;
  match enq_req_backlog_ se with
  | [] => mret tt
  | args :: _ =>
      assert_ (fv_size v =? 1) "process_resp: free slots with a backlog";;
      enqueue_request args;;
      upd_session s.1 (fun se => se <| enq_req_backlog_ ::= tail |>)
  end;;
  if cont_etid_ ci =? kInvalidBgETid then call_cont (cont_func_ ci) (tag_ ci)
  else submit_bg_resp_st (cont_func_ ci) (tag_ ci) (cont_etid_ ci).

(** A single-packet response: header and data are copied together. *)
Definition copy_small_resp (resp_p : mbptr) (pkt : Z) (h : pkthdr_t) : MR unit :=
  resize_mb resp_p (msg_size_ h);;
  resp ← get_mb resp_p;
  mem_mod (copy_ehdr pkt (get_pkthdr_0 resp));;
  mem_mod (memcpy (buf_ resp) (pkt + sizeof_pkthdr) (msg_size_ h)).

(** One packet of a multi-packet response; whether it is the last. *)
Definition large_resp_one (s : sref) (resp_p : mbptr) (pkt : Z) (h : pkthdr_t) : MR bool :=
  sl ← get_sslot s;
  req ← get_mb_opt (tx_msgbuf_ sl);
  when (pkt_num_ h =? sub64 (num_pkts_ req) 1) (
    resize_mb resp_p (msg_size_ h);;
    resp ← get_mb resp_p;
    mem_mod (copy_ehdr pkt (get_pkthdr_0 resp)));;
  resp ← get_mb resp_p;
  ci ← get_ci s;
  when (negb (num_tx_ ci =? wire_pkts req resp)) (kick_rfr_st s);;
  mem_mod (copy_data_to_msgbuf resp (resp_ntoi (pkt_num_ h) (num_pkts_ req)) pkt);;
  mret (num_rx_ ci =? wire_pkts req resp).

Definition process_resp_one_st (s : sref) (pkt rx_tsc : Z) : MR unit :=
  assert_dispatch;;
  h ← hdr_at pkt;
  sl ← get_sslot s;
  assert_ (req_num_ h <=? cur_req_num_ sl) "process_resp: req_num";;
  ok ← in_order_client s h;
  if negb ok then mret tt
  else
    ci ← get_ci s;
    resp_p ← deref (resp_msgbuf_ ci) "resp_msgbuf_";
    client_rx_update s h rx_tsc;;
    fin ← (if msg_size_ h <=? kMaxDataPerPkt then copy_small_resp resp_p pkt h;; mret true
           else large_resp_one s resp_p pkt h);
    when fin (complete_request s).

(** ** The receive loop *)

(** [transport_->rx_burst()]: the NIC has written the batch to the ring. *)
Definition write_rx (a : Z) (p : rx_pkt) (m : Mem) : Mem :=
  write_bytes (a + sizeof_pkthdr) (rx_data p) (write_hdr a (rx_hdr p) m).
Fixpoint rx_deliver (i : Z) (ps : list rx_pkt) : MR unit :=
  match ps with
  | [] => mret tt
  | p :: ps =>
      h ← gets r_rx_ring_head;
      ring ← gets r_rx_ring;
      a ← deref (zlookup ring ((h + i) mod kNumRxRingEntries)) "rx_ring_";
      mem_mod (write_rx a p);;
      rx_deliver (i + 1) ps
  end.
Definition rx_burst : MR Z :=
  bs ← gets r_nic_rx;
  match bs with
  | [] => mret 0
  | b :: bs =>
      modify (fun r => r <| r_nic_rx := bs |>);;
      rx_deliver 0 b;;
      mret (zlength b)
  end.

(** The dispatch of a valid packet to its handler. *)
Definition dispatch_pkt (s : sref) (pkt batch_rx_tsc : Z) (h : pkthdr_t) : MR unit :=
  let now := if kCcOptBatchTsc then mret batch_rx_tsc else rdtsc in
  if pkt_type_ h =? kReq then
    if msg_size_ h <=? kMaxDataPerPkt then process_small_req_st s pkt
    else process_large_req_one_st s pkt
  else if pkt_type_ h =? kResp then rx_tsc ← now; process_resp_one_st s pkt rx_tsc
  else if pkt_type_ h =? kRFR then process_rfr_st s pkt
  else if pkt_type_ h =? kExplCR then rx_tsc ← now; process_expl_cr_st s pkt rx_tsc
  else mret tt.

Definition process_comp_one : MR unit :=
  head ← gets r_rx_ring_head;
  ring ← gets r_rx_ring;
  pkt ← deref (zlookup ring head) "rx_ring_";
  modify (fun r => r <| r_rx_ring_head := (head + 1) mod kNumRxRingEntries |>);;
  h ← hdr_at pkt;
  if negb (check_magic h) then mret tt
  else
    assert_ (msg_size_ h <=? kMaxMsgSize) "process_comps: msg_size";;
    v ← gets r_session_vec;
    match zlookup v (dest_session_num_ h) with
    | None => mret tt                 (* yet to be connected *)
    | Some None => mret tt            (* buried *)
    | Some (Some se) =>
        if negb (is_connected se) then mret tt
        else
          batch_rx_tsc ← gets r_ev_loop_tsc;
          dispatch_pkt (dest_session_num_ h, req_num_ h mod kSessionReqWindow) pkt batch_rx_tsc h
    end.

Definition process_comps_st : MR unit :=
  assert_dispatch;;
  num_pkts ← rx_burst;
  if num_pkts =? 0 then mret tt
  else
    modify (fun r => r <| r_dpath_stats ::= fun d =>
      d <| ds_rx_burst_calls ::= fun n => dpath_stat_inc n 1 |>
        <| ds_pkts_rx ::= fun n => dpath_stat_inc n num_pkts |> |>);;
    mrepeat (Z.to_nat num_pkts) process_comp_one;;
    emit (EvPostRecvs num_pkts).

(** ** Background threads: [nexus_bg_thread.cc]

    One work item of thread [bg_thread_index]; the thread's calls see its own
    eRPC thread ID. *)
Definition run_bg_item (wi : BgWorkItem) : MR unit :=
  match wi with
  | BgReq s =>
      si ← get_si s;
      f ← deref (zlookup c_req_func_arr (si_req_type_ si)) "req_func_arr";
      call_req_func f s
  | BgResp cont_func tag => call_cont cont_func tag
  end.

Definition bg_thread_step (bg_thread_index : Z) : MR unit :=
  q ← gets r_bg_req_queue_arr;
  l ← deref (zlookup q bg_thread_index) "bg_req_queue_";
  match l with
  | [] => mret tt
  | wi :: l =>
      modify (fun r => r <| r_bg_req_queue_arr ::= zinsert bg_thread_index l |>);;
      etid ← get_etid;
      modify (fun r => r <| r_etid := bg_thread_index |>);;
      run_bg_item wi;;
      modify (fun r => r <| r_etid := etid |>)
  end.
End Rx.
