(* ===== verification/RpcSm.v ===== *)
(** * Session management: [rpc_connect_handlers.cc],
    [rpc_disconnect_handlers.cc], [rpc_reset_handlers.cc], and
    [handle_sm_rx_st], [bury_session_st] of [rpc_sm_helpers.cc] *)
From S2P Require Import Prelude Config HugeAlloc PktHdr Msg SmTypes Timer Timely MemPool TimingWheel Session RpcState RpcBase RpcTx RpcApi RpcRx.

Section Sm.
Context {T : TTr} {Os : ShmOs} {C : RpcConf} {W : World} {A : App}.

(** [sm_handler_(session_num, event, err, context_)] *)
Definition call_sm_handler (session_num : Z) (ev : SmEventType) (e : SmErrType) : MR unit :=
  emit (EvSmHandler session_num ev e);;
  run_user (app_sm session_num ev e).

Definition bury_session_st (sid : Z) : MR unit :=
  assert_dispatch;;
  se ← get_session sid;
  when (is_server se) (miter (fun sl => free_msg_buffer (pre_resp_msgbuf_ sl)) (sslot_arr_ se));;
  v ← gets r_session_vec;
  rt_assert (local_session_num_ se <? zlength v) "vector::at";;
  modify (fun r => r <| r_session_vec ::= zinsert (local_session_num_ se) None |>).

(** [resolve_remote_routing_info], unless a fault is injected. *)
Definition resolve_rinfo (ri : routing_info_t) : MR (option routing_info_t) :=
  f ← gets r_faults;
  mret (if kTesting && fail_resolve_rinfo_ f then None else w_resolve ri).

Definition send_resp (p : SmPkt) (e : SmErrType) : MR unit :=
  q ← sm_construct_resp p e; sm_pkt_udp_tx_st q.

(** ** Connect requests *)

(** The preallocated response buffers of a new server session; [None] when one
    cannot be allocated, after the others have been freed. *)
Fixpoint alloc_pre_resps (n : nat) (size : Z) (acc : list MsgBuffer) : MR (option (list MsgBuffer)) :=
  match n with
  | O => mret (Some acc)
  | S n =>
      mb ← alloc_msg_buffer size;
      if buf_ mb =? 0 then
        miter (fun m =>
          assert_ (negb (buf_ m =? 0)) "connect_req: prealloc";; free_msg_buffer m) acc;;
        mret None
      else alloc_pre_resps n size (acc ++ [mb])
  end.

(** The server endpoint of the session that a connect request creates. *)
Definition server_session (se : Session) (p : SmPkt) (bufs : list MsgBuffer)
    (client_rinfo : routing_info_t) (num : Z) : Session :=
  se <| state_ := kConnected |>
     <| sslot_arr_ ::= zip_with (fun b sl => sl <| pre_resp_msgbuf_ := b |>) bufs |>
     <| server_ := (sm_server_ p) <| session_num_ := num |> <| routing_info_ := w_local_rinfo |> |>
     <| client_ := (sm_client_ p) <| routing_info_ := client_rinfo |> |>
     <| local_session_num_ := num |>
     <| remote_session_num_ := session_num_ (sm_client_ p) |>.

Definition connect_new (p : SmPkt) (client_rinfo : routing_info_t) : MR unit :=
  tsc ← rdtsc;
  se ← Session_new kServer (sm_uniq_token_ p) c_freq_ghz w_bandwidth tsc;
  size ← gets r_pre_resp_msgbuf_size;
  bufs ← alloc_pre_resps (Z.to_nat kSessionReqWindow) size [];
  match bufs with
  | None => send_resp p kOutOfMemory
  | Some bufs =>
      num ← gets (fun r => u16 (zlength (r_session_vec r)));
      let se := server_session se p bufs client_rinfo num in
      modify (fun r => r <| r_conn_req_token_map ::= <[uniq_token_ se := num]> |>);;
      alloc_ring_entries;;
      modify (fun r => r <| r_session_vec ::= fun v => v ++ [Some se] |>);;
      q ← sm_construct_resp p kNoError;
      sm_pkt_udp_tx_st (q <| sm_server_ := server_ se |>)
  end.

(** A request whose token is already known. *)
Definition connect_duplicate (p : SmPkt) (srv_session_num : Z) : MR unit :=
  v ← gets r_session_vec;
  assert_ (srv_session_num <? zlength v) "connect_req: session_vec";;
  o ← gets (fun r => sess_at r srv_session_num);
  match o with
  | Some se =>
      if negb (is_connected se) then mret tt
      else
        q ← sm_construct_resp p kNoError;
        sm_pkt_udp_tx_st (q <| sm_server_ := server_ se |>)
  | None => mret tt
  end.

Definition handle_connect_req_st (p : SmPkt) : MR unit :=
  assert_dispatch;;
  assert_ (bool_decide (sm_pkt_type_ p = kConnectReq)
           && (rpc_id_ (sm_server_ p) =? c_rpc_id)) "connect_req: packet";;
  m ← gets r_conn_req_token_map;
  match m !! sm_uniq_token_ p with
  | Some srv_session_num => connect_duplicate p srv_session_num
  | None =>
      if negb (bool_decide (transport_type_ (sm_server_ p) = c_transport_type)) then
        send_resp p kInvalidTransport
      else
        b ← have_ring_entries;
        if negb b then send_resp p kRingExhausted
        else
          ri ← resolve_rinfo (routing_info_ (sm_client_ p));
          match ri with
          | None => send_resp p kRoutingResolutionFailure
          | Some client_rinfo => connect_new p client_rinfo
          end
  end.

(** ** Connect responses *)

(** An error response: give up, unless the remote Rpc may yet appear. *)
Definition connect_failed (sid : Z) (se : Session) (e : SmErrType) : MR unit :=
  free_ring_entries;;
  call_sm_handler (local_session_num_ se) Event_kConnectFailed e;;
  bury_session_st sid.

Definition connect_succeeded (sid : Z) (se : Session) (p : SmPkt) : MR unit :=
  ri ← resolve_rinfo (routing_info_ (sm_server_ p));
  match ri with
  | None =>
      upd_session sid (fun se => se <| server_ := sm_server_ p |>
                                    <| state_ := kDisconnectInProgress |>);;
      send_sm_req_st sid
  | Some srv_routing_info =>
      tsc ← rdtsc;
      upd_session sid (fun se =>
        se <| server_ := (sm_server_ p) <| routing_info_ := srv_routing_info |> |>
           <| remote_session_num_ := session_num_ (sm_server_ p) |>
           <| state_ := kConnected |> <| prev_desired_tx_tsc_ := tsc |>);;
      call_sm_handler (local_session_num_ se) Event_kConnected kNoError
  end.

Definition handle_connect_resp_st (p : SmPkt) : MR unit :=
  assert_dispatch;;
  assert_ (bool_decide (sm_pkt_type_ p = kConnectResp)
           && (rpc_id_ (sm_client_ p) =? c_rpc_id)) "connect_resp: packet";;
  let session_num := session_num_ (sm_client_ p) in
  v ← gets r_session_vec;
  assert_ (session_num <? zlength v) "connect_resp: session_num";;
  o ← gets (fun r => sess_at r session_num);
  match o with
  | None => mret tt
  | Some se =>
      if negb (bool_decide (state_ se = kConnectInProgress)) then mret tt
      else
        assert_ (is_client se && endpoint_eqb (client_ se) (sm_client_ p)) "connect_resp: client";;
        assert_ (bool_decide (hostname_ (server_ se) = hostname_ (sm_server_ p))) "connect_resp: hostname";;
        assert_ (rpc_id_ (server_ se) =? rpc_id_ (sm_server_ p)) "connect_resp: rpc_id";;
        assert_ (session_num_ (server_ se) =? kInvalidSessionNum) "connect_resp: session_num";;
        retry ← gets r_retry_connect;
        if bool_decide (sm_err_type_ p = kInvalidRemoteRpcId) && retry then
          modify (fun r => r <| r_sm_pending_reqs ::= set_insert (local_session_num_ se) |>)
        else if negb (bool_decide (sm_err_type_ p = kNoError)) then
          connect_failed session_num se (sm_err_type_ p)
        else connect_succeeded session_num se p
  end.

(** ** Disconnects *)

(** Every slot must have finished: the checks of [handle_disconnect_req_st]. *)
Definition check_slot_finished (sid : Z) (i : Z) : MR unit :=
  sl ← get_sslot (sid, i);
  si ← get_si (sid, i);
  assert_ (is_buried (req_msgbuf_ si) && (si_req_type_ si =? kInvalidReqType))
    "disconnect_req: request pending";;
  match tx_msgbuf_ sl with
  | None => mret tt
  | Some p =>
      mb ← get_mb p;
      assert_ (si_num_rx_ si =? sub64 (add64 (sav_num_req_pkts_ si) (num_pkts_ mb)) 1)
        "disconnect_req: response not sent"
  end.

Definition slot_indices : list Z := Z.of_nat <$> seq 0 (Z.to_nat kSessionReqWindow).

Definition handle_disconnect_req_st (p : SmPkt) : MR unit :=
  assert_dispatch;;
  assert_ (bool_decide (sm_pkt_type_ p = kDisconnectReq)
           && (rpc_id_ (sm_server_ p) =? c_rpc_id)) "disconnect_req: packet";;
  let session_num := session_num_ (sm_server_ p) in
  v ← gets r_session_vec;
  assert_ (session_num <? zlength v) "disconnect_req: session_num";;
  o ← gets (fun r => sess_at r session_num);
  match o with
  | None => send_resp p kNoError
  | Some se =>
      assert_ (is_server se && is_connected se) "disconnect_req: session";;
      assert_ (endpoint_eqb (server_ se) (sm_server_ p)) "disconnect_req: server";;
      assert_ (endpoint_eqb (client_ se) (sm_client_ p)) "disconnect_req: client";;
      miter (check_slot_finished session_num) slot_indices;;
      free_ring_entries;;
      send_resp p kNoError;;
      bury_session_st session_num
  end.

Definition handle_disconnect_resp_st (p : SmPkt) : MR unit :=
  assert_dispatch;;
  assert_ (bool_decide (sm_pkt_type_ p = kDisconnectResp)
           && (rpc_id_ (sm_client_ p) =? c_rpc_id)) "disconnect_resp: packet";;
  assert_ (bool_decide (sm_err_type_ p = kNoError)) "disconnect_resp: error";;
  let session_num := session_num_ (sm_client_ p) in
  v ← gets r_session_vec;
  assert_ (session_num <? zlength v) "disconnect_resp: session_num";;
  o ← gets (fun r => sess_at r session_num);
  match o with
  | None => mret tt
  | Some se =>
      assert_ (is_client se) "disconnect_resp: client session";;
      assert_ (bool_decide (state_ se = kDisconnectInProgress)) "disconnect_resp: state";;
      assert_ (endpoint_eqb (client_ se) (sm_client_ p)) "disconnect_resp: client";;
      assert_ (endpoint_eqb (server_ se) (sm_server_ p)) "disconnect_resp: server";;
      free_ring_entries;;
      call_sm_handler (local_session_num_ se) Event_kDisconnected kNoError;;
      bury_session_st session_num
  end.

(** ** Resets *)

(** One slot of the second loop of [handle_reset_client_st]. *)
Definition reset_client_slot (sid : Z) (i : Z) : MR unit :=
  let s := (sid, i) in
  sl ← get_sslot s;
  when (bool_decide (tx_msgbuf_ sl = None)) (
    upd_sslot s (fun sl => sl <| tx_msgbuf_ := None |>);;
    delete_from_active_rpc_list s;;
    se ← get_session sid;
    v ← fv_push_back (index_ sl) (sslot_free_vec_ se);
    upd_session sid (fun se => se <| sslot_free_vec_ := v |>);;
    ci ← get_ci s;
    resp_p ← deref (resp_msgbuf_ ci) "resp_msgbuf_";
    resize_mb resp_p 0;;
    call_cont (cont_func_ ci) (tag_ ci)).

Definition handle_reset_client_st (sid : Z) : MR bool :=
  assert_dispatch;;
  _ ← get_session sid;
  miter (fun i => modify (fun r => r <| r_stallq ::= filter (fun s => s <> (sid, i)) |>)) slot_indices;;
  miter (reset_client_slot sid) slot_indices;;
  se ← get_session sid;
  assert_ (fv_size (sslot_free_vec_ se) =? kSessionReqWindow) "reset_client: free slots";;
  upd_session sid (fun se => se <| state_ := kDisconnectInProgress |>);;
  free_ring_entries;;
  call_sm_handler (local_session_num_ se) Event_kDisconnected kSrvDisconnected;;
  bury_session_st sid;;
  mret true.

Definition pending_enqueue_resps (se : Session) : Z :=
  zlength (filter (fun sl => si_req_type_ (server_info_ sl) <> kInvalidReqType) (sslot_arr_ se)).

Definition handle_reset_server_st (sid : Z) : MR bool :=
  assert_dispatch;;
  se ← get_session sid;
  assert_ (is_server se) "reset_server: server session";;
  upd_session sid (fun se => se <| state_ := kResetInProgress |>);;
  if pending_enqueue_resps se =? 0 then
    free_ring_entries;;
    bury_session_st sid;;
    mret true
  else mret false.

(** ** The SM receive loop

    Responses clear the pending request of their session number. *)
Definition handle_sm_one : MR unit :=
  q ← gets r_sm_rx_queue;
  wi ← deref (head q) "front() of an empty queue";
  modify (fun r => r <| r_sm_rx_queue ::= tail |>);;
  assert_ (negb (wi_is_reset wi)) "handle_sm_rx: reset";;
  match wi with
  | WiReset _ => mret tt
  | WiPkt _ p =>
      when (sm_is_resp p)
        (modify (fun r => r <| r_sm_pending_reqs ::= set_erase (session_num_ (sm_client_ p)) |>));;
      match sm_pkt_type_ p with
      | kConnectReq => handle_connect_req_st p
      | kDisconnectReq => handle_disconnect_req_st p
      | kConnectResp => handle_connect_resp_st p
      | kDisconnectResp => handle_disconnect_resp_st p
      | _ => fail (EThrow "Invalid packet type")
      end
  end.

Definition handle_sm_rx_st : MR unit :=
  assert_dispatch;;
  n ← gets (fun r => length (r_sm_rx_queue r));
  mrepeat n handle_sm_one.
End Sm.
