(* ===== verification/RpcLoop.v ===== *)
(** * Packet loss ([rpc_pkt_loss.cc]) and the event loop ([rpc_ev_loop.cc])

    The branch of the scan that handles a failed server is disabled in the
    code ([if (false)]). *)
From S2P Require Import Prelude Config HugeAlloc PktHdr Msg SmTypes Timer Timely MemPool TimingWheel Session RpcState RpcBase RpcTx RpcApi RpcRx RpcSm.

Section Loop.
Context {T : TTr} {Os : ShmOs} {C : RpcConf} {W : World} {A : App}.

Definition pkt_loss_retransmit_st (s : sref) : MR unit :=
  assert_dispatch;;
  sl ← get_sslot s;
  assert_ (bool_decide (tx_msgbuf_ sl <> None)) "retransmit: tx_msgbuf";;
  ci ← get_ci s;
  se ← get_session s.1;
  let delta := sub64 (num_tx_ ci) (num_rx_ ci) in
  assert_ (add64 (credits_ se) delta <=? kSessionCredits) "retransmit: credits";;
  if delta =? 0 then mret tt
  else
    q ← gets r_stallq;
    assert_ (bool_decide (s ∉ q)) "retransmit: stallq";;
    if 0 <? wheel_count_ ci then
      modify (fun r => r <| r_still_in_wheel ::= fun n => add64 n 1 |>)
    else
      modify (fun r => r <| r_num_re_tx ::= fun n => add64 n 1 |>);;
      upd_session s.1 (fun se => se <| num_re_tx_ ::= fun n => add64 n 1 |>);;
      upd_session s.1 (fun se => se <| credits_ ::= fun c => add64 c delta |>);;
      tsc ← gets r_ev_loop_tsc;
      upd_ci s (fun ci => ci <| num_tx_ := num_rx_ ci |> <| progress_tsc_ := tsc |>);;
      kick_st s.

(** One active RPC of the scan. *)
Definition scan_one (s : sref) : MR unit :=
  ci ← get_ci s;
  if num_tx_ ci =? num_rx_ ci then mret tt
  else
    now ← gets r_ev_loop_tsc;
    when (rpc_rto_cycles <? sub64 now (progress_tsc_ ci)) (
      pkt_loss_retransmit_st s;;
      drain_tx_batch_and_dma_queue).

(** The walk along the list; [n] bounds its length. *)
Fixpoint scan_loop (n : nat) (cur : option aref) : MR unit :=
  match cur with
  | None => fail (ENull "list of active RPCs")
  | Some ATail => mret tt
  | Some ARoot => fail (ENull "list of active RPCs")
  | Some (ASlot s) =>
      match n with
      | O => fail EFuel
      | S n =>
          scan_one s;;
          ci ← get_ci s;
          scan_loop n (ci_next_ ci)
      end
  end.

(** The number of slots in existence bounds the list. *)
Definition num_slots (r : Rpc) : nat :=
  (length (r_session_vec r) * Z.to_nat kSessionReqWindow)%nat.

(** Session management packet loss. *)
Definition scan_sm_one (session_num : Z) : MR unit :=
  o ← gets (fun r => sess_at r session_num);
  match o with
  | None => mret tt
  | Some se =>
      match state_ se with
      | kConnectInProgress | kDisconnectInProgress =>
          now ← rdtsc;
          ms_elapsed ← deref (to_size (to_msec (sub64 now (sm_req_ts_ se)) c_freq_ghz))
                         "double to size_t";
          when (kSMTimeoutMs <? ms_elapsed) (send_sm_req_st session_num)
      | _ => mret tt
      end
  end.

Definition pkt_loss_scan_st : MR unit :=
  assert_dispatch;;
  cur ← gets r_root_next;
  n ← gets num_slots;
  scan_loop n cur;;
  pending ← gets r_sm_pending_reqs;
  miter scan_sm_one pending.

Definition run_event_loop_do_one_st : MR unit :=
  assert_dispatch;;
  modify (fun r => r <| r_dpath_stats ::= fun d =>
    d <| ds_ev_loop_calls ::= fun n => dpath_stat_inc n 1 |> |>);;
  q ← gets r_sm_rx_queue;
  when (0 <? zlength q) handle_sm_rx_st;;
  now ← rdtsc;
  modify (fun r => r <| r_ev_loop_tsc := now |>);;
  process_comps_st;;
  process_credit_stall_queue_st;;
  when kCcPacing process_wheel_st;;
  n ← gets (fun r => zlength (r_tx_batch r));
  when (0 <? n) do_tx_burst_st;;
  when multi_threaded (
    process_bg_queues_enqueue_request_st;;
    process_bg_queues_enqueue_response_st);;
  now ← gets r_ev_loop_tsc;
  last ← gets r_pkt_loss_scan_tsc;
  when (rpc_pkt_loss_scan_cycles <? sub64 now last) (
    modify (fun r => r <| r_pkt_loss_scan_tsc := now |>);;
    pkt_loss_scan_st).

(** [n] bounds the iterations before the clock passes the timeout. *)
Fixpoint event_loop (n : nat) (start_tsc timeout_tsc : Z) : MR unit :=
  match n with
  | O => fail EFuel
  | S n =>
      run_event_loop_do_one_st;;
      now ← gets r_ev_loop_tsc;
      if timeout_tsc <? sub64 now start_tsc then mret tt
      else event_loop n start_tsc timeout_tsc
  end.

Definition run_event_loop_timeout_st (n : nat) (timeout_ms : Z) : MR unit :=
  assert_dispatch;;
  timeout_tsc ← deref (ms_to_cycles (of_size timeout_ms) c_freq_ghz) "double to size_t";
  start_tsc ← rdtsc;
  event_loop n start_tsc timeout_tsc.
End Loop.
