(* ===== verification/RpcWp.v ===== *)
(** * Rules for the Rpc accessors, and states equal up to noise

    The first part gives each accessor of [RpcBase] its weakest-precondition
    rule. The second part defines the normal form [nf] of a state: everything
    that flow control does not depend on (statistics, timestamps, the TX batch,
    packet memory, the rate controller, the links of the list of active RPCs)
    is erased. *)
From S2P Require Import Prelude Config HugeAlloc PktHdr Msg SmTypes Timer Timely MemPool TimingWheel Session RpcState RpcBase.

(** ** Reading after writing *)
Lemma zlookup_zinsert {A} (l : list A) i j x y :
  zlookup l i = Some y -> zlookup (zinsert i x l) j = if decide (i = j) then Some x else zlookup l j.
Proof.
  intros H. case_decide as E.
  - subst. apply zlookup_zinsert_eq. by eapply zlookup_lt.
  - by apply zlookup_zinsert_ne.
Qed.

Lemma sess_at_lookup r sid se :
  sess_at r sid = Some se <-> zlookup (r_session_vec r) sid = Some (Some se).
Proof. unfold sess_at. destruct (zlookup _ _) as [[]|]; cbn; split; congruence. Qed.

Lemma sess_at_put r sid se0 se sid' :
  sess_at r sid = Some se0 ->
  sess_at (put_sess sid se r) sid' = if decide (sid = sid') then Some se else sess_at r sid'.
Proof.
  intros H%sess_at_lookup. unfold sess_at, put_sess. rsimp.
  rewrite (zlookup_zinsert _ _ _ _ _ H). by case_decide.
Qed.

Lemma slot_at_Some r s sl :
  slot_at r s = Some sl <->
  exists se, sess_at r s.1 = Some se /\ zlookup (sslot_arr_ se) s.2 = Some sl.
Proof.
  unfold slot_at. destruct (sess_at r s.1) as [se|]; cbn.
  - split; [eauto|]. by intros (? & [= ->] & ?).
  - split; [done|]. by intros (? & ? & ?).
Qed.

Lemma put_slot_sess r s se sl :
  sess_at r s.1 = Some se ->
  put_slot s sl r = put_sess s.1 (se <| sslot_arr_ ::= zinsert s.2 sl |>) r.
Proof. unfold put_slot. by intros ->. Qed.

Lemma slot_at_put_slot r s sl0 sl s' :
  slot_at r s = Some sl0 ->
  slot_at (put_slot s sl r) s' = if decide (s = s') then Some sl else slot_at r s'.
Proof.
  intros (se & Hse & Hsl)%slot_at_Some.
  rewrite (put_slot_sess _ _ _ _ Hse). unfold slot_at.
  rewrite (sess_at_put _ _ _ _ _ Hse). destruct s as [a b], s' as [a' b']; cbn [fst snd] in *.
  case_decide as E; [subst a'; cbn; rsimp|].
  - rewrite (zlookup_zinsert _ _ _ _ _ Hsl), Hse. cbn.
    repeat case_decide; congruence.
  - case_decide; congruence.
Qed.

Lemma sess_at_put_slot r s se sl sid :
  sess_at r s.1 = Some se ->
  sess_at (put_slot s sl r) sid =
    if decide (s.1 = sid) then Some (se <| sslot_arr_ ::= zinsert s.2 sl |>) else sess_at r sid.
Proof. intros H. rewrite (put_slot_sess _ _ _ _ H). by eapply sess_at_put. Qed.

(** ** Rules *)
Section Rules.
Context {E : err -> Prop}.
Implicit Types r : Rpc.

Lemma wp_get_session sid se (Q : Session -> Rpc -> Prop) r :
  sess_at r sid = Some se -> Q se r -> wpe E (get_session sid) Q r.
Proof. intros H HQ. unfold get_session. do 2 wp_step. by eapply wp_deref. Qed.

Lemma wp_upd_session sid f se (Q : unit -> Rpc -> Prop) r :
  sess_at r sid = Some se -> Q tt (put_sess sid (f se) r) -> wpe E (upd_session sid f) Q r.
Proof. intros H HQ. unfold upd_session. wp_step. by eapply wp_get_session. Qed.

Lemma wp_get_sslot s sl (Q : SSlot -> Rpc -> Prop) r :
  slot_at r s = Some sl -> Q sl r -> wpe E (get_sslot s) Q r.
Proof. intros H HQ. unfold get_sslot. do 2 wp_step. by eapply wp_deref. Qed.

Lemma wp_upd_sslot s f sl (Q : unit -> Rpc -> Prop) r :
  slot_at r s = Some sl -> Q tt (put_slot s (f sl) r) -> wpe E (upd_sslot s f) Q r.
Proof. intros H HQ. unfold upd_sslot. wp_step. by eapply wp_get_sslot. Qed.

Lemma wp_get_ci s sl (Q : ClientInfo -> Rpc -> Prop) r :
  slot_at r s = Some sl -> is_client_ sl = true -> Q (client_info_ sl) r ->
  wpe E (get_ci s) Q r.
Proof. intros H Hc HQ. unfold get_ci. wp_step. eapply wp_get_sslot; [done|]. by rewrite Hc. Qed.

Lemma wp_upd_ci s f sl (Q : unit -> Rpc -> Prop) r :
  slot_at r s = Some sl -> is_client_ sl = true ->
  Q tt (put_slot s (sl <| client_info_ ::= f |>) r) -> wpe E (upd_ci s f) Q r.
Proof. intros H Hc HQ. unfold upd_ci. wp_step. eapply wp_get_sslot; [done|]. by rewrite Hc. Qed.

Lemma wp_get_si s sl (Q : ServerInfo -> Rpc -> Prop) r :
  slot_at r s = Some sl -> is_client_ sl = false -> Q (server_info_ sl) r ->
  wpe E (get_si s) Q r.
Proof. intros H Hc HQ. unfold get_si. wp_step. eapply wp_get_sslot; [done|]. by rewrite Hc. Qed.

Lemma wp_upd_si s f sl (Q : unit -> Rpc -> Prop) r :
  slot_at r s = Some sl -> is_client_ sl = false ->
  Q tt (put_slot s (sl <| server_info_ ::= f |>) r) -> wpe E (upd_si s f) Q r.
Proof. intros H Hc HQ. unfold upd_si. wp_step. eapply wp_get_sslot; [done|]. by rewrite Hc. Qed.

Lemma wp_get_mb p mb (Q : MsgBuffer -> Rpc -> Prop) r :
  mb_at r p = Some mb -> Q mb r -> wpe E (get_mb p) Q r.
Proof. intros H HQ. unfold get_mb. do 2 wp_step. by eapply wp_deref. Qed.

Lemma wp_get_mb_opt o p mb (Q : MsgBuffer -> Rpc -> Prop) r :
  o = Some p -> mb_at r p = Some mb -> Q mb r -> wpe E (get_mb_opt o) Q r.
Proof.
  intros -> H HQ. unfold get_mb_opt. wp_step. eapply wp_deref; [done|]. by eapply wp_get_mb.
Qed.

Lemma wp_set_mb p mb mb' (Q : unit -> Rpc -> Prop) r :
  mb_at r p = Some mb' -> Q tt (put_mb p mb r) -> wpe E (set_mb p mb) Q r.
Proof. intros H HQ. unfold set_mb. wp_step. by eapply wp_get_mb. Qed.

Lemma wp_hdr_at a (Q : pkthdr_t -> Rpc -> Prop) r : Q (m_hdr (r_mem r) a) r -> wpe E (hdr_at a) Q r.
Proof. done. Qed.

Context {T : TTr} {Os : ShmOs} {C : RpcConf} {W : World}.

Lemma wp_assert_dispatch (Q : unit -> Rpc -> Prop) r :
  r_etid r = c_creator_etid -> Q tt r -> wpe E assert_dispatch Q r.
Proof.
  intros H HQ. unfold assert_dispatch, in_dispatch. do 2 wp_step. wp_step; [|done].
  by rewrite H, Z.eqb_refl.
Qed.

Lemma wp_rdtsc (Q : Z -> Rpc -> Prop) r :
  Q (w_tsc (r_tsc_reads r)) (r <| r_tsc_reads ::= S |>) -> wpe E rdtsc Q r.
Proof. done. Qed.
End Rules.

(** ** Normal forms *)
Definition norm_ci (ci : ClientInfo) : ClientInfo :=
  mkClientInfo (resp_msgbuf_ ci) (cont_func_ ci) (tag_ ci) (num_tx_ ci) (num_rx_ ci) 0
    (cont_etid_ ci) None None (in_wheel_ ci) (wheel_count_ ci)
    (replicate (length (tx_ts_ ci)) 0).
Definition norm_sl (sl : SSlot) : SSlot :=
  mkSSlot (pre_resp_msgbuf_ sl) (dyn_resp_msgbuf_ sl) (is_client_ sl) (index_ sl)
    (tx_msgbuf_ sl) (cur_req_num_ sl) (norm_ci (client_info_ sl)) (server_info_ sl).
Definition nil_timely : Timely := Timely_default.
#[global] Opaque nil_timely.
Definition norm_se (se : Session) : Session :=
  mkSession (role_ se) (uniq_token_ se) (se_freq_ghz_ se) (link_bandwidth_ se) (state_ se)
    (client_ se) (server_ se) (norm_sl <$> sslot_arr_ se) (local_session_num_ se)
    (remote_session_num_ se) (credits_ se) (sslot_free_vec_ se) (enq_req_backlog_ se) 0
    nil_timely 0 0.

Definition zero_mem : Mem := mkMem (fun _ => 0) (fun _ => mkPkthdr [] 0 0 0 0 0 0 0).
Definition nil_alloc : HugeAlloc := mkHugeAlloc [] [] 0 0 0 0.
Definition nil_wheel : TimingWheel :=
  mkWheel 0 0 [] (fun _ => zero_bkt) 0 (mkMemPool 0 [] []) [].

Definition nf (r : Rpc) : Rpc :=
  mkRpc (r_etid r) (fmap (M:=list) (fmap (M:=option) norm_se) (r_session_vec r))
    (r_ring_entries_available r) [] (r_rx_ring r) 0 [] 0 0 None None None None nil_alloc
    (r_ctrl_msgbufs r) 0 0 nil_wheel (r_bg_enqueue_request r) (r_bg_enqueue_response r)
    (r_slow_rand_reads r) (r_sm_rx_queue r) (r_bg_req_queue_arr r)
    (r_conn_req_token_map r) [] (r_faults r) [] (mkDpathStats 0 0 0 0 0) 0 0
    (r_pre_resp_msgbuf_size r) (r_retry_connect r) (r_user_mb r) zero_mem [] O [].

Lemma zlookup_fmap {A B} (f : A -> B) l i : zlookup (f <$> l) i = f <$> zlookup l i.
Proof. unfold zlookup. case_match; [apply list_lookup_fmap|done]. Qed.

Lemma zinsert_fmap {A B} (f : A -> B) l i x : f <$> zinsert i x l = zinsert i (f x) (f <$> l).
Proof. unfold zinsert. case_match; [apply list_fmap_insert|done]. Qed.

Lemma session_vec_nf r :
  r_session_vec (nf r) = fmap (M:=list) (fmap (M:=option) norm_se) (r_session_vec r).
Proof. reflexivity. Qed.

Lemma sess_at_nf r sid : sess_at (nf r) sid = norm_se <$> sess_at r sid.
Proof.
  unfold sess_at. rewrite session_vec_nf, zlookup_fmap. by destruct (zlookup _ _) as [[]|].
Qed.

Lemma slot_at_nf r s : slot_at (nf r) s = norm_sl <$> slot_at r s.
Proof.
  unfold slot_at. rewrite sess_at_nf. destruct (sess_at r s.1) as [se|]; cbn; [|done].
  apply zlookup_fmap.
Qed.

Lemma sess_at_nf_Some r sid se : sess_at r sid = Some se -> sess_at (nf r) sid = Some (norm_se se).
Proof. intros H. by rewrite sess_at_nf, H. Qed.

Lemma slot_at_nf_Some r s sl : slot_at r s = Some sl -> slot_at (nf r) s = Some (norm_sl sl).
Proof. intros H. by rewrite slot_at_nf, H. Qed.

Lemma mb_at_nf r p : mb_at (nf r) p = mb_at r p.
Proof.
  destruct p as [n|s|s|i]; unfold mb_at; [reflexivity| | |reflexivity];
    rewrite slot_at_nf; by destruct (slot_at r s).
Qed.

Lemma nf_put_sess r sid se : nf (put_sess sid se r) = put_sess sid (norm_se se) (nf r).
Proof.
  assert (E : forall v, nf (r <| r_session_vec := v |>)
    = (nf r) <| r_session_vec := fmap (M:=list) (fmap (M:=option) norm_se) v |>)
    by (intros v; destruct r; reflexivity).
  transitivity (nf (r <| r_session_vec := zinsert sid (Some se) (r_session_vec r) |>));
    [destruct r; reflexivity|].
  rewrite E, zinsert_fmap. change (norm_se <$> Some se) with (Some (norm_se se)).
  rewrite <- session_vec_nf. generalize (norm_se se), (nf r). reflexivity.
Qed.

Lemma sslot_arr_norm se : sslot_arr_ (norm_se se) = norm_sl <$> sslot_arr_ se.
Proof. destruct se. reflexivity. Qed.

Lemma norm_se_arr se v :
  norm_se (se <| sslot_arr_ := v |>) = (norm_se se) <| sslot_arr_ := norm_sl <$> v |>.
Proof. destruct se. reflexivity. Qed.
Lemma sslot_arr_upd (se : Session) f :
  se <| sslot_arr_ ::= f |> = se <| sslot_arr_ := f (sslot_arr_ se) |>.
Proof. destruct se. reflexivity. Qed.

Lemma norm_se_zinsert se i sl :
  norm_se (se <| sslot_arr_ ::= zinsert i sl |>)
  = (norm_se se) <| sslot_arr_ ::= zinsert i (norm_sl sl) |>.
Proof.
  rewrite (sslot_arr_upd se), norm_se_arr, zinsert_fmap, <- sslot_arr_norm.
  symmetry. apply sslot_arr_upd.
Qed.

Lemma nf_put_slot r s sl : nf (put_slot s sl r) = put_slot s (norm_sl sl) (nf r).
Proof.
  unfold put_slot. rewrite sess_at_nf. destruct (sess_at r s.1) as [se|]; cbn; [|done].
  by rewrite nf_put_sess, norm_se_zinsert.
Qed.

Lemma put_sess_same r sid se : sess_at r sid = Some se -> put_sess sid se r = r.
Proof.
  intros H%sess_at_lookup. unfold put_sess, update, u_session_vec. destruct r; cbn in *. f_equal.
  unfold zlookup, zinsert in *. case_match; [|done]. by apply list_insert_id.
Qed.

Lemma put_slot_same r s sl : slot_at r s = Some sl -> put_slot s sl r = r.
Proof.
  intros (se & Hse & Hsl)%slot_at_Some. rewrite (put_slot_sess _ _ _ _ Hse).
  replace (se <| sslot_arr_ ::= zinsert s.2 sl |>) with se; [by apply put_sess_same|].
  unfold update; destruct se; cbn in *. f_equal.
  unfold zlookup, zinsert in *. case_match; [|done]. symmetry. by apply list_insert_id.
Qed.

Lemma put_slot_put_slot r s sl0 sl sl' :
  slot_at r s = Some sl0 -> put_slot s sl' (put_slot s sl r) = put_slot s sl' r.
Proof.
  intros (se & Hse & Hsl)%slot_at_Some.
  rewrite (put_slot_sess (put_slot s sl r) s (se <| sslot_arr_ ::= zinsert s.2 sl |>)).
  2:{ rewrite (sess_at_put_slot _ _ _ _ _ Hse). by case_decide. }
  rewrite !(put_slot_sess _ _ _ _ Hse). unfold put_sess, update, u_session_vec.
  destruct r, se; cbn in *. f_equal.
  by rewrite !zinsert_zinsert.
Qed.

(** A slot update that only touches noise is invisible. *)
Lemma nf_put_slot_noise r s sl sl' :
  slot_at r s = Some sl -> norm_sl sl' = norm_sl sl -> nf (put_slot s sl' r) = nf r.
Proof.
  intros H Hn. rewrite nf_put_slot, Hn. apply put_slot_same. by apply slot_at_nf_Some.
Qed.
Lemma nf_put_sess_noise r sid se se' :
  sess_at r sid = Some se -> norm_se se' = norm_se se -> nf (put_sess sid se' r) = nf r.
Proof.
  intros H Hn. rewrite nf_put_sess, Hn. apply put_sess_same. by apply sess_at_nf_Some.
Qed.

(** ** The list's links *)
Definition next_at (r : Rpc) (a : aref) : option aref :=
  match a with
  | ARoot => r_root_next r
  | ATail => r_tail_next r
  | ASlot s => sl ← slot_at r s; if is_client_ sl then ci_next_ (client_info_ sl) else None
  end.
Definition prev_at (r : Rpc) (a : aref) : option aref :=
  match a with
  | ARoot => r_root_prev r
  | ATail => r_tail_prev r
  | ASlot s => sl ← slot_at r s; if is_client_ sl then ci_prev_ (client_info_ sl) else None
  end.
Definition same_links (r r' : Rpc) : Prop :=
  forall a, next_at r' a = next_at r a /\ prev_at r' a = prev_at r a.

#[export] Instance same_links_preorder : PreOrder same_links.
Proof.
  split; [by intros r a|]. intros r1 r2 r3 L1 L2 a. destruct (L1 a), (L2 a). split; congruence.
Qed.

(** States that differ in noise only. *)
Definition quiet (r r' : Rpc) : Prop := nf r' = nf r /\ same_links r r'.

#[export] Instance quiet_preorder : PreOrder quiet.
Proof.
  split; [by intros r; split|].
  intros r1 r2 r3 [H1 L1] [H2 L2]. split; [congruence|by etrans].
Qed.

Lemma same_links_put_slot r s sl sl' :
  slot_at r s = Some sl -> is_client_ sl' = is_client_ sl ->
  ci_next_ (client_info_ sl') = ci_next_ (client_info_ sl) ->
  ci_prev_ (client_info_ sl') = ci_prev_ (client_info_ sl) ->
  same_links r (put_slot s sl' r).
Proof.
  intros H Hc Hn Hp a. pose proof H as (se & Hse & _)%slot_at_Some.
  destruct a as [| |s']; cbn [next_at prev_at];
    [rewrite (put_slot_sess _ _ _ _ Hse); by split..|].
  rewrite (slot_at_put_slot _ _ _ _ _ H). case_decide as E; [subst s'|done].
  rewrite H; cbn. by rewrite Hc, Hn, Hp.
Qed.

Lemma same_links_put_sess r sid se se' :
  sess_at r sid = Some se -> sslot_arr_ se' = sslot_arr_ se -> same_links r (put_sess sid se' r).
Proof.
  intros H Ha a. destruct a as [| |s']; cbn [next_at prev_at]; [by split..|].
  assert (E : slot_at (put_sess sid se' r) s' = slot_at r s'); [|by rewrite E].
  unfold slot_at. rewrite (sess_at_put _ _ _ _ _ H). case_decide as D; [|done].
  subst. rewrite H; cbn. by rewrite Ha.
Qed.

Lemma quiet_put_slot r s sl sl' :
  slot_at r s = Some sl -> norm_sl sl' = norm_sl sl ->
  ci_next_ (client_info_ sl') = ci_next_ (client_info_ sl) ->
  ci_prev_ (client_info_ sl') = ci_prev_ (client_info_ sl) ->
  quiet r (put_slot s sl' r).
Proof.
  intros H Hn H1 H2. split; [by eapply nf_put_slot_noise|].
  eapply same_links_put_slot; try done. by apply (f_equal is_client_) in Hn.
Qed.

Lemma quiet_put_sess r sid se se' :
  sess_at r sid = Some se -> norm_se se' = norm_se se -> sslot_arr_ se' = sslot_arr_ se ->
  quiet r (put_sess sid se' r).
Proof.
  intros H Hn Ha. split; [by eapply nf_put_sess_noise|]. by eapply same_links_put_sess.
Qed.

(** What survives noise. *)
Lemma quiet_slot r r' s sl :
  quiet r r' -> slot_at r s = Some sl ->
  exists sl', slot_at r' s = Some sl' /\ norm_sl sl' = norm_sl sl.
Proof.
  intros [Hn _] H%slot_at_nf_Some. rewrite <- Hn, slot_at_nf in H.
  destruct (slot_at r' s) as [sl'|]; [|done].
  exists sl'. split; [done|]. exact (f_equal (default (norm_sl sl)) H).
Qed.
Lemma quiet_sess r r' sid se :
  quiet r r' -> sess_at r sid = Some se ->
  exists se', sess_at r' sid = Some se' /\ norm_se se' = norm_se se.
Proof.
  intros [Hn _] H%sess_at_nf_Some. rewrite <- Hn, sess_at_nf in H.
  destruct (sess_at r' sid) as [se'|]; [|done].
  exists se'. split; [done|]. exact (f_equal (default (norm_se se)) H).
Qed.
Lemma quiet_mb r r' p : quiet r r' -> mb_at r' p = mb_at r p.
Proof. intros [Hn _]. by rewrite <- (mb_at_nf r'), Hn, mb_at_nf. Qed.
Lemma quiet_etid r r' : quiet r r' -> r_etid r' = r_etid r.
Proof. intros [Hn _]. apply (f_equal r_etid) in Hn. exact Hn. Qed.
