(* ===== verification/ClientInv.v ===== *)
(** * The client's invariant: flow control, slots, buffers, lists

    [CI] is a property of normal forms ([RpcWp.nf]). For every client session,
    the available credits and the packets in flight of its slots add up to
    [kSessionCredits]; a slot is free exactly if it is in the free vector; every
    active request is stalled or has a packet in flight; message buffers have
    one owner; the wheel holds exactly the packets that the slots' bits name.

    A [ghost] says what the invariant may assume while an operation runs: the
    stall queue, a slot exempt from progress (it may have received everything), a session exempt from the backlog
    clause, the backlogs still to be served, and the entries of the wheel. *)
From S2P Require Import Prelude Config HugeAlloc PktHdr Msg SmTypes Timer Timely MemPool TimingWheel WheelChain WheelSpec Session RpcState RpcBase RpcWp.

Record ghost := mkGhost {
  g_sq : list sref;
  g_x : option sref;
  g_bf : option Z;
  g_bl : Z -> list enq_req_args_t -> list enq_req_args_t;
  g_ents : list wheel_ent_t;
}.

Section Inv.
Context {T : TTr} {Os : ShmOs} {C : RpcConf}.

Abbreviation UB := (gmap Z MsgBuffer).

(** ** Buffers *)
Record umb_ok (mb : MsgBuffer) : Prop := {
  um_data : 0 <= data_size_ mb <= max_data_size_ mb;
  um_max : max_data_size_ mb <= kMaxMsgSize;
  um_pkts : num_pkts_ mb = data_size_to_num_pkts (data_size_ mb);
  um_maxp : max_num_pkts_ mb = data_size_to_num_pkts (max_data_size_ mb);
}.
Definition claim_ok (ub : UB) (p : mbptr) : Prop :=
  exists n mb, p = MbUser n /\ ub !! n = Some mb /\ umb_ok mb.

(** Packets of the buffer a pointer points to. *)
Definition npk (ub : UB) (p : option mbptr) : Z :=
  match p with Some (MbUser n) => default 0 (num_pkts_ <$> ub !! n) | _ => 0 end.

(** ** Slots *)
Definition win (sl : SSlot) : Z := num_tx_ (client_info_ sl) - num_rx_ (client_info_ sl).

(** Packets the request sends in all, as far as is known: the request packets,
    and once a response packet has arrived also the requests for response. *)
Definition total (N M rx : Z) : Z := if rx <? N then N else N + M - 1.
Definition tot (ub : UB) (sl : SSlot) : Z :=
  total (npk ub (tx_msgbuf_ sl)) (npk ub (resp_msgbuf_ (client_info_ sl)))
    (num_rx_ (client_info_ sl)).

Definition count_true (l : list bool) : Z := zsum Z.b2z l.

(** The thread that runs a continuation: the creator, or a background thread. *)
Definition etid_ok (e : Z) : Prop := e = kInvalidBgETid \/ 0 <= e < c_num_bg_threads.

Record slot_ok (g : ghost) (ub : UB) (s : sref) (sl : SSlot) : Prop := {
  so_index : index_ sl = s.2;
  so_iw : length (in_wheel_ (client_info_ sl)) = Z.to_nat kSessionCredits;
  so_ts : length (tx_ts_ (client_info_ sl)) = Z.to_nat kSessionCredits;
  so_rx : 0 <= num_rx_ (client_info_ sl) <= num_tx_ (client_info_ sl);
  so_idle : tx_msgbuf_ sl = None -> num_tx_ (client_info_ sl) = num_rx_ (client_info_ sl);
  so_tot : tx_msgbuf_ sl <> None ->
    num_tx_ (client_info_ sl) <= tot ub sl /\
    (num_rx_ (client_info_ sl) < tot ub sl \/ g_x g = Some s);
  so_resp : tx_msgbuf_ sl <> None -> resp_msgbuf_ (client_info_ sl) <> None;
  so_prog : tx_msgbuf_ sl <> None ->
    s ∈ g_sq g \/ g_x g = Some s \/ num_rx_ (client_info_ sl) < num_tx_ (client_info_ sl);
  so_wc : wheel_count_ (client_info_ sl) = count_true (in_wheel_ (client_info_ sl));
  so_bits k : zlookup (in_wheel_ (client_info_ sl)) k = Some true ->
    exists e, e ∈ g_ents g /\ we_sslot e = s /\ we_pkt_num e mod kSessionCredits = k;
  so_etid : tx_msgbuf_ sl <> None -> etid_ok (cont_etid_ (client_info_ sl));
}.

(** An entry of the wheel: a request packet in flight, with its bit set. *)
Definition ent_ok (ub : UB) (sl : SSlot) (e : wheel_ent_t) : Prop :=
  is_client_ sl = true /\
  num_rx_ (client_info_ sl) <= we_pkt_num e < num_tx_ (client_info_ sl) /\
  we_pkt_num e < npk ub (tx_msgbuf_ sl) /\
  zlookup (in_wheel_ (client_info_ sl)) (we_pkt_num e mod kSessionCredits) = Some true.

(** ** Sessions *)
Record csess_ok (g : ghost) (ub : UB) (sid : Z) (se : Session) : Prop := {
  co_len : zlength (sslot_arr_ se) = kSessionReqWindow;
  co_slot i sl : zlookup (sslot_arr_ se) i = Some sl -> slot_ok g ub (sid, i) sl;
  co_pos : 0 <= credits_ se;
  co_credits : credits_ se + zsum win (sslot_arr_ se) = kSessionCredits;
  co_fv : fv_ok (sslot_free_vec_ se);
  co_cap : fv_capacity (sslot_free_vec_ se) = kSessionReqWindow;
  co_nodup : NoDup (fv_list (sslot_free_vec_ se));
  co_free i : i ∈ fv_list (sslot_free_vec_ se) <->
    exists sl, zlookup (sslot_arr_ se) i = Some sl /\ tx_msgbuf_ sl = None;
  co_backlog : g_bf g = Some sid \/ g_bl g sid (enq_req_backlog_ se) = [] \/
    fv_list (sslot_free_vec_ se) = [];
  co_args a : a ∈ g_bl g sid (enq_req_backlog_ se) ->
    ea_session_num a = sid /\ etid_ok (ea_cont_etid a);
}.

(** Buffers owned by requests, active and backlogged. *)
Definition slot_claims (sl : SSlot) : list mbptr :=
  match tx_msgbuf_ sl, resp_msgbuf_ (client_info_ sl) with
  | Some p, Some q => if is_client_ sl then [p; q] else []
  | _, _ => []
  end.
Definition args_claims (a : enq_req_args_t) : list mbptr := [ea_req_msgbuf a; ea_resp_msgbuf a].
Definition sess_claims (g : ghost) (sid : Z) (se : Session) : list mbptr :=
  concat (slot_claims <$> sslot_arr_ se)
  ++ concat (args_claims <$> g_bl g sid (enq_req_backlog_ se)).
Definition claims (g : ghost) (R : Rpc) : list mbptr :=
  concat (imap (fun i o => match o with Some se => sess_claims g (Z.of_nat i) se | None => [] end)
    (r_session_vec R)).

Definition act (R : Rpc) (s : sref) : Prop :=
  exists sl, slot_at R s = Some sl /\ is_client_ sl = true /\ tx_msgbuf_ sl <> None.

Record CI (g : ghost) (R : Rpc) : Prop := {
  CI_disp : r_etid R = c_creator_etid;
  CI_role sid se i sl : sess_at R sid = Some se -> zlookup (sslot_arr_ se) i = Some sl ->
    is_client_ sl = is_client se;
  CI_sess sid se : sess_at R sid = Some se -> is_client se = true ->
    csess_ok g (r_user_mb R) sid se;
  CI_sq_nodup : NoDup (g_sq g);
  CI_sq s : s ∈ g_sq g ->
    exists sl, slot_at R s = Some sl /\ is_client_ sl = true /\ tx_msgbuf_ sl <> None /\
      num_tx_ (client_info_ sl) = 0;
  CI_claims_nodup : NoDup (claims g R);
  CI_claims p : p ∈ claims g R -> claim_ok (r_user_mb R) p;
  CI_ents_nodup : NoDup (g_ents g);
  CI_ents e : e ∈ g_ents g ->
    exists sl, slot_at R (we_sslot e) = Some sl /\ ent_ok (r_user_mb R) sl e;
  CI_bg : c_num_bg_threads <= zlength (r_bg_req_queue_arr R);
  CI_ctrl : zlength (r_ctrl_msgbufs R) = 2 * kUnsigBatch;
}.

(** ** The list of active RPCs *)
Definition linked (r : Rpc) (a b : aref) : Prop :=
  next_at r a = Some b /\ prev_at r b = Some a.
Fixpoint chain (r : Rpc) (a : aref) (l : list sref) : Prop :=
  match l with
  | [] => linked r a ATail
  | s :: l => linked r a (ASlot s) /\ chain r (ASlot s) l
  end.
Definition dll (r : Rpc) (l : list sref) : Prop := NoDup l /\ chain r ARoot l.

(** ** The TX batch *)
Definition item_ok (R : Rpc) (it : tx_burst_item_t) : Prop :=
  (exists se, sess_at R (it_routing_info it) = Some se) /\
  (exists p mb, it_msg_buffer it = Some p /\ mb_at R p = Some mb) /\
  (forall s i, it_tx_ts it = Some (s, i) -> exists sl, slot_at R s = Some sl /\ is_client_ sl = true).
Definition txb_ok (r : Rpc) : Prop :=
  zlength (r_tx_batch r) < kPostlist /\ Forall (item_ok (nf r)) (r_tx_batch r).

(** ** The wheel *)
Definition kMaxTsc : Z := 2 ^ 60.
Definition wheel_ok (ents : list wheel_ent_t) (r : Rpc) : Prop :=
  exists live a cs, alloc_inv live (r_huge r) /\ wheel_rep (r_wheel r) a cs /\
    aw_entries a ≡ₚ ents /\
    0 <= tw_horizon_tsc (r_wheel r) <= (kWheelNumWslots - 1) * tw_wslot_width_tsc (r_wheel r) /\
    tw_horizon_tsc (r_wheel r) + (Z.of_nat nslots + 1) * tw_wslot_width_tsc (r_wheel r) < kMaxTsc.

(** ** Everything *)
Record cinv (g : ghost) (r : Rpc) : Prop := {
  cv_core : CI g (nf r);
  cv_list : exists l, dll r l /\ forall s, s ∈ l <-> act (nf r) s;
  cv_txb : txb_ok r;
  cv_head : 0 <= r_ctrl_msgbuf_head r < 2 * kUnsigBatch;
  cv_wheel : wheel_ok (g_ents g) r;
}.

(** Between operations. *)
Definition rest (sq : list sref) (ents : list wheel_ent_t) : ghost :=
  mkGhost sq None None (fun _ l => l) ents.
Definition client_inv (r : Rpc) : Prop := exists ents, cinv (rest (r_stallq r) ents) r.
End Inv.

(** The errors that the client's operations may still end with: a thrown
    exception; and, under congestion control, a duration that is not the value of
    a [size_t] and the two assertions that depend on the clock and its frequency,
    the wheel's horizon ([wheel_insert_correct] gives its condition) and the rate
    controller's on the timestamp ([update_rate_bounds] gives its condition). *)
Definition client_err (e : err) : Prop :=
  is_throw e \/ e = ENull "double to size_t" \/ e = EAssert "insert: horizon"
  \/ e = EAssert "update_rate: sanity".
