(* ===== verification/ClientLemmas.v ===== *)
(** * Preservation of the client's invariant by single steps

    The lemmas here are about normal forms: what a change of one slot, of the
    credits, of the free vector or of a buffer needs for [CI] to hold again. *)
From S2P Require Import Prelude Config HugeAlloc PktHdr Msg SmTypes Timer Timely MemPool TimingWheel WheelChain WheelSpec Session RpcState RpcBase RpcWp ClientInv.

(** ** Lists indexed by [Z] *)
Lemma zlookup_of_nat {A} (l : list A) n : zlookup l (Z.of_nat n) = l !! n.
Proof. unfold zlookup. rewrite (proj2 (Z.leb_le _ _)), Nat2Z.id by lia. done. Qed.

Lemma zsum_ge_zlookup {A} (f : A -> Z) l i x :
  (forall j y, zlookup l j = Some y -> 0 <= f y) -> zlookup l i = Some x -> f x <= zsum f l.
Proof.
  intros Hp H. unfold zlookup in H. case_match; [|done]. eapply zsum_ge_elem; [|done].
  intros y [j Hj]%list_elem_of_lookup. apply (Hp (Z.of_nat j)). by rewrite zlookup_of_nat.
Qed.

Lemma zsum_nonneg_zlookup {A} (f : A -> Z) l :
  (forall j y, zlookup l j = Some y -> 0 <= f y) -> 0 <= zsum f l.
Proof.
  intros Hp. apply zsum_nonneg. intros y [j Hj]%list_elem_of_lookup.
  apply (Hp (Z.of_nat j)). by rewrite zlookup_of_nat.
Qed.

Lemma concat_zinsert {A B} (f : A -> list B) l i x y :
  zlookup l i = Some x ->
  f x ++ concat (f <$> zinsert i y l) ≡ₚ f y ++ concat (f <$> l).
Proof.
  intros H. rewrite zinsert_fmap. unfold zlookup, zinsert in *. case_match; [|done].
  apply concat_insert. by rewrite list_lookup_fmap, H.
Qed.

Lemma imap_insert {A B} (f : nat -> A -> B) l i x :
  imap f (<[i := x]> l) = <[i := f i x]> (imap f l).
Proof.
  apply list_eq. intros j. rewrite list_lookup_imap.
  destruct (decide (i = j)) as [<-|Hij].
  - destruct (decide (i < length l)%nat).
    + rewrite !list_lookup_insert_eq by (rewrite ?length_imap; done). done.
    + rewrite !lookup_ge_None_2 by (rewrite ?length_insert, ?length_imap; lia). done.
  - rewrite !list_lookup_insert_ne by done. by rewrite list_lookup_imap.
Qed.

Lemma zlookup_elem {A} (l : list A) i x : zlookup l i = Some x -> x ∈ l.
Proof. unfold zlookup. case_match; [|done]. apply list_elem_of_lookup_2. Qed.

(** The bit vector of a slot. *)
Lemma count_true_set l k :
  zlookup l k = Some false -> count_true (zinsert k true l) = count_true l + 1.
Proof. intros H. unfold count_true. rewrite (zsum_zinsert _ _ _ _ _ H). cbn. lia. Qed.
Lemma count_true_clear l k :
  zlookup l k = Some true -> count_true (zinsert k false l) = count_true l - 1.
Proof. intros H. unfold count_true. rewrite (zsum_zinsert _ _ _ _ _ H). cbn. lia. Qed.
Lemma count_true_none l : (forall k, zlookup l k <> Some true) -> count_true l = 0.
Proof.
  intros H. unfold count_true. induction l as [|b l IH]; cbn; [done|].
  rewrite IH; [|intros k Hk].
  - specialize (H 0). destruct b; [by destruct H|done].
  - unfold zlookup in Hk. case_match; [|done]. apply (H (k + 1)). unfold zlookup.
    replace (0 <=? k + 1) with true by (symmetry; lia).
    by replace (Z.to_nat (k + 1)) with (S (Z.to_nat k)) by lia.
Qed.
Lemma count_true_bounds l : 0 <= count_true l <= zlength l.
Proof.
  unfold count_true, zlength. induction l as [|[] l IH]; cbn [zsum length Z.b2z]; lia.
Qed.

Section Lemmas.
Context {T : TTr} {TOk : TTrOk T} {Os : ShmOs} {C : RpcConf}.
Abbreviation UB := (gmap Z MsgBuffer).

(** ** Packet counts *)
Lemma num_pkts_bounds d : 0 <= d <= kMaxMsgSize -> 1 <= data_size_to_num_pkts d <= 2 ^ 13.
Proof.
  intros Hd. split; [apply data_size_to_num_pkts_pos|].
  pose proof ttr_pkt_num_bits. pose proof ttr_data_pos. unfold data_size_to_num_pkts.
  case_match eqn:E; [lia|]. apply Z.leb_gt in E.
  assert ((d + kMaxDataPerPkt - 1) / kMaxDataPerPkt < 2 ^ 13 + 1); [|lia].
  apply Z.div_lt_upper_bound; [lia|]. change (2 ^ 13 + 1) with 8193. lia.
Qed.

Lemma npk_claim ub p : claim_ok ub p -> 1 <= npk ub (Some p) <= 2 ^ 13.
Proof.
  intros (n & mb & -> & H & [? ? Hp ?]). cbn. rewrite H; cbn. rewrite Hp.
  apply num_pkts_bounds. lia.
Qed.

(** ** Finding a client slot *)
Lemma CI_slot g R s sl :
  CI g R -> slot_at R s = Some sl -> is_client_ sl = true ->
  exists se, sess_at R s.1 = Some se /\ is_client se = true /\
    zlookup (sslot_arr_ se) s.2 = Some sl /\ csess_ok g (r_user_mb R) s.1 se /\
    slot_ok g (r_user_mb R) s sl.
Proof.
  intros HC (se & Hse & Hsl)%slot_at_Some Hc. exists se.
  assert (Hcl : is_client se = true) by (rewrite <- Hc; symmetry; by eapply CI_role).
  pose proof (CI_sess _ _ HC _ _ Hse Hcl) as Hs. split_and!; try done.
  destruct s as [sid i]. by apply Hs.
Qed.

(** The window of a slot and the credits share [kSessionCredits]. *)
Lemma csess_win g ub sid se i sl :
  csess_ok g ub sid se -> zlookup (sslot_arr_ se) i = Some sl ->
  0 <= win sl /\ credits_ se + win sl <= kSessionCredits.
Proof.
  intros Hs Hsl.
  assert (Hp : forall j y, zlookup (sslot_arr_ se) j = Some y -> 0 <= win y).
  { intros j y Hy. pose proof (so_rx _ _ _ _ (co_slot _ _ _ _ Hs _ _ Hy)). unfold win. lia. }
  pose proof (co_credits _ _ _ _ Hs). pose proof (zsum_ge_zlookup win _ _ _ Hp Hsl).
  split; [by eapply Hp|lia].
Qed.

Lemma csess_credits_le g ub sid se : csess_ok g ub sid se -> credits_ se <= kSessionCredits.
Proof.
  intros Hs. pose proof (co_credits _ _ _ _ Hs).
  assert (0 <= zsum win (sslot_arr_ se)); [|lia].
  apply zsum_nonneg_zlookup. intros j y Hy.
  pose proof (so_rx _ _ _ _ (co_slot _ _ _ _ Hs _ _ Hy)). unfold win. lia.
Qed.

(** ** Claims *)
Lemma claims_put g R sid se se' :
  sess_at R sid = Some se ->
  sess_claims g sid se ++ claims g (put_sess sid se' R)
  ≡ₚ sess_claims g sid se' ++ claims g R.
Proof.
  intros H%sess_at_lookup. unfold claims, put_sess. rsimp. unfold zlookup, zinsert in *.
  case_match eqn:E0; [|done]. rewrite imap_insert, Z2Nat.id by lia.
  apply concat_insert. rewrite list_lookup_imap, H. cbn. by rewrite Z2Nat.id by lia.
Qed.

Lemma sess_claims_slot g sid se i sl sl' c :
  zlookup (sslot_arr_ se) i = Some sl ->
  slot_claims sl ++ sess_claims g sid (se <| sslot_arr_ ::= zinsert i sl' |> <| credits_ := c |>)
  ≡ₚ slot_claims sl' ++ sess_claims g sid se.
Proof.
  intros H. unfold sess_claims. rsimp. rewrite !app_assoc. apply Permutation_app_tail.
  by apply concat_zinsert.
Qed.

Lemma sess_claims_sub g R sid se p :
  sess_at R sid = Some se -> p ∈ sess_claims g sid se -> p ∈ claims g R.
Proof.
  intros H%sess_at_lookup Hp. unfold claims. unfold zlookup in H. case_match eqn:E0; [|done].
  rewrite list_elem_of_In, in_concat. exists (sess_claims g sid se).
  split; [|by apply list_elem_of_In]. apply list_elem_of_In.
  apply list_elem_of_lookup_2 with (Z.to_nat sid).
  rewrite list_lookup_imap, H. cbn. by rewrite Z2Nat.id by lia.
Qed.

Lemma slot_claims_sub g R s sl p :
  slot_at R s = Some sl -> p ∈ slot_claims sl -> p ∈ claims g R.
Proof.
  intros (se & Hse & Hsl)%slot_at_Some Hp. eapply sess_claims_sub; [done|].
  unfold sess_claims. apply elem_of_app. left.
  rewrite list_elem_of_In, in_concat. exists (slot_claims sl).
  split; [|by apply list_elem_of_In]. apply list_elem_of_In, list_elem_of_fmap.
  exists sl. split; [done|]. by eapply zlookup_elem.
Qed.

(** The buffers of an active slot are valid. *)
Lemma active_bufs g R s sl :
  CI g R -> slot_at R s = Some sl -> is_client_ sl = true -> tx_msgbuf_ sl <> None ->
  exists p q, tx_msgbuf_ sl = Some p /\ resp_msgbuf_ (client_info_ sl) = Some q /\
    claim_ok (r_user_mb R) p /\ claim_ok (r_user_mb R) q.
Proof.
  intros HC Hsl Hc Ht. destruct (CI_slot _ _ _ _ HC Hsl Hc) as (se & _ & _ & _ & _ & Hok).
  pose proof (so_resp _ _ _ _ Hok Ht) as Hr.
  destruct (tx_msgbuf_ sl) as [p|] eqn:Ep; [|done].
  destruct (resp_msgbuf_ (client_info_ sl)) as [q|] eqn:Eq; [|done].
  exists p, q. split_and!; try done; eapply (CI_claims _ _ HC), slot_claims_sub; try done;
    unfold slot_claims; rewrite Ep, Eq, Hc; set_solver.
Qed.

(** ** One slot and the credits change

    The slot keeps its buffers; the ghost may change for this slot. *)
Definition upd_sc (i : Z) (sl : SSlot) (c : Z) (se : Session) : Session :=
  se <| sslot_arr_ ::= zinsert i sl |> <| credits_ := c |>.

(** What other slots may rely on. *)
Record ghost_sub (s : sref) (g g' : ghost) : Prop := {
  gs_sq s' : s' <> s -> s' ∈ g_sq g -> s' ∈ g_sq g';
  gs_x s' : s' <> s -> g_x g = Some s' -> g_x g' = Some s';
  gs_ents e : we_sslot e <> s -> e ∈ g_ents g <-> e ∈ g_ents g';
  gs_bf sid : g_bf g = Some sid -> g_bf g' = Some sid;
  gs_bl : g_bl g' = g_bl g;
}.

Lemma slot_ok_other s g g' ub s' sl :
  ghost_sub s g g' -> s' <> s -> slot_ok g ub s' sl -> slot_ok g' ub s' sl.
Proof.
  intros G Hne [? ? ? ? ? Ht ? Hp ? Hb ?]. pose proof (gs_x _ _ _ G s' Hne) as Gx.
  split; try done.
  - intros Hn. destruct (Ht Hn) as [? []]; auto.
  - intros Hn. destruct (Hp Hn) as [H|[H|H]]; auto. left. by apply (gs_sq _ _ _ G).
  - intros k Hk. destruct (Hb k Hk) as (e & He & <- & ?). exists e.
    split_and!; try done. by apply (gs_ents _ _ _ G).
Qed.

Lemma csess_step g g' ub sid se i sl sl' c :
  csess_ok g ub sid se -> zlookup (sslot_arr_ se) i = Some sl -> ghost_sub (sid, i) g g' ->
  tx_msgbuf_ sl' = tx_msgbuf_ sl ->
  slot_ok g' ub (sid, i) sl' -> 0 <= c -> c + win sl' = credits_ se + win sl ->
  csess_ok g' ub sid (upd_sc i sl' c se).
Proof.
  intros [Hlen Hslot Hpos Hcr Hfv Hcap Hnd Hfree Hbl Hargs] Hsl G Ht Hok Hc Hw.
  unfold upd_sc. pose proof (gs_bl _ _ _ G) as Ebl.
  split; rsimp; rewrite ?Ebl; try done.
  - by rewrite zlength_zinsert.
  - intros j y. rewrite (zlookup_zinsert _ _ _ _ _ Hsl). case_decide as E.
    + intros [= <-]. by subst.
    + intros Hy. eapply slot_ok_other; [done| |by apply Hslot]. congruence.
  - rewrite (zsum_zinsert _ _ _ _ _ Hsl). lia.
  - intros j. rewrite Hfree. split; intros (y & Hy & Hn).
    + destruct (decide (i = j)) as [<-|Hne].
      * exists sl'. rewrite (zlookup_zinsert _ _ _ _ _ Hsl), decide_True by done.
        split; [done|]. simplify_eq. congruence.
      * exists y. by rewrite zlookup_zinsert_ne.
    + destruct (decide (i = j)) as [<-|Hne].
      * rewrite (zlookup_zinsert _ _ _ _ _ Hsl), decide_True in Hy by done.
        injection Hy as <-. exists sl. split; [done|congruence].
      * exists y. by rewrite zlookup_zinsert_ne in Hy.
  - destruct Hbl as [Hb|Hb]; [left; by apply (gs_bf _ _ _ G)|by right].
Qed.

Lemma sess_claims_same g g' sid se se' :
  g_bl g' = g_bl g -> enq_req_backlog_ se' = enq_req_backlog_ se ->
  concat (slot_claims <$> sslot_arr_ se') ≡ₚ concat (slot_claims <$> sslot_arr_ se) ->
  sess_claims g' sid se' ≡ₚ sess_claims g sid se.
Proof. intros E1 E2 H. unfold sess_claims. by rewrite E1, E2, H. Qed.

Lemma claims_ghost g g' R : g_bl g' = g_bl g -> claims g' R = claims g R.
Proof. intros E. unfold claims, sess_claims. by rewrite E. Qed.

(** The claims of the state with one session exchanged. *)
Lemma claims_put_same g g' R sid se se' :
  sess_at R sid = Some se -> g_bl g' = g_bl g -> enq_req_backlog_ se' = enq_req_backlog_ se ->
  concat (slot_claims <$> sslot_arr_ se') ≡ₚ concat (slot_claims <$> sslot_arr_ se) ->
  claims g' (put_sess sid se' R) ≡ₚ claims g R.
Proof.
  intros Hse E1 E2 H. rewrite (claims_ghost g g') by done.
  apply (Permutation_app_inv_l (sess_claims g sid se)).
  rewrite (claims_put g R sid se se' Hse). apply Permutation_app_tail.
  by apply sess_claims_same.
Qed.

Lemma slot_claims_zinsert l i sl sl' :
  zlookup l i = Some sl -> slot_claims sl' = slot_claims sl ->
  concat (slot_claims <$> zinsert i sl' l) ≡ₚ concat (slot_claims <$> l).
Proof.
  intros H E. apply (Permutation_app_inv_l (slot_claims sl)).
  rewrite (concat_zinsert slot_claims l i sl sl' H). by rewrite E.
Qed.

Lemma slot_at_put_sess R sid se se' s :
  sess_at R sid = Some se ->
  slot_at (put_sess sid se' R) s =
    if decide (sid = s.1) then zlookup (sslot_arr_ se') s.2 else slot_at R s.
Proof.
  intros H. unfold slot_at. rewrite (sess_at_put _ _ _ _ _ H). by case_decide.
Qed.

Lemma slot_at_upd_sc R sid se i sl sl' c s :
  sess_at R sid = Some se -> zlookup (sslot_arr_ se) i = Some sl ->
  slot_at (put_sess sid (upd_sc i sl' c se) R) s =
    if decide ((sid, i) = s) then Some sl' else slot_at R s.
Proof.
  intros Hse Hsl. rewrite (slot_at_put_sess _ _ _ _ _ Hse). unfold upd_sc. rsimp.
  destruct s as [a b]; cbn [fst snd]. rewrite (zlookup_zinsert _ _ _ _ _ Hsl).
  unfold slot_at; cbn [fst snd].
  repeat case_decide; simplify_eq; rewrite ?Hse; try done; congruence.
Qed.

Lemma CI_step g g' R sid i se sl sl' c :
  CI g R -> sess_at R sid = Some se -> is_client se = true ->
  zlookup (sslot_arr_ se) i = Some sl -> ghost_sub (sid, i) g g' ->
  is_client_ sl' = is_client_ sl -> tx_msgbuf_ sl' = tx_msgbuf_ sl ->
  resp_msgbuf_ (client_info_ sl') = resp_msgbuf_ (client_info_ sl) ->
  slot_ok g' (r_user_mb R) (sid, i) sl' -> 0 <= c -> c + win sl' = credits_ se + win sl ->
  NoDup (g_sq g') -> (forall s, s ∈ g_sq g' -> s <> (sid, i) -> s ∈ g_sq g) ->
  ((sid, i) ∈ g_sq g' -> tx_msgbuf_ sl' <> None /\ num_tx_ (client_info_ sl') = 0) ->
  NoDup (g_ents g') ->
  (forall e, e ∈ g_ents g' -> we_sslot e = (sid, i) -> ent_ok (r_user_mb R) sl' e) ->
  CI g' (put_sess sid (upd_sc i sl' c se) R).
Proof.
  intros HC Hse Hcl Hsl G Hic Ht Hr Hok Hc Hw Hsq1 Hsq2 Hsq3 He1 He2.
  set (se' := upd_sc i sl' c se). set (R' := put_sess sid se' R).
  assert (HubR : r_user_mb R' = r_user_mb R) by done.
  assert (Hslot : forall s, slot_at R' s = if decide ((sid, i) = s) then Some sl' else slot_at R s)
    by (intros s; by apply slot_at_upd_sc with sl).
  assert (Hcl' : is_client_ sl' = true) by (rewrite Hic, <- Hcl; by eapply CI_role).
  assert (Hclaims : claims g' R' ≡ₚ claims g R).
  { apply claims_put_same with se; [done|by apply G|done|].
    unfold se', upd_sc. rsimp. apply slot_claims_zinsert with sl; [done|].
    unfold slot_claims. by rewrite Ht, Hr, Hic. }
  split; rewrite ?HubR, ?Hclaims; try done; try apply HC.
  - intros sid' se1 j y. unfold R'. rewrite (sess_at_put _ _ _ _ _ Hse). case_decide as D.
    + intros [= <-]. unfold se', upd_sc. rsimp. rewrite (zlookup_zinsert _ _ _ _ _ Hsl).
      case_decide; [intros [= <-]; by rewrite Hcl'|]. exact (CI_role _ _ HC _ _ _ _ Hse).
    + intros H1 H2. by eapply (CI_role _ _ HC).
  - intros sid' se1. unfold R'. rewrite (sess_at_put _ _ _ _ _ Hse). case_decide as D.
    + intros [= <-] _. subst. eapply csess_step; try done. by apply (CI_sess _ _ HC).
    + intros H1 H2. destruct (CI_sess _ _ HC _ _ H1 H2) as [? Hss ? ? ? ? ? ? Hbl ?].
      split; rewrite ?(gs_bl _ _ _ G); try done.
      * intros j y Hy. eapply slot_ok_other; [done| |eauto]. congruence.
      * destruct Hbl as [Hb|Hb]; [left; by apply (gs_bf _ _ _ G)|by right].
  - intros s Hs. rewrite (Hslot s). case_decide as D; [subst s|by apply (CI_sq _ _ HC); auto].
    destruct (Hsq3 Hs). by exists sl'.
  - intros p. rewrite Hclaims. apply (CI_claims _ _ HC).
  - intros e He. rewrite (Hslot (we_sslot e)). case_decide as D; [exists sl'; by auto|].
    apply (CI_ents _ _ HC). apply (gs_ents _ _ _ G); [congruence|done].
Qed.

(** ** The steps *)
Lemma ghost_sub_refl s g : ghost_sub s g g.
Proof. by split. Qed.

(** Two packets of one window with the same bit are the same packet. *)
Lemma window_bit n m lo hi :
  lo <= n < hi -> lo <= m < hi -> hi - lo <= kSessionCredits ->
  n mod kSessionCredits = m mod kSessionCredits -> n = m.
Proof.
  unfold kSessionCredits. intros Hn Hm Hw E.
  pose proof (Z.div_mod n 32). pose proof (Z.div_mod m 32). lia.
Qed.

Lemma bit_exists (l : list bool) n :
  length l = Z.to_nat kSessionCredits -> exists b, zlookup l (n mod kSessionCredits) = Some b.
Proof.
  intros Hl. apply zlookup_is_Some. unfold zlength. rewrite Hl.
  pose proof (Z.mod_pos_bound n kSessionCredits). unfold kSessionCredits in *. lia.
Qed.

(** The bit of a packet just above the window is clear. *)
Lemma next_bit_clear g R s sl n :
  CI g R -> slot_at R s = Some sl -> is_client_ sl = true ->
  num_tx_ (client_info_ sl) = n -> win sl < kSessionCredits ->
  zlookup (in_wheel_ (client_info_ sl)) (n mod kSessionCredits) = Some false.
Proof.
  intros HC Hsl Hc Hn Hw. destruct (CI_slot _ _ _ _ HC Hsl Hc) as (se & _ & _ & _ & _ & Hok).
  destruct (bit_exists _ n (so_iw _ _ _ _ Hok)) as [[] Hb]; [|done]. exfalso.
  destruct (so_bits _ _ _ _ Hok _ Hb) as (e & He & Hes & Hem).
  destruct (CI_ents _ _ HC e He) as (sl2 & Hsl2 & _ & Hr & _ & _).
  rewrite Hes, Hsl in Hsl2. injection Hsl2 as <-.
  pose proof (so_rx _ _ _ _ Hok). unfold win in Hw.
  assert (we_pkt_num e = n); [|lia].
  apply (window_bit _ _ (num_rx_ (client_info_ sl)) (n + 1)); try lia; done.
Qed.

(** An idle slot has nothing in the wheel; neither has one whose window is empty. *)
Lemma no_window_no_bits g R s sl :
  CI g R -> slot_at R s = Some sl -> is_client_ sl = true -> win sl = 0 ->
  wheel_count_ (client_info_ sl) = 0 /\ (forall e, e ∈ g_ents g -> we_sslot e <> s).
Proof.
  intros HC Hsl Hc Hw. destruct (CI_slot _ _ _ _ HC Hsl Hc) as (se & _ & _ & _ & _ & Hok).
  assert (Hno : forall e, e ∈ g_ents g -> we_sslot e <> s).
  { intros e He <-. destruct (CI_ents _ _ HC e He) as (sl2 & Hsl2 & _ & Hr & _ & _).
    rewrite Hsl in Hsl2. injection Hsl2 as <-. unfold win in Hw. lia. }
  split; [|done]. rewrite (so_wc _ _ _ _ Hok). apply count_true_none.
  intros k Hk. destruct (so_bits _ _ _ _ Hok k Hk) as (e & He & Hes & _). by apply (Hno e).
Qed.

(** Paying a credit for a packet that goes out directly. *)
Definition paid (sl : SSlot) : SSlot := sl <| client_info_ ::= fun ci => ci <| num_tx_ ::= fun n => n + 1 |> |>.

Lemma CI_pay g R sid i se sl :
  CI g R -> sess_at R sid = Some se -> is_client se = true ->
  zlookup (sslot_arr_ se) i = Some sl -> tx_msgbuf_ sl <> None ->
  num_tx_ (client_info_ sl) < tot (r_user_mb R) sl -> 0 < credits_ se -> (sid, i) ∉ g_sq g ->
  CI g (put_sess sid (upd_sc i (paid sl) (credits_ se - 1) se) R).
Proof.
  intros HC Hse Hcl Hsl Ht Hlt Hcr Hsq.
  pose proof (co_slot _ _ _ _ (CI_sess _ _ HC _ _ Hse Hcl) _ _ Hsl) as Hok.
  assert (Hat : slot_at R (sid, i) = Some sl) by (apply slot_at_Some; eauto).
  eapply CI_step; try done; try apply HC; try apply ghost_sub_refl.
  - destruct Hok as [? ? ? Hrx ? Htot ? ? ? ? ?]. unfold paid. split; rsimp; try done.
    + lia.
    + intros _. destruct (Htot Ht) as [_ H2]. unfold tot in *. rsimp. split; [lia|done].
    + intros _. right. right. lia.
  - lia.
  - unfold win, paid. rsimp. lia.
  - intros e He Hs. destruct (CI_ents _ _ HC e He) as (sl2 & Hsl2 & ? & ? & ? & ?).
    rewrite Hs, Hat in Hsl2. injection Hsl2 as <-. unfold paid. split_and!; rsimp; done || lia.
Qed.
End Lemmas.
