(* ===== verification/ClientSteps.v ===== *)
(** * Preservation of the client's invariant: the protocol's steps

    A packet enters the wheel or leaves it, a packet is received, a request is
    rolled back, buffers are resized, a request starts or finishes. *)
From S2P Require Import Prelude Config HugeAlloc PktHdr Msg SmTypes Timer Timely MemPool TimingWheel WheelChain WheelSpec Session RpcState RpcBase RpcWp ClientInv ClientLemmas.

Section Steps.
Context {T : TTr} {TOk : TTrOk T} {Os : ShmOs} {C : RpcConf}.

(** ** The ghost changes *)
Definition with_x (x : option sref) (g : ghost) : ghost :=
  mkGhost (g_sq g) x (g_bf g) (g_bl g) (g_ents g).
Definition with_sq (sq : list sref) (g : ghost) : ghost :=
  mkGhost sq (g_x g) (g_bf g) (g_bl g) (g_ents g).
Definition with_ents (ents : list wheel_ent_t) (g : ghost) : ghost :=
  mkGhost (g_sq g) (g_x g) (g_bf g) (g_bl g) ents.

(** A ghost change alone is a step in which nothing changes. *)
Lemma upd_sc_same se i sl : zlookup (sslot_arr_ se) i = Some sl -> upd_sc i sl (credits_ se) se = se.
Proof.
  intros H. unfold upd_sc, update; destruct se; cbn in *. f_equal.
  unfold zlookup, zinsert in *. case_match; [|done]. by apply list_insert_id.
Qed.

Lemma CI_ghost g g' R s sl :
  CI g R -> slot_at R s = Some sl -> is_client_ sl = true -> ghost_sub s g g' ->
  slot_ok g' (r_user_mb R) s sl ->
  NoDup (g_sq g') -> (forall s', s' ∈ g_sq g' -> s' <> s -> s' ∈ g_sq g) ->
  (s ∈ g_sq g' -> tx_msgbuf_ sl <> None /\ num_tx_ (client_info_ sl) = 0) ->
  g_ents g' = g_ents g -> CI g' R.
Proof.
  intros HC Hsl Hc G Hok H1 H2 H3 H4.
  destruct (CI_slot _ _ _ _ HC Hsl Hc) as (se & Hse & Hcl & Hi & Hs & _).
  destruct s as [sid i]; cbn [fst snd] in *.
  rewrite <- (put_sess_same R sid se Hse), <- (upd_sc_same se i sl Hi).
  eapply CI_step; try done.
  - by apply (co_pos _ _ _ _ Hs).
  - rewrite H4. apply HC.
  - intros e. rewrite H4. intros He Hes. destruct (CI_ents _ _ HC e He) as (sl2 & Hsl2 & He2).
    rewrite Hes, Hsl in Hsl2. by injection Hsl2 as <-.
Qed.

(** A slot with an empty window may be exempted from progress ... *)
Lemma CI_exempt g R s sl :
  CI g R -> slot_at R s = Some sl -> is_client_ sl = true -> g_x g = None -> CI (with_x (Some s) g) R.
Proof.
  intros HC Hsl Hc Hx. destruct (CI_slot _ _ _ _ HC Hsl Hc) as (se & _ & _ & _ & _ & Hok).
  eapply (CI_ghost g); try done; try apply HC.
  - split; cbn; try done. intros s' _ H. congruence.
  - destruct Hok as [? ? ? ? ? Ht ? Hp ? ? ?]. split; try done; cbn.
    + intros Hn. destruct (Ht Hn). by auto.
    + by auto.
  - intros Hin. destruct (CI_sq _ _ HC s Hin) as (sl' & Hsl' & _ & ? & ?).
    rewrite Hsl in Hsl'. by injection Hsl' as <-.
Qed.

(** ... and the exemption ends once it has a packet in flight. *)
Lemma CI_unexempt g R s sl :
  CI g R -> slot_at R s = Some sl -> is_client_ sl = true -> g_x g = Some s ->
  (tx_msgbuf_ sl <> None -> s ∈ g_sq g \/ num_rx_ (client_info_ sl) < num_tx_ (client_info_ sl)) ->
  (tx_msgbuf_ sl <> None -> num_rx_ (client_info_ sl) < tot (r_user_mb R) sl) ->
  CI (with_x None g) R.
Proof.
  intros HC Hsl Hc Hx Hw Hw2. destruct (CI_slot _ _ _ _ HC Hsl Hc) as (se & _ & _ & _ & _ & Hok).
  eapply (CI_ghost g); try done; try apply HC.
  - split; cbn; try done. intros s' Hne H. congruence.
  - destruct Hok as [? ? ? ? ? Ht ? Hp ? ? ?]. split; try done; cbn.
    + intros Hn. destruct (Ht Hn). split; [done|]. left. by apply Hw2.
    + intros Hn. destruct (Hw Hn); auto.
  - intros Hin. destruct (CI_sq _ _ HC s Hin) as (sl' & Hsl' & _ & ? & ?).
    rewrite Hsl in Hsl'. by injection Hsl' as <-.
Qed.

(** A stalled slot is taken off the queue and exempted. *)
Lemma CI_unstall g R s sq1 sq2 :
  CI g R -> g_sq g = sq1 ++ s :: sq2 -> g_x g = None ->
  CI (with_x (Some s) (with_sq (sq1 ++ sq2) g)) R.
Proof.
  intros HC Esq Hx.
  destruct (CI_sq _ _ HC s) as (sl & Hsl & Hc & Ht & Hz); [rewrite Esq; set_solver|].
  destruct (CI_slot _ _ _ _ HC Hsl Hc) as (se & _ & _ & _ & _ & Hok).
  pose proof (CI_sq_nodup _ _ HC) as Hnd. rewrite Esq in Hnd.
  apply (NoDup_Permutation_proper _ (s :: sq1 ++ sq2)) in Hnd;
    [|symmetry; apply Permutation_middle].
  apply NoDup_cons in Hnd as [Hnin Hnd].
  eapply (CI_ghost g); try done; cbn.
  - split; cbn; try done.
    + intros s' Hne. rewrite Esq, !elem_of_app, elem_of_cons. tauto.
    + intros s' _ H. congruence.
  - destruct Hok as [? ? ? ? ? Htt ? Hp ? ? ?]. split; try done; cbn.
    + intros Hn. destruct (Htt Hn). by auto.
    + by auto.
  - intros s' H _. rewrite Esq, elem_of_app, elem_of_cons. apply elem_of_app in H. tauto.
Qed.

(** ** A packet enters the wheel *)
Definition wheeled (sl : SSlot) : SSlot :=
  sl <| client_info_ ::= fun ci =>
    ci <| in_wheel_ ::= zinsert (num_tx_ ci mod kSessionCredits) true |>
       <| wheel_count_ ::= fun n => n + 1 |> <| num_tx_ ::= fun n => n + 1 |> |>.

Lemma tot_bound g R s sl :
  CI g R -> slot_at R s = Some sl -> is_client_ sl = true -> tx_msgbuf_ sl <> None ->
  1 <= npk (r_user_mb R) (tx_msgbuf_ sl) <= 2 ^ 13 /\
  1 <= npk (r_user_mb R) (resp_msgbuf_ (client_info_ sl)) <= 2 ^ 13 /\
  1 <= tot (r_user_mb R) sl < 2 ^ 14.
Proof.
  intros HC Hsl Hc Ht. destruct (active_bufs _ _ _ _ HC Hsl Hc Ht) as (p & q & Ep & Eq & Hp & Hq).
  apply npk_claim in Hp, Hq. unfold tot, total. rewrite Ep, Eq. split; [done|]. split; [done|].
  change (2 ^ 13) with 8192 in *. change (2 ^ 14) with 16384. case_match; lia.
Qed.

Lemma CI_wheel_pay g R sid i se sl n :
  CI g R -> sess_at R sid = Some se -> is_client se = true ->
  zlookup (sslot_arr_ se) i = Some sl -> tx_msgbuf_ sl <> None ->
  num_tx_ (client_info_ sl) = n -> n < npk (r_user_mb R) (tx_msgbuf_ sl) ->
  0 < credits_ se -> (sid, i) ∉ g_sq g ->
  CI (with_ents (mkWheelEnt (sid, i) n :: g_ents g) g)
     (put_sess sid (upd_sc i (wheeled sl) (credits_ se - 1) se) R).
Proof.
  intros HC Hse Hcl Hsl Ht Hn Hlt Hcr Hsq.
  pose proof (CI_sess _ _ HC _ _ Hse Hcl) as Hss.
  pose proof (co_slot _ _ _ _ Hss _ _ Hsl) as Hok.
  assert (Hat : slot_at R (sid, i) = Some sl) by (apply slot_at_Some; eauto).
  assert (Hc : is_client_ sl = true) by (rewrite <- Hcl; by eapply (CI_role _ _ HC)).
  destruct (csess_win _ _ _ _ _ _ Hss Hsl) as [Hw0 Hw1].
  pose proof (next_bit_clear g R (sid, i) sl n HC Hat Hc Hn ltac:(lia)) as Hbit.
  destruct (tot_bound _ _ _ _ HC Hat Hc Ht) as (_ & _ & Htb).
  assert (Hfresh : mkWheelEnt (sid, i) n ∉ g_ents g).
  { intros He. destruct (CI_ents _ _ HC _ He) as (sl2 & Hsl2 & _ & Hr & _).
    cbn in Hsl2, Hr. rewrite Hat in Hsl2. injection Hsl2 as <-. lia. }
  eapply CI_step; try done; try apply HC; cbn.
  - split; cbn; try done. intros e He. rewrite elem_of_cons. split; [by right|].
    intros [->|]; done.
  - destruct Hok as [? ? ? Hrx ? Htot ? ? Hwc Hbits ?]. unfold wheeled. split; rsimp; try done.
    + unfold zinsert. case_match; by rewrite ?length_insert.
    + lia.
    + intros _. destruct (Htot Ht) as [H1 H2]. split; [|done]. unfold tot, total in *. rsimp.
      destruct (_ <? _) eqn:E; [lia|]. apply Z.ltb_ge in E. lia.
    + intros _. right. right. lia.
    + rewrite Hwc. subst n. by rewrite count_true_set.
    + intros k. subst n. rewrite (zlookup_zinsert _ _ _ _ _ Hbit). case_decide as D.
      * intros _. exists (mkWheelEnt (sid, i) (num_tx_ (client_info_ sl))).
        split; [by left|]. done.
      * intros Hk. destruct (Hbits k Hk) as (e & He & ? & ?). exists e. split; [by right|done].
  - lia.
  - unfold win, wheeled. rsimp. lia.
  - apply NoDup_cons. split; [done|apply HC].
  - pose proof (so_rx _ _ _ _ Hok) as Hrx.
    intros e [->|He]%elem_of_cons Hs; cbn in *.
    + unfold ent_ok, wheeled. cbn [we_pkt_num]. subst n. split_and!; rsimp; try done; try lia.
      by rewrite (zlookup_zinsert _ _ _ _ _ Hbit), decide_True.
    + destruct (CI_ents _ _ HC e He) as (sl2 & Hsl2 & ? & ? & ? & Hb).
      rewrite Hs, Hat in Hsl2. injection Hsl2 as <-. unfold ent_ok, wheeled.
      split_and!; rsimp; try done; try lia.
      subst n. rewrite (zlookup_zinsert _ _ _ _ _ Hbit). by case_decide.
Qed.

(** ** A packet leaves the wheel *)
Definition unwheeled (k : Z) (sl : SSlot) : SSlot :=
  sl <| client_info_ ::= fun ci => ci <| wheel_count_ ::= fun n => n - 1 |>
                                      <| in_wheel_ ::= zinsert k false |> |>.

Lemma CI_unwheel g R sid i se sl n ents :
  CI g R -> sess_at R sid = Some se -> is_client se = true ->
  zlookup (sslot_arr_ se) i = Some sl -> g_ents g = mkWheelEnt (sid, i) n :: ents ->
  CI (with_ents ents g)
     (put_sess sid (upd_sc i (unwheeled (n mod kSessionCredits) sl) (credits_ se) se) R).
Proof.
  intros HC Hse Hcl Hsl Eents.
  pose proof (CI_sess _ _ HC _ _ Hse Hcl) as Hss.
  pose proof (co_slot _ _ _ _ Hss _ _ Hsl) as Hok.
  assert (Hat : slot_at R (sid, i) = Some sl) by (apply slot_at_Some; eauto).
  destruct (csess_win _ _ _ _ _ _ Hss Hsl) as [Hw0 Hw1]. pose proof (co_pos _ _ _ _ Hss).
  pose proof (CI_ents_nodup _ _ HC) as Hnd. rewrite Eents in Hnd.
  apply NoDup_cons in Hnd as [Hnin Hnd].
  assert (Hent : forall e, e ∈ g_ents g -> we_sslot e = (sid, i) -> ent_ok (r_user_mb R) sl e).
  { intros e He Hs. destruct (CI_ents _ _ HC e He) as (sl2 & Hsl2 & He2).
    rewrite Hs, Hat in Hsl2. by injection Hsl2 as <-. }
  destruct (Hent (mkWheelEnt (sid, i) n)) as (Hc & Hr & _ & Hb); [rewrite Eents; by left|done|].
  cbn [we_pkt_num] in *. unfold win in *.
  assert (Hneq : forall e, e ∈ ents -> we_sslot e = (sid, i) ->
            we_pkt_num e mod kSessionCredits <> n mod kSessionCredits).
  { intros e He Hs E. destruct (Hent e) as (_ & Hr2 & _); [rewrite Eents; by right|done|].
    apply window_bit with (lo := num_rx_ (client_info_ sl)) (hi := num_tx_ (client_info_ sl)) in E;
      [|done|done|lia].
    apply Hnin. destruct e as [s2 m]; cbn in *. by subst. }
  eapply CI_step; try done; try apply HC; cbn.
  - split; cbn; try done. intros e He. rewrite Eents, elem_of_cons. split; [|by right].
    intros [->|]; done.
  - destruct Hok as [? ? ? Hrx ? Htot ? ? Hwc Hbits ?]. unfold unwheeled. split; rsimp; try done.
    + unfold zinsert. case_match; by rewrite ?length_insert.
    + rewrite Hwc. by rewrite count_true_clear.
    + intros k. rewrite (zlookup_zinsert _ _ _ _ _ Hb). case_decide as D; [done|].
      intros Hk. destruct (Hbits k Hk) as (e & He & Hs & Hm). exists e.
      split_and!; try done. rewrite Eents in He. apply elem_of_cons in He as [->|]; [|done].
      cbn in Hm. congruence.
  - intros Hin. destruct (CI_sq _ _ HC _ Hin) as (sl' & Hsl' & _ & ? & ?).
    rewrite Hat in Hsl'. by injection Hsl' as <-.
  - intros e He Hs. destruct (Hent e) as (? & ? & ? & Hbe); [rewrite Eents; by right|done|].
    unfold ent_ok, unwheeled. split_and!; rsimp; try done; try lia.
    rewrite (zlookup_zinsert _ _ _ _ _ Hb). case_decide as D; [|done].
    exfalso. by apply (Hneq e He Hs).
Qed.

(** ** A packet is received in order *)
Definition received (sl : SSlot) : SSlot :=
  sl <| client_info_ ::= fun ci => ci <| num_rx_ ::= fun n => n + 1 |> |>.

(** The next packet to receive is not in the wheel, so no entry is lost. *)
Lemma ents_above ub sl e :
  ent_ok ub sl e ->
  zlookup (in_wheel_ (client_info_ sl)) (num_rx_ (client_info_ sl) mod kSessionCredits) = Some false ->
  num_rx_ (client_info_ sl) + 1 <= we_pkt_num e.
Proof.
  intros (_ & Hr & _ & Hb) Hf.
  destruct (decide (we_pkt_num e = num_rx_ (client_info_ sl))) as [E|]; [|lia].
  rewrite E in Hb. congruence.
Qed.

Lemma CI_rx g R sid i se sl :
  CI g R -> sess_at R sid = Some se -> is_client se = true ->
  zlookup (sslot_arr_ se) i = Some sl -> g_x g = None -> 0 < win sl ->
  zlookup (in_wheel_ (client_info_ sl)) (num_rx_ (client_info_ sl) mod kSessionCredits) = Some false ->
  CI (with_x (Some (sid, i)) g) (put_sess sid (upd_sc i (received sl) (credits_ se + 1) se) R).
Proof.
  intros HC Hse Hcl Hsl Hx Hw Hbit.
  pose proof (CI_sess _ _ HC _ _ Hse Hcl) as Hss.
  pose proof (co_slot _ _ _ _ Hss _ _ Hsl) as Hok.
  assert (Hat : slot_at R (sid, i) = Some sl) by (apply slot_at_Some; eauto).
  assert (Hc : is_client_ sl = true) by (rewrite <- Hcl; by eapply (CI_role _ _ HC)).
  pose proof (co_pos _ _ _ _ Hss). unfold win in Hw.
  assert (Ht : tx_msgbuf_ sl <> None).
  { intros E. pose proof (so_idle _ _ _ _ Hok E). lia. }
  destruct (tot_bound _ _ _ _ HC Hat Hc Ht) as (HN & HM & _).
  eapply CI_step; try done; try apply HC; cbn.
  - split; cbn; try done. intros s' _ H'. congruence.
  - destruct Hok as [? ? ? Hrx ? Htot ? ? ? ? ?]. unfold received. split; rsimp; try done.
    + lia.
    + intros _. destruct (Htot Ht) as [H1 _]. split; [|by right]. unfold tot, total in *. rsimp.
      destruct (num_rx_ _ <? _) eqn:E1 in H1; destruct (_ + 1 <? _) eqn:E2;
        rewrite ?Z.ltb_lt, ?Z.ltb_ge in *; lia.
    + by auto.
  - lia.
  - unfold win, received. rsimp. lia.
  - intros Hin. destruct (CI_sq _ _ HC _ Hin) as (sl' & Hsl' & _ & ? & ?).
    rewrite Hat in Hsl'. injection Hsl' as <-. pose proof (so_rx _ _ _ _ Hok). lia.
  - intros e He Hs. destruct (CI_ents _ _ HC e He) as (sl2 & Hsl2 & He2).
    rewrite Hs, Hat in Hsl2. injection Hsl2 as <-.
    pose proof (ents_above _ _ _ He2 Hbit). destruct He2 as (? & ? & ? & ?).
    unfold ent_ok, received. split_and!; rsimp; try done; lia.
Qed.

(** ** A request is rolled back *)
Definition rolled (sl : SSlot) : SSlot :=
  sl <| client_info_ ::= fun ci => ci <| num_tx_ := num_rx_ ci |> |>.

Lemma no_bits_no_ents g R s sl :
  CI g R -> slot_at R s = Some sl -> is_client_ sl = true -> wheel_count_ (client_info_ sl) <= 0 ->
  forall e, e ∈ g_ents g -> we_sslot e <> s.
Proof.
  intros HC Hsl Hc Hwc e He Hs.
  destruct (CI_slot _ _ _ _ HC Hsl Hc) as (se & _ & _ & _ & _ & Hok).
  destruct (CI_ents _ _ HC e He) as (sl2 & Hsl2 & _ & _ & _ & Hb).
  rewrite Hs, Hsl in Hsl2. injection Hsl2 as <-.
  rewrite (so_wc _ _ _ _ Hok) in Hwc.
  assert (Z.b2z true <= count_true (in_wheel_ (client_info_ sl))); [|cbn in *; lia].
  eapply zsum_ge_zlookup; [|exact Hb]. intros j [] _; cbn; lia.
Qed.

Lemma CI_rollback g R sid i se sl :
  CI g R -> sess_at R sid = Some se -> is_client se = true ->
  zlookup (sslot_arr_ se) i = Some sl -> g_x g = None -> 0 < win sl ->
  wheel_count_ (client_info_ sl) <= 0 ->
  CI (with_x (Some (sid, i)) g) (put_sess sid (upd_sc i (rolled sl) (credits_ se + win sl) se) R).
Proof.
  intros HC Hse Hcl Hsl Hx Hw Hwc.
  pose proof (CI_sess _ _ HC _ _ Hse Hcl) as Hss.
  pose proof (co_slot _ _ _ _ Hss _ _ Hsl) as Hok.
  assert (Hat : slot_at R (sid, i) = Some sl) by (apply slot_at_Some; eauto).
  assert (Hc : is_client_ sl = true) by (rewrite <- Hcl; by eapply (CI_role _ _ HC)).
  pose proof (co_pos _ _ _ _ Hss). pose proof (no_bits_no_ents _ _ _ _ HC Hat Hc Hwc) as Hne.
  eapply CI_step; try done; try apply HC; cbn.
  - split; cbn; try done. intros s' _ H'. congruence.
  - unfold win in Hw. destruct Hok as [? ? ? Hrx ? Htot ? ? ? ? ?]. unfold rolled.
    split; rsimp; try done.
    + lia.
    + intros Ht. destruct (Htot Ht) as [H1 H2]. unfold tot in *. rsimp. split; [lia|by right].
    + by auto.
  - lia.
  - unfold win, rolled in *. rsimp. lia.
  - intros Hin. destruct (CI_sq _ _ HC _ Hin) as (sl' & Hsl' & _ & ? & ?).
    rewrite Hat in Hsl'. injection Hsl' as <-. unfold win in *.
    pose proof (so_rx _ _ _ _ Hok). lia.
  - intros e He Hs. by destruct (Hne e He).
Qed.
End Steps.
