(* ===== verification/ClientReq.v ===== *)
(** * Preservation of the client's invariant: requests start and finish

    These steps change which buffers are owned, which slots are free, and the
    sizes of buffers. *)
From S2P Require Import Prelude Config HugeAlloc PktHdr Msg SmTypes Timer Timely MemPool TimingWheel WheelChain WheelSpec Session RpcState RpcBase RpcWp ClientInv ClientLemmas ClientSteps.

Section Req.
Context {T : TTr} {TOk : TTrOk T} {Os : ShmOs} {C : RpcConf}.

(** ** Ownership *)
Lemma claims_slot_change g R sid i se se' sl sl' :
  sess_at R sid = Some se -> zlookup (sslot_arr_ se) i = Some sl ->
  sslot_arr_ se' = zinsert i sl' (sslot_arr_ se) -> enq_req_backlog_ se' = enq_req_backlog_ se ->
  slot_claims sl ++ claims g (put_sess sid se' R) ≡ₚ slot_claims sl' ++ claims g R.
Proof.
  intros Hse Hsl Ha Hb.
  assert (H1 : slot_claims sl ++ sess_claims g sid se' ≡ₚ slot_claims sl' ++ sess_claims g sid se).
  { unfold sess_claims. rewrite Ha, Hb, !app_assoc. apply Permutation_app_tail.
    by apply concat_zinsert. }
  apply (Permutation_app_inv_l (sess_claims g sid se)).
  rewrite Permutation_app_swap_app, (claims_put g R sid se se' Hse).
  rewrite app_assoc, H1, <- app_assoc. apply Permutation_app_swap_app.
Qed.

Definition idled (sl : SSlot) : SSlot := sl <| tx_msgbuf_ := None |>.

Lemma claims_without g R sid i se sl :
  sess_at R sid = Some se -> zlookup (sslot_arr_ se) i = Some sl ->
  slot_claims sl ++ claims g (put_sess sid (se <| sslot_arr_ ::= zinsert i (idled sl) |>) R)
  ≡ₚ claims g R.
Proof.
  intros Hse Hsl.
  by rewrite (claims_slot_change g R sid i se _ sl (idled sl)) by done.
Qed.

(** Two slots own different buffers. *)
Lemma claims_distinct g R s s' sl sl' p :
  CI g R -> slot_at R s = Some sl -> slot_at R s' = Some sl' -> s <> s' ->
  p ∈ slot_claims sl -> p ∉ slot_claims sl'.
Proof.
  intros HC H H' Hne Hp Hp'. pose proof H as (se & Hse & Hsl)%slot_at_Some.
  pose proof (CI_claims_nodup _ _ HC) as Hnd. destruct s as [sid i]; cbn [fst snd] in *.
  rewrite <- (claims_without g R sid i se sl Hse Hsl) in Hnd.
  apply NoDup_app in Hnd as (_ & Hnd & _). apply (Hnd p Hp).
  eapply slot_claims_sub; [|exact Hp'].
  rewrite (slot_at_put_sess _ _ _ _ _ Hse). case_decide as D; [|done].
  rewrite slot_at_Some in H'. destruct H' as (se2 & Hse2 & Hsl2).
  rewrite <- D, Hse in Hse2. injection Hse2 as <-. rsimp.
  rewrite zlookup_zinsert_ne; [done|]. destruct s'; cbn in *; congruence.
Qed.

(** ... and its two buffers are different. *)
Lemma claims_two g R s sl p q :
  CI g R -> slot_at R s = Some sl -> slot_claims sl = [p; q] -> p <> q.
Proof.
  intros HC H E. pose proof H as (se & Hse & Hsl)%slot_at_Some.
  pose proof (CI_claims_nodup _ _ HC) as Hnd. destruct s as [sid i]; cbn [fst snd] in *.
  rewrite <- (claims_without g R sid i se sl Hse Hsl), E in Hnd.
  apply NoDup_app in Hnd as (Hnd & _ & _). inversion Hnd; subst. set_solver.
Qed.

Lemma slot_claims_active g R s sl :
  CI g R -> slot_at R s = Some sl -> is_client_ sl = true -> tx_msgbuf_ sl <> None ->
  exists p q, tx_msgbuf_ sl = Some p /\ resp_msgbuf_ (client_info_ sl) = Some q /\
    slot_claims sl = [p; q].
Proof.
  intros HC H Hc Ht. destruct (active_bufs _ _ _ _ HC H Hc Ht) as (p & q & Ep & Eq & _).
  exists p, q. unfold slot_claims. by rewrite Ep, Eq, Hc.
Qed.

(** ** A response buffer is resized *)
Lemma npk_insert (ub : gmap Z MsgBuffer) n mb p :
  p <> Some (MbUser n) -> npk (<[n := mb]> ub) p = npk ub p.
Proof.
  intros H. destruct p as [[m| | |]|]; cbn; try done.
  rewrite lookup_insert_ne; [done|congruence].
Qed.

Lemma npk_idle ub : npk ub None = 0.
Proof. done. Qed.

(** The buffers of slots other than [s] are not [s]'s response buffer. *)
Lemma other_bufs g R s s' sl sl' n :
  CI g R -> slot_at R s = Some sl -> is_client_ sl = true -> tx_msgbuf_ sl <> None ->
  resp_msgbuf_ (client_info_ sl) = Some (MbUser n) ->
  slot_at R s' = Some sl' -> is_client_ sl' = true -> tx_msgbuf_ sl' <> None ->
  tx_msgbuf_ sl' <> Some (MbUser n) /\
  (s <> s' -> resp_msgbuf_ (client_info_ sl') <> Some (MbUser n)).
Proof.
  intros HC H Hc Ht Hr H' Hc' Ht'.
  destruct (slot_claims_active _ _ _ _ HC H Hc Ht) as (p & q & Ep & Eq & E).
  destruct (slot_claims_active _ _ _ _ HC H' Hc' Ht') as (p' & q' & Ep' & Eq' & E').
  rewrite Hr in Eq. injection Eq as <-. rewrite Ep', Eq'.
  destruct (decide (s = s')) as [->|Hne].
  - rewrite H in H'. injection H' as <-. rewrite Ep in Ep'. injection Ep' as <-.
    split; [|done]. intros [= ->]. by apply (claims_two _ _ _ _ _ _ HC H E).
  - pose proof (claims_distinct _ _ _ _ _ _ (MbUser n) HC H H' Hne) as Hd.
    rewrite E, E' in Hd. split; intros; intros [= ->]; apply Hd; set_solver.
Qed.

Lemma slot_ok_ub g ub ub' s sl :
  slot_ok g ub s sl ->
  (tx_msgbuf_ sl <> None -> npk ub' (tx_msgbuf_ sl) = npk ub (tx_msgbuf_ sl) /\
     npk ub' (resp_msgbuf_ (client_info_ sl)) = npk ub (resp_msgbuf_ (client_info_ sl))) ->
  slot_ok g ub' s sl.
Proof.
  intros [? ? ? ? ? Ht ? ? ? ? ?] E. split; try done.
  intros Hn. destruct (E Hn) as [E1 E2]. unfold tot in *. rewrite E1, E2. by apply Ht.
Qed.

Definition set_ub (n : Z) (mb : MsgBuffer) (R : Rpc) : Rpc := R <| r_user_mb ::= <[n := mb]> |>.

Lemma claim_ok_insert (ub : gmap Z MsgBuffer) n mb p :
  umb_ok mb -> claim_ok ub p -> claim_ok (<[n := mb]> ub) p.
Proof.
  intros Hmb (m & mb' & -> & Hm & Hok). destruct (decide (n = m)) as [<-|Hne].
  - exists n, mb. by rewrite lookup_insert_eq.
  - exists m, mb'. by rewrite lookup_insert_ne.
Qed.

(** In the exempt slot the number of response packets may change, as long as
    what was sent stays within the new total. *)
Lemma CI_resize g R s sl n mb :
  CI g R -> slot_at R s = Some sl -> is_client_ sl = true -> tx_msgbuf_ sl <> None ->
  g_x g = Some s -> resp_msgbuf_ (client_info_ sl) = Some (MbUser n) -> umb_ok mb ->
  num_tx_ (client_info_ sl) <= total (npk (r_user_mb R) (tx_msgbuf_ sl)) (num_pkts_ mb)
    (num_rx_ (client_info_ sl)) ->
  CI g (set_ub n mb R).
Proof.
  intros HC H Hc Ht Hx Hr Hmb Htot.
  assert (Hub : r_user_mb (set_ub n mb R) = <[n := mb]> (r_user_mb R)) by done.
  assert (Hob := fun s' sl' => other_bufs g R s s' sl sl' n HC H Hc Ht Hr).
  split; rewrite ?Hub; try apply HC.
  - intros sid se Hse Hcl. destruct (CI_sess _ _ HC sid se Hse Hcl) as [? Hsl ? ? ? ? ? ? ? ?].
    split; try done. intros i sl' Hi.
    assert (H' : slot_at R (sid, i) = Some sl') by (apply slot_at_Some; eauto).
    assert (Hc' : is_client_ sl' = true) by (rewrite <- Hcl; by eapply (CI_role _ _ HC)).
    destruct (decide (s = (sid, i))) as [->|Hne].
    + rewrite H in H'. injection H' as <-. destruct (Hsl i sl Hi). split; try done.
      intros _. unfold tot. destruct (Hob _ _ H Hc Ht) as [H1 _].
      rewrite (npk_insert _ _ _ _ H1), Hr. cbn [npk]. rewrite lookup_insert_eq. cbn.
      by auto.
    + apply (slot_ok_ub g (r_user_mb R)); [by apply Hsl|]. intros Ht'.
      destruct (Hob _ _ H' Hc' Ht') as [H1 H2].
      split; apply npk_insert; auto.
  - intros p Hp. apply claim_ok_insert; [done|]. by apply (CI_claims _ _ HC).
  - intros e He. destruct (CI_ents _ _ HC e He) as (sl2 & Hsl2 & Hc2 & Hw2 & Hlt & Hb).
    exists sl2. split; [done|]. split_and!; try done; try apply Hw2.
    destruct (decide (tx_msgbuf_ sl2 = None)) as [E|E]; [rewrite E in *; cbn in *; lia|].
    rewrite npk_insert; [done|]. by apply (Hob _ _ Hsl2 Hc2 E).
Qed.

(** ** Sessions other than the one that changes *)
Record ghost_other (sid : Z) (g g' : ghost) : Prop := {
  go_sq : g_sq g' = g_sq g;
  go_ents : g_ents g' = g_ents g;
  go_x s : s.1 <> sid -> g_x g = Some s -> g_x g' = Some s;
  go_bf sid' : g_bf g = Some sid' -> sid' = sid \/ g_bf g' = Some sid';
  go_bl sid' l : sid' <> sid -> g_bl g' sid' l = g_bl g sid' l;
}.

Lemma slot_ok_ghost g g' ub s sl :
  g_sq g' = g_sq g -> g_ents g' = g_ents g -> (g_x g = Some s -> g_x g' = Some s) ->
  slot_ok g ub s sl -> slot_ok g' ub s sl.
Proof.
  intros E1 E2 E3 [? ? ? ? ? Ht ? Hp ? Hb ?]. split; try done.
  - intros Hn. destruct (Ht Hn) as [? []]; auto.
  - intros Hn. rewrite E1. destruct (Hp Hn) as [|[|]]; auto.
  - intros k Hk. rewrite E2. by apply Hb.
Qed.

Lemma csess_other g g' ub sid sid' se :
  ghost_other sid g g' -> sid' <> sid -> csess_ok g ub sid' se -> csess_ok g' ub sid' se.
Proof.
  intros G Hne [? Hsl ? ? ? ? ? ? Hbl Hargs]. split; try done.
  - intros i sl Hi. apply (slot_ok_ghost g); [apply G|apply G| |by apply Hsl].
    by apply (go_x _ _ _ G).
  - rewrite (go_bl _ _ _ G) by done. destruct Hbl as [Hb|Hb]; [|by right].
    destruct (go_bf _ _ _ G _ Hb) as [->|]; [done|by left].
  - intros a. rewrite (go_bl _ _ _ G) by done. apply Hargs.
Qed.

Lemma claims_put_ghost g g' R sid se se' :
  sess_at R sid = Some se -> ghost_other sid g g' ->
  sess_claims g sid se ++ claims g' (put_sess sid se' R)
  ≡ₚ sess_claims g' sid se' ++ claims g R.
Proof.
  intros H%sess_at_lookup G. unfold claims, put_sess. rsimp. unfold zlookup, zinsert in *.
  case_match eqn:E0; [|done]. rewrite imap_insert, Z2Nat.id by lia.
  set (f := fun i o => match o with Some se => sess_claims g (Z.of_nat i) se | None => [] end).
  set (f' := fun i o => match o with Some se => sess_claims g' (Z.of_nat i) se | None => [] end).
  assert (E : <[Z.to_nat sid := sess_claims g' sid se']> (imap f' (r_session_vec R))
            = <[Z.to_nat sid := sess_claims g' sid se']> (imap f (r_session_vec R))).
  { apply list_eq. intros j. destruct (decide (Z.to_nat sid = j)) as [<-|Hj].
    - destruct (decide (Z.to_nat sid < length (r_session_vec R))%nat).
      + by rewrite !list_lookup_insert_eq by (rewrite length_imap; done).
      + by rewrite !lookup_ge_None_2 by (rewrite length_insert, length_imap; lia).
    - rewrite !list_lookup_insert_ne, !list_lookup_imap by done.
      destruct (r_session_vec R !! j) as [[se2|]|]; cbn; try done. apply f_equal.
      unfold sess_claims. rewrite (go_bl _ _ _ G); [done|lia]. }
  rewrite E. apply concat_insert. rewrite list_lookup_imap, H. cbn. by rewrite Z2Nat.id by lia.
Qed.

(** The invariant with one session exchanged. *)
Lemma CI_put g g' R sid se se' :
  CI g R -> sess_at R sid = Some se -> is_client se = true -> ghost_other sid g g' ->
  is_client se' = true -> csess_ok g' (r_user_mb R) sid se' ->
  (forall i sl', zlookup (sslot_arr_ se') i = Some sl' -> is_client_ sl' = true) ->
  NoDup (claims g' (put_sess sid se' R)) ->
  (forall p, p ∈ claims g' (put_sess sid se' R) -> claim_ok (r_user_mb R) p) ->
  (forall i sl, zlookup (sslot_arr_ se) i = Some sl -> exists sl',
     zlookup (sslot_arr_ se') i = Some sl' /\
     ((sid, i) ∈ g_sq g -> tx_msgbuf_ sl' <> None /\ num_tx_ (client_info_ sl') = 0) /\
     (forall e, e ∈ g_ents g -> we_sslot e = (sid, i) -> ent_ok (r_user_mb R) sl' e)) ->
  CI g' (put_sess sid se' R).
Proof.
  intros HC Hse Hcl G Hcl' Hok Hrole Hnd Hclaims Hslots.
  assert (Hslot := fun s => slot_at_put_sess R sid se se' s Hse).
  split; rewrite ?(go_sq _ _ _ G), ?(go_ents _ _ _ G); try apply HC; try done.
  - intros sid' se1 i sl. rewrite (sess_at_put _ _ _ _ _ Hse). case_decide as D.
    + intros [= <-] Hi. rewrite Hcl'. by eapply Hrole.
    + by apply (CI_role _ _ HC).
  - intros sid' se1. rewrite (sess_at_put _ _ _ _ _ Hse). case_decide as D.
    + intros [= <-] _. by subst.
    + intros H1 H2. eapply csess_other; [done|congruence|]. by apply (CI_sess _ _ HC).
  - intros s Hs. rewrite (Hslot s). destruct (CI_sq _ _ HC s Hs) as (sl & Hsl & Hc & Ht & Hz).
    case_decide as D; [|by exists sl].
    apply slot_at_Some in Hsl as (se1 & Hse1 & Hi). rewrite <- D, Hse in Hse1. injection Hse1 as <-.
    destruct (Hslots _ _ Hi) as (sl' & Hi' & Hq & _). exists sl'. split; [done|].
    split; [by eapply Hrole|]. apply Hq. destruct s as [a b]; cbn in D, Hi |- *. by subst.
  - intros e He. rewrite (Hslot (we_sslot e)). destruct (CI_ents _ _ HC e He) as (sl & Hsl & He2).
    case_decide as D; [|by exists sl].
    apply slot_at_Some in Hsl as (se1 & Hse1 & Hi). rewrite <- D, Hse in Hse1. injection Hse1 as <-.
    destruct (Hslots _ _ Hi) as (sl' & Hi' & _ & Hq). exists sl'. split; [done|].
    apply (Hq e He). destruct (we_sslot e) as [a b]; cbn in D, Hi |- *. by subst.
Qed.

(** ** A request starts *)

(** [sl'] is [sl] with a new request. *)
Record starts (p q : mbptr) (sl sl' : SSlot) : Prop := {
  st_index : index_ sl' = index_ sl;
  st_client : is_client_ sl' = is_client_ sl;
  st_tx : tx_msgbuf_ sl' = Some p;
  st_resp : resp_msgbuf_ (client_info_ sl') = Some q;
  st_num_tx : num_tx_ (client_info_ sl') = 0;
  st_num_rx : num_rx_ (client_info_ sl') = 0;
  st_iw : in_wheel_ (client_info_ sl') = in_wheel_ (client_info_ sl);
  st_wc : wheel_count_ (client_info_ sl') = wheel_count_ (client_info_ sl);
  st_ts : tx_ts_ (client_info_ sl') = tx_ts_ (client_info_ sl);
  st_etid : etid_ok (cont_etid_ (client_info_ sl'));
}.

Lemma starts_slot_ok g g' ub s sl sl' p q :
  slot_ok g ub s sl -> starts p q sl sl' -> g_ents g' = g_ents g -> g_x g' = Some s ->
  claim_ok ub p -> slot_ok g' ub s sl'.
Proof.
  intros [? ? ? ? ? ? ? ? Hwc Hb ?] [] E Hx Hp. apply npk_claim in Hp.
  split; rewrite ?st_index0, ?st_iw0, ?st_ts0, ?st_num_tx0, ?st_num_rx0, ?st_tx0, ?st_resp0,
    ?st_wc0; try done; try lia.
  - intros _. unfold tot, total. rewrite ?st_tx0, ?st_num_rx0, ?st_num_tx0.
    replace (0 <? npk ub (Some p)) with true by lia. split; [lia|by right].
  - by auto.
  - intros k. rewrite E. apply Hb.
Qed.

Lemma zinsert_free (arr : list SSlot) i sl sl' j :
  zlookup arr i = Some sl ->
  (exists y, zlookup (zinsert i sl' arr) j = Some y /\ tx_msgbuf_ y = None) <->
  (j = i /\ tx_msgbuf_ sl' = None) \/
  (j <> i /\ exists y, zlookup arr j = Some y /\ tx_msgbuf_ y = None).
Proof.
  intros H. rewrite (zlookup_zinsert _ _ _ _ _ H). case_decide as D.
  - subst. split; [intros (y & [= <-] & ?); by left|]. intros [[_ ?]|[? _]]; [eauto|done].
  - split; [intros ?; right; by split|]. intros [[-> _]|[_ ?]]; done.
Qed.

Lemma win_starts p q sl sl' : starts p q sl sl' -> win sl' = 0.
Proof. intros S. unfold win. rewrite (st_num_tx _ _ _ _ S), (st_num_rx _ _ _ _ S). lia. Qed.

Lemma idle_win g ub s sl : slot_ok g ub s sl -> tx_msgbuf_ sl = None -> win sl = 0.
Proof. intros Hok Ht. pose proof (so_idle _ _ _ _ Hok Ht). unfold win. lia. Qed.

Lemma elem_snoc {A} (l : list A) x : x ∈ l ++ [x].
Proof. apply elem_of_app. right. by left. Qed.

(** The session that a start leaves: slot [i], the last free one, is taken. *)
Record start_sess (i : Z) (l : list Z) (sl' : SSlot) (se se' : Session) : Prop := {
  ss_role : role_ se' = role_ se;
  ss_arr : sslot_arr_ se' = zinsert i sl' (sslot_arr_ se);
  ss_fv : fv_ok (sslot_free_vec_ se');
  ss_list : fv_list (sslot_free_vec_ se') = l;
  ss_cap : fv_capacity (sslot_free_vec_ se') = fv_capacity (sslot_free_vec_ se);
  ss_credits : credits_ se' = credits_ se;
  ss_backlog : enq_req_backlog_ se' = enq_req_backlog_ se;
}.

Lemma csess_start g g' ub sid i l se se' sl sl' p q :
  csess_ok g ub sid se -> fv_list (sslot_free_vec_ se) = l ++ [i] ->
  zlookup (sslot_arr_ se) i = Some sl -> starts p q sl sl' -> start_sess i l sl' se se' ->
  ghost_other sid g g' -> g_x g = None -> g_x g' = Some (sid, i) -> claim_ok ub p ->
  g_bl g' sid (enq_req_backlog_ se) = [] \/ l = [] ->
  (forall a, a ∈ g_bl g' sid (enq_req_backlog_ se) -> ea_session_num a = sid /\ etid_ok (ea_cont_etid a)) ->
  csess_ok g' ub sid se'.
Proof.
  intros [Hlen Hslot Hpos Hcr Hfv Hcap Hnd Hfree Hbl Hargs] Hl Hi S SS G Hx Hx' Hp Hb Ha.
  assert (Hidle : tx_msgbuf_ sl = None).
  { destruct (proj1 (Hfree i)) as (y & Hy & ?); [rewrite Hl; apply elem_snoc|]. congruence. }
  rewrite Hl in Hnd. apply NoDup_app in Hnd as (Hnd & Hnin & _).
  destruct SS as [S1 S2 S3 S4 S5 S6 S7].
  split; rewrite ?S2, ?S4, ?S5, ?S6, ?S7; try done.
  - by rewrite zlength_zinsert.
  - intros j y. rewrite (zlookup_zinsert _ _ _ _ _ Hi). case_decide as D.
    + intros [= <-]. subst j. apply (starts_slot_ok g g' ub _ sl sl' p q); [by apply Hslot|done|apply G|done|done].
    + intros Hy. apply (slot_ok_ghost g); [apply G|apply G| |by apply Hslot].
      rewrite Hx. done.
  - rewrite (zsum_zinsert _ _ _ _ _ Hi), (win_starts _ _ _ _ S).
    rewrite (idle_win _ _ _ _ (Hslot _ _ Hi) Hidle). lia.
  - intros j. rewrite (zinsert_free _ _ _ _ _ Hi), <- Hfree, Hl, (st_tx _ _ _ _ S).
    rewrite elem_of_app, list_elem_of_singleton. split.
    + intros Hj. right. split; [|by left]. intros ->. apply (Hnin i Hj). by left.
    + intros [[_ ?]|[Hne [?|?]]]; done.
  - by right.
Qed.

Lemma CI_start g g' R sid i l se se' sl sl' p q :
  CI g R -> sess_at R sid = Some se -> is_client se = true ->
  fv_list (sslot_free_vec_ se) = l ++ [i] -> zlookup (sslot_arr_ se) i = Some sl ->
  starts p q sl sl' -> start_sess i l sl' se se' ->
  ghost_other sid g g' -> g_x g = None -> g_x g' = Some (sid, i) ->
  g_bl g' sid (enq_req_backlog_ se) = [] \/ l = [] ->
  (forall a, a ∈ g_bl g' sid (enq_req_backlog_ se) -> ea_session_num a = sid /\ etid_ok (ea_cont_etid a)) ->
  NoDup (p :: q :: claims g' R) -> claim_ok (r_user_mb R) p -> claim_ok (r_user_mb R) q ->
  (forall p', p' ∈ claims g' R -> claim_ok (r_user_mb R) p') ->
  CI g' (put_sess sid se' R).
Proof.
  intros HC Hse Hcl Hl Hi S SS G Hx Hx' Hb Ha Hnd Hp Hq Hall.
  pose proof (CI_sess _ _ HC _ _ Hse Hcl) as Hss.
  assert (Hidle : tx_msgbuf_ sl = None).
  { destruct (proj1 (co_free _ _ _ _ Hss i)) as (y & Hy & ?); [rewrite Hl; apply elem_snoc|]. congruence. }
  assert (Hat : slot_at R (sid, i) = Some sl) by (apply slot_at_Some; eauto).
  assert (Hc : is_client_ sl = true) by (rewrite <- Hcl; by eapply (CI_role _ _ HC)).
  assert (Hcl' : is_client se' = true) by (unfold is_client; by rewrite (ss_role _ _ _ _ _ SS)).
  assert (Hclaims : claims g' (put_sess sid se' R) ≡ₚ p :: q :: claims g' R).
  { pose proof (claims_slot_change g' R sid i se se' sl sl' Hse Hi (ss_arr _ _ _ _ _ SS)
      (ss_backlog _ _ _ _ _ SS)) as E.
    unfold slot_claims in E at 1 2. rewrite Hidle, (st_tx _ _ _ _ S), (st_resp _ _ _ _ S) in E.
    rewrite (st_client _ _ _ _ S), Hc in E. exact E. }
  eapply CI_put; try done.
  - eapply csess_start; done.
  - intros j y. rewrite (ss_arr _ _ _ _ _ SS), (zlookup_zinsert _ _ _ _ _ Hi). case_decide.
    + intros [= <-]. by rewrite (st_client _ _ _ _ S).
    + intros Hy. rewrite <- Hcl. by eapply (CI_role _ _ HC).
  - by rewrite Hclaims.
  - intros p'. rewrite Hclaims, !elem_of_cons. intros [->|[->|?]]; auto.
  - intros j y Hy. rewrite (ss_arr _ _ _ _ _ SS), (zlookup_zinsert _ _ _ _ _ Hi).
    case_decide as D; [subst j; exists sl'|exists y]; (split; [done|]).
    + destruct (no_window_no_bits g R (sid, i) sl HC Hat Hc) as [_ Hne].
      { by eapply idle_win; [eapply (co_slot _ _ _ _ Hss)|]. }
      split; [|intros e He Hes; by destruct (Hne e He)].
      rewrite (st_tx _ _ _ _ S), (st_num_tx _ _ _ _ S). done.
    + split.
      * intros Hin. destruct (CI_sq _ _ HC _ Hin) as (sl2 & (se2 & E1 & E2)%slot_at_Some & _ & ?).
        cbn in E1, E2. by simplify_eq.
      * intros e He Hes. destruct (CI_ents _ _ HC e He) as (sl2 & H2 & ?).
        rewrite Hes in H2. apply slot_at_Some in H2 as (se2 & E1 & E2). cbn in E1, E2. by simplify_eq.
Qed.
End Req.
