(* ===== verification/ClientFin.v ===== *)
(** * Preservation of the client's invariant: a request finishes, and the
    backlog *)
From S2P Require Import Prelude Config HugeAlloc PktHdr Msg SmTypes Timer Timely MemPool TimingWheel WheelChain WheelSpec Session RpcState RpcBase RpcWp ClientInv ClientLemmas ClientSteps ClientReq.

Section Fin.
Context {T : TTr} {TOk : TTrOk T} {Os : ShmOs} {C : RpcConf}.

(** ** A request finishes

    Its slot is free again; until the backlog has been looked at, the session
    may have both a backlog and a free slot. *)
Definition finishing (sid : Z) (g : ghost) : ghost :=
  mkGhost (g_sq g) None (Some sid) (g_bl g) (g_ents g).

Record finish_sess (i : Z) (sl' : SSlot) (se se' : Session) : Prop := {
  fs_role : role_ se' = role_ se;
  fs_arr : sslot_arr_ se' = zinsert i sl' (sslot_arr_ se);
  fs_fv : fv_ok (sslot_free_vec_ se');
  fs_list : fv_list (sslot_free_vec_ se') = fv_list (sslot_free_vec_ se) ++ [i];
  fs_cap : fv_capacity (sslot_free_vec_ se') = fv_capacity (sslot_free_vec_ se);
  fs_credits : credits_ se' = credits_ se;
  fs_backlog : enq_req_backlog_ se' = enq_req_backlog_ se;
}.

Lemma slot_ok_finish g ub sid i sl :
  slot_ok g ub (sid, i) sl -> win sl = 0 -> slot_ok (finishing sid g) ub (sid, i) (idled sl).
Proof.
  intros [? ? ? ? ? ? ? ? ? ? ?] Hw. unfold win in Hw. unfold idled.
  split; rsimp; try done. lia.
Qed.

Lemma ghost_other_finish sid i g :
  g_x g = Some (sid, i) -> g_bf g = None -> ghost_other sid g (finishing sid g).
Proof.
  intros Hx Hb. split; cbn; try done.
  - intros s Hne H. rewrite Hx in H. by injection H as <-.
  - intros sid' H. congruence.
Qed.

Lemma csess_finish g ub sid i se se' sl :
  csess_ok g ub sid se -> zlookup (sslot_arr_ se) i = Some sl -> win sl = 0 ->
  tx_msgbuf_ sl <> None -> finish_sess i (idled sl) se se' ->
  g_x g = Some (sid, i) -> csess_ok (finishing sid g) ub sid se'.
Proof.
  intros [Hlen Hslot Hpos Hcr Hfv Hcap Hnd Hfree Hbl Hargs] Hi Hw Ht [S1 S2 S3 S4 S5 S6 S7] Hx.
  assert (Hnin : i ∉ fv_list (sslot_free_vec_ se)).
  { intros (y & Hy & E)%Hfree. congruence. }
  split; rewrite ?S2, ?S4, ?S5, ?S6, ?S7; try done.
  - by rewrite zlength_zinsert.
  - intros j y. rewrite (zlookup_zinsert _ _ _ _ _ Hi). case_decide as D.
    + intros [= <-]. subst j. by apply slot_ok_finish; [apply Hslot|].
    + intros Hy. apply (slot_ok_ghost g); try done; [|by apply Hslot].
      rewrite Hx. congruence.
  - rewrite (zsum_zinsert _ _ _ _ _ Hi), Hw. unfold win, idled in *. rsimp. lia.
  - apply NoDup_app. split; [done|]. split; [|apply NoDup_singleton].
    intros x Hx1 ->%list_elem_of_singleton. done.
  - intros j. rewrite (zinsert_free _ _ _ _ _ Hi), <- Hfree, elem_of_app, list_elem_of_singleton.
    split.
    + intros [Hj| ->]; [right|left; by split]. split; [|done]. by intros ->.
    + intros [[-> _]|[_ ?]]; auto.
  - by left.
Qed.

Lemma CI_finish g R sid i se se' sl :
  CI g R -> sess_at R sid = Some se -> is_client se = true ->
  zlookup (sslot_arr_ se) i = Some sl -> win sl = 0 -> 0 < num_tx_ (client_info_ sl) ->
  tx_msgbuf_ sl <> None ->
  finish_sess i (idled sl) se se' -> g_x g = Some (sid, i) -> g_bf g = None ->
  CI (finishing sid g) (put_sess sid se' R).
Proof.
  intros HC Hse Hcl Hi Hw Hpos Ht SS Hx Hb.
  pose proof (CI_sess _ _ HC _ _ Hse Hcl) as Hss.
  assert (Hat : slot_at R (sid, i) = Some sl) by (apply slot_at_Some; eauto).
  assert (Hc : is_client_ sl = true) by (rewrite <- Hcl; by eapply (CI_role _ _ HC)).
  assert (Hcl' : is_client se' = true) by (unfold is_client; by rewrite (fs_role _ _ _ _ SS)).
  assert (Hsub : slot_claims sl ++ claims (finishing sid g) (put_sess sid se' R) ≡ₚ claims g R).
  { rewrite (claims_ghost g (finishing sid g)) by done.
    by rewrite (claims_slot_change g R sid i se se' sl (idled sl) Hse Hi
      (fs_arr _ _ _ _ SS) (fs_backlog _ _ _ _ SS)). }
  pose proof (CI_claims_nodup _ _ HC) as Hnd. rewrite <- Hsub in Hnd.
  apply NoDup_app in Hnd as (_ & _ & Hnd).
  eapply CI_put; try done.
  - by apply ghost_other_finish with i.
  - by eapply csess_finish.
  - intros j y. rewrite (fs_arr _ _ _ _ SS), (zlookup_zinsert _ _ _ _ _ Hi). case_decide.
    + by intros [= <-].
    + intros Hy. rewrite <- Hcl. by eapply (CI_role _ _ HC).
  - intros p Hp. apply (CI_claims _ _ HC). rewrite <- Hsub. apply elem_of_app. by right.
  - intros j y Hy. rewrite (fs_arr _ _ _ _ SS), (zlookup_zinsert _ _ _ _ _ Hi).
    destruct (no_window_no_bits g R (sid, i) sl HC Hat Hc Hw) as [_ Hne].
    case_decide as D; [subst j; exists (idled sl)|exists y]; (split; [done|]).
    + split; [|intros e He Hes; by destruct (Hne e He)].
      intros Hin. destruct (CI_sq _ _ HC _ Hin) as (sl2 & Hsl2 & _ & _ & Hz).
      rewrite Hat in Hsl2. injection Hsl2 as <-. lia.
    + split.
      * intros Hin. destruct (CI_sq _ _ HC _ Hin) as (sl2 & (se2 & E1 & E2)%slot_at_Some & _ & ?).
        cbn in E1, E2. by simplify_eq.
      * intros e He Hes. destruct (CI_ents _ _ HC e He) as (sl2 & H2 & ?).
        rewrite Hes in H2. apply slot_at_Some in H2 as (se2 & E1 & E2). cbn in E1, E2. by simplify_eq.
Qed.

(** ** The backlog *)

(** The session with another backlog. *)
Definition set_backlog (q : list enq_req_args_t) (se : Session) : Session :=
  se <| enq_req_backlog_ := q |>.

Lemma CI_backlog g g' R sid se q :
  CI g R -> sess_at R sid = Some se -> is_client se = true -> ghost_other sid g g' ->
  (forall i, g_x g = Some (sid, i) -> g_x g' = Some (sid, i)) ->
  (g_bf g' = Some sid \/ g_bl g' sid q = [] \/ fv_list (sslot_free_vec_ se) = []) ->
  (forall a, a ∈ g_bl g' sid q -> ea_session_num a = sid /\ etid_ok (ea_cont_etid a)) ->
  NoDup (claims g' (put_sess sid (set_backlog q se) R)) ->
  (forall p, p ∈ claims g' (put_sess sid (set_backlog q se) R) -> claim_ok (r_user_mb R) p) ->
  CI g' (put_sess sid (set_backlog q se) R).
Proof.
  intros HC Hse Hcl G Hx Hb Ha Hnd Hall.
  pose proof (CI_sess _ _ HC _ _ Hse Hcl) as Hss.
  eapply CI_put; try done.
  - destruct Hss as [? Hslot ? ? ? ? ? ? ? ?]. unfold set_backlog. split; rsimp; try done.
    intros j y Hy. apply (slot_ok_ghost g); [apply G|apply G|auto|by apply Hslot].
  - unfold set_backlog. rsimp. intros j y Hy. rewrite <- Hcl. by eapply (CI_role _ _ HC).
  - unfold set_backlog. rsimp. intros j y Hy. exists y. split; [done|]. split.
    + intros Hin. destruct (CI_sq _ _ HC _ Hin) as (sl2 & (se2 & E1 & E2)%slot_at_Some & _ & ?).
      cbn in E1, E2. by simplify_eq.
    + intros e He Hes. destruct (CI_ents _ _ HC e He) as (sl2 & H2 & ?).
      rewrite Hes in H2. apply slot_at_Some in H2 as (se2 & E1 & E2). cbn in E1, E2. by simplify_eq.
Qed.

(** Claims when a session's backlog is read differently. *)
Lemma claims_backlog g g' R sid se q :
  sess_at R sid = Some se -> ghost_other sid g g' ->
  concat (args_claims <$> g_bl g sid (enq_req_backlog_ se))
    ++ claims g' (put_sess sid (set_backlog q se) R)
  ≡ₚ concat (args_claims <$> g_bl g' sid q) ++ claims g R.
Proof.
  intros Hse G. pose proof (claims_put_ghost g g' R sid se (set_backlog q se) Hse G) as E.
  unfold sess_claims in E. change (sslot_arr_ (set_backlog q se)) with (sslot_arr_ se) in E.
  change (enq_req_backlog_ (set_backlog q se)) with q in E.
  rewrite <- !app_assoc in E. by apply Permutation_app_inv_l in E.
Qed.

(** A request joins the backlog of a session without free slots. *)
Lemma CI_push_backlog sq ents R sid se a :
  let g := rest sq ents in
  CI g R -> sess_at R sid = Some se -> is_client se = true ->
  fv_list (sslot_free_vec_ se) = [] -> ea_session_num a = sid -> etid_ok (ea_cont_etid a) ->
  NoDup (args_claims a ++ claims g R) ->
  (forall p, p ∈ args_claims a -> claim_ok (r_user_mb R) p) ->
  CI g (put_sess sid (set_backlog (enq_req_backlog_ se ++ [a]) se) R).
Proof.
  intros g HC Hse Hcl Hfv Ha Het Hnd Hall.
  assert (G : ghost_other sid g g) by (by split; auto).
  assert (E : claims g (put_sess sid (set_backlog (enq_req_backlog_ se ++ [a]) se) R)
              ≡ₚ args_claims a ++ claims g R).
  { pose proof (claims_backlog g g R sid se (enq_req_backlog_ se ++ [a]) Hse G) as E.
    cbn [g_bl rest g] in E. rewrite fmap_app, concat_app, <- app_assoc in E.
    apply Permutation_app_inv_l in E. rewrite E. cbn. done. }
  eapply CI_backlog; try done.
  - auto.
  - intros a' [Ha'| ->%list_elem_of_singleton]%elem_of_app; [|done].
    by apply (co_args _ _ _ _ (CI_sess _ _ HC _ _ Hse Hcl)).
  - by rewrite E.
  - intros p. rewrite E, elem_of_app. intros [?|?]; [auto|by apply (CI_claims _ _ HC)].
Qed.

(** The head of a backlog is taken out of the claims ... *)
Definition popping (sid : Z) (x : option sref) (g : ghost) : ghost :=
  mkGhost (g_sq g) x None (fun s l => if decide (s = sid) then tail l else l) (g_ents g).

Lemma claims_pop sq x bf ents sid se a q R :
  let g := mkGhost sq x bf (fun _ l => l) ents in
  forall x', (forall s, s.1 <> sid -> x = Some s -> x' = Some s) ->
  (forall sid', bf = Some sid' -> sid' = sid) ->
  sess_at R sid = Some se -> enq_req_backlog_ se = a :: q ->
  args_claims a ++ claims (popping sid x' g) R ≡ₚ claims g R.
Proof.
  intros g x' Hx Hb Hse Hq.
  assert (G : ghost_other sid g (popping sid x' g)).
  { split; cbn; try done; [intros sid' H; left; auto|].
    intros sid' l Hne. by case_decide. }
  pose proof (claims_backlog g (popping sid x' g) R sid se (enq_req_backlog_ se) Hse G) as E.
  unfold set_backlog in E. cbn [g_bl g popping] in E. rewrite decide_True, Hq in E by done.
  cbn [tail fmap list_fmap concat] in E. rewrite <- app_assoc in E.
  rewrite Permutation_app_swap_app in E. apply Permutation_app_inv_l in E.
  rewrite <- E. apply Permutation_app_head.
  replace (put_sess sid (se <| enq_req_backlog_ := a :: q |>) R) with R; [done|].
  symmetry. replace (se <| enq_req_backlog_ := a :: q |>) with se; [by apply put_sess_same|].
  unfold update; destruct se; cbn in *. by subst.
Qed.

(** ... and later out of the queue. *)
Lemma CI_pop_backlog sq ents R sid se a q :
  let g := rest sq ents in
  CI (popping sid None g) R -> sess_at R sid = Some se -> is_client se = true ->
  enq_req_backlog_ se = a :: q ->
  CI g (put_sess sid (set_backlog q se) R).
Proof.
  intros g HC Hse Hcl Hq.
  assert (G : ghost_other sid (popping sid None g) g).
  { split; cbn; try done. intros sid' l Hne. by case_decide. }
  pose proof (CI_sess _ _ HC _ _ Hse Hcl) as Hss.
  assert (E : claims g (put_sess sid (set_backlog q se) R) ≡ₚ claims (popping sid None g) R).
  { pose proof (claims_backlog (popping sid None g) g R sid se q Hse G) as E.
    cbn [g_bl popping rest g] in E. rewrite decide_True, Hq in E by done. cbn [tail] in E.
    by apply Permutation_app_inv_l in E. }
  assert (Eq : g_bl (popping sid None g) sid (enq_req_backlog_ se) = q)
    by (cbn; by rewrite decide_True, Hq by done).
  eapply CI_backlog; try done.
  - right. cbn. rewrite <- Eq. destruct (co_backlog _ _ _ _ Hss) as [Hn|Hn]; done.
  - cbn. rewrite <- Eq. apply Hss.
  - rewrite E. apply HC.
  - intros p. rewrite E. apply (CI_claims _ _ HC).
Qed.

(** Without a backlog the exemption ends at once. *)
Lemma CI_no_backlog sq ents R sid se :
  CI (mkGhost sq None (Some sid) (fun _ l => l) ents) R -> sess_at R sid = Some se ->
  is_client se = true -> enq_req_backlog_ se = [] -> CI (rest sq ents) R.
Proof.
  intros HC Hse Hcl Hq. rewrite <- (put_sess_same R sid se Hse).
  replace se with (set_backlog [] se).
  2:{ unfold set_backlog, update; destruct se; cbn in *. by subst. }
  set (g := mkGhost _ _ _ _ _) in HC.
  assert (G : ghost_other sid g (rest sq ents)) by (split; cbn; try done; intros; left; congruence).
  pose proof (CI_sess _ _ HC _ _ Hse Hcl) as Hss.
  assert (E : claims (rest sq ents) (put_sess sid (set_backlog [] se) R) ≡ₚ claims g R).
  { pose proof (claims_backlog g (rest sq ents) R sid se [] Hse G) as E.
    cbn [g_bl rest g] in E. rewrite Hq in E. exact E. }
  eapply CI_backlog; try done.
  - by right; left.
  - cbn. intros a Ha. by apply elem_of_nil in Ha.
  - rewrite E. apply HC.
  - intros p. rewrite E. apply (CI_claims _ _ HC).
Qed.
End Fin.
