(* ===== verification/ClientTx.v ===== *)
(** * The client's invariant: transmission

    Operations that only make noise (the TX batch, control headers) keep the
    invariant's ghost; [kick_st] pays a credit for each packet it sends. *)
From S2P Require Import Prelude Config HugeAlloc PktHdr Msg SmTypes Timer Timely MemPool TimingWheel WheelChain WheelSpec Session RpcState RpcBase RpcTx RpcWp ClientInv ClientLemmas ClientSteps.

(** What the world has to satisfy: the clock stays below [kMaxTsc], and the
    operating system behaves as documented. *)
Class WorldOk {Os : ShmOs} (W : World) : Prop := {
  wo_tsc n : 0 <= w_tsc n < kMaxTsc;
  wo_os : ShmOsOk Os w_fuel;
}.
#[export] Existing Instance wo_os.

Ltac still_noise :=
  split; [split; [|intros []; split]| | | |];
    match goal with r : Rpc |- _ => destruct r; first [reflexivity | (cbn; tauto)] end.

Section Tx.
Context {T : TTr} {TOk : TTrOk T} {Os : ShmOs} {C : RpcConf} {W : World} {WOk : WorldOk W}.

(** States that differ in noise, and agree on the wheel and the stall queue. *)
Record still (r r' : Rpc) : Prop := {
  sl_quiet : quiet r r';
  sl_wheel : r_wheel r' = r_wheel r;
  sl_huge : r_huge r' = r_huge r;
  sl_stallq : r_stallq r' = r_stallq r;
  sl_head : 0 <= r_ctrl_msgbuf_head r < 2 * kUnsigBatch ->
    0 <= r_ctrl_msgbuf_head r' < 2 * kUnsigBatch;
}.

#[export] Instance still_preorder : PreOrder still.
Proof.
  split; [intros r; by split|].
  intros r1 r2 r3 [] []. split; [by etrans|congruence|congruence|congruence|auto].
Qed.

Lemma still_put_slot r s sl sl' :
  slot_at r s = Some sl -> norm_sl sl' = norm_sl sl ->
  ci_next_ (client_info_ sl') = ci_next_ (client_info_ sl) ->
  ci_prev_ (client_info_ sl') = ci_prev_ (client_info_ sl) ->
  still r (put_slot s sl' r).
Proof.
  intros H Hn H1 H2. pose proof H as (se & Hse & _)%slot_at_Some.
  split; [by eapply quiet_put_slot|..]; rewrite (put_slot_sess _ _ _ _ Hse); try done.
Qed.
Lemma still_put_sess r sid se se' :
  sess_at r sid = Some se -> norm_se se' = norm_se se -> sslot_arr_ se' = sslot_arr_ se ->
  still r (put_sess sid se' r).
Proof. intros H Hn Ha. split; [by eapply quiet_put_sess|done..]. Qed.
Lemma still_batch r f : still r (r <| r_tx_batch ::= f |>).
Proof. still_noise. Qed.
Lemma still_stats r f : still r (r <| r_dpath_stats ::= f |>).
Proof. still_noise. Qed.
Lemma still_trace r f : still r (r <| r_trace ::= f |>).
Proof. still_noise. Qed.
Lemma still_mem r f : still r (r <| r_mem ::= f |>).
Proof. still_noise. Qed.
Lemma still_tsc r f : still r (r <| r_tsc_reads ::= f |>).
Proof. still_noise. Qed.
Lemma still_siw r f : still r (r <| r_still_in_wheel ::= f |>).
Proof. still_noise. Qed.
Lemma still_re_tx r f : still r (r <| r_num_re_tx ::= f |>).
Proof. still_noise. Qed.
Lemma still_pending r f : still r (r <| r_sm_pending_reqs ::= f |>).
Proof. still_noise. Qed.
Lemma still_head r v :
  0 <= v < 2 * kUnsigBatch -> still r (r <| r_ctrl_msgbuf_head := v |>).
Proof. intros Hv. still_noise. Qed.
Lemma still_ub r r' : still r r' -> r_user_mb r' = r_user_mb r.
Proof. intros [[Hn _] _ _ _ _]. by apply (f_equal r_user_mb) in Hn. Qed.

(** ** From the normal form to the state *)
Lemma nf_slot r s sl :
  slot_at (nf r) s = Some sl -> exists sl0, slot_at r s = Some sl0 /\ norm_sl sl0 = sl.
Proof. rewrite slot_at_nf. destruct (slot_at r s) as [sl0|]; [|done]. intros [= <-]. eauto. Qed.
Lemma nf_sess r sid se :
  sess_at (nf r) sid = Some se -> exists se0, sess_at r sid = Some se0 /\ norm_se se0 = se.
Proof. rewrite sess_at_nf. destruct (sess_at r sid) as [se0|]; [|done]. intros [= <-]. eauto. Qed.

Lemma item_ok_still r r' it : still r r' -> item_ok (nf r) it -> item_ok (nf r') it.
Proof. intros [[-> _] _ _ _ _]. done. Qed.
Lemma items_ok_still r r' l :
  still r r' -> Forall (item_ok (nf r)) l -> Forall (item_ok (nf r')) l.
Proof. intros H Hl. eapply Forall_impl; [exact Hl|]. intros it. by apply item_ok_still. Qed.

(** The invariant survives noise. *)
Lemma cinv_still g r r' : cinv g r -> still r r' -> txb_ok r' -> cinv g r'.
Proof.
  intros [Hc (l & [Hnd Hch] & Hl) Htxb Hh Hw] [[Hn Hlk] H1 H2 _ Hhd] Htxb'. split.
  - by rewrite Hn.
  - exists l. rewrite Hn. split; [split; [done|]|done].
    clear Hnd Hl. revert Hch. generalize ARoot.
    induction l as [|s l IH]; intros a; cbn; unfold linked.
    + destruct (Hlk a) as [-> _], (Hlk ATail) as [_ ->]. done.
    + destruct (Hlk a) as [-> _], (Hlk (ASlot s)) as [_ ->]. intros [? ?]. by auto.
  - done.
  - by auto.
  - destruct Hw as (live & a & cs & ?). exists live, a, cs. by rewrite H1, H2.
Qed.

Lemma cinv_etid g r : cinv g r -> r_etid r = c_creator_etid.
Proof. intros H. exact (CI_disp _ _ (cv_core _ _ H)). Qed.
Lemma still_etid r r' : still r r' -> r_etid r' = r_etid r.
Proof. intros [Hq _ _ _ _]. by apply quiet_etid. Qed.

(** ** The TX batch *)
Section Noise.
Context {E : err -> Prop}.

Lemma wire_of_wp it r (Q : wire_pkt -> Rpc -> Prop) :
  item_ok (nf r) it -> (forall w, Q w r) -> wpe E (wire_of it) Q r.
Proof.
  intros ((se & Hse) & (p & mb & Hp & Hmb) & _) HQ. unfold wire_of.
  destruct (nf_sess _ _ _ Hse) as (se0 & Hse0 & _). rewrite mb_at_nf in Hmb.
  wp_step. eapply wp_get_session; [done|]. wp_step. eapply wp_get_mb_opt; [done..|].
  do 2 wp_step. wp_step. apply HQ.
Qed.

Lemma wire_of_all_wp l r (Q : list wire_pkt -> Rpc -> Prop) :
  Forall (item_ok (nf r)) l -> (forall ws, Q ws r) -> wpe E (wire_of_all l) Q r.
Proof.
  intros Hl. revert Q. induction Hl as [|it l Hit Hl IH]; intros Q HQ; cbn [wire_of_all].
  - wp_step. apply HQ.
  - wp_step. apply wire_of_wp; [done|]. intros w. wp_step. apply IH. intros ws.
    wp_step. apply HQ.
Qed.

(** A timestamp is noise. *)
Lemma norm_sl_ts sl i v :
  norm_sl (sl <| client_info_ ::= fun ci => ci <| tx_ts_ ::= zinsert i v |> |>) = norm_sl sl.
Proof.
  destruct sl as [? ? ? ? ? ? [] ?]. unfold norm_sl, norm_ci, update. cbn. do 2 f_equal.
  unfold zinsert. case_match; by rewrite ?length_insert.
Qed.

Lemma stamp_tx_wp t it r :
  item_ok (nf r) it ->
  wpe E (stamp_tx t it) (fun _ r' => still r r' /\ r_tx_batch r' = r_tx_batch r) r.
Proof.
  intros (_ & _ & Hts). unfold stamp_tx. destruct (it_tx_ts it) as [[s i]|] eqn:Ei; [|by wp_step].
  destruct (Hts s i eq_refl) as (sl & (sl0 & Hsl & <-)%nf_slot & Hc).
  change kCcOptBatchTsc with true. cbv iota. do 2 wp_step.
  eapply wp_upd_ci; [done|exact Hc|]. split.
  - eapply still_put_slot; [done|apply norm_sl_ts|by destruct sl0 as [? ? ? ? ? ? [] ?]..].
  - pose proof Hsl as (se & Hse & _)%slot_at_Some. by rewrite (put_slot_sess _ _ _ _ Hse).
Qed.

Lemma do_tx_burst_wp r :
  r_etid r = c_creator_etid -> r_tx_batch r <> [] -> Forall (item_ok (nf r)) (r_tx_batch r) ->
  wpe E do_tx_burst_st (fun _ r' => still r r' /\ r_tx_batch r' = []) r.
Proof.
  intros Hd Hne Hok. unfold do_tx_burst_st. wp_step. apply wp_assert_dispatch; [done|].
  do 2 wp_step. set (b := r_tx_batch r) in *. wp_step. wp_step.
  { apply Z.ltb_lt. destruct b; [done|]. unfold zlength. cbn [length]. lia. }
  do 2 wp_step. wp_step. change kCcRTT with true. change kCcOptBatchTsc with true. cbn [when].
  wp_step. apply wp_rdtsc.
  set (r1 := update r_tsc_reads S _).
  assert (S1 : still r r1) by (etrans; [apply still_stats|apply still_tsc]).
  eapply wp_mono.
  { apply (wp_miter (stamp_tx _) (fun _ r' => still r r' /\ r_tx_batch r' = r_tx_batch r1)); [done|].
    intros d it todo r' Hl [S' Hb']. eapply wp_mono.
    - apply stamp_tx_wp. apply (item_ok_still r); [done|].
      rewrite Hl in Hok. by apply Forall_app in Hok as [_ [? _]%Forall_cons].
    - cbn. intros _ r'' [S'' ->]. split; [by etrans|done]. }
  cbn. intros _ r2 [S2 Hb2]. wp_step. apply wire_of_all_wp; [by apply (items_ok_still r)|].
  intros ws. wp_step. unfold emit. do 2 wp_step. split; [|done].
  etrans; [exact S2|]. etrans; [apply still_trace|apply still_batch].
Qed.

Lemma enqueue_item_wp it r :
  r_etid r = c_creator_etid -> txb_ok r -> item_ok (nf r) it ->
  wpe E (enqueue_item it) (fun _ r' => still r r' /\ txb_ok r') r.
Proof.
  intros Hd [Hlen Hok] Hit. unfold enqueue_item. do 2 wp_step.
  set (r1 := update r_tx_batch _ r). assert (S1 : still r r1) by apply still_batch.
  assert (Hb1 : r_tx_batch r1 = r_tx_batch r ++ [it]) by done.
  assert (Hok1 : Forall (item_ok (nf r1)) (r_tx_batch r1)).
  { apply (items_ok_still r); [done|]. rewrite Hb1. apply Forall_app. by split; [|constructor]. }
  do 2 wp_step. wp_step.
  - eapply wp_mono; [apply do_tx_burst_wp; [done| |done]|].
    + rewrite Hb1. by destruct (r_tx_batch r).
    + cbn. intros _ r2 [S2 Hb2]. split; [by etrans|]. split; rewrite Hb2; [|constructor].
      apply ttr_postlist_pos.
  - split; [done|]. split; [|done].
    match goal with H : _ = false |- _ => apply Z.eqb_neq in H end.
    rewrite Hb1, zlength_app in *. change (zlength [it]) with 1 in *. lia.
Qed.

Lemma drain_wp r :
  r_etid r = c_creator_etid -> txb_ok r ->
  wpe E drain_tx_batch_and_dma_queue (fun _ r' => still r r' /\ r_tx_batch r' = []) r.
Proof.
  intros Hd [Hlen Hok]. unfold drain_tx_batch_and_dma_queue. do 2 wp_step. wp_step.
  eapply (wp_mono _ (fun _ r' => still r r' /\ r_tx_batch r' = [])).
  { wp_step; [apply do_tx_burst_wp; try done|].
    - intros E0. rewrite E0 in *. done.
    - match goal with H : _ = false |- _ => apply Z.ltb_ge in H; cbv beta in H end.
      split; [done|]. destruct (r_tx_batch r); [done|]. unfold zlength in *. cbn [length] in *. lia. }
  cbn. intros _ r1 [S1 Hb]. unfold emit. wp_step. split; [|done].
  etrans; [exact S1|apply still_trace].
Qed.
End Noise.
End Tx.
#[export] Hint Resolve still_batch still_stats still_trace still_mem still_tsc still_siw
  still_re_tx : erpc.
