(* ===== verification/ClientKick.v ===== *)
(** * The client's invariant: paying credits for packets

    [kick_req_st], [kick_rfr_st] and what they call. [sent k s] relates the
    states before and after [k] packets of slot [s] have been sent. *)
From S2P Require Import Prelude Config HugeAlloc PktHdr Msg SmTypes Timer Timely MemPool TimingWheel WheelChain WheelSpec Session RpcState RpcBase RpcTx RpcWp ClientInv ClientLemmas ClientSteps ClientTx.

Section Kick.
Context {T : TTr} {TOk : TTrOk T} {Os : ShmOs} {C : RpcConf} {W : World} {WOk : WorldOk W}.

(** ** The parts of the invariant that do not depend on the ghost *)
Record base_ok (r : Rpc) : Prop := {
  bo_list : exists l, dll r l /\ forall s, s ∈ l <-> act (nf r) s;
  bo_txb : txb_ok r;
  bo_head : 0 <= r_ctrl_msgbuf_head r < 2 * kUnsigBatch;
}.

Lemma cinv_parts g r : cinv g r <-> CI g (nf r) /\ base_ok r /\ wheel_ok (g_ents g) r.
Proof. split; [intros []; by split_and!|]. by intros (? & [] & ?). Qed.

Lemma dll_links r r' l : same_links r r' -> dll r l -> dll r' l.
Proof.
  intros Hlk [Hnd Hch]. split; [done|]. clear Hnd. revert Hch. generalize ARoot.
  induction l as [|s l IH]; intros a; cbn; unfold linked.
  - destruct (Hlk a) as [-> _], (Hlk ATail) as [_ ->]. done.
  - destruct (Hlk a) as [-> _], (Hlk (ASlot s)) as [_ ->]. intros [? ?]. by auto.
Qed.

Lemma base_ok_quiet r r' :
  base_ok r -> quiet r r' -> txb_ok r' -> 0 <= r_ctrl_msgbuf_head r' < 2 * kUnsigBatch ->
  base_ok r'.
Proof.
  intros [(l & Hl & Ha) _ _] [Hn Hlk] Htx Hh. split; [|done..].
  exists l. rewrite Hn. split; [by eapply dll_links|done].
Qed.

(** ** One slot and the credits of its session change *)
Definition put_sc (s : sref) (sl : SSlot) (c : Z) (r : Rpc) : Rpc :=
  match sess_at r s.1 with
  | Some se => put_sess s.1 (upd_sc s.2 sl c se) r
  | None => r
  end.

Lemma put_sc_sess r s se sl c :
  sess_at r s.1 = Some se -> put_sc s sl c r = put_sess s.1 (upd_sc s.2 sl c se) r.
Proof. unfold put_sc. by intros ->. Qed.

Lemma slot_at_put_sc r s sl0 sl c s' :
  slot_at r s = Some sl0 ->
  slot_at (put_sc s sl c r) s' = if decide (s = s') then Some sl else slot_at r s'.
Proof.
  intros (se & Hse & Hsl)%slot_at_Some. rewrite (put_sc_sess _ _ _ _ _ Hse).
  rewrite (slot_at_upd_sc r s.1 se s.2 sl0 sl c s' Hse Hsl). by rewrite <- surjective_pairing.
Qed.

Lemma sess_at_put_sc r s se sl c sid :
  sess_at r s.1 = Some se ->
  sess_at (put_sc s sl c r) sid = if decide (s.1 = sid) then Some (upd_sc s.2 sl c se) else sess_at r sid.
Proof. intros H. rewrite (put_sc_sess _ _ _ _ _ H). by eapply sess_at_put. Qed.

Lemma norm_se_upd_sc i sl c se : norm_se (upd_sc i sl c se) = upd_sc i (norm_sl sl) c (norm_se se).
Proof.
  unfold upd_sc. rewrite <- norm_se_zinsert. generalize (zinsert i sl). intros f.
  by destruct se.
Qed.

Lemma nf_put_sc r s sl c : nf (put_sc s sl c r) = put_sc s (norm_sl sl) c (nf r).
Proof.
  unfold put_sc. rewrite sess_at_nf. destruct (sess_at r s.1) as [se|]; cbn; [|done].
  by rewrite nf_put_sess, norm_se_upd_sc.
Qed.

(** Writing the slot and then the credits. *)
Lemma put_sc_stack r s sl0 sl sl' se :
  slot_at r s = Some sl0 -> sess_at r s.1 = Some se ->
  forall f, put_sess s.1 ((se <| sslot_arr_ ::= zinsert s.2 sl' |>) <| credits_ ::= f |>)
    (put_slot s sl' (put_slot s sl r)) = put_sc s sl' (f (credits_ se)) r.
Proof.
  intros Hsl Hse f. rewrite (put_slot_put_slot _ _ _ _ _ Hsl), (put_slot_sess _ _ _ _ Hse).
  rewrite (put_sc_sess _ _ _ _ _ Hse). unfold put_sess, upd_sc, update, u_session_vec.
  destruct r, se; cbn in *. f_equal. apply zinsert_zinsert.
Qed.

Lemma same_links_put_sc r s sl0 sl c :
  slot_at r s = Some sl0 -> is_client_ sl = is_client_ sl0 ->
  ci_next_ (client_info_ sl) = ci_next_ (client_info_ sl0) ->
  ci_prev_ (client_info_ sl) = ci_prev_ (client_info_ sl0) ->
  same_links r (put_sc s sl c r).
Proof.
  intros H Hc Hn Hp. pose proof H as (se & Hse & _)%slot_at_Some.
  intros [| |s']; cbn [next_at prev_at]; [rewrite (put_sc_sess _ _ _ _ _ Hse); by split..|].
  rewrite (slot_at_put_sc _ _ _ _ _ _ H). case_decide as D; [subst s'|done].
  rewrite H; cbn. by rewrite Hc, Hn, Hp.
Qed.

Lemma mb_at_put_sc r s sl0 sl c p :
  slot_at r s = Some sl0 -> is_Some (mb_at r p) -> is_Some (mb_at (put_sc s sl c r) p).
Proof.
  intros H. pose proof H as (se & Hse & _)%slot_at_Some.
  destruct p as [n|s'|s'|i]; unfold mb_at; try (rewrite (put_sc_sess _ _ _ _ _ Hse); done).
  all: rewrite (slot_at_put_sc _ _ _ _ _ _ H); by case_decide.
Qed.

Lemma act_put_sc r s sl0 sl c s' :
  slot_at r s = Some sl0 -> is_client_ sl = is_client_ sl0 -> tx_msgbuf_ sl = tx_msgbuf_ sl0 ->
  act (nf (put_sc s sl c r)) s' <-> act (nf r) s'.
Proof.
  intros H Hc Ht. pose proof (slot_at_nf_Some _ _ _ H) as H'. rewrite nf_put_sc. unfold act.
  rewrite (slot_at_put_sc _ _ _ _ _ s' H'). case_decide as D; [|done]. subst s'. rewrite H'.
  assert (Hc' : is_client_ (norm_sl sl) = is_client_ (norm_sl sl0)) by exact Hc.
  assert (Ht' : tx_msgbuf_ (norm_sl sl) = tx_msgbuf_ (norm_sl sl0)) by exact Ht.
  split; intros (y & [= <-] & Hy1 & Hy2); eexists; (split; [done|]);
    [by rewrite <- Hc', <- Ht'|by rewrite Hc', Ht'].
Qed.

Lemma base_ok_put_sc r s sl0 sl c :
  base_ok r -> slot_at r s = Some sl0 -> is_client_ sl = is_client_ sl0 ->
  ci_next_ (client_info_ sl) = ci_next_ (client_info_ sl0) ->
  ci_prev_ (client_info_ sl) = ci_prev_ (client_info_ sl0) ->
  tx_msgbuf_ sl = tx_msgbuf_ sl0 -> base_ok (put_sc s sl c r).
Proof.
  intros [(l & Hl & Ha) [Hb1 Hb2] Hh] H Hc Hn Hp Ht.
  pose proof H as (se & Hse & _)%slot_at_Some.
  pose proof (slot_at_nf_Some _ _ _ H) as H'. pose proof (sess_at_nf_Some _ _ _ Hse) as Hse'.
  assert (Hr : r_tx_batch (put_sc s sl c r) = r_tx_batch r)
    by (by rewrite (put_sc_sess _ _ _ _ _ Hse)).
  split.
  - exists l. split; [eapply dll_links; [by eapply same_links_put_sc|done]|].
    intros s'. by rewrite Ha, (act_put_sc _ _ _ _ _ s' H Hc Ht).
  - split; rewrite Hr; [done|]. eapply Forall_impl; [exact Hb2|]. intros it (H1 & (p & mb & H2 & H3) & H4).
    rewrite nf_put_sc. split_and!.
    + destruct H1 as [se1 H1]. rewrite (sess_at_put_sc _ _ _ _ _ _ Hse'). case_decide; eauto.
    + destruct (mb_at_put_sc (nf r) s _ (norm_sl sl) c p H') as [mb' ?]; eauto.
    + intros s' i Hs'. destruct (H4 s' i Hs') as (y & Hy & Hyc).
      rewrite (slot_at_put_sc _ _ _ _ _ s' H'). case_decide as D; [|by exists y].
      subst s'. rewrite H' in Hy. injection Hy as <-. exists (norm_sl sl). split; [done|].
      transitivity (is_client_ (norm_sl sl0)); [exact Hc|done].
  - by rewrite (put_sc_sess _ _ _ _ _ Hse).
Qed.

Lemma wheel_ok_put_sc ents r s sl c : wheel_ok ents r -> wheel_ok ents (put_sc s sl c r).
Proof. unfold put_sc. by case_match. Qed.

(** ** What sending leaves alone *)

(** Everything of a slot and its session but noise, the wheel's bits and the
    other slots. *)
Definition bare_ci (ci : ClientInfo) : ClientInfo :=
  mkClientInfo (resp_msgbuf_ ci) (cont_func_ ci) (tag_ ci) (num_tx_ ci) (num_rx_ ci) 0
    (cont_etid_ ci) None None [] 0 (replicate (length (tx_ts_ ci)) 0).
Definition bare_sl (sl : SSlot) : SSlot :=
  mkSSlot (pre_resp_msgbuf_ sl) (dyn_resp_msgbuf_ sl) (is_client_ sl) (index_ sl)
    (tx_msgbuf_ sl) (cur_req_num_ sl) (bare_ci (client_info_ sl)) (server_info_ sl).
Definition bare_se (se : Session) : Session :=
  mkSession (role_ se) (uniq_token_ se) (se_freq_ghz_ se) (link_bandwidth_ se) (state_ se)
    (client_ se) (server_ se) [] (local_session_num_ se) (remote_session_num_ se)
    (credits_ se) (sslot_free_vec_ se) (enq_req_backlog_ se) 0 nil_timely 0 0.
Definition view (r : Rpc) (s : sref) : option (Session * SSlot) :=
  se ← sess_at r s.1; sl ← zlookup (sslot_arr_ se) s.2; Some (bare_se se, bare_sl sl).

Definition advance (k : Z) (v : Session * SSlot) : Session * SSlot :=
  (v.1 <| credits_ ::= fun c => c - k |>,
   v.2 <| client_info_ ::= fun ci => ci <| num_tx_ ::= fun n => n + k |> |>).

Record sent (k : Z) (s : sref) (r r' : Rpc) : Prop := {
  sn_view : exists v, view r s = Some v /\ view r' s = Some (advance k v);
  sn_ub : r_user_mb r' = r_user_mb r;
  sn_stallq : r_stallq r' = r_stallq r;
  sn_links : same_links r r';
  sn_act s' : act (nf r') s' <-> act (nf r) s';
  sn_sess sid : sid <> s.1 -> bare_se <$> sess_at r' sid = bare_se <$> sess_at r sid;
}.

Lemma advance_add k k' v : advance k' (advance k v) = advance (k + k') v.
Proof.
  destruct v as [se sl]. unfold advance; cbn. f_equal.
  - destruct se. unfold update; cbn. f_equal. lia.
  - destruct sl as [? ? ? ? ? ? [] ?]. unfold update; cbn. do 2 f_equal. lia.
Qed.

Lemma sent_trans k k' s r1 r2 r3 : sent k s r1 r2 -> sent k' s r2 r3 -> sent (k + k') s r1 r3.
Proof.
  intros [(v & H1 & H1') ? ? L1 A1 B1] [(v' & H2 & H2') ? ? L2 A2 B2]. split.
  - exists v. split; [done|]. rewrite H1' in H2. injection H2 as <-. by rewrite <- advance_add.
  - congruence.
  - congruence.
  - intros a. destruct (L1 a), (L2 a). split; congruence.
  - intros s'. by rewrite A2.
  - intros sid Hsid. by rewrite B2, B1.
Qed.

Lemma bare_se_norm se : bare_se (norm_se se) = bare_se se.
Proof. by destruct se. Qed.
Lemma bare_sl_norm sl : bare_sl (norm_sl sl) = bare_sl sl.
Proof.
  destruct sl as [? ? ? ? ? ? [] ?]. unfold bare_sl, norm_sl, bare_ci, norm_ci. cbn.
  by rewrite length_replicate.
Qed.
Lemma view_nf r s : view (nf r) s = view r s.
Proof.
  unfold view. rewrite sess_at_nf. destruct (sess_at r s.1) as [se|]; cbn; [|done].
  rewrite zlookup_fmap. destruct (zlookup _ _) as [sl|]; cbn; [|done].
  by rewrite bare_se_norm, bare_sl_norm.
Qed.
Lemma quiet_bare r r' sid : quiet r r' -> bare_se <$> sess_at r' sid = bare_se <$> sess_at r sid.
Proof.
  intros [Hn _]. pose proof (f_equal (fun R => bare_se <$> sess_at R sid) Hn) as E. cbn in E.
  rewrite !sess_at_nf in E. destruct (sess_at r sid), (sess_at r' sid); cbn in *; try done.
Qed.
Lemma view_quiet r r' s : quiet r r' -> view r' s = view r s.
Proof. intros [Hn _]. by rewrite <- view_nf, Hn, view_nf. Qed.

Lemma sent_0 s r r' : is_Some (view r s) -> still r r' -> sent 0 s r r'.
Proof.
  intros [v Hv] [Hq _ _ Hs _]. pose proof Hq as [Hn Hl]. split; try done.
  - exists v. split; [done|]. rewrite (view_quiet _ _ _ Hq), Hv. f_equal.
    destruct v as [se sl]. unfold advance, update; cbn. destruct se, sl as [? ? ? ? ? ? [] ?]; cbn.
    by rewrite Z.sub_0_r, Z.add_0_r.
  - by apply (f_equal r_user_mb) in Hn.
  - intros s'. by rewrite Hn.
  - intros sid _. by apply quiet_bare.
Qed.

(** ** Paying a credit *)
Lemma sent_pay r r1 s se sl sl' :
  quiet r r1 -> r_stallq r1 = r_stallq r -> slot_at r1 s = Some sl -> sess_at r1 s.1 = Some se ->
  bare_sl sl' = bare_sl (paid sl) ->
  ci_next_ (client_info_ sl') = ci_next_ (client_info_ sl) ->
  ci_prev_ (client_info_ sl') = ci_prev_ (client_info_ sl) ->
  sent 1 s r (put_sc s sl' (credits_ se - 1) r1).
Proof.
  intros Hq Hs H Hse Hb Hn Hp. pose proof Hq as [Hnf Hl].
  assert (Hc : is_client_ sl' = is_client_ sl) by (by apply (f_equal is_client_) in Hb).
  assert (Ht : tx_msgbuf_ sl' = tx_msgbuf_ sl) by (by apply (f_equal tx_msgbuf_) in Hb).
  pose proof H as (se0 & Hse0 & Hi)%slot_at_Some. rewrite Hse in Hse0. injection Hse0 as <-.
  split.
  - exists (bare_se se, bare_sl sl). rewrite <- (view_quiet _ _ _ Hq). unfold view.
    rewrite Hse, (put_sc_sess _ _ _ _ _ Hse), (sess_at_put _ _ _ _ _ Hse), decide_True by done.
    cbn. rewrite Hi. split; [done|]. unfold upd_sc. rsimp.
    rewrite (zlookup_zinsert _ _ _ _ _ Hi), decide_True by done. cbn. rewrite Hb.
    by destruct se, sl as [? ? ? ? ? ? [] ?].
  - rewrite (put_sc_sess _ _ _ _ _ Hse). by apply (f_equal r_user_mb) in Hnf.
  - by rewrite (put_sc_sess _ _ _ _ _ Hse).
  - intros a. destruct (Hl a) as [<- <-]. by eapply same_links_put_sc.
  - intros s'. rewrite (act_put_sc _ _ _ _ _ s' H Hc Ht). by rewrite Hnf.
  - intros sid Hsid. rewrite (sess_at_put_sc _ _ _ _ _ _ Hse), decide_False by done.
    by apply quiet_bare.
Qed.

Lemma pay_credit_wp E r s sl0 sl se (Q : unit -> Rpc -> Prop) :
  slot_at r s = Some sl0 -> sess_at r s.1 = Some se -> is_client_ sl = true ->
  0 <= num_tx_ (client_info_ sl) < 2 ^ 14 -> 0 < credits_ se <= kSessionCredits ->
  Q tt (put_sc s (paid sl) (credits_ se - 1) r) ->
  wpe E (pay_credit s) Q (put_slot s sl r).
Proof.
  intros H Hse Hc Htx Hcr HQ. unfold pay_credit. wp_step.
  assert (H1 : slot_at (put_slot s sl r) s = Some sl)
    by (rewrite (slot_at_put_slot _ _ _ _ _ H); by case_decide).
  eapply wp_upd_ci; [exact H1|exact Hc|].
  match goal with |- context [put_slot s ?y (put_slot s sl r)] =>
    assert (E1 : y = paid sl) end.
  { destruct sl as [? ? ? ? ? ? [] ?]. unfold paid, update in *; cbn in *.
    by rewrite add64_small by lia. }
  rewrite E1. eapply wp_upd_session.
  { rewrite (put_slot_put_slot _ _ _ _ _ H), (sess_at_put_slot _ _ _ _ _ Hse).
    by rewrite decide_True by done. }
  rewrite (put_sc_stack _ _ _ _ _ _ H Hse (fun c => sub64 c 1)).
  rewrite sub64_small by (unfold kSessionCredits in *; lia). exact HQ.
Qed.

(** ** Request packets *)

(** An active client slot in a state that satisfies the invariant. *)
Record active (r : Rpc) (s : sref) (se : Session) (sl : SSlot) : Prop := {
  ac_sess : sess_at r s.1 = Some se;
  ac_slot : slot_at r s = Some sl;
  ac_client : is_client_ sl = true;
  ac_tx : tx_msgbuf_ sl <> None;
}.

Record active_facts (r : Rpc) (s : sref) (se : Session) (sl : SSlot) : Prop := {
  af_bufs : exists n mb n' mb', tx_msgbuf_ sl = Some (MbUser n) /\ r_user_mb r !! n = Some mb /\
    umb_ok mb /\ resp_msgbuf_ (client_info_ sl) = Some (MbUser n') /\
    r_user_mb r !! n' = Some mb' /\ umb_ok mb';
  af_client : is_client se = true;
  af_nth : zlookup (sslot_arr_ (norm_se se)) s.2 = Some (norm_sl sl);
  af_rx : 0 <= num_rx_ (client_info_ sl) <= num_tx_ (client_info_ sl);
  af_tx : num_tx_ (client_info_ sl) <= tot (r_user_mb r) sl < 2 ^ 14;
  af_iw : length (in_wheel_ (client_info_ sl)) = Z.to_nat kSessionCredits;
  af_wc : 0 <= wheel_count_ (client_info_ sl) <= kSessionCredits;
  af_credits : 0 <= credits_ se <= kSessionCredits;
  af_win : credits_ se + win sl <= kSessionCredits;
}.

Lemma active_ok g r s se sl : cinv g r -> active r s se sl -> active_facts r s se sl.
Proof.
  intros Hc [Hse H Hcl Ht]. pose proof (cv_core _ _ Hc) as HC.
  pose proof (slot_at_nf_Some _ _ _ H) as H'. pose proof (sess_at_nf_Some _ _ _ Hse) as Hse'.
  destruct (CI_slot _ _ _ _ HC H' Hcl) as (se1 & Hse1 & Hcl1 & Hi & Hs & Hok).
  rewrite Hse' in Hse1. injection Hse1 as <-.
  destruct (active_bufs _ _ _ _ HC H' Hcl Ht)
    as (p & q & Ep & Eq & (n & mb & -> & Hn & Hmb) & (n' & mb' & -> & Hn' & Hmb')).
  destruct (tot_bound _ _ _ _ HC H' Hcl Ht) as (_ & _ & Htot).
  destruct (csess_win _ _ _ _ _ _ Hs Hi) as [Hw0 Hw].
  pose proof (so_iw _ _ _ _ Hok) as Hiw. pose proof (count_true_bounds (in_wheel_ (client_info_ (norm_sl sl)))) as Hct.
  split; try done.
  - exists n, mb, n', mb'. done.
  - exact (so_rx _ _ _ _ Hok).
  - destruct (so_tot _ _ _ _ Hok Ht) as [H1 _].
    change (tot (r_user_mb (nf r)) (norm_sl sl)) with (tot (r_user_mb r) sl) in *.
    change (num_tx_ (client_info_ (norm_sl sl))) with (num_tx_ (client_info_ sl)) in *. lia.
  - pose proof (so_wc _ _ _ _ Hok) as Hwc. cbn in Hwc. rewrite Hwc.
    unfold zlength in Hct. rewrite Hiw in Hct. exact Hct.
  - split; [exact (co_pos _ _ _ _ Hs)|exact (csess_credits_le _ _ _ _ Hs)].
Qed.

(** The slot after [k] packets. *)
Lemma sent_active k r r' s se sl :
  active r s se sl -> sent k s r r' -> exists se' sl', active r' s se' sl' /\
    bare_se se' = (bare_se se) <| credits_ ::= fun c => c - k |> /\
    bare_sl sl' = (bare_sl sl) <| client_info_ ::= fun ci => ci <| num_tx_ ::= fun n => n + k |> |>.
Proof.
  intros [Hse H Hc Ht] [(v & Hv & Hv') _ _ _ _ _].
  pose proof H as (se0 & Hse0 & Hi)%slot_at_Some. rewrite Hse in Hse0. injection Hse0 as <-.
  unfold view in Hv, Hv'. rewrite Hse in Hv. cbn in Hv. rewrite Hi in Hv. injection Hv as <-.
  destruct (sess_at r' s.1) as [se'|] eqn:Hse'; [|done]. cbn in Hv'.
  destruct (zlookup (sslot_arr_ se') s.2) as [sl'|] eqn:Hi'; [|done]. cbn in Hv'.
  apply (f_equal (default (bare_se se, bare_sl sl))) in Hv'. cbn [default] in Hv'.
  pose proof (f_equal fst Hv') as E1. pose proof (f_equal snd Hv') as E2. cbn [fst snd] in E1, E2.
  exists se', sl'. split_and!; try done.
  split; [done|apply slot_at_Some; eauto|..].
  - apply (f_equal is_client_) in E2. by rewrite <- Hc.
  - apply (f_equal tx_msgbuf_) in E2. intros E. apply Ht. rewrite <- E. symmetry. exact E2.
Qed.

Lemma enqueue_pkt_wp g r s se sl i ts :
  cinv g r -> active r s se sl ->
  (forall s' k, ts = Some (s', k) -> s' = s) ->
  wpe client_err (enqueue_pkt_tx_burst_st s i ts) (fun _ r' => cinv g r' /\ still r r') r.
Proof.
  intros Hc Ha Hts. destruct (active_ok _ _ _ _ _ Hc Ha) as [(n & mb & _ & _ & Ep & Hn & _) _ _ _ _ _ _ _ _].
  destruct Ha as [Hse H Hcl Ht]. pose proof (cinv_etid _ _ Hc) as Hd.
  unfold enqueue_pkt_tx_burst_st. wp_step. apply wp_assert_dispatch; [done|].
  wp_step. eapply wp_get_sslot; [done|]. change kTesting with false. change kCcRTT with true.
  cbv iota. do 2 wp_step. eapply wp_mono.
  { apply enqueue_item_wp; [done|apply (cv_txb _ _ Hc)|]. split_and!; cbn.
    - eexists. by apply sess_at_nf_Some.
    - exists (MbUser n), mb. done.
    - intros s' k E. rewrite (Hts _ _ E). exists (norm_sl sl). split; [by apply slot_at_nf_Some|done]. }
  cbn. intros _ r' [S Hb]. split; [|done]. by eapply cinv_still.
Qed.

Lemma norm_paid sl : norm_sl (paid sl) = paid (norm_sl sl).
Proof. by destruct sl as [? ? ? ? ? ? [] ?]. Qed.
Lemma norm_wheeled sl : norm_sl (wheeled sl) = wheeled (norm_sl sl).
Proof. by destruct sl as [? ? ? ? ? ? [] ?]. Qed.

Lemma still_active r r' s se sl :
  still r r' -> active r s se sl -> exists se' sl', active r' s se' sl' /\
    norm_se se' = norm_se se /\ norm_sl sl' = norm_sl sl.
Proof.
  intros [Hq _ _ _ _] [Hse H Hc Ht].
  destruct (quiet_sess _ _ _ _ Hq Hse) as (se' & Hse' & Es).
  destruct (quiet_slot _ _ _ _ Hq H) as (sl' & H' & El).
  exists se', sl'. split_and!; try done. split; try done.
  - apply (f_equal is_client_) in El. by rewrite <- Hc.
  - apply (f_equal tx_msgbuf_) in El. intros E. apply Ht. rewrite <- E. symmetry. exact El.
Qed.

(** The packet goes out directly ... *)
Lemma cinv_pay g r s se sl :
  cinv g r -> active r s se sl -> s ∉ g_sq g -> 0 < credits_ se ->
  num_tx_ (client_info_ sl) < tot (r_user_mb r) sl ->
  cinv g (put_sc s (paid sl) (credits_ se - 1) r).
Proof.
  intros Hc Ha Hsq Hcr Hlt. destruct (active_ok _ _ _ _ _ Hc Ha) as [_ Hcl Hi _ _ _ _ _ _].
  apply cinv_parts in Hc as (HC & Hb & Hw). destruct Ha as [Hse H Hc Ht].
  apply cinv_parts. split_and!; [|by eapply base_ok_put_sc|by apply wheel_ok_put_sc].
  rewrite nf_put_sc, norm_paid, (put_sc_sess _ _ _ _ _ (sess_at_nf_Some _ _ _ Hse)).
  change (credits_ se) with (credits_ (norm_se se)).
  destruct s as [sid i]. eapply CI_pay; try done. by apply sess_at_nf_Some.
Qed.

Lemma can_bypass_wp E r s se sl (Q : bool -> Rpc -> Prop) :
  active r s se sl -> (forall b, Q b r) -> wpe E (can_bypass_wheel s) Q r.
Proof.
  intros [Hse H Hc _] HQ. unfold can_bypass_wheel. change kCcPacing with true.
  change kTesting with false. change kCcOptWheelBypass with true. cbn [negb]. wp_step.
  eapply wp_get_ci; [done..|]. wp_step. eapply wp_get_session; [done|]. by wp_step.
Qed.

(** ... or through the wheel. *)
Lemma wheel_insert_env_wp ents r e ref d :
  wheel_ok ents r -> 0 <= ref <= d -> ref < kMaxTsc -> d < 2 ^ 64 ->
  wpe client_err (with_wheel (wheel_insert w_fuel e ref d))
    (fun _ r' => wheel_ok (e :: ents) r' /\
       exists h w, r' = r <| r_huge := h |> <| r_wheel := w |>) r.
Proof.
  intros (live & a & cs & Ha & R & Hp & Hz1 & Hz2) Hd Href Hd2. unfold with_wheel. apply wp_zoom.
  pose proof (wr_width _ _ _ R) as Hw.
  destruct (decide (d - ref <= tw_horizon_tsc (r_wheel r))) as [Hh|Hh].
  - eapply wp_err_mono; [|intros err Herr; left; exact Herr].
    eapply wheel_insert_wp; [exact _|exact Ha|exact R|done|done|apply Hz1| |].
    + unfold kMaxTsc in *. lia.
    + intros a0' tw' cs' Ha' R' E1 E2. cbn [fst snd]. split; [|by eexists _, _].
      exists live, (aw_insert (tw_wslot_width_tsc (r_wheel r)) d e
        (aw_reap (tw_wslot_width_tsc (r_wheel r)) ref a)), cs'. rsimp.
      split_and!; [exact Ha'|exact R'| |rewrite E2; lia..].
      rewrite aw_insert_entries; [unfold aw_reap; rewrite aw_iter_entries; by rewrite Hp|].
      assert (Hlen : length (aw_slots (aw_reap (tw_wslot_width_tsc (r_wheel r)) ref a)) = nslots).
      { pose proof (wr_slots _ _ _ R) as Hl. pose proof kWheelNumWslots_pos.
        unfold aw_reap. rewrite aw_iter_length by (rewrite Hl; unfold nslots; lia). done. }
      pose proof kWheelNumWslots_pos.
      rewrite Hlen. apply (aw_index_lt _ ref d _ (tw_horizon_tsc (r_wheel r))); unfold nslots; try lia.
      unfold aw_reap. rewrite aw_iter_t0. by apply aw_due_spec.
  - unfold wheel_insert. do 2 wp_step. cbn [snd]. wp_step. wp_step; [lia|]. wp_step.
    rewrite sub64_small by lia. replace (d - ref <=? tw_horizon_tsc (r_wheel r)) with false by lia.
    apply wp_fail. unfold client_err. auto.
Qed.

(** The bits [enqueue_wheel] sets. *)
Definition bits_set (n : Z) (sl : SSlot) : SSlot :=
  (sl <| client_info_ ::= fun ci => ci <| in_wheel_ ::= zinsert (n mod kSessionCredits) true |> |>)
    <| client_info_ ::= fun ci => ci <| wheel_count_ ::= fun n => add64 n 1 |> |>.

Lemma quiet_wheel r h w : quiet r (r <| r_huge := h |> <| r_wheel := w |>).
Proof. split; [by destruct r|]. intros []; by split. Qed.

Lemma enqueue_wheel_wp g r s se sl n sz (Q : unit -> Rpc -> Prop) :
  cinv g r -> active r s se sl -> 0 <= n < 2 ^ 14 ->
  (forall r1 sl1, base_ok r1 -> quiet r r1 -> r_stallq r1 = r_stallq r ->
     wheel_ok (mkWheelEnt s n :: g_ents g) r1 -> slot_at r1 s = Some sl1 ->
     norm_sl sl1 = norm_sl sl -> Q tt (put_slot s (bits_set n sl1) r1)) ->
  wpe client_err (enqueue_wheel s n sz) Q r.
Proof.
  intros Hc Ha Hn HQ. unfold enqueue_wheel. wp_step. apply wp_rdtsc.
  set (r1 := update r_tsc_reads S r). assert (S1 : still r r1) by apply still_tsc.
  destruct (still_active _ _ _ _ _ S1 Ha) as (se1 & sl1 & [Hse1 H1 Hcl1 _] & Es & El).
  wp_step. eapply wp_get_session; [exact Hse1|]. wp_step.
  pose proof (wo_tsc (r_tsc_reads r)) as Hts.
  apply cc_getupdate_tx_tsc_wp; [unfold client_err; auto|unfold kMaxTsc in *; lia|].
  intros d Hd. wp_step. eapply wp_upd_session; [exact Hse1|]. cbn [fst snd].
  set (r2 := put_sess _ _ r1).
  assert (S2 : still r1 r2) by (apply still_put_sess with se1; [done|by destruct se1..]).
  assert (S02 : still r r2) by (by etrans).
  assert (Hc2 : cinv g r2).
  { eapply cinv_still; [exact Hc|done|]. destruct (cv_txb _ _ Hc) as [? ?].
    split; [done|]. by apply (items_ok_still r). }
  apply cinv_parts in Hc2 as (HC2 & [Hl2 [Ht1 Ht2] Hh2] & Hw2).
  wp_step. eapply wp_mono; [apply wheel_insert_env_wp; [exact Hw2|unfold kMaxTsc in *; lia..]|].
  cbn. intros _ r3 (Hw3 & h & w & E3). assert (Q3 : quiet r2 r3) by (rewrite E3; apply quiet_wheel).
  assert (Hb3 : base_ok r3).
  { apply (base_ok_quiet r2); [by split|done| |by rewrite E3].
    assert (Hbt : r_tx_batch r3 = r_tx_batch r2) by (by rewrite E3).
    split; rewrite Hbt; [done|]. by destruct Q3 as [-> _]. }
  assert (Q03 : quiet r r3) by (etrans; [apply S02|done]).
  destruct (quiet_slot _ _ _ _ Q03 (ac_slot _ _ _ _ Ha)) as (sl3 & H3 & El3).
  assert (Hc3 : is_client_ sl3 = true)
    by (apply (f_equal is_client_) in El3; rewrite <- (ac_client _ _ _ _ Ha); exact El3).
  wp_step. eapply wp_upd_ci; [exact H3|done|].
  eapply wp_upd_ci; [by rewrite (slot_at_put_slot _ _ _ _ _ H3), decide_True by done|done|].
  rewrite (put_slot_put_slot _ _ _ _ _ H3). apply HQ; try done.
  - rewrite E3. apply S02.
  - unfold wheel_ent_new in Hw3. by rewrite (wrap_small 16) in Hw3 by (unfold in_u; lia).
Qed.

Lemma active_view r s se sl : active r s se sl -> view r s = Some (bare_se se, bare_sl sl).
Proof.
  intros [Hse (se0 & E1 & E2)%slot_at_Some _ _]. unfold view. rewrite E1. cbn. rewrite E2. cbn.
  rewrite Hse in E1. by injection E1 as ->.
Qed.

(** A request packet is one of the packets in all. *)
Lemma npk_le_tot ub sl n :
  1 <= npk ub (resp_msgbuf_ (client_info_ sl)) ->
  n < npk ub (tx_msgbuf_ sl) -> n < tot ub sl.
Proof. unfold tot, total. case_match; lia. Qed.

Lemma npk_user (ub : gmap Z MsgBuffer) n mb :
  ub !! n = Some mb -> npk ub (Some (MbUser n)) = num_pkts_ mb.
Proof. cbn. by intros ->. Qed.

Lemma umb_pkts mb : umb_ok mb -> 1 <= num_pkts_ mb <= 2 ^ 13.
Proof. intros [? ? -> ?]. apply num_pkts_bounds. lia. Qed.

Lemma active_npk r s se sl :
  active_facts r s se sl ->
  1 <= npk (r_user_mb r) (tx_msgbuf_ sl) <= 2 ^ 13 /\
  1 <= npk (r_user_mb r) (resp_msgbuf_ (client_info_ sl)) <= 2 ^ 13.
Proof.
  intros [(n & mb & n' & mb' & -> & Hn & Hmb & -> & Hn' & Hmb') _ _ _ _ _ _ _ _].
  rewrite (npk_user _ _ _ Hn), (npk_user _ _ _ Hn'). split; by apply umb_pkts.
Qed.

(** The rest of a direct transmission: the credit is paid. *)
Lemma pay_direct_wp g r r1 s se sl :
  cinv g r1 -> still r r1 -> active r s se sl -> active_facts r s se sl -> s ∉ g_sq g ->
  0 < credits_ se -> num_tx_ (client_info_ sl) < tot (r_user_mb r) sl ->
  wpe client_err (pay_credit s)
    (fun _ r' => (exists ents, cinv (with_ents ents g) r') /\ sent 1 s r r') r1.
Proof.
  intros Hc1 S1 Ha Hf Hsq Hcr Hlt.
  pose proof (af_tx _ _ _ _ Hf) as Htx. pose proof (af_rx _ _ _ _ Hf) as Hrx.
  pose proof (af_credits _ _ _ _ Hf) as Hcb.
  destruct (still_active _ _ _ _ _ S1 Ha) as (se1 & sl1 & Ha1 & Es & El).
  pose proof (f_equal credits_ Es) as Ecr. cbn in Ecr.
  pose proof (f_equal (fun sl => num_tx_ (client_info_ sl)) El) as Etx. cbn in Etx.
  assert (Etot : tot (r_user_mb r1) sl1 = tot (r_user_mb r) sl).
  { pose proof (f_equal (tot (r_user_mb r1)) El) as E0. cbn in E0.
    change (tot (r_user_mb r1) (norm_sl sl1)) with (tot (r_user_mb r1) sl1) in E0.
    change (tot (r_user_mb r1) (norm_sl sl)) with (tot (r_user_mb r1) sl) in E0.
    rewrite E0. f_equal. destruct S1 as [[Hn _] _ _ _ _]. by apply (f_equal r_user_mb) in Hn. }
  rewrite <- (put_slot_same r1 s sl1) by apply Ha1.
  eapply pay_credit_wp; [apply Ha1|apply Ha1|apply Ha1|lia|lia|].
  split.
  - exists (g_ents g). replace (with_ents (g_ents g) g) with g by (by destruct g).
    apply cinv_pay; try done; [lia|]. rewrite Etot. lia.
  - eapply sent_pay; [apply S1|apply S1|apply Ha1|apply Ha1|done|done|done].
Qed.

(** One request packet. *)
Lemma kick_req_one_wp g r s se sl bypass :
  cinv g r -> active r s se sl -> s ∉ g_sq g -> 0 < credits_ se ->
  num_tx_ (client_info_ sl) < npk (r_user_mb r) (tx_msgbuf_ sl) ->
  wpe client_err (kick_req_one s bypass)
    (fun _ r' => (exists ents, cinv (with_ents ents g) r') /\ sent 1 s r r') r.
Proof.
  intros Hc Ha Hsq Hcr Hlt. pose proof (active_ok _ _ _ _ _ Hc Ha) as Hf.
  pose proof (af_tx _ _ _ _ Hf) as Htx. pose proof (af_rx _ _ _ _ Hf) as Hrx.
  pose proof (af_credits _ _ _ _ Hf) as Hcb. pose proof (active_npk _ _ _ _ Hf) as [HN HM].
  unfold kick_req_one. wp_step. eapply wp_get_ci; [apply Ha..|]. wp_step. destruct bypass.
  - eapply wp_mono; [eapply enqueue_pkt_wp; [done..|]|]; [by intros s' k [= <- _]|].
    cbn. intros _ r1 [Hc1 S1]. eapply pay_direct_wp; try done. apply npk_le_tot; lia.
  - unfold enqueue_wheel_req_st. wp_step. eapply wp_get_sslot; [apply Ha|].
    destruct (af_bufs _ _ _ _ Hf) as (n & mb & _ & _ & Ep & Hn & Hmb & _).
    wp_step. eapply wp_get_mb_opt; [exact Ep|exact Hn|].
    eapply enqueue_wheel_wp; [done..|lia|]. intros r1 sl1 Hb1 Q1 Hs1 Hw1 H1 El.
    destruct (quiet_sess _ _ _ _ Q1 (ac_sess _ _ _ _ Ha)) as (se1 & Hse1 & Es).
    pose proof (f_equal credits_ Es) as Ecr. cbn in Ecr.
    pose proof (f_equal (fun sl => num_tx_ (client_info_ sl)) El) as Etx. cbn in Etx.
    pose proof (f_equal is_client_ El) as Ecl. cbn in Ecl. rewrite (ac_client _ _ _ _ Ha) in Ecl.
    pose proof (f_equal (fun sl => wheel_count_ (client_info_ sl)) El) as Ewc. cbn in Ewc.
    pose proof (af_wc _ _ _ _ Hf) as Hwc.
    eapply pay_credit_wp; [exact H1|exact Hse1|exact Ecl| |lia|].
    { change (0 <= num_tx_ (client_info_ sl1) < 2 ^ 14). lia. }
    assert (Epw : paid (bits_set (num_tx_ (client_info_ sl)) sl1) = wheeled sl1).
    { rewrite <- Etx. destruct sl1 as [? ? ? ? ? ? [] ?].
      unfold paid, bits_set, wheeled, update in *; cbn in *.
      rewrite add64_small by (unfold kSessionCredits in *; lia). done. }
    rewrite Epw. split.
    + exists (mkWheelEnt s (num_tx_ (client_info_ sl)) :: g_ents g).
      apply cinv_parts. split_and!; [|by eapply base_ok_put_sc|by apply wheel_ok_put_sc].
      rewrite nf_put_sc, norm_wheeled, El. destruct Q1 as [-> _]. rewrite Ecr.
      rewrite (put_sc_sess _ _ _ _ _ (sess_at_nf_Some _ _ _ (ac_sess _ _ _ _ Ha))).
      change (credits_ se) with (credits_ (norm_se se)).
      pose proof (af_nth _ _ _ _ Hf) as Hi. pose proof (af_client _ _ _ _ Hf) as Hcl.
      destruct s as [sid i]. eapply CI_wheel_pay; try done; try apply Ha.
      * apply (cv_core _ _ Hc).
      * apply sess_at_nf_Some. apply Ha.
    + eapply sent_pay; [exact Q1|exact Hs1|exact H1|exact Hse1| |done|done].
      by destruct sl1 as [? ? ? ? ? ? [] ?].
Qed.
End Kick.
