(* ===== verification/ClientSend.v ===== *)
(** * The client's invariant: [kick_req_st], [kick_rfr_st] and [kick_st]

    Each sends as many packets as the credits and the request allow, and the
    slot has a packet in flight afterwards. *)
From S2P Require Import Prelude Config HugeAlloc PktHdr Msg SmTypes Timer Timely MemPool TimingWheel WheelChain WheelSpec Session RpcState RpcBase RpcTx RpcWp ClientInv ClientLemmas ClientSteps ClientTx ClientKick.

Section Send.
Context {T : TTr} {TOk : TTrOk T} {Os : ShmOs} {C : RpcConf} {W : World} {WOk : WorldOk W}.

(** ** What a kick puts out

    A packet is handed to the TX batch, which goes to the transport when it is
    full, or to the wheel. *)

(** The two states read the same routes and message buffers. *)
Record same_reads (r r' : Rpc) : Prop := {
  sr_route : forall sid, remote_routing_info <$> sess_at r' sid = remote_routing_info <$> sess_at r sid;
  sr_mb : forall p, mb_at r' p = mb_at r p;
}.
(** ... and nothing was put out, nor memory written. *)
Record same_out (r r' : Rpc) : Prop := {
  so_reads : same_reads r r';
  so_batch : r_tx_batch r' = r_tx_batch r;
  so_trace : r_trace r' = r_trace r;
  so_mem : r_mem r' = r_mem r;
  so_huge : r_huge r' = r_huge r;
  so_wheel : r_wheel r' = r_wheel r;
}.
(** The item is the last of the batch, or the batch was full with it and went to
    the transport, as the packets that its items stand for. *)
Record queued (it : tx_burst_item_t) (r r' : Rpc) : Prop := {
  qd_reads : same_reads r r';
  qd_mem : r_mem r' = r_mem r;
  qd_huge : r_huge r' = r_huge r;
  qd_wheel : r_wheel r' = r_wheel r;
  qd_out : let batch := r_tx_batch r ++ [it] in
    if zlength batch =? kPostlist
    then r_tx_batch r' = [] /\
         exists ws, wire_of_all batch r' = Ok ws r' /\ r_trace r' = r_trace r ++ [EvTxBurst ws]
    else r_tx_batch r' = batch /\ r_trace r' = r_trace r;
}.
(** Packet [i] of the request in [p], directly or through the wheel. *)
Definition sends_req (s : sref) (p : option mbptr) (i : Z) (r r' : Rpc) : Prop :=
  queued (mkTxItem s.1 p i (Some (s, i mod kSessionCredits)) false) r r' \/
  (same_reads r r' /\ r_tx_batch r' = r_tx_batch r /\ r_trace r' = r_trace r /\ r_mem r' = r_mem r /\
   exists ref_tsc desired_tsc, wheel_insert w_fuel (wheel_ent_new s i) ref_tsc desired_tsc (r_huge r, r_wheel r)
     = Ok tt (r_huge r', r_wheel r')).
(** A request for the response packet that packet [i] of the conversation brings:
    a header in one of the control message buffers. *)
Definition rfr_hdr (i : Z) (se : Session) (resp : pkthdr_t) (h : pkthdr_t) : Prop :=
  pkt_type_ h = kRFR /\ pkt_num_ h = wrap kPktNumBits i /\ dest_session_num_ h = u16 (remote_session_num_ se) /\
  req_num_ h = wrap kReqNumBits (req_num_ resp) /\ req_type_ h = wrap 8 (req_type_ resp) /\ msg_size_ h = 0.
Definition sends_rfr (s : sref) (p : option mbptr) (i : Z) (r r' : Rpc) : Prop :=
  exists n ctrl q resp se r1, mb_at r (MbCtrl n) = Some ctrl /\ p = Some q /\ mb_at r q = Some resp /\
    sess_at r s.1 = Some se /\ same_reads r r1 /\
    r1 = r <| r_ctrl_msgbuf_head := r_ctrl_msgbuf_head r1 |> <| r_mem := r_mem r1 |> /\
    rfr_hdr i se (m_hdr (r_mem r) (get_pkthdr_0 resp)) (m_hdr (r_mem r1) (get_pkthdr_0 ctrl)) /\
    m_byte (r_mem r1) = m_byte (r_mem r) /\
    (forall a, a <> get_pkthdr_0 ctrl -> m_hdr (r_mem r1) a = m_hdr (r_mem r) a) /\
    queued (mkTxItem s.1 (Some (MbCtrl n)) 0 (Some (s, wrap kPktNumBits i mod kSessionCredits)) false) r1 r'.
(** [k] packets from [i] on, and nothing else. *)
Fixpoint sends_all (send : Z -> Rpc -> Rpc -> Prop) (i : Z) (k : nat) (r r' : Rpc) : Prop :=
  match k with
  | O => same_out r r'
  | S k => exists r1 r2, sends_all send i k r r1 /\ send (i + Z.of_nat k) r1 r2 /\ same_out r2 r'
  end.

Lemma same_reads_refl r : same_reads r r.
Proof. by split. Qed.
Lemma same_reads_trans r1 r2 r3 : same_reads r1 r2 -> same_reads r2 r3 -> same_reads r1 r3.
Proof. intros [A1 B1] [A2 B2]. split; intros; congruence. Qed.
Lemma same_out_refl r : same_out r r.
Proof. by split. Qed.
Lemma same_out_trans r1 r2 r3 : same_out r1 r2 -> same_out r2 r3 -> same_out r1 r3.
Proof. intros [A1] [A2]. split; [by eapply same_reads_trans|congruence..]. Qed.
Lemma sends_all_out send i k r r1 r' : sends_all send i k r r1 -> same_out r1 r' -> sends_all send i k r r'.
Proof.
  destruct k; cbn [sends_all]; [apply same_out_trans|]. intros (r2 & r3 & H1 & H2 & H3) H.
  exists r2, r3. split_and!; [done..|]. by eapply same_out_trans.
Qed.
Lemma sends_all_from send i k r0 r r' : same_out r0 r -> sends_all send i k r r' -> sends_all send i k r0 r'.
Proof.
  intros H0. revert r'. induction k as [|k IH]; cbn [sends_all]; intros r'; [by apply same_out_trans|].
  intros (r2 & r3 & H1 & H2 & H3). exists r2, r3. auto.
Qed.

(** The packets of a batch depend on routes, message buffers and memory only. *)
Lemma wire_of_reads it r r' w r0 :
  same_reads r r' -> r_mem r' = r_mem r -> wire_of it r = Ok w r0 -> r0 = r /\ wire_of it r' = Ok w r'.
Proof.
  intros [Hr Hm] E. unfold wire_of, get_session, get_mb_opt, get_mb, base.mbind, M_bind, get, gets, deref.
  specialize (Hr (it_routing_info it)).
  destruct (sess_at r _) as [se|], (sess_at r' _) as [se'|]; try done. injection Hr as Hr.
  destruct (it_msg_buffer it) as [p|]; [|done]. cbn [mret M_ret]. specialize (Hm p).
  destruct (mb_at r p), (mb_at r' p); try done. injection Hm as ->. cbn. intros [= <- <-]. by rewrite E, Hr.
Qed.
Lemma wire_of_all_reads l r r' ws r0 :
  same_reads r r' -> r_mem r' = r_mem r -> wire_of_all l r = Ok ws r0 -> r0 = r /\ wire_of_all l r' = Ok ws r'.
Proof.
  intros Hr E. revert ws r0. induction l as [|it l IH]; intros ws r0; cbn [wire_of_all]; [by intros [= <- <-]|].
  unfold base.mbind, M_bind. destruct (wire_of it r) as [w r1|] eqn:E1; [|done].
  destruct (wire_of_reads _ _ _ _ _ Hr E E1) as [-> ->].
  destruct (wire_of_all l r) as [ws' r2|] eqn:E2; [|done]. destruct (IH ws' r2 eq_refl) as [-> ->].
  by intros [= <- <-].
Qed.

(** *** Each step, when it ends *)
Lemma wpe_any_run {St X} (m : M St X) (Q : X -> St -> Prop) st :
  (forall a st', m st = Ok a st' -> Q a st') -> wpe any_err m Q st.
Proof. intros H. unfold wpe. destruct (m st); [by apply H|done]. Qed.

Lemma same_reads_put_slot r s sl sl' :
  slot_at r s = Some sl -> pre_resp_msgbuf_ sl' = pre_resp_msgbuf_ sl ->
  dyn_resp_msgbuf_ sl' = dyn_resp_msgbuf_ sl -> same_reads r (put_slot s sl' r).
Proof.
  intros H Ep Ed. pose proof H as (se & Hse & _)%slot_at_Some. split.
  - intros sid. rewrite (sess_at_put_slot _ _ _ _ _ Hse). case_decide as D; [subst sid|done].
    rewrite Hse. by destruct se.
  - intros p. destruct p as [n|s'|s'|i]; cbn [mb_at];
      rewrite ?(slot_at_put_slot _ _ _ _ _ H); try (rewrite (put_slot_sess _ _ _ _ Hse); done).
    all: case_decide as D; [subst s'|done]; rewrite H; cbn; congruence.
Qed.
Lemma same_out_put_slot r s sl sl' :
  slot_at r s = Some sl -> pre_resp_msgbuf_ sl' = pre_resp_msgbuf_ sl ->
  dyn_resp_msgbuf_ sl' = dyn_resp_msgbuf_ sl -> same_out r (put_slot s sl' r).
Proof.
  intros H Ep Ed. split; [by eapply same_reads_put_slot|..];
    apply slot_at_Some in H as (se & Hse & _); by rewrite (put_slot_sess _ _ _ _ Hse).
Qed.
Lemma same_out_put_sess r sid se se' :
  sess_at r sid = Some se -> remote_routing_info se' = remote_routing_info se ->
  sslot_arr_ se' = sslot_arr_ se -> same_out r (put_sess sid se' r).
Proof.
  intros H Er Es. split; try done. split.
  - intros sid'. rewrite (sess_at_put _ _ _ _ _ H). case_decide as D; [subst sid'|done]. rewrite H. cbn. by rewrite Er.
  - intros p. destruct p as [n|s'|s'|i]; cbn [mb_at]; try done.
    all: rewrite (slot_at_put_sess _ _ _ _ _ H); case_decide as D; [|done]; subst sid;
      unfold slot_at; rewrite H; cbn; by rewrite Es.
Qed.

Lemma upd_ci_any s f r0 r (Q : unit -> Rpc -> Prop) :
  same_out r0 r -> (forall r', same_out r0 r' -> Q tt r') -> wpe any_err (upd_ci s f) Q r.
Proof.
  intros H0 HQ. unfold upd_ci, get_sslot. wp_step. do 2 wp_step. apply wp_any_deref. intros sl Hsl.
  destruct (is_client_ sl); [|done]. wp_step. apply HQ. eapply same_out_trans; [exact H0|].
  eapply same_out_put_slot; [exact Hsl|by destruct sl..].
Qed.
Lemma upd_session_any sid f r0 r (Q : unit -> Rpc -> Prop) :
  (forall se, sess_at r sid = Some se -> remote_routing_info (f se) = remote_routing_info se /\ sslot_arr_ (f se) = sslot_arr_ se) ->
  same_out r0 r -> (forall r', same_out r0 r' -> Q tt r') -> wpe any_err (upd_session sid f) Q r.
Proof.
  intros Hf H0 HQ. unfold upd_session, get_session. wp_step. do 2 wp_step. apply wp_any_deref. intros se Hse.
  wp_step. apply HQ. destruct (Hf se Hse). eapply same_out_trans; [exact H0|]. by eapply same_out_put_sess.
Qed.
Lemma pay_credit_any s r0 r (Q : unit -> Rpc -> Prop) :
  same_out r0 r -> (forall r', same_out r0 r' -> Q tt r') -> wpe any_err (pay_credit s) Q r.
Proof.
  intros H0 HQ. unfold pay_credit. wp_step. eapply upd_ci_any; [exact H0|]. intros r1 H1.
  eapply upd_session_any; [|exact H1|exact HQ]. by intros [].
Qed.
Lemma rdtsc_any r0 r (Q : Z -> Rpc -> Prop) :
  same_out r0 r -> (forall t r', same_out r0 r' -> Q t r') -> wpe any_err rdtsc Q r.
Proof. intros H0 HQ. apply wp_rdtsc. apply HQ. eapply same_out_trans; [exact H0|]. by destruct r. Qed.

Lemma stamp_tx_any t it r0 r :
  same_out r0 r -> wpe any_err (stamp_tx t it) (fun _ r' => same_out r0 r') r.
Proof.
  intros H0. unfold stamp_tx. destruct (it_tx_ts it) as [[s i]|]; [|by wp_step].
  change kCcOptBatchTsc with true. cbv iota. do 2 wp_step. by eapply upd_ci_any.
Qed.
Lemma do_tx_burst_any r :
  wpe any_err do_tx_burst_st (fun _ r' => same_reads r r' /\ r_mem r' = r_mem r /\ r_huge r' = r_huge r /\
    r_wheel r' = r_wheel r /\ r_tx_batch r' = [] /\
    exists ws, wire_of_all (r_tx_batch r) r' = Ok ws r' /\ r_trace r' = r_trace r ++ [EvTxBurst ws]) r.
Proof.
  unfold do_tx_burst_st. wp_step. unfold assert_dispatch, in_dispatch. do 2 wp_step. apply wp_any_assert. intros _.
  do 2 wp_step. wp_step. apply wp_any_assert. intros _. do 2 wp_step. wp_step.
  change kCcRTT with true. change kCcOptBatchTsc with true. cbn [when]. wp_step.
  apply (rdtsc_any r); [by destruct r|]. intros t r1 H1. eapply wp_mono.
  { apply (wp_miter (stamp_tx t) (fun _ r' => same_out r r')); [exact H1|].
    intros d it todo r' _ H'. by apply stamp_tx_any. }
  cbn beta. intros _ r2 H2. wp_step. apply wpe_any_run. intros ws r3 Ew.
  destruct (wire_of_all_reads _ _ r2 _ _ (same_reads_refl r2) eq_refl Ew) as [-> _].
  unfold emit. do 3 wp_step. destruct H2 as [Hr Hb Ht Hm Hh Hw]. 
  assert (Hr3 : same_reads r2 (r2 <| r_trace ::= fun t => t ++ [EvTxBurst ws] |> <| r_tx_batch := [] |>)) by (by destruct r2).
  split_and!; try done; [by eapply same_reads_trans|].
  exists ws. split; [by eapply wire_of_all_reads|]. rsimp. by rewrite Ht.
Qed.
Lemma enqueue_item_any it r : wpe any_err (enqueue_item it) (fun _ r' => queued it r r') r.
Proof.
  unfold enqueue_item. do 2 wp_step. set (r1 := update r_tx_batch _ r).
  assert (R1 : same_reads r r1) by (by destruct r). do 2 wp_step. wp_step.
  - eapply wp_mono; [apply do_tx_burst_any|]. cbn beta.
    intros _ r2 (A1 & A2 & A3 & A4 & A5 & A6). split; [by eapply same_reads_trans|done..|].
    cbv zeta. change (r_tx_batch r ++ [it]) with (r_tx_batch r1). rewrite H. by split.
  - split; try done. cbv zeta. change (r_tx_batch r ++ [it]) with (r_tx_batch r1). by rewrite H.
Qed.
Lemma enqueue_pkt_any s sl i ts r :
  slot_at r s = Some sl ->
  wpe any_err (enqueue_pkt_tx_burst_st s i ts) (fun _ r' => queued (mkTxItem s.1 (tx_msgbuf_ sl) i ts false) r r') r.
Proof.
  intros H. unfold enqueue_pkt_tx_burst_st, assert_dispatch, in_dispatch. do 3 wp_step. apply wp_any_assert. intros _.
  wp_step. eapply wp_get_sslot; [exact H|]. change kTesting with false. change kCcRTT with true. cbv iota.
  do 2 wp_step. apply enqueue_item_any.
Qed.

Lemma enqueue_wheel_any s n sz r0 r :
  same_out r0 r ->
  wpe any_err (enqueue_wheel s n sz) (fun _ r' => exists r1 r2, same_out r0 r1 /\ same_out r2 r' /\
    same_reads r1 r2 /\ r_tx_batch r2 = r_tx_batch r1 /\ r_trace r2 = r_trace r1 /\ r_mem r2 = r_mem r1 /\
    exists ref d, wheel_insert w_fuel (wheel_ent_new s n) ref d (r_huge r1, r_wheel r1) = Ok tt (r_huge r2, r_wheel r2)) r.
Proof.
  intros H0. unfold enqueue_wheel. wp_step. eapply rdtsc_any; [exact H0|]. intros ref r1 H1.
  unfold get_session. wp_step. do 2 wp_step. apply wp_any_deref. intros se Hse. wp_step.
  assert (Hcc : forall Q : Z * Session -> Rpc -> Prop,
    (forall d, Q (d, se <| prev_desired_tx_tsc_ := d |>) r1) -> wpe any_err (cc_getupdate_tx_tsc se ref sz) Q r1).
  { intros Q HQ. unfold cc_getupdate_tx_tsc. cbv zeta. wp_step. apply wp_any_deref. intros c _.
    wp_step. apply wp_any_deref. intros d _. wp_step. apply HQ. }
  apply Hcc. intros d. wp_step. eapply upd_session_any; [|exact H1|].
  { intros se' Hse'. rewrite Hse in Hse'. injection Hse' as <-. by destruct se. }
  intros r2 H2. cbn [fst]. wp_step. unfold with_wheel. apply wp_zoom. apply wpe_any_run.
  intros [] [h w] Ew. cbn [fst snd].
  set (r3 := update r_wheel _ _). wp_step. eapply (upd_ci_any _ _ r3); [apply same_out_refl|]. intros r4 H4.
  eapply upd_ci_any; [exact H4|]. intros r5 H5. exists r2, r3. split; [done|]. split; [done|].
  split; [by destruct r2|]. split; [done|]. split; [done|]. split; [done|]. exists ref, d. exact Ew.
Qed.

(** One packet, whatever happens to it. *)
Definition one_out (send : Rpc -> Rpc -> Prop) (r r' : Rpc) : Prop :=
  exists r1 r2, same_out r r1 /\ send r1 r2 /\ same_out r2 r'.
Lemma sends_all_snoc send i k r r1 r' :
  sends_all send i k r r1 -> one_out (send (i + Z.of_nat k)) r1 r' -> sends_all send i (S k) r r'.
Proof.
  intros H (r2 & r3 & H2 & H3 & H4). exists r2, r3. split_and!; [|done..]. by eapply sends_all_out.
Qed.

Lemma kick_req_one_any s sl bypass r :
  slot_at r s = Some sl -> is_client_ sl = true ->
  wpe any_err (kick_req_one s bypass)
    (fun _ => one_out (sends_req s (tx_msgbuf_ sl) (num_tx_ (client_info_ sl))) r) r.
Proof.
  intros H Hc. unfold kick_req_one. wp_step. eapply wp_get_ci; [exact H|exact Hc|]. wp_step. destruct bypass.
  - eapply wp_mono; [by apply enqueue_pkt_any|]. cbn beta. intros _ r1 H1.
    apply (pay_credit_any s r1); [apply same_out_refl|]. intros r2 H2.
    exists r, r1. split; [apply same_out_refl|]. split; [by left|done].
  - unfold enqueue_wheel_req_st. wp_step. eapply wp_get_sslot; [exact H|]. unfold get_mb_opt, get_mb.
    wp_step. wp_step. apply wp_any_deref. intros p Ep. do 2 wp_step. apply wp_any_deref. intros mb Hmb.
    eapply wp_mono; [apply (enqueue_wheel_any s _ _ r); apply same_out_refl|]. cbn beta.
    intros _ r3 (r1 & r2 & H1 & H2 & H3). eapply pay_credit_any; [exact H2|]. intros r4 H4.
    exists r1, r2. split; [done|]. split; [|done]. right. exact H3.
Qed.

Lemma next_ctrl_any r (Q : mbptr -> Rpc -> Prop) :
  (forall n h, Q (MbCtrl n) (r <| r_ctrl_msgbuf_head := h |>)) -> wpe any_err next_ctrl_msgbuf Q r.
Proof. intros HQ. unfold next_ctrl_msgbuf. do 2 wp_step. do 2 wp_step. wp_step. apply HQ. Qed.

Lemma enqueue_rfr_any s sl q resp r :
  slot_at r s = Some sl -> is_client_ sl = true -> mb_at r q = Some resp ->
  wpe any_err (enqueue_rfr_st s (m_hdr (r_mem r) (get_pkthdr_0 resp)))
    (fun _ => sends_rfr s (Some q) (num_tx_ (client_info_ sl)) r) r.
Proof.
  intros H Hc Hq. unfold enqueue_rfr_st, assert_dispatch, in_dispatch. do 3 wp_step. apply wp_any_assert. intros _.
  wp_step. apply next_ctrl_any. intros n hd. set (r1 := r <| r_ctrl_msgbuf_head := hd |>).
  unfold get_session. wp_step. do 2 wp_step. apply wp_any_deref. intros se Hse. wp_step.
  eapply wp_get_ci; [exact H|exact Hc|]. unfold fill_ctrl_hdr, get_mb. wp_step. wp_step. do 2 wp_step.
  apply wp_any_deref. intros ctrl Hctrl. unfold mem_mod. wp_step. set (r2 := update r_mem _ r1).
  unfold enqueue_hdr_tx_burst_st, assert_dispatch, in_dispatch. do 3 wp_step. apply wp_any_assert. intros _.
  wp_step. eapply wp_get_sslot; [exact H|]. change kTesting with false. change kCcRTT with true. cbv iota.
  do 2 wp_step. eapply wp_mono; [apply enqueue_item_any|]. cbn beta. intros _ r3 H3.
  exists n, ctrl, q, resp, se, r2. split; [exact Hctrl|]. split; [done|]. split; [done|]. split; [exact Hse|].
  split; [by split|]. split; [by destruct r|]. split; [|split; [done|split; [|exact H3]]].
  - unfold rfr_hdr, r2, r1, upd_hdr, write_hdr, update. cbn -[get_pkthdr_0 wrap]. rewrite Z.eqb_refl.
    split_and!; reflexivity.
  - intros a Ha. unfold r2, r1, upd_hdr, write_hdr, update. cbn -[get_pkthdr_0]. by rewrite (proj2 (Z.eqb_neq _ _)).
Qed.
Lemma kick_rfr_one_any s sl r :
  slot_at r s = Some sl -> is_client_ sl = true ->
  wpe any_err (kick_rfr_one s)
    (fun _ => one_out (sends_rfr s (resp_msgbuf_ (client_info_ sl)) (num_tx_ (client_info_ sl))) r) r.
Proof.
  intros H Hc. unfold kick_rfr_one. wp_step. eapply wp_get_ci; [exact H|exact Hc|]. unfold get_mb_opt, get_mb.
  wp_step. wp_step. apply wp_any_deref. intros q Eq. do 2 wp_step. apply wp_any_deref. intros resp Hq.
  wp_step. apply wp_hdr_at. wp_step. eapply wp_mono; [by apply enqueue_rfr_any|]. cbn beta. intros _ r1 H1.
  apply (pay_credit_any s r1); [apply same_out_refl|]. intros r2 H2. rewrite Eq.
  exists r, r1. split; [apply same_out_refl|]. by split.
Qed.
(** Both what it does to the client's state and what it puts out. *)
Lemma wp_and_any {X} E (m : MR X) (P Q : X -> Rpc -> Prop) r :
  wpe E m P r -> wpe any_err m Q r -> wpe E m (fun a r' => P a r' /\ Q a r') r.
Proof. unfold wpe. by destruct (m r). Qed.

(** [cinv] with some entries in the wheel. *)
Definition cinv_e (g : ghost) (r : Rpc) : Prop := exists ents, cinv (with_ents ents g) r.

Lemma cinv_e_intro g r : cinv g r -> cinv_e g r.
Proof. intros H. exists (g_ents g). by destruct g. Qed.

(** The slot and its session after [k] packets. *)
Record after (k : Z) (se : Session) (sl : SSlot) (se' : Session) (sl' : SSlot) : Prop := {
  at_credits : credits_ se' = credits_ se - k;
  at_state : state_ se' = state_ se;
  at_tx : num_tx_ (client_info_ sl') = num_tx_ (client_info_ sl) + k;
  at_rx : num_rx_ (client_info_ sl') = num_rx_ (client_info_ sl);
  at_buf : tx_msgbuf_ sl' = tx_msgbuf_ sl;
  at_resp : resp_msgbuf_ (client_info_ sl') = resp_msgbuf_ (client_info_ sl);
}.

Lemma sent_after k r r' s se sl :
  active r s se sl -> sent k s r r' ->
  exists se' sl', active r' s se' sl' /\ after k se sl se' sl'.
Proof.
  intros Ha Hs. destruct (sent_active _ _ _ _ _ _ Ha Hs) as (se' & sl' & Ha' & Es & El).
  exists se', sl'. split; [done|]. split.
  - exact (f_equal credits_ Es).
  - exact (f_equal state_ Es).
  - exact (f_equal (fun sl => num_tx_ (client_info_ sl)) El).
  - exact (f_equal (fun sl => num_rx_ (client_info_ sl)) El).
  - exact (f_equal tx_msgbuf_ El).
  - exact (f_equal (fun sl => resp_msgbuf_ (client_info_ sl)) El).
Qed.

Lemma kick_loop_wp g r s se sl f n send :
  cinv_e g r -> active r s se sl -> 0 <= n ->
  (forall k r1 se1 sl1 g1, 0 <= k < n -> cinv g1 r1 -> g_sq g1 = g_sq g ->
     (forall r', cinv_e g1 r' -> cinv_e g r') ->
     sent k s r r1 -> active r1 s se1 sl1 -> after k se sl se1 sl1 ->
     wpe client_err f (fun _ r' => (cinv_e g1 r' /\ sent 1 s r1 r') /\
       one_out (send (num_tx_ (client_info_ sl1))) r1 r') r1) ->
  wpe client_err (mrepeat (Z.to_nat n) f) (fun _ r' => cinv_e g r' /\ sent n s r r' /\
    sends_all send (num_tx_ (client_info_ sl)) (Z.to_nat n) r r') r.
Proof.
  intros Hc Ha Hn Hf. eapply wp_mono.
  { apply (wp_mrepeat f (fun k r' => cinv_e g r' /\ sent (Z.of_nat k) s r r' /\
        sends_all send (num_tx_ (client_info_ sl)) k r r')).
    - split; [done|]. split; [|apply same_out_refl]. apply sent_0; [|done]. rewrite (active_view _ _ _ _ Ha). eauto.
    - intros k r1 Hk ([ents Hc1] & S1 & O1). destruct (sent_after _ _ _ _ _ _ Ha S1) as (se1 & sl1 & Ha1 & Af).
      eapply wp_mono; [apply (Hf (Z.of_nat k) r1 se1 sl1 (with_ents ents g)); try done|].
      + lia.
      + cbn beta. intros _ r' [[H1 H2] H3]. split; [exact H1|]. split.
        * replace (Z.of_nat (S k)) with (Z.of_nat k + 1) by lia. by eapply sent_trans.
        * rewrite (at_tx _ _ _ _ _ Af) in H3. by eapply sends_all_snoc. }
  cbn. intros _ r'. rewrite Z2Nat.id by done. done.
Qed.

(** ** Requests *)
Lemma kick_req_st_out_wp g r s se sl :
  cinv g r -> active r s se sl -> s ∉ g_sq g -> 0 < credits_ se ->
  num_tx_ (client_info_ sl) < npk (r_user_mb r) (tx_msgbuf_ sl) ->
  wpe client_err (kick_req_st s) (fun _ r' => cinv_e g r' /\
    let k := Z.min (credits_ se) (npk (r_user_mb r) (tx_msgbuf_ sl) - num_tx_ (client_info_ sl)) in
    sent k s r r' /\ sends_all (sends_req s (tx_msgbuf_ sl)) (num_tx_ (client_info_ sl)) (Z.to_nat k) r r') r.
Proof.
  intros Hc Ha Hsq Hcr Hlt. pose proof (active_ok _ _ _ _ _ Hc Ha) as Hf.
  destruct (af_bufs _ _ _ _ Hf) as (n & mb & _ & _ & Ep & Hn & Hmb & _).
  rewrite Ep, (npk_user _ _ _ Hn) in *. pose proof (umb_pkts _ Hmb) as Hpk.
  pose proof (af_rx _ _ _ _ Hf) as Hrx. change (2 ^ 13) with 8192 in Hpk.
  unfold kick_req_st. wp_step. apply wp_assert_dispatch; [by eapply cinv_etid|].
  wp_step. eapply wp_get_session; [apply Ha|]. wp_step. wp_step; [lia|].
  wp_step. eapply wp_get_sslot; [apply Ha|]. wp_step. eapply wp_get_ci; [apply Ha..|].
  wp_step. eapply wp_get_mb_opt; [exact Ep|exact Hn|]. cbv zeta.
  wp_step. eapply can_bypass_wp; [done|]. intros b. rewrite sub64_small by lia.
  eapply kick_loop_wp; [by apply cinv_e_intro|done|lia|].
  intros k r1 se1 sl1 g1 Hk Hc1 Hsq1 Hce S1 Ha1 [A1 A2 A3 A4 A5 A6].
  apply wp_and_any; [|rewrite <- Ep, <- A5; apply kick_req_one_any; apply Ha1].
  eapply kick_req_one_wp; [done|done|by rewrite Hsq1|lia|].
  rewrite A5, A3, Ep, (sn_ub _ _ _ _ S1), (npk_user _ _ _ Hn). lia.
Qed.
Lemma kick_req_st_wp g r s se sl :
  cinv g r -> active r s se sl -> s ∉ g_sq g -> 0 < credits_ se ->
  num_tx_ (client_info_ sl) < npk (r_user_mb r) (tx_msgbuf_ sl) ->
  wpe client_err (kick_req_st s) (fun _ r' => cinv_e g r' /\
    sent (Z.min (credits_ se) (npk (r_user_mb r) (tx_msgbuf_ sl) - num_tx_ (client_info_ sl))) s r r') r.
Proof. intros. eapply wp_mono; [by eapply kick_req_st_out_wp|]. by intros _ r' (? & ? & _). Qed.

(** ** Requests for response *)
Lemma next_ctrl_wp g r (Q : mbptr -> Rpc -> Prop) :
  cinv g r ->
  (forall p mb r', cinv g r' -> still r r' -> mb_at r' p = Some mb -> Q p r') ->
  wpe client_err next_ctrl_msgbuf Q r.
Proof.
  intros Hc HQ. pose proof (cv_head _ _ Hc) as Hh. pose proof (CI_ctrl _ _ (cv_core _ _ Hc)) as Hl.
  unfold next_ctrl_msgbuf. do 2 wp_step. do 2 wp_step. wp_step.
  set (r' := update r_ctrl_msgbuf_head _ r). set (h := r_ctrl_msgbuf_head r) in *.
  assert (S' : still r r') by (apply still_head; case_match eqn:E; [lia|apply Z.eqb_neq in E; lia]).
  change (zlength (r_ctrl_msgbufs r) = 2 * kUnsigBatch) in Hl. unfold zlength in Hl.
  destruct (lookup_lt_is_Some_2 (r_ctrl_msgbufs r) (Z.to_nat h)) as [mb Hmb]; [lia|].
  apply (HQ _ mb r'); [|done|exact Hmb].
  eapply cinv_still; [done|done|]. destruct (cv_txb _ _ Hc) as [H1 H2].
  split; [done|]. by apply (items_ok_still r).
Qed.

Lemma enqueue_rfr_wp g r s se sl h :
  cinv g r -> active r s se sl ->
  wpe client_err (enqueue_rfr_st s h) (fun _ r' => cinv g r' /\ still r r') r.
Proof.
  intros Hc Ha. pose proof (cinv_etid _ _ Hc) as Hd. unfold enqueue_rfr_st.
  wp_step. apply wp_assert_dispatch; [done|]. wp_step. eapply next_ctrl_wp; [done|].
  intros p mb r1 Hc1 S1 Hmb. destruct (still_active _ _ _ _ _ S1 Ha) as (se1 & sl1 & Ha1 & _ & _).
  wp_step. eapply wp_get_session; [apply Ha1|]. wp_step. eapply wp_get_ci; [apply Ha1..|].
  wp_step. unfold fill_ctrl_hdr. wp_step. eapply wp_get_mb; [done|]. unfold mem_mod. wp_step.
  set (r2 := update r_mem _ r1). assert (S2 : still r1 r2) by apply still_mem.
  assert (S02 : still r r2) by (by etrans).
  destruct (still_active _ _ _ _ _ S02 Ha) as (se2 & sl2 & Ha2 & _ & _).
  assert (Hc2 : cinv g r2).
  { eapply cinv_still; [exact Hc1|done|]. destruct (cv_txb _ _ Hc1) as [H1 H2].
    split; [done|]. by apply (items_ok_still r1). }
  unfold enqueue_hdr_tx_burst_st. wp_step. apply wp_assert_dispatch; [by eapply cinv_etid|].
  wp_step. eapply wp_get_sslot; [apply Ha2|]. change kTesting with false. change kCcRTT with true.
  cbv iota. do 2 wp_step. eapply wp_mono.
  { apply enqueue_item_wp; [by eapply cinv_etid|apply (cv_txb _ _ Hc2)|]. split_and!; cbn.
    - eexists. apply sess_at_nf_Some. apply Ha2.
    - exists p, mb. split; [done|]. rewrite mb_at_nf, (quiet_mb r1) by apply S2. done.
    - intros s' k [= <- _]. exists (norm_sl sl2). split; [apply slot_at_nf_Some|]; apply Ha2. }
  cbn. intros _ r3 [S3 Hb]. split; [|by etrans]. by eapply cinv_still.
Qed.

Lemma kick_rfr_one_wp g r s se sl :
  cinv g r -> active r s se sl -> s ∉ g_sq g -> 0 < credits_ se ->
  num_tx_ (client_info_ sl) < tot (r_user_mb r) sl ->
  wpe client_err (kick_rfr_one s) (fun _ r' => cinv_e g r' /\ sent 1 s r r') r.
Proof.
  intros Hc Ha Hsq Hcr Hlt. pose proof (active_ok _ _ _ _ _ Hc Ha) as Hf.
  destruct (af_bufs _ _ _ _ Hf) as (_ & _ & n & mb & _ & _ & _ & Eq & Hn & Hmb).
  unfold kick_rfr_one. wp_step. eapply wp_get_ci; [apply Ha..|].
  wp_step. eapply wp_get_mb_opt; [exact Eq|exact Hn|]. wp_step. apply wp_hdr_at. wp_step.
  eapply wp_mono; [by eapply enqueue_rfr_wp|]. cbn. intros _ r1 [Hc1 S1].
  by eapply pay_direct_wp.
Qed.

Lemma wire_pkts_value req resp :
  umb_ok req -> umb_ok resp -> wire_pkts req resp = num_pkts_ req + num_pkts_ resp - 1.
Proof.
  intros H1%umb_pkts H2%umb_pkts. change (2 ^ 13) with 8192 in *. unfold wire_pkts.
  rewrite add64_small, sub64_small by lia. lia.
Qed.

Lemma kick_rfr_st_out_wp g r s se sl :
  cinv g r -> active r s se sl -> s ∉ g_sq g -> 0 < credits_ se ->
  npk (r_user_mb r) (tx_msgbuf_ sl) <= num_rx_ (client_info_ sl) ->
  num_tx_ (client_info_ sl) < tot (r_user_mb r) sl ->
  wpe client_err (kick_rfr_st s) (fun _ r' => cinv_e g r' /\
    let k := Z.min (credits_ se) (tot (r_user_mb r) sl - num_tx_ (client_info_ sl)) in
    sent k s r r' /\
    sends_all (sends_rfr s (resp_msgbuf_ (client_info_ sl))) (num_tx_ (client_info_ sl)) (Z.to_nat k) r r') r.
Proof.
  intros Hc Ha Hsq Hcr Hrx Hlt. pose proof (active_ok _ _ _ _ _ Hc Ha) as Hf.
  destruct (af_bufs _ _ _ _ Hf) as (n & mb & n' & mb' & Ep & Hn & Hmb & Eq & Hn' & Hmb').
  pose proof (af_rx _ _ _ _ Hf) as Hrt. pose proof (af_tx _ _ _ _ Hf) as Htx.
  assert (Etot : tot (r_user_mb r) sl = wire_pkts mb mb').
  { rewrite (wire_pkts_value mb mb') by done. unfold tot, total.
    rewrite Ep, Eq, (npk_user _ _ _ Hn), (npk_user _ _ _ Hn') in *.
    replace (_ <? _) with false by lia. lia. }
  unfold kick_rfr_st. wp_step. apply wp_assert_dispatch; [by eapply cinv_etid|].
  wp_step. eapply wp_get_session; [apply Ha|]. wp_step. eapply wp_get_sslot; [apply Ha|].
  wp_step. eapply wp_get_ci; [apply Ha..|]. wp_step. wp_step; [lia|].
  wp_step. eapply wp_get_mb_opt; [exact Ep|exact Hn|].
  rewrite Ep, (npk_user _ _ _ Hn) in Hrx. wp_step. wp_step; [lia|].
  wp_step. eapply wp_get_mb_opt; [exact Eq|exact Hn'|]. wp_step. wp_step; [lia|]. cbv zeta.
  rewrite <- Etot. rewrite sub64_small by lia.
  eapply kick_loop_wp; [by apply cinv_e_intro|done|lia|].
  intros k r1 se1 sl1 g1 Hk Hc1 Hsq1 Hce S1 Ha1 [A1 A2 A3 A4 A5 A6].
  apply wp_and_any; [|rewrite <- A6; apply kick_rfr_one_any; apply Ha1].
  eapply kick_rfr_one_wp; [done|done|by rewrite Hsq1|lia|].
  unfold tot in *. rewrite A5, A4, A3, A6, (sn_ub _ _ _ _ S1). lia.
Qed.
Lemma kick_rfr_st_wp g r s se sl :
  cinv g r -> active r s se sl -> s ∉ g_sq g -> 0 < credits_ se ->
  npk (r_user_mb r) (tx_msgbuf_ sl) <= num_rx_ (client_info_ sl) ->
  num_tx_ (client_info_ sl) < tot (r_user_mb r) sl ->
  wpe client_err (kick_rfr_st s) (fun _ r' => cinv_e g r' /\
    sent (Z.min (credits_ se) (tot (r_user_mb r) sl - num_tx_ (client_info_ sl))) s r r') r.
Proof. intros. eapply wp_mono; [by eapply kick_rfr_st_out_wp|]. by intros _ r' (? & ? & _). Qed.

(** ** Either *)
Lemma req_pkts_pending_wp g r s se sl (Q : bool -> Rpc -> Prop) :
  cinv g r -> active r s se sl ->
  Q (num_tx_ (client_info_ sl) <? npk (r_user_mb r) (tx_msgbuf_ sl)) r ->
  wpe client_err (req_pkts_pending s) Q r.
Proof.
  intros Hc Ha HQ. pose proof (active_ok _ _ _ _ _ Hc Ha) as Hf.
  destruct (af_bufs _ _ _ _ Hf) as (n & mb & n' & mb' & Ep & Hn & Hmb & _).
  unfold req_pkts_pending. wp_step. eapply wp_get_sslot; [apply Ha|].
  wp_step. eapply wp_get_ci; [apply Ha..|]. wp_step. eapply wp_get_mb_opt; [exact Ep|exact Hn|].
  wp_step. rewrite Ep, (npk_user _ _ _ Hn) in HQ. exact HQ.
Qed.

(** The packets [kick_st] sends. *)
Definition kick_count (ub : gmap Z MsgBuffer) (se : Session) (sl : SSlot) : Z :=
  let n := npk ub (tx_msgbuf_ sl) in
  Z.min (credits_ se) ((if num_tx_ (client_info_ sl) <? n then n else tot ub sl)
                       - num_tx_ (client_info_ sl)).

(** ... and what they are: request packets while any is left, then requests for
    response. *)
Definition kick_sends (ub : gmap Z MsgBuffer) (s : sref) (sl : SSlot) : Z -> Rpc -> Rpc -> Prop :=
  if num_tx_ (client_info_ sl) <? npk ub (tx_msgbuf_ sl) then sends_req s (tx_msgbuf_ sl)
  else sends_rfr s (resp_msgbuf_ (client_info_ sl)).

Lemma kick_st_out_wp g r s se sl :
  cinv g r -> active r s se sl -> s ∉ g_sq g -> 0 < credits_ se ->
  (npk (r_user_mb r) (tx_msgbuf_ sl) <= num_tx_ (client_info_ sl) ->
   npk (r_user_mb r) (tx_msgbuf_ sl) <= num_rx_ (client_info_ sl) /\
   num_tx_ (client_info_ sl) < tot (r_user_mb r) sl) ->
  wpe client_err (kick_st s) (fun _ r' => cinv_e g r' /\
    sent (kick_count (r_user_mb r) se sl) s r r' /\ 0 < kick_count (r_user_mb r) se sl /\
    sends_all (kick_sends (r_user_mb r) s sl) (num_tx_ (client_info_ sl))
      (Z.to_nat (kick_count (r_user_mb r) se sl)) r r') r.
Proof.
  intros Hc Ha Hsq Hcr Hp. unfold kick_st. wp_step. eapply req_pkts_pending_wp; [done..|].
  unfold kick_count, kick_sends. case_match eqn:E.
  - apply Z.ltb_lt in E. eapply wp_mono; [by eapply kick_req_st_out_wp|].
    cbn beta. intros _ r' (H1 & H2 & H3). split_and!; [done|done|lia|done].
  - apply Z.ltb_ge in E. destruct (Hp E). eapply wp_mono; [by eapply kick_rfr_st_out_wp|].
    cbn beta. intros _ r' (H1 & H2 & H3). split_and!; [done|done|lia|done].
Qed.
Lemma kick_st_wp g r s se sl :
  cinv g r -> active r s se sl -> s ∉ g_sq g -> 0 < credits_ se ->
  (npk (r_user_mb r) (tx_msgbuf_ sl) <= num_tx_ (client_info_ sl) ->
   npk (r_user_mb r) (tx_msgbuf_ sl) <= num_rx_ (client_info_ sl) /\
   num_tx_ (client_info_ sl) < tot (r_user_mb r) sl) ->
  wpe client_err (kick_st s) (fun _ r' => cinv_e g r' /\
    sent (kick_count (r_user_mb r) se sl) s r r' /\ 0 < kick_count (r_user_mb r) se sl) r.
Proof. intros. eapply wp_mono; [by eapply kick_st_out_wp|]. by intros _ r' (? & ? & ? & _). Qed.

(** ** Back to progress *)
Lemma cinv_unexempt g r s se sl :
  cinv_e g r -> active r s se sl -> g_x g = Some s ->
  num_rx_ (client_info_ sl) < num_tx_ (client_info_ sl) -> cinv_e (with_x None g) r.
Proof.
  intros [ents Hc] Ha Hx Hlt. exists ents. pose proof (active_ok _ _ _ _ _ Hc Ha) as Hf.
  pose proof (af_tx _ _ _ _ Hf) as Htx.
  apply cinv_parts in Hc as (HC & Hb & Hw). apply cinv_parts. split_and!; [|done|done].
  change (CI (with_x None (with_ents ents g)) (nf r)).
  eapply CI_unexempt; [exact HC|apply slot_at_nf_Some, Ha|apply Ha|done| |].
  - intros _. right. exact Hlt.
  - intros _. change (num_rx_ (client_info_ sl) < tot (r_user_mb r) sl). lia.
Qed.

Lemma sent_unexempt g k r r' s se sl :
  cinv_e g r' -> g_x g = Some s -> active r s se sl -> sent k s r r' -> 0 < k ->
  num_rx_ (client_info_ sl) <= num_tx_ (client_info_ sl) -> cinv_e (with_x None g) r'.
Proof.
  intros Hc Hx Ha Hs Hk Hle. destruct (sent_after _ _ _ _ _ _ Ha Hs) as (se' & sl' & Ha' & Af).
  eapply cinv_unexempt; [done|exact Ha'|done|]. destruct Af. lia.
Qed.
End Send.
