(* ===== verification/ClientQueue.v ===== *)
(** * The client's invariant: the credit-stall queue and the wheel

    [process_credit_stall_queue_st] and [process_wheel_st]. *)
From S2P Require Import Prelude Config HugeAlloc PktHdr Msg SmTypes Timer Timely MemPool TimingWheel WheelChain WheelSpec Session RpcState RpcBase RpcTx RpcWp ClientInv ClientLemmas ClientSteps ClientTx ClientKick ClientSend.

Section Queue.
Context {T : TTr} {TOk : TTrOk T} {Os : ShmOs} {C : RpcConf} {W : World} {WOk : WorldOk W}.

(** ** Finding active slots *)
Lemma nf_active r s sl' :
  slot_at (nf r) s = Some sl' -> is_client_ sl' = true -> tx_msgbuf_ sl' <> None ->
  exists se sl, active r s se sl /\ norm_sl sl = sl'.
Proof.
  intros (sl & H & E)%nf_slot Hc Ht. pose proof H as (se & Hse & _)%slot_at_Some.
  exists se, sl. split; [|done]. subst sl'. by split.
Qed.

Lemma stalled_active g r s :
  cinv g r -> s ∈ g_sq g -> exists se sl, active r s se sl /\ num_tx_ (client_info_ sl) = 0.
Proof.
  intros Hc Hs. destruct (CI_sq _ _ (cv_core _ _ Hc) s Hs) as (sl' & H & Hcl & Ht & Hz).
  destruct (nf_active _ _ _ H Hcl Ht) as (se & sl & Ha & <-). by exists se, sl.
Qed.

(** ** The stall queue *)

(** The slot's session has no credits. *)
Definition no_credits (r : Rpc) (s : sref) : Prop :=
  exists se, sess_at r s.1 = Some se /\ credits_ se = 0.

Lemma no_credits_sent k s r r' s' se :
  sess_at r s.1 = Some se -> 0 < credits_ se -> sent k s r r' -> no_credits r s' -> no_credits r' s'.
Proof.
  intros Hse Hcr S (se' & Hse' & Hz). destruct (decide (s'.1 = s.1)) as [E|Hne].
  - rewrite E, Hse in Hse'. injection Hse' as <-. lia.
  - pose proof (sn_sess _ _ _ _ S _ Hne) as E. rewrite Hse' in E.
    destruct (sess_at r' s'.1) as [se1|] eqn:E1; [|done]. exists se1. split; [done|].
    apply (f_equal (fmap credits_)) in E. cbn in E. injection E as E. lia.
Qed.

(** The queue a run leaves: the slots whose sessions have no credits. *)
Lemma stall_loop_wp l : forall kept g r,
  cinv g r -> g_x g = None -> g_sq g = kept ++ l -> Forall (no_credits r) kept ->
  wpe client_err (stall_loop l) (fun kept' r' =>
    cinv_e (with_sq (kept ++ kept') g) r' /\ r_stallq r' = r_stallq r /\
    same_links r r' /\ kept' `sublist_of` l /\ Forall (no_credits r') (kept ++ kept')) r.
Proof.
  induction l as [|s l IH]; intros kept g r Hc Hx Hq Hk; cbn [stall_loop].
  - wp_step. rewrite app_nil_r in Hq |- *. split_and!; try done.
    replace (with_sq kept g) with g by (destruct g; cbn in *; by subst). by apply cinv_e_intro.
  - destruct (stalled_active g r s) as (se & sl & Ha & Hz);
      [done|rewrite Hq; apply elem_of_app; right; by left|].
    wp_step. eapply wp_get_sslot; [apply Ha|]. wp_step. eapply wp_get_session; [apply Ha|].
    pose proof (CI_sq_nodup _ _ (cv_core _ _ Hc)) as Hnd. rewrite Hq in Hnd.
    destruct (0 <? credits_ se) eqn:Hcr.
    + apply Z.ltb_lt in Hcr. set (g1 := with_x (Some s) (with_sq (kept ++ l) g)).
      assert (Hc1 : cinv g1 r).
      { apply cinv_parts in Hc as (HC & Hb & Hw). apply cinv_parts. split_and!; [|done|done].
        by apply CI_unstall. }
      assert (Hnin : s ∉ kept ++ l).
      { intros Hin. rewrite <- Permutation_middle in Hnd. by apply NoDup_cons in Hnd as [? _]. }
      pose proof (active_ok _ _ _ _ _ Hc Ha) as Hf. pose proof (af_rx _ _ _ _ Hf).
      pose proof (active_npk _ _ _ _ Hf) as [HN _].
      wp_step. eapply wp_mono; [eapply (kick_st_wp g1); try done; lia|].
      cbn. intros _ r1 (Hc1' & S1 & Hpos).
      pose proof (sent_unexempt g1 _ r r1 s se sl Hc1' eq_refl Ha S1 Hpos ltac:(lia)) as [e Hc2].
      eapply wp_mono; [apply (IH kept _ r1 Hc2); try done|].
      * eapply Forall_impl; [exact Hk|]. intros s'. eapply no_credits_sent; [apply Ha|done|done].
      * cbn. intros kept' r' (H1 & H2 & H3 & H4 & H5). split_and!; try done.
        -- destruct H1 as [e' H1]. exists e'. unfold with_ents, with_sq in *. cbn in *. by rewrite Hx.
        -- rewrite H2. apply S1.
        -- intros a. destruct (H3 a) as [-> ->]. apply (sn_links _ _ _ _ S1).
        -- by constructor.
    + apply Z.ltb_ge in Hcr. pose proof (af_credits _ _ _ _ (active_ok _ _ _ _ _ Hc Ha)).
      wp_step. eapply wp_mono; [apply (IH (kept ++ [s]) g r); try done|].
      * by rewrite <- app_assoc.
      * apply Forall_app. split; [done|]. constructor; [|done]. exists se. split; [apply Ha|lia].
      * cbn. intros kept' r' (H1 & H2 & H3 & H4 & H5). wp_step.
        rewrite <- app_assoc in H1, H5. split_and!; try done. by constructor.
Qed.

Lemma cinv_noise g r r' :
  cinv g r -> still r r' -> r_tx_batch r' = r_tx_batch r -> cinv g r'.
Proof.
  intros Hc S E. eapply cinv_still; [done|done|]. destruct (cv_txb _ _ Hc) as [? ?].
  split; rewrite E; [done|]. by apply (items_ok_still r).
Qed.

Lemma base_ok_same r r' :
  base_ok r -> quiet r r' -> r_tx_batch r' = r_tx_batch r ->
  r_ctrl_msgbuf_head r' = r_ctrl_msgbuf_head r -> base_ok r'.
Proof.
  intros Hb Hq Ht Hh. destruct (bo_txb _ Hb) as [H1 H2].
  apply (base_ok_quiet r); [done|done| |rewrite Hh; apply Hb].
  split; rewrite Ht; [done|]. by destruct Hq as [-> _].
Qed.

Lemma base_ok_wheel r f : base_ok r -> base_ok (r <| r_wheel ::= f |>).
Proof.
  intros Hb. apply (base_ok_same r); try done.
Qed.

Lemma cinv_stallq g r f : cinv g r -> cinv g (r <| r_stallq ::= f |>).
Proof.
  intros Hc. apply cinv_parts in Hc as (HC & Hb & Hw).
  assert (Hq : quiet r (r <| r_stallq ::= f |>)) by (split; [by destruct r|]; intros []; by split).
  apply cinv_parts. split_and!; [by destruct Hq as [-> _]| |exact Hw].
  by apply (base_ok_same r).
Qed.

(** Everything between operations, with the links kept. *)
Lemma stall_queue_wp r :
  client_inv r ->
  wpe client_err process_credit_stall_queue_st (fun _ r' =>
    client_inv r' /\ same_links r r' /\ r_stallq r' `sublist_of` r_stallq r /\
    Forall (no_credits r') (r_stallq r')) r.
Proof.
  intros [ents Hc]. unfold process_credit_stall_queue_st. wp_step.
  apply wp_assert_dispatch; [by eapply cinv_etid|]. do 2 wp_step. wp_step.
  eapply wp_mono; [by apply (stall_loop_wp (r_stallq r) [] (rest (r_stallq r) ents) r)|].
  cbn. intros kept r1 ([e H1] & H2 & H3 & H4 & H5). wp_step. split_and!; try done.
  exists e. rsimp. by apply (cinv_stallq (rest kept e)).
Qed.

(** ** The wheel *)
Lemma reap_env_wp ents r tsc :
  wheel_ok ents r -> tsc < kMaxTsc ->
  wpe client_err (with_wheel (reap tsc))
    (fun _ r' => wheel_ok ents r' /\ exists h w, r' = r <| r_huge := h |> <| r_wheel := w |>) r.
Proof.
  intros (live & a & cs & Ha & R & Hp & Hz1 & Hz2) Htsc. unfold with_wheel. apply wp_zoom.
  eapply reap_wp; [exact R|unfold kMaxTsc in *; lia|]. intros tw' cs' R' E1 E2. cbn [fst snd].
  split; [|by eexists _, _]. exists live, (aw_reap (tw_wslot_width_tsc (r_wheel r)) tsc a), cs'.
  rsimp. split_and!; [exact Ha|exact R'| |rewrite ?E1, ?E2; lia..].
  unfold aw_reap. by rewrite aw_iter_entries.
Qed.

(** The front of the ready queue is taken. *)
Lemma wheel_ok_pop ents r e q :
  wheel_ok ents r -> tw_ready_queue (r_wheel r) = e :: q ->
  exists ents', ents ≡ₚ e :: ents' /\
    wheel_ok ents' (r <| r_wheel ::= fun w => w <| tw_ready_queue ::= tail |> |>).
Proof.
  intros (live & a & cs & Ha & R & Hp & Hz) Hq. pose proof (wr_ready _ _ _ R) as Hr. rewrite Hq in Hr.
  exists (q ++ concat (aw_slots a)). split.
  - rewrite <- Hp. unfold aw_entries. by rewrite <- Hr.
  - exists live, (mkAWheel (aw_t0 a) (aw_slots a) q), cs. split_and!; try done; try apply Hz.
    destruct R as [? ? ? ? ? ? ? ? ? Rep]. split; try done.
    + rsimp. by rewrite Hq.
    + intros k c q' Hc Hs. specialize (Rep k c q' Hc Hs).
      apply (slot_rep_frame (r_wheel r)); [|exact Rep]. intros []; done.
Qed.

Lemma wheel_ok_front ents r e q :
  wheel_ok ents r -> tw_ready_queue (r_wheel r) = e :: q -> e ∈ ents.
Proof.
  intros H Hq. destruct (wheel_ok_pop _ _ _ _ H Hq) as (ents' & -> & _). by left.
Qed.

Lemma CI_ents_perm g ents ents' R :
  ents ≡ₚ ents' -> CI (with_ents ents g) R -> CI (with_ents ents' g) R.
Proof.
  intros Hp [? ? Hs ? ? ? ? Hnd He ? ?]. split; try done; cbn.
  - intros sid se H1 H2. destruct (Hs sid se H1 H2) as [? Hsl ? ? ? ? ? ? ? ?]. split; try done.
    intros i sl Hi. destruct (Hsl i sl Hi) as [? ? ? ? ? ? ? ? ? Hb ?]. split; try done.
    intros k Hk. destruct (Hb k Hk) as (e & H & ?). exists e. split; [|done]. cbn in *. by rewrite <- Hp.
  - cbn in Hnd. by rewrite <- Hp.
  - intros e H. apply He. cbn. by rewrite Hp.
Qed.

Lemma put_slot_put_sc r s sl se :
  sess_at r s.1 = Some se -> put_slot s sl r = put_sc s sl (credits_ se) r.
Proof.
  intros H. rewrite (put_slot_sess _ _ _ _ H), (put_sc_sess _ _ _ _ _ H). by destruct se.
Qed.

Lemma norm_unwheeled k sl : norm_sl (unwheeled k sl) = unwheeled k (norm_sl sl).
Proof. by destruct sl as [? ? ? ? ? ? [] ?]. Qed.

Lemma active_of_ent g r e :
  cinv g r -> e ∈ g_ents g -> exists se sl, active r (we_sslot e) se sl /\
    ent_ok (r_user_mb r) sl e.
Proof.
  intros Hc He. destruct (CI_ents _ _ (cv_core _ _ Hc) e He) as (sl' & H & Hok).
  pose proof Hok as (Hcl & Hw & _). destruct (CI_slot _ _ _ _ (cv_core _ _ Hc) H Hcl) as (? & _ & _ & _ & _ & Hso).
  destruct (nf_active r (we_sslot e) sl') as (se & sl & Ha & <-); try done.
  - intros E. pose proof (so_idle _ _ _ _ Hso E). lia.
  - exists se, sl. split; [done|exact Hok].
Qed.

Lemma process_wheel_one_wp g r e q :
  cinv g r -> tw_ready_queue (r_wheel r) = e :: q ->
  wpe client_err process_wheel_one (fun _ r' => cinv_e g r' /\ same_links r r' /\
    r_stallq r' = r_stallq r /\ tw_ready_queue (r_wheel r') = q) r.
Proof.
  intros Hc Hq. pose proof (wheel_ok_front _ _ _ _ (cv_wheel _ _ Hc) Hq) as He.
  destruct (active_of_ent _ _ _ Hc He) as (se & sl & Ha & Hcl & Hwin & Hlt & Hbit).
  pose proof (active_ok _ _ _ _ _ Hc Ha) as Hf.
  destruct (af_bufs _ _ _ _ Hf) as (n & mb & _ & _ & Ep & Hn & Hmb & _).
  unfold process_wheel_one. do 2 wp_step. rewrite Hq. wp_step. eapply wp_deref; [done|].
  cbv zeta. wp_step. eapply wp_get_sslot; [apply Ha|]. wp_step. eapply wp_get_ci; [apply Ha..|].
  wp_step. eapply wp_get_mb_opt; [exact Ep|exact Hn|].
  rewrite Ep, (npk_user _ _ _ Hn) in Hlt.
  replace (we_pkt_num e <? num_pkts_ mb) with true by lia. wp_step.
  eapply wp_mono; [eapply enqueue_pkt_wp; [done..|]|]; [by intros s' k [= <- _]|].
  cbn. intros _ r1 [Hc1 S1]. destruct (still_active _ _ _ _ _ S1 Ha) as (se1 & sl1 & Ha1 & Es & El).
  wp_step. eapply wp_upd_ci; [apply Ha1..|]. wp_step.
  eapply wp_upd_ci; [by rewrite (slot_at_put_slot _ _ _ _ _ (ac_slot _ _ _ _ Ha1)), decide_True by done|apply Ha1|].
  rewrite (put_slot_put_slot _ _ _ _ _ (ac_slot _ _ _ _ Ha1)). set (sl2 := update _ _ (update _ _ sl1)).
  set (k := we_pkt_num e mod kSessionCredits) in *.
  assert (Hwc : 0 < wheel_count_ (client_info_ sl1) <= kSessionCredits).
  { pose proof (af_wc _ _ _ _ Hf). pose proof (f_equal (fun sl => wheel_count_ (client_info_ sl)) El) as E.
    cbn in E. rewrite E. split; [|lia].
    destruct (Z.le_gt_cases (wheel_count_ (client_info_ sl)) 0) as [Hle|]; [exfalso|lia].
    apply (no_bits_no_ents _ _ _ _ (cv_core _ _ Hc) (slot_at_nf_Some _ _ _ (ac_slot _ _ _ _ Ha))
             (ac_client _ _ _ _ Ha) Hle e He). done. }
  assert (E2 : sl2 = unwheeled k sl1).
  { unfold sl2, unwheeled. destruct sl1 as [? ? ? ? ? ? [] ?]. unfold update in *; cbn in *.
    rewrite sub64_small by (unfold kSessionCredits in *; lia). done. }
  rewrite E2, (put_slot_put_sc _ _ _ _ (ac_sess _ _ _ _ Ha1)).
  set (r2 := put_sc _ _ _ r1). wp_step.
  assert (Ew : r_wheel r1 = r_wheel r) by apply S1.
  assert (Hw1 : wheel_ok (g_ents g) r2) by apply wheel_ok_put_sc, Hc1.
  assert (Hrw : r_wheel r2 = r_wheel r).
  { unfold r2. by rewrite (put_sc_sess _ _ _ _ _ (ac_sess _ _ _ _ Ha1)). }
  rewrite <- Hrw in Hq. destruct (wheel_ok_pop _ _ _ _ Hw1 Hq) as (ents' & Hp & Hw2).
  assert (Hnr : forall f, nf (r2 <| r_wheel ::= f |>) = nf r2) by (intros f; by destruct r2).
  assert (Hb2 : base_ok r2).
  { unfold r2. eapply base_ok_put_sc; [apply cinv_parts in Hc1; apply Hc1|apply Ha1|..];
      by destruct sl1 as [? ? ? ? ? ? [] ?]. }
  split_and!.
  - exists ents'. apply cinv_parts. split_and!; [|by apply base_ok_wheel|exact Hw2].
    rewrite Hnr. unfold r2. rewrite nf_put_sc, norm_unwheeled.
    pose proof (ac_sess _ _ _ _ Ha1) as Hse1. pose proof (sess_at_nf_Some _ _ _ Hse1) as Hse1'.
    rewrite (put_sc_sess _ _ _ _ _ Hse1').
    pose proof (af_nth _ _ _ _ (active_ok _ _ _ _ _ Hc1 Ha1)) as Hi.
    pose proof (af_client _ _ _ _ (active_ok _ _ _ _ _ Hc1 Ha1)) as Hcl1.
    assert (HC1 : CI (with_ents (e :: ents') g) (nf r1)).
    { apply (CI_ents_perm g (g_ents g)); [done|]. apply cv_core in Hc1. by destruct g. }
    assert (Ee : e = mkWheelEnt ((we_sslot e).1, (we_sslot e).2) (we_pkt_num e))
      by (destruct e as [[] ?]; done).
    unfold k. change (credits_ se1) with (credits_ (norm_se se1)).
    apply (CI_unwheel (with_ents (e :: ents') g) (nf r1) _ _ (norm_se se1) (norm_sl sl1) _ ents'); try done.
    cbn. by rewrite <- Ee.
  - intros a. destruct (sl_quiet _ _ S1) as [_ L1]. destruct (L1 a) as [<- <-].
    assert (L2 : same_links r1 r2).
    { unfold r2. eapply same_links_put_sc; [apply Ha1|..]; by destruct sl1 as [? ? ? ? ? ? [] ?]. }
    destruct (L2 a) as [<- <-]. by destruct a.
  - transitivity (r_stallq r2); [done|]. unfold r2. rewrite (put_sc_sess _ _ _ _ _ (ac_sess _ _ _ _ Ha1)).
    apply S1.
  - rsimp. by rewrite Hq.
Qed.

Lemma process_wheel_wp r :
  client_inv r ->
  wpe client_err process_wheel_st (fun _ r' => client_inv r' /\ same_links r r' /\
    r_stallq r' = r_stallq r /\ tw_ready_queue (r_wheel r') = []) r.
Proof.
  intros [ents Hc]. unfold process_wheel_st. wp_step. apply wp_assert_dispatch; [by eapply cinv_etid|].
  wp_step. apply wp_rdtsc. set (r1 := update r_tsc_reads S r).
  assert (Hc1 : cinv (rest (r_stallq r) ents) r1) by (eapply cinv_noise; [done|apply still_tsc|done]).
  wp_step. eapply wp_mono; [apply reap_env_wp; [apply Hc1|apply wo_tsc]|].
  cbn. intros _ r2 (Hw2 & h & w & E2). assert (Q2 : quiet r1 r2) by (rewrite E2; apply quiet_wheel).
  assert (Hc2 : cinv (rest (r_stallq r) ents) r2).
  { apply cinv_parts in Hc1 as (HC1 & Hb1 & _). apply cinv_parts. split_and!; [|by apply (base_ok_same r1); rewrite ?E2|done].
    destruct Q2 as [-> _]. done. }
  assert (L2 : same_links r r2).
  { etrans; [|apply Q2]. apply still_tsc. }
  do 2 wp_step. eapply wp_mono.
  { apply (wp_mrepeat _ (fun k r' => cinv_e (rest (r_stallq r) ents) r' /\ same_links r r' /\
      r_stallq r' = r_stallq r /\
      length (tw_ready_queue (r_wheel r')) = (length (tw_ready_queue (r_wheel r2)) - k)%nat)).
    - split_and!; [by apply cinv_e_intro|done|by rewrite E2|lia].
    - intros k r' Hk ([e Hc'] & L' & Hs' & Hl').
      destruct (tw_ready_queue (r_wheel r')) as [|en q] eqn:Hq; [cbn in Hl'; lia|].
      eapply wp_mono; [by eapply process_wheel_one_wp|].
      cbn. intros _ r3 (Hc3 & L3 & Hs3 & Hq3). split_and!; [done| |congruence|].
      + intros a. destruct (L3 a), (L' a). split; congruence.
      + rewrite Hq3. cbn in Hl'. lia. }
  cbn. intros _ r' ([e Hc'] & L' & Hs' & Hl'). split_and!; try done.
  - exists e. rewrite Hs'. exact Hc'.
  - rewrite Nat.sub_diag in Hl'. by destruct (tw_ready_queue _).
Qed.
End Queue.
