(* ===== verification/ClientList.v ===== *)
(** * The list of active RPCs: insertion and removal

    [add_to_active_rpc_list] appends a slot to the doubly linked list, and
    [delete_from_active_rpc_list] removes one; both change links only. *)
From S2P Require Import Prelude Config HugeAlloc PktHdr Msg SmTypes Timer Timely MemPool TimingWheel WheelChain WheelSpec Session RpcState RpcBase RpcTx RpcWp ClientInv ClientTx ClientKick.

(** States that differ in the list's links only, as far as the invariant goes. *)
Record near (r r' : Rpc) : Prop := {
  nr_nf : nf r' = nf r;
  nr_wheel : r_wheel r' = r_wheel r;
  nr_huge : r_huge r' = r_huge r;
  nr_stallq : r_stallq r' = r_stallq r;
  nr_batch : r_tx_batch r' = r_tx_batch r;
  nr_head : r_ctrl_msgbuf_head r' = r_ctrl_msgbuf_head r;
}.
#[export] Instance near_preorder : PreOrder near.
Proof. split; [by split|]. intros r1 r2 r3 [] []. split; congruence. Qed.

(** A node whose links can be written. *)
Definition node_ok (r : Rpc) (a : aref) : Prop :=
  forall s, a = ASlot s -> exists sl, slot_at r s = Some sl /\ is_client_ sl = true.

Lemma node_ok_near r r' a : near r r' -> node_ok r a -> node_ok r' a.
Proof.
  intros N H s E. destruct (H s E) as (sl & Hsl & Hc). apply slot_at_nf_Some in Hsl.
  rewrite <- (nr_nf _ _ N) in Hsl. destruct (nf_slot _ _ _ Hsl) as (sl' & H' & En).
  exists sl'. split; [done|]. apply (f_equal is_client_) in En. by rewrite <- Hc.
Qed.

(** One link changes. *)
Definition next_set (a : aref) (v : option aref) (r r' : Rpc) : Prop :=
  near r r' /\ (forall b, next_at r' b = if decide (a = b) then v else next_at r b) /\
  (forall b, prev_at r' b = prev_at r b).
Definition prev_set (a : aref) (v : option aref) (r r' : Rpc) : Prop :=
  near r r' /\ (forall b, prev_at r' b = if decide (a = b) then v else prev_at r b) /\
  (forall b, next_at r' b = next_at r b).

Section Links.
Context {E : err -> Prop}.

Lemma put_slot_near r s sl sl' :
  slot_at r s = Some sl -> norm_sl sl' = norm_sl sl -> near r (put_slot s sl' r).
Proof.
  intros H Hn. pose proof H as (se & Hse & _)%slot_at_Some.
  split; [by eapply nf_put_slot_noise|..]; by rewrite (put_slot_sess _ _ _ _ Hse).
Qed.

Lemma next_at_put r s sl sl' b :
  slot_at r s = Some sl ->
  next_at (put_slot s sl' r) b =
    if decide (ASlot s = b) then if is_client_ sl' then ci_next_ (client_info_ sl') else None
    else next_at r b.
Proof.
  intros H. pose proof H as (se & Hse & _)%slot_at_Some.
  destruct b as [| |s']; cbn [next_at]; [by rewrite (put_slot_sess _ _ _ _ Hse)..|].
  rewrite (slot_at_put_slot _ _ _ _ _ H). by repeat case_decide; simplify_eq.
Qed.
Lemma prev_at_put r s sl sl' b :
  slot_at r s = Some sl ->
  prev_at (put_slot s sl' r) b =
    if decide (ASlot s = b) then if is_client_ sl' then ci_prev_ (client_info_ sl') else None
    else prev_at r b.
Proof.
  intros H. pose proof H as (se & Hse & _)%slot_at_Some.
  destruct b as [| |s']; cbn [prev_at]; [by rewrite (put_slot_sess _ _ _ _ Hse)..|].
  rewrite (slot_at_put_slot _ _ _ _ _ H). by repeat case_decide; simplify_eq.
Qed.

Lemma upd_ci_next_wp s v r :
  node_ok r (ASlot s) ->
  wpe E (upd_ci s (fun ci => ci <| ci_next_ := v |>)) (fun _ => next_set (ASlot s) v r) r.
Proof.
  intros Ha. destruct (Ha s eq_refl) as (sl & H & Hc). eapply wp_upd_ci; [done..|].
  split; [eapply put_slot_near; [done|]; by destruct sl as [? ? ? ? ? ? [] ?]|].
  split; intros b; rewrite ?(next_at_put _ _ _ _ _ H), ?(prev_at_put _ _ _ _ _ H); rsimp;
    change (is_client_ (update client_info_ _ sl)) with (is_client_ sl); rewrite ?Hc;
    case_decide; try done. subst b. cbn. by rewrite H; cbn; rewrite Hc.
Qed.

Lemma upd_ci_prev_wp s v r :
  node_ok r (ASlot s) ->
  wpe E (upd_ci s (fun ci => ci <| ci_prev_ := v |>)) (fun _ => prev_set (ASlot s) v r) r.
Proof.
  intros Ha. destruct (Ha s eq_refl) as (sl & H & Hc). eapply wp_upd_ci; [done..|].
  split; [eapply put_slot_near; [done|]; by destruct sl as [? ? ? ? ? ? [] ?]|].
  split; intros b; rewrite ?(next_at_put _ _ _ _ _ H), ?(prev_at_put _ _ _ _ _ H); rsimp;
    change (is_client_ (update client_info_ _ sl)) with (is_client_ sl); rewrite ?Hc;
    case_decide; try done. subst b. cbn. by rewrite H; cbn; rewrite Hc.
Qed.

Lemma set_next_wp a v r :
  node_ok r a -> wpe E (set_next a v) (fun _ => next_set a v r) r.
Proof.
  intros Ha. destruct a as [| |s]; cbn [set_next]; [wp_step..|by apply upd_ci_next_wp].
  all: split; [by destruct r|]; split; intros [| |s']; cbn; by case_decide || done.
Qed.
Lemma set_prev_wp a v r :
  node_ok r a -> wpe E (set_prev a v) (fun _ => prev_set a v r) r.
Proof.
  intros Ha. destruct a as [| |s]; cbn [set_prev]; [wp_step..|by apply upd_ci_prev_wp].
  all: split; [by destruct r|]; split; intros [| |s']; cbn; by case_decide || done.
Qed.

(** ** Chains *)
Definition last_ref (a : aref) (l : list sref) : aref := default a (ASlot <$> last l).
Definition head_ref (l : list sref) : aref := default ATail (ASlot <$> head l).

Lemma last_ref_cons a s l : last_ref a (s :: l) = last_ref (ASlot s) l.
Proof. unfold last_ref. rewrite last_cons. by destruct (last l). Qed.
Lemma last_ref_elem a l : last_ref a l ∈ a :: (ASlot <$> l).
Proof.
  unfold last_ref. destruct (last l) as [s|] eqn:El; cbn; [|by left].
  right. apply list_elem_of_fmap. exists s. split; [done|]. by apply last_Some_elem_of.
Qed.

Lemma chain_frame r r' a l :
  chain r a l -> (forall b, b ∈ a :: (ASlot <$> l) -> next_at r' b = next_at r b) ->
  (forall b, b ∈ ATail :: (ASlot <$> l) -> prev_at r' b = prev_at r b) -> chain r' a l.
Proof.
  revert a. induction l as [|s l IH]; intros a; cbn [chain]; unfold linked.
  - intros [H1 H2] Hn Hp. rewrite Hn by (by left). rewrite Hp by (by left). done.
  - intros [[H1 H2] Hc] Hn Hp. rewrite Hn by (by left). rewrite Hp by (right; by left).
    split; [done|]. apply IH; [done| |]; intros b Hb.
    + apply Hn. by right.
    + apply Hp. apply elem_of_cons in Hb as [->|Hb]; [by left|]. right. by right.
Qed.

Lemma chain_last r a l : chain r a l -> prev_at r ATail = Some (last_ref a l).
Proof.
  revert a. induction l as [|s l IH]; intros a; cbn [chain].
  - by intros [_ ?].
  - intros [_ ?]. rewrite last_ref_cons. by apply IH.
Qed.

Lemma chain_mid r a l1 s l2 :
  chain r a (l1 ++ s :: l2) ->
  prev_at r (ASlot s) = Some (last_ref a l1) /\ next_at r (ASlot s) = Some (head_ref l2).
Proof.
  revert a. induction l1 as [|t l1 IH]; intros a; cbn [app chain].
  - intros [[_ ?] Hc]. split; [done|]. destruct l2; apply Hc.
  - intros [_ ?]. rewrite last_ref_cons. by apply IH.
Qed.

(** Appending. *)
Lemma chain_snoc r r' a l s :
  chain r a l -> NoDup (a :: (ASlot <$> l)) -> ASlot s ∉ a :: (ASlot <$> l) ->
  (forall b, b <> last_ref a l -> b <> ASlot s -> next_at r' b = next_at r b) ->
  (forall b, b <> ATail -> b <> ASlot s -> prev_at r' b = prev_at r b) ->
  next_at r' (last_ref a l) = Some (ASlot s) -> next_at r' (ASlot s) = Some ATail ->
  prev_at r' (ASlot s) = Some (last_ref a l) -> prev_at r' ATail = Some (ASlot s) ->
  chain r' a (l ++ [s]).
Proof.
  intros Hc Hnd Hs Hn Hp E1 E2 E3 E4. revert a Hc Hnd Hs Hn E1 E3.
  induction l as [|t l IH]; intros a Hc Hnd Hs Hn E1 E3; cbn [app chain]; [done|].
  rewrite last_ref_cons in *. destruct Hc as [[H1 H2] Hc]. cbn [fmap list_fmap] in *.
  apply NoDup_cons in Hnd as [Ha Hnd]. apply not_elem_of_cons in Hs as [Hsa Hs].
  assert (Hst : ASlot t <> ASlot s) by (intros E'; apply Hs; rewrite <- E'; by left).
  split; [split|].
  - rewrite Hn; [done| |congruence]. intros E'. apply Ha. rewrite E'. apply last_ref_elem.
  - by rewrite Hp.
  - apply IH; done.
Qed.

(** Removing. *)
Lemma chain_remove r r' a l1 s l2 :
  chain r a (l1 ++ s :: l2) -> NoDup (a :: (ASlot <$> (l1 ++ s :: l2))) ->
  (forall b, b <> last_ref a l1 -> next_at r' b = next_at r b) ->
  (forall b, b <> head_ref l2 -> prev_at r' b = prev_at r b) ->
  next_at r' (last_ref a l1) = Some (head_ref l2) ->
  prev_at r' (head_ref l2) = Some (last_ref a l1) -> chain r' a (l1 ++ l2).
Proof.
  intros Hc Hnd Hn Hp E1 E2. revert a Hc Hnd Hn E1 E2.
  induction l1 as [|t l1 IH]; intros a Hc Hnd Hn E1 E2; cbn [app chain fmap list_fmap] in *.
  - change (last_ref a []) with a in *. destruct Hc as [_ Hc].
    destruct l2 as [|t l2]; cbn [chain]; [done|]. destruct Hc as [_ Hc]. split; [done|].
    change (head_ref (t :: l2)) with (ASlot t) in *. cbn [fmap list_fmap] in Hnd.
    apply NoDup_cons in Hnd as [Ha Hnd]. apply NoDup_cons in Hnd as [Hs Hnd].
    apply NoDup_cons in Hnd as [Ht Hnd]. apply (chain_frame r); [done| |]; intros b Hb.
    + apply Hn. intros ->. apply Ha. by right.
    + apply Hp. intros ->. apply elem_of_cons in Hb as [?|?]; done.
  - rewrite last_ref_cons in *. destruct Hc as [[H1 H2] Hc].
    apply NoDup_cons in Hnd as [Ha Hnd]. split; [split|].
    + rewrite Hn; [done|]. intros E'. apply Ha. rewrite E'.
      rewrite fmap_app. pose proof (last_ref_elem (ASlot t) l1) as Hl.
      apply elem_of_cons in Hl as [->|Hl]; [by left|]. right. apply elem_of_app. by left.
    + rewrite Hp; [done|]. intros E'. apply NoDup_cons in Hnd as [Ht _]. apply Ht.
      rewrite fmap_app. apply elem_of_app. right. right.
      unfold head_ref in E'. destruct l2 as [|u l2]; cbn in E'; [done|]. rewrite E'. by left.
    + by apply IH.
Qed.

(** ** The operations *)
Lemma slots_NoDup a l : NoDup l -> (forall s, a <> ASlot s) -> NoDup (a :: (ASlot <$> l)).
Proof.
  intros Hl Ha. apply NoDup_cons. split.
  - intros (s & E' & _)%list_elem_of_fmap. by apply (Ha s).
  - apply NoDup_fmap; [|done]. by intros ? ? [= ->].
Qed.

(** Every node of a chain has writable links. *)
Definition nodes_ok (r : Rpc) (l : list sref) : Prop :=
  forall s, s ∈ l -> exists sl, slot_at r s = Some sl /\ is_client_ sl = true.

Lemma nodes_last r l : nodes_ok r l -> node_ok r (last_ref ARoot l).
Proof.
  intros H s E'. pose proof (last_ref_elem ARoot l) as Hl. rewrite E' in Hl.
  apply elem_of_cons in Hl as [?|(s' & [= <-] & Hs)%list_elem_of_fmap]; [done|]. by apply H.
Qed.

Lemma add_to_active_wp r s l :
  dll r l -> nodes_ok r (s :: l) -> s ∉ l ->
  wpe E (add_to_active_rpc_list s) (fun _ r' => near r r' /\ dll r' (l ++ [s])) r.
Proof.
  intros [Hnd Hch] Hok Hs. unfold add_to_active_rpc_list. do 2 wp_step.
  pose proof (chain_last _ _ _ Hch) as El. cbn in El. rewrite El. wp_step. eapply wp_deref; [done|].
  set (p := last_ref ARoot l) in *.
  assert (Hp : node_ok r p) by (apply nodes_last; intros ? ?; apply Hok; by right).
  assert (Hns : node_ok r (ASlot s)) by (intros ? [= <-]; apply Hok; by left).
  assert (Hps : p <> ASlot s).
  { intros E'. pose proof (last_ref_elem ARoot l) as Hl. fold p in Hl. rewrite E' in Hl.
    apply elem_of_cons in Hl as [?|(s' & [= <-] & ?)%list_elem_of_fmap]; done. }
  wp_step. eapply wp_mono; [by apply set_next_wp|]. cbn. intros _ r1 (N1 & H1 & H1').
  wp_step. eapply wp_mono; [eapply upd_ci_prev_wp; by eapply node_ok_near|].
  cbn. intros _ r2 (N2 & H2 & H2'). assert (N02 : near r r2) by (by etrans).
  wp_step. eapply wp_mono; [eapply upd_ci_next_wp; by eapply node_ok_near|].
  cbn. intros _ r3 (N3 & H3 & H3'). wp_step. set (r4 := update r_tail_prev _ r3).
  assert (Hn4 : forall b, next_at r4 b = next_at r3 b) by (by intros []).
  assert (Hp4 : forall b, b <> ATail -> prev_at r4 b = prev_at r3 b) by (by intros []).
  split; [etrans; [exact N02|]; etrans; [exact N3|by destruct r3]|].
  split; [apply NoDup_app; split; [done|]; split; [|apply NoDup_singleton];
    intros x Hx ->%list_elem_of_singleton; done|].
  apply (chain_snoc r); [done|by apply slots_NoDup|..].
  - intros [?|(s' & [= <-] & ?)%list_elem_of_fmap]%elem_of_cons; done.
  - intros b Hb Hb'. fold p in Hb. rewrite Hn4, H3, decide_False by done.
    by rewrite H2', H1, decide_False by done.
  - intros b Hb Hb'. rewrite Hp4 by done. by rewrite H3', H2, decide_False, H1' by done.
  - fold p. rewrite Hn4, H3, decide_False, H2', H1 by done. by rewrite decide_True.
  - by rewrite Hn4, H3, decide_True.
  - fold p. by rewrite Hp4, H3', H2, decide_True by done.
  - done.
Qed.

Lemma get_ci_links s r (Q : ClientInfo -> Rpc -> Prop) :
  node_ok r (ASlot s) ->
  (forall ci, ci_next_ ci = next_at r (ASlot s) -> ci_prev_ ci = prev_at r (ASlot s) -> Q ci r) ->
  wpe E (get_ci s) Q r.
Proof.
  intros Hn HQ. destruct (Hn s eq_refl) as (sl & H & Hc). eapply wp_get_ci; [done..|].
  apply HQ; cbn; by rewrite H; cbn; rewrite Hc.
Qed.

Lemma delete_from_active_wp r s l1 l2 :
  dll r (l1 ++ s :: l2) -> nodes_ok r (l1 ++ s :: l2) ->
  wpe E (delete_from_active_rpc_list s) (fun _ r' => near r r' /\ dll r' (l1 ++ l2)) r.
Proof.
  intros [Hnd Hch] Hok. destruct (chain_mid _ _ _ _ _ Hch) as [Ep En].
  assert (Hin : s ∈ l1 ++ s :: l2) by (apply elem_of_app; right; by left).
  assert (Hns : node_ok r (ASlot s)) by (intros ? [= <-]; by apply Hok).
  assert (Hp : node_ok r (last_ref ARoot l1)).
  { apply nodes_last. intros ? ?. apply Hok. apply elem_of_app. by left. }
  assert (Hn : node_ok r (head_ref l2)).
  { intros t E'. apply Hok. apply elem_of_app. right. right. unfold head_ref in E'.
    destruct l2 as [|u l2]; [done|]. injection E' as ->. by left. }
  assert (Hps : last_ref ARoot l1 <> ASlot s).
  { intros E'. pose proof (last_ref_elem ARoot l1) as Hl. rewrite E' in Hl.
    apply elem_of_cons in Hl as [?|(s' & [= <-] & Hl)%list_elem_of_fmap]; [done|].
    apply NoDup_app in Hnd as (_ & Hd & _). apply (Hd s Hl). by left. }
  unfold delete_from_active_rpc_list. wp_step. apply get_ci_links; [done|]. intros ci Enx Eci.
  wp_step. eapply wp_deref; [by rewrite Eci, Ep|]. wp_step.
  eapply wp_mono; [by apply set_next_wp|]. cbn. intros _ r1 (N1 & H1 & H1').
  wp_step. apply get_ci_links; [by eapply node_ok_near|]. intros ci1 En1 Ep1.
  rewrite H1, decide_False in En1 by done. wp_step. eapply wp_deref; [by rewrite En1, En|].
  eapply wp_mono; [apply set_prev_wp; by eapply node_ok_near|]. cbn. intros _ r2 (N2 & H2 & H2').
  split; [by etrans|].
  split; [apply NoDup_app in Hnd as (? & ? & [? ?]%NoDup_cons); apply NoDup_app;
    split_and!; [done| |done]; intros x Hx Hx'; eapply (H0 x); [done|by right]|].
  apply (chain_remove r r2 ARoot l1 s l2); [done|by apply slots_NoDup|..].
  - intros b Hb. by rewrite H2', H1, decide_False by done.
  - intros b Hb. by rewrite H2, decide_False, H1' by done.
  - by rewrite H2', H1, decide_True, Enx by done.
  - by rewrite H2, decide_True, Ep1, H1' by done.
Qed.
End Links.
