(* ===== verification/ClientLoss.v ===== *)
(** * The client's invariant: packet loss

    [pkt_loss_retransmit_st] rolls a request back to what has been received and
    sends again (go-back-N); [pkt_loss_scan_st] visits every active request. *)
From S2P Require Import Prelude Config HugeAlloc PktHdr Msg SmTypes Timer Timely MemPool TimingWheel WheelChain WheelSpec Session RpcState RpcBase RpcTx RpcApi RpcRx RpcSm RpcLoop RpcWp ClientInv ClientLemmas ClientSteps ClientTx ClientKick ClientSend ClientQueue ClientList.

Section Loss.
Context {T : TTr} {TOk : TTrOk T} {Os : ShmOs} {C : RpcConf} {W : World} {WOk : WorldOk W}.

(** Credits first, then the slot. *)
Lemma put_sc_stack2 r s sl se f :
  sess_at r s.1 = Some se ->
  put_slot s sl (put_sess s.1 (se <| credits_ ::= f |>) r) = put_sc s sl (f (credits_ se)) r.
Proof.
  intros Hse. rewrite (put_slot_sess _ _ (se <| credits_ ::= f |>)).
  2:{ by rewrite (sess_at_put _ _ _ _ _ Hse), decide_True. }
  rewrite (put_sc_sess _ _ _ _ _ Hse). unfold put_sess, upd_sc, update, u_session_vec.
  destruct r, se; cbn in *. f_equal. apply zinsert_zinsert.
Qed.

(** An active request is not complete. *)
Lemma active_incomplete g r s se sl :
  cinv g r -> active r s se sl -> g_x g = None ->
  num_rx_ (client_info_ sl) < tot (r_user_mb r) sl.
Proof.
  intros Hc [Hse H Hcl Ht] Hx. pose proof (cv_core _ _ Hc) as HC.
  destruct (CI_slot _ _ _ _ HC (slot_at_nf_Some _ _ _ H) Hcl) as (? & _ & _ & _ & _ & Hok).
  destruct (so_tot _ _ _ _ Hok Ht) as [_ [Hlt|E]]; [exact Hlt|congruence].
Qed.

(** A stalled slot has nothing in flight. *)
Lemma flying_not_stalled g r s se sl :
  cinv g r -> active r s se sl -> 0 < win sl -> s ∉ g_sq g.
Proof.
  intros Hc Ha Hw Hin. destruct (stalled_active _ _ _ Hc Hin) as (se' & sl' & Ha' & Hz).
  pose proof (af_rx _ _ _ _ (active_ok _ _ _ _ _ Hc Ha)) as Hrx.
  pose proof (ac_slot _ _ _ _ Ha) as E1. pose proof (ac_slot _ _ _ _ Ha') as E2.
  rewrite E1 in E2. injection E2 as <-. unfold win in Hw. lia.
Qed.

Lemma active_put_sess r s se se' sl :
  active r s se sl -> sslot_arr_ se' = sslot_arr_ se -> active (put_sess s.1 se' r) s se' sl.
Proof.
  intros [Hse H Hc Ht] E. split; [by rewrite (sess_at_put _ _ _ _ _ Hse), decide_True| |done..].
  rewrite (slot_at_put_sess _ _ _ _ _ Hse), decide_True by done.
  apply slot_at_Some in H as (se0 & E1 & E2). rewrite Hse in E1. injection E1 as ->. by rewrite E.
Qed.

Definition rolled_at (tsc : Z) (sl : SSlot) : SSlot :=
  sl <| client_info_ ::= fun ci => ci <| num_tx_ := num_rx_ ci |> <| progress_tsc_ := tsc |> |>.
Lemma norm_rolled tsc sl : norm_sl (rolled_at tsc sl) = rolled (norm_sl sl).
Proof. by destruct sl as [? ? ? ? ? ? [] ?]. Qed.

(** The state after the roll-back, before the kick. *)
Lemma cinv_rollback g r s se sl tsc :
  cinv g r -> active r s se sl -> g_x g = None -> 0 < win sl ->
  wheel_count_ (client_info_ sl) <= 0 ->
  let r' := put_sc s (rolled_at tsc sl) (credits_ se + win sl) r in
  cinv (with_x (Some s) g) r' /\
  active r' s (upd_sc s.2 (rolled_at tsc sl) (credits_ se + win sl) se) (rolled_at tsc sl) /\
  same_links r r'.
Proof.
  intros Hc Ha Hx Hw Hwc r'. pose proof (active_ok _ _ _ _ _ Hc Ha) as Hf.
  pose proof (af_client _ _ _ _ Hf) as Hcl. pose proof (af_nth _ _ _ _ Hf) as Hi.
  destruct Ha as [Hse H Hc1 Ht]. split; [|split].
  - apply cinv_parts in Hc as (HC & Hb & Hwh). apply cinv_parts.
    split_and!; [|by eapply base_ok_put_sc|by apply wheel_ok_put_sc].
    unfold r'. rewrite nf_put_sc, norm_rolled, (put_sc_sess _ _ _ _ _ (sess_at_nf_Some _ _ _ Hse)).
    change (credits_ se) with (credits_ (norm_se se)). change (win sl) with (win (norm_sl sl)).
    destruct s as [sid i]. apply CI_rollback; try done. by apply sess_at_nf_Some.
  - split; unfold r'; try done.
    + by rewrite (sess_at_put_sc _ _ _ _ _ _ Hse), decide_True.
    + by rewrite (slot_at_put_sc _ _ _ _ _ _ H), decide_True.
  - unfold r'. by eapply same_links_put_sc.
Qed.

(** The packets a retransmission sends: from the first packet that was not
    received, within the credits that have come back. *)
Definition resend_count (ub : gmap Z MsgBuffer) (se : Session) (sl : SSlot) : Z :=
  let n := npk ub (tx_msgbuf_ sl) in
  let rx := num_rx_ (client_info_ sl) in
  Z.min (credits_ se + win sl) ((if rx <? n then n else tot ub sl) - rx).

Definition resends (ub : gmap Z MsgBuffer) (s : sref) (sl : SSlot) : Z -> Rpc -> Rpc -> Prop :=
  if num_rx_ (client_info_ sl) <? npk ub (tx_msgbuf_ sl) then sends_req s (tx_msgbuf_ sl)
  else sends_rfr s (resp_msgbuf_ (client_info_ sl)).

(** A retransmission of a request with packets in flight: with none of them in
    the wheel, the credits come back, the request goes back to the first packet
    that was not received, and the packets from there on are put out again. *)
Definition retransmitted (r : Rpc) (s : sref) (se : Session) (sl : SSlot) (r' : Rpc) : Prop :=
  exists se' sl', active r' s se' sl' /\ num_rx_ (client_info_ sl') = num_rx_ (client_info_ sl) /\
    0 < win sl' /\
    if 0 <? wheel_count_ (client_info_ sl) then sl' = sl /\ se' = se /\ same_out r r'
    else let k := resend_count (r_user_mb r) se sl in
      win sl' = k /\ credits_ se' = credits_ se + win sl - k /\
      sends_all (resends (r_user_mb r) s sl) (num_rx_ (client_info_ sl)) (Z.to_nat k) r r'.

Lemma same_out_put_sc r s se sl sl' c :
  sess_at r s.1 = Some se -> slot_at r s = Some sl -> pre_resp_msgbuf_ sl' = pre_resp_msgbuf_ sl ->
  dyn_resp_msgbuf_ sl' = dyn_resp_msgbuf_ sl -> same_out r (put_sc s sl' c r).
Proof.
  intros Hse H Ep Ed. rewrite <- (put_sc_stack2 r s sl' se (fun _ => c) Hse).
  set (se' := se <| credits_ ::= _ |>).
  eapply same_out_trans; [apply (same_out_put_sess r s.1 se se'); [done|by destruct se..]|].
  eapply same_out_put_slot; [|exact Ep|exact Ed].
  rewrite (slot_at_put_sess _ _ _ _ _ Hse), decide_True by done.
  apply slot_at_Some in H as (se0 & E1 & E2). rewrite Hse in E1. injection E1 as ->. by destruct se0.
Qed.

Lemma resend_wp ents r s se sl :
  cinv (rest (r_stallq r) ents) r -> active r s se sl -> 0 < win sl ->
  wheel_count_ (client_info_ sl) <= 0 ->
  wpe client_err (
    modify (fun r => r <| r_num_re_tx ::= fun n => add64 n 1 |>);;
    upd_session s.1 (fun se => se <| num_re_tx_ ::= fun n => add64 n 1 |>);;
    upd_session s.1 (fun se => se <| credits_ ::= fun c => add64 c (win sl) |>);;
    tsc ← gets r_ev_loop_tsc;
    upd_ci s (fun ci => ci <| num_tx_ := num_rx_ ci |> <| progress_tsc_ := tsc |>);;
    kick_st s)
    (fun _ r' => client_inv r' /\ same_links r r' /\ exists se' sl', active r' s se' sl' /\
       num_rx_ (client_info_ sl') = num_rx_ (client_info_ sl) /\ 0 < win sl' /\
       win sl' = resend_count (r_user_mb r) se sl /\ credits_ se' = credits_ se + win sl - win sl' /\
       sends_all (resends (r_user_mb r) s sl) (num_rx_ (client_info_ sl))
         (Z.to_nat (resend_count (r_user_mb r) se sl)) r r') r.
Proof.
  intros Hc Ha Hw Ewc. pose proof (active_ok _ _ _ _ _ Hc Ha) as Hf.
  pose proof (flying_not_stalled _ _ _ _ _ Hc Ha Hw) as Hsq. cbn in Hsq.
  pose proof (af_win _ _ _ _ Hf) as Hwin. pose proof (af_credits _ _ _ _ Hf) as Hcr.
  do 2 wp_step. set (r1 := update r_num_re_tx _ r).
  assert (Ha1 : active r1 s se sl) by (destruct Ha; by split).
  wp_step. eapply wp_upd_session; [apply Ha1|]. set (se2 := update num_re_tx_ _ se). set (r2 := put_sess _ _ r1).
  assert (S2 : still r r2).
  { etrans; [apply still_re_tx|]. apply still_put_sess with se; [apply Ha1|by destruct se..]. }
  assert (Hc2 : cinv (rest (r_stallq r) ents) r2) by (by eapply cinv_noise).
  assert (Ha2 : active r2 s se2 sl) by (apply active_put_sess with se; [done|by destruct se]).
  assert (Hcr2 : credits_ se2 = credits_ se) by (by destruct se).
  wp_step. eapply wp_upd_session; [apply Ha2|]. do 2 wp_step. wp_step.
  eapply wp_upd_ci; [eapply (active_put_sess r2 s se2); [exact Ha2|by destruct se2]|apply Ha|].
  rewrite (put_sc_stack2 r2 s _ se2 (fun c => add64 c (win sl)) (ac_sess _ _ _ _ Ha2)).
  rewrite add64_small by (unfold kSessionCredits in *; lia).
  match goal with |- context [put_sc s ?x _ r2] => change x with (rolled_at (r_ev_loop_tsc r2) sl) end.
  destruct (cinv_rollback _ r2 s se2 sl (r_ev_loop_tsc r2) Hc2 Ha2 eq_refl Hw Ewc) as (Hc3 & Ha3 & L3).
  assert (O3 : same_out r (put_sc s (rolled_at (r_ev_loop_tsc r2) sl) (credits_ se2 + win sl) r2)).
  { apply (same_out_trans _ r1); [by destruct r|].
    eapply same_out_trans; [apply (same_out_put_sess r1 s.1 se se2); [apply Ha1|by destruct se..]|].
    eapply (same_out_put_sc r2); [apply Ha2|apply Ha2|by destruct sl..]. }
  set (r3 := put_sc _ _ _ r2) in *. set (sl3 := rolled_at _ sl) in *.
  set (se3 := upd_sc s.2 sl3 _ se2) in *.
  pose proof (active_incomplete _ _ _ _ _ Hc Ha eq_refl) as Hinc.
  assert (Eub : r_user_mb r3 = r_user_mb r).
  { unfold r3. by rewrite (put_sc_sess _ _ _ _ _ (ac_sess _ _ _ _ Ha2)). }
  assert (Esq : r_stallq r3 = r_stallq r).
  { unfold r3. by rewrite (put_sc_sess _ _ _ _ _ (ac_sess _ _ _ _ Ha2)). }
  assert (Ek : kick_count (r_user_mb r3) se3 sl3 = resend_count (r_user_mb r) se sl).
  { rewrite Eub. unfold resend_count. rewrite <- Hcr2. reflexivity. }
  eapply wp_mono; [eapply (kick_st_out_wp _ r3 s se3 sl3 Hc3 Ha3); [done| |]|].
  - change (0 < credits_ se2 + win sl). lia.
  - rewrite Eub. change (tot (r_user_mb r) sl3) with (tot (r_user_mb r) sl).
    change (tx_msgbuf_ sl3) with (tx_msgbuf_ sl).
    change (num_tx_ (client_info_ sl3)) with (num_rx_ (client_info_ sl)).
    change (num_rx_ (client_info_ sl3)) with (num_rx_ (client_info_ sl)). lia.
  - rewrite Ek. cbn beta. intros _ r' (Hc4 & S4 & Hk & O4).
    pose proof (sent_unexempt _ _ _ _ _ _ _ Hc4 eq_refl Ha3 S4 Hk (Z.le_refl (num_rx_ (client_info_ sl)))) as [e Hc5].
    destruct (sent_after _ _ _ _ _ _ Ha3 S4) as (se4 & sl4 & Ha4 & [A0 _ A1 A2 _ _]). split_and!.
    + exists e. rewrite (sn_stallq _ _ _ _ S4), Esq. exact Hc5.
    + etrans; [apply S2|]. etrans; [exact L3|apply S4].
    + exists se4, sl4. change (num_rx_ (client_info_ sl3)) with (num_rx_ (client_info_ sl)) in A2.
      change (num_tx_ (client_info_ sl3)) with (num_rx_ (client_info_ sl)) in A1.
      change (credits_ se3) with (credits_ se2 + win sl) in A0. unfold win at 1 2 4. 
      split_and!; [done|done|lia|lia|lia|]. rewrite Eub in O4. eapply sends_all_from; [exact O3|exact O4].
Qed.

Lemma retransmit_wp r s se sl :
  client_inv r -> active r s se sl ->
  wpe client_err (pkt_loss_retransmit_st s) (fun _ r' =>
    client_inv r' /\ same_links r r' /\
    (0 < win sl -> retransmitted r s se sl r')) r.
Proof.
  intros [ents Hc] Ha. pose proof (active_ok _ _ _ _ _ Hc Ha) as Hf.
  pose proof (af_rx _ _ _ _ Hf) as Hrx. pose proof (af_tx _ _ _ _ Hf) as Htx.
  pose proof (af_win _ _ _ _ Hf) as Hwin. pose proof (af_credits _ _ _ _ Hf) as Hcr.
  unfold pkt_loss_retransmit_st. wp_step. apply wp_assert_dispatch; [by eapply cinv_etid|].
  wp_step. eapply wp_get_sslot; [apply Ha|]. wp_step.
  wp_step; [apply bool_decide_eq_true, Ha|]. wp_step. eapply wp_get_ci; [apply Ha..|].
  wp_step. eapply wp_get_session; [apply Ha|]. cbv zeta. rewrite sub64_small by lia.
  change (num_tx_ (client_info_ sl) - num_rx_ (client_info_ sl)) with (win sl).
  assert (Hw0 : 0 <= win sl) by (unfold win; lia).
  wp_step. wp_step; [rewrite add64_small by (unfold kSessionCredits in *; lia); lia|].
  destruct (win sl =? 0) eqn:Ew.
  { apply Z.eqb_eq in Ew. wp_step. split_and!; [by exists ents|done|lia]. }
  apply Z.eqb_neq in Ew. assert (Hw : 0 < win sl) by lia.
  pose proof (flying_not_stalled _ _ _ _ _ Hc Ha Hw) as Hsq. cbn in Hsq.
  do 2 wp_step. wp_step. wp_step; [by apply bool_decide_eq_true|]. unfold retransmitted.
  destruct (0 <? wheel_count_ (client_info_ sl)) eqn:Ewc.
  - wp_step. split_and!; [|by apply still_siw|intros _].
    + exists ents. eapply cinv_noise; [exact Hc|apply still_siw|done].
    + exists se, sl. split_and!; try done. destruct Ha; by split.
  - apply Z.ltb_ge in Ewc. eapply wp_mono; [by eapply resend_wp|].
    cbn beta. intros _ r' (H1 & H2 & se' & sl' & H3 & H4 & H5 & H6 & H7 & H8). split_and!; [done|done|].
    intros _. exists se', sl'. split_and!; [done..|lia|done].
Qed.

(** ** The scan *)
Lemma drain_inv_wp r :
  client_inv r ->
  wpe client_err drain_tx_batch_and_dma_queue (fun _ r' => client_inv r' /\ still r r' /\
    r_tx_batch r' = []) r.
Proof.
  intros [ents Hc]. eapply wp_mono; [apply drain_wp; [by eapply cinv_etid|apply Hc]|].
  cbn. intros _ r' [S E]. split_and!; [|done|done]. exists ents. rewrite (sl_stallq _ _ S).
  eapply cinv_still; [done|done|]. split; rewrite E; [apply ttr_postlist_pos|constructor].
Qed.

Lemma scan_one_wp r s se sl :
  client_inv r -> active r s se sl ->
  wpe client_err (scan_one s) (fun _ r' => client_inv r' /\ same_links r r') r.
Proof.
  intros Hi Ha. unfold scan_one. wp_step. eapply wp_get_ci; [apply Ha..|].
  wp_step; [by wp_step|]. do 2 wp_step. wp_step; [|done].
  wp_step. eapply wp_mono; [by eapply retransmit_wp|]. cbn. intros _ r1 (H1 & L1 & _).
  eapply wp_mono; [by apply drain_inv_wp|]. cbn. intros _ r2 (H2 & S2 & _).
  split; [done|]. etrans; [done|apply S2].
Qed.

(** The links determine the list. *)
Lemma chain_unique r a l l' : chain r a l -> chain r a l' -> l = l'.
Proof.
  revert a l'. induction l as [|s l IH]; intros a [|s' l']; cbn [chain]; unfold linked; try done.
  - intros [H1 _] [[H2 _] _]. congruence.
  - intros [[H1 _] _] [H2 _]. congruence.
  - intros [[H1 _] Hc] [[H2 _] Hc']. rewrite H1 in H2. injection H2 as <-. f_equal. by eapply IH.
Qed.

Lemma list_active r l : client_inv r -> dll r l ->
  forall s, s ∈ l -> exists se sl, active r s se sl.
Proof.
  intros [ents Hc] [_ Hl] s Hs. destruct (cv_list _ _ Hc) as (l' & [_ Hl'] & Ha).
  rewrite (chain_unique _ _ _ _ Hl Hl') in Hs.
  apply Ha in Hs as (sl' & H & Hcl & Ht). destruct (nf_active _ _ _ H Hcl Ht) as (se & sl & ? & _).
  eauto.
Qed.

Lemma scan_loop_wp n : forall l1 l2 r,
  client_inv r -> dll r (l1 ++ l2) -> (length l2 <= n)%nat ->
  wpe client_err (scan_loop n (Some (head_ref l2))) (fun _ r' => client_inv r' /\ same_links r r') r.
Proof.
  induction n as [|n IH]; intros l1 [|s l2] r Hi Hl Hn; cbn in Hn; try lia.
  1, 2: cbn; by wp_step.
  change (head_ref (s :: l2)) with (ASlot s). cbn [scan_loop].
  assert (Hs : s ∈ l1 ++ s :: l2) by (apply elem_of_app; right; by left).
  destruct (list_active _ _ Hi Hl s Hs) as (se & sl & Ha).
  wp_step. eapply wp_mono; [by eapply scan_one_wp|]. cbn. intros _ r1 (Hi1 & L1).
  pose proof (dll_links _ _ _ L1 Hl) as Hl1.
  destruct (list_active _ _ Hi1 Hl1 s Hs) as (se1 & sl1 & Ha1).
  wp_step. eapply wp_get_ci; [apply Ha1..|].
  destruct Hl1 as [Hnd1 Hch1]. destruct (chain_mid _ _ _ _ _ Hch1) as [_ En].
  cbn in En. rewrite (ac_slot _ _ _ _ Ha1) in En. cbn in En. rewrite (ac_client _ _ _ _ Ha1) in En.
  rewrite En. eapply wp_mono; [apply (IH (l1 ++ [s]) l2 r1 Hi1)|].
  - rewrite <- app_assoc. by split.
  - lia.
  - cbn. intros _ r' (H1 & L2). split; [done|by etrans].
Qed.

(** The list is no longer than the number of slots. *)
Lemma dll_bound r l : client_inv r -> dll r l -> (length l <= num_slots r)%nat.
Proof.
  intros Hi Hl. unfold num_slots.
  set (all := list_prod (Z.of_nat <$> seq 0 (length (r_session_vec r)))
                        (Z.of_nat <$> seq 0 (Z.to_nat kSessionReqWindow))).
  assert (Hsub : l ⊆ all).
  { intros s Hs. destruct (list_active _ _ Hi Hl s Hs) as (se & sl & Ha). destruct Hi as [ents Hc].
    pose proof (ac_sess _ _ _ _ Ha) as H1. apply sess_at_lookup, zlookup_lt in H1.
    pose proof (active_ok _ _ _ _ _ Hc Ha) as Hf. pose proof (af_nth _ _ _ _ Hf) as Hi.
    pose proof (CI_sess _ _ (cv_core _ _ Hc) s.1 (norm_se se) (sess_at_nf_Some _ _ _ (ac_sess _ _ _ _ Ha))
      (af_client _ _ _ _ Hf)) as Hs1.
    apply zlookup_lt in Hi. rewrite (co_len _ _ _ _ Hs1) in Hi. unfold zlength in H1.
    apply list_elem_of_In. destruct s as [a b]; cbn [fst snd] in *. apply in_prod; apply list_elem_of_In.
    - apply list_elem_of_fmap. exists (Z.to_nat a). rewrite elem_of_seq. lia.
    - apply list_elem_of_fmap. exists (Z.to_nat b). rewrite elem_of_seq. lia. }
  destruct Hl as [Hnd _]. apply (NoDup_submseteq l all Hnd) in Hsub.
  apply submseteq_length in Hsub. etrans; [exact Hsub|]. unfold all. unfold sref.
  rewrite length_prod, !length_fmap, !length_seq. done.
Qed.

Lemma client_inv_still r r' :
  client_inv r -> still r r' -> r_tx_batch r' = r_tx_batch r -> client_inv r'.
Proof.
  intros [ents Hc] S E. exists ents. rewrite (sl_stallq _ _ S). by eapply cinv_noise.
Qed.

Lemma scan_sm_one_wp sid r :
  client_inv r -> wpe client_err (scan_sm_one sid) (fun _ => client_inv) r.
Proof.
  intros Hi. unfold scan_sm_one. do 2 wp_step. destruct (sess_at r sid) as [se|] eqn:Hse; [|by wp_step].
  assert (Hgo : wpe client_err (now ← rdtsc;
            ms_elapsed ← deref (to_size (to_msec (sub64 now (sm_req_ts_ se)) c_freq_ghz)) "double to size_t";
            when (kSMTimeoutMs <? ms_elapsed) (send_sm_req_st sid)) (fun _ => client_inv) r);
    [|by destruct (state_ se); try exact Hgo; wp_step].
  wp_step. apply wp_rdtsc. set (r1 := update r_tsc_reads S r).
  assert (Hi1 : client_inv r1) by (eapply client_inv_still; [done|apply still_tsc|done]).
  wp_step. destruct (to_size _) as [ms|]; [|apply wp_fail; unfold client_err; auto].
  eapply wp_deref; [done|]. wp_step; [|done]. unfold send_sm_req_st. wp_step.
  apply wp_assert_dispatch; [destruct Hi1; by eapply cinv_etid|].
  wp_step. eapply wp_get_session; [exact Hse|]. do 2 wp_step. wp_step. apply wp_rdtsc.
  wp_step. eapply wp_upd_session; [exact Hse|]. set (r2 := put_sess _ _ _).
  assert (S2 : still r1 r2).
  { etrans; [|apply still_put_sess with se; [exact Hse|by destruct se..]].
    etrans; [apply still_pending|apply still_tsc]. }
  wp_step. eapply wp_get_session; [unfold r2; by rewrite (sess_at_put _ _ se), decide_True|].
  unfold sm_pkt_udp_tx_st, emit. wp_step. eapply client_inv_still; [exact Hi1| |done].
  etrans; [exact S2|apply still_trace].
Qed.

Lemma pkt_loss_scan_wp r :
  client_inv r -> wpe client_err pkt_loss_scan_st (fun _ => client_inv) r.
Proof.
  intros Hi. unfold pkt_loss_scan_st. wp_step.
  apply wp_assert_dispatch; [destruct Hi; by eapply cinv_etid|]. do 2 wp_step. do 2 wp_step.
  pose proof Hi as [ents Hc]. destruct (cv_list _ _ Hc) as (l & Hl & _).
  assert (Eh : r_root_next r = Some (head_ref l)).
  { destruct Hl as [_ Hl]. destruct l; apply Hl. }
  rewrite Eh. wp_step. eapply wp_mono; [apply (scan_loop_wp _ [] l r Hi Hl); by apply dll_bound|].
  cbn. intros _ r1 (Hi1 & _). do 2 wp_step. eapply wp_mono.
  { apply (wp_miter scan_sm_one (fun _ => client_inv)); [done|]. intros d x todo r' _ Hi'.
    by apply scan_sm_one_wp. }
  done.
Qed.
End Loss.
