(* ===== verification/ClientStart.v ===== *)
(** * The client's invariant: [enqueue_request]

    A request takes a free slot, joins the list of active RPCs, and is kicked or
    stalled; without a free slot it joins the session's backlog. *)
From S2P Require Import Prelude Config HugeAlloc PktHdr Msg SmTypes Timer Timely MemPool TimingWheel WheelChain WheelSpec Session RpcState RpcBase RpcTx RpcApi RpcWp ClientInv ClientLemmas ClientSteps ClientReq ClientFin ClientTx ClientKick ClientSend ClientQueue ClientList ClientLoss.

Section Start.
Context {T : TTr} {TOk : TTrOk T} {Os : ShmOs} {C : RpcConf} {W : World} {WOk : WorldOk W}.

(** ** Objects only appear *)
Record grows (R R' : Rpc) : Prop := {
  gr_sess sid : is_Some (sess_at R sid) -> is_Some (sess_at R' sid);
  gr_slot s sl : slot_at R s = Some sl ->
    exists sl', slot_at R' s = Some sl' /\ is_client_ sl' = is_client_ sl;
  gr_mb p : is_Some (mb_at R p) -> is_Some (mb_at R' p);
}.

Lemma item_ok_grows R R' it : grows R R' -> item_ok R it -> item_ok R' it.
Proof.
  intros [G1 G2 G3] ((se & H1) & (p & mb & H2 & H3) & H4). split_and!.
  - apply G1. eauto.
  - destruct (G3 p) as [mb' ?]; eauto.
  - intros s i E. destruct (H4 s i E) as (sl & Hsl & Hc). destruct (G2 s sl Hsl) as (sl' & ? & ?).
    exists sl'. split; [done|congruence].
Qed.

Lemma grows_put_sess R sid se se' :
  sess_at R sid = Some se ->
  (forall i sl, zlookup (sslot_arr_ se) i = Some sl -> exists sl',
     zlookup (sslot_arr_ se') i = Some sl' /\ is_client_ sl' = is_client_ sl) ->
  grows R (put_sess sid se' R).
Proof.
  intros Hse Hsl.
  assert (G2 : forall s sl, slot_at R s = Some sl -> exists sl',
    slot_at (put_sess sid se' R) s = Some sl' /\ is_client_ sl' = is_client_ sl).
  { intros s sl H. rewrite (slot_at_put_sess _ _ _ _ _ Hse). case_decide as D; [|eauto].
    apply slot_at_Some in H as (se1 & E1 & E2). rewrite <- D, Hse in E1. injection E1 as <-.
    by apply Hsl. }
  split; [|done|].
  - intros sid' H. rewrite (sess_at_put _ _ _ _ _ Hse). by case_decide.
  - intros [n|s|s|i]; cbn; try done; intros [mb H].
    all: destruct (slot_at R s) as [sl|] eqn:E; [|done]; destruct (G2 s sl E) as (sl' & -> & _); by eexists.
Qed.

(** ** One session changes, and the list *)
Lemma cinv_change g g' r r' sid se se' l :
  cinv g r -> sess_at (nf r) sid = Some se -> nf r' = put_sess sid se' (nf r) ->
  CI g' (put_sess sid se' (nf r)) -> g_ents g' = g_ents g ->
  (forall i sl, zlookup (sslot_arr_ se) i = Some sl -> exists sl',
     zlookup (sslot_arr_ se') i = Some sl' /\ is_client_ sl' = is_client_ sl) ->
  dll r' l -> (forall s, s ∈ l <-> act (put_sess sid se' (nf r)) s) ->
  r_wheel r' = r_wheel r -> r_huge r' = r_huge r -> r_tx_batch r' = r_tx_batch r ->
  r_ctrl_msgbuf_head r' = r_ctrl_msgbuf_head r -> cinv g' r'.
Proof.
  intros [HC _ [Ht1 Ht2] Hh Hw] Hse En HC' Ee Hsl Hl Ha E1 E2 E3 E4. split.
  - by rewrite En.
  - exists l. by rewrite En.
  - split; rewrite E3; [done|]. eapply Forall_impl; [exact Ht2|]. intros it. rewrite En.
    apply item_ok_grows. by apply grows_put_sess with se.
  - by rewrite E4.
  - destruct Hw as (live & a & cs & Hw). exists live, a, cs. by rewrite E1, E2, Ee.
Qed.

(** ** Headers are noise *)
Lemma copy_hdrs_wp {E} mb f r :
  wpe E (copy_hdrs mb f) (fun _ r' => still r r' /\ r_tx_batch r' = r_tx_batch r) r.
Proof.
  unfold copy_hdrs. eapply wp_mono.
  { apply (wp_miter _ (fun _ r' => still r r' /\ r_tx_batch r' = r_tx_batch r)); [done|].
    intros d x todo r' _ [S' Eb]. wp_step. apply wp_hdr_at. unfold mem_mod. wp_step.
    split; [|done]. etrans; [exact S'|apply still_mem]. }
  done.
Qed.

(** ** The slot of a new request *)
Definition new_sl (a : enq_req_args_t) (tsc : Z) (sl : SSlot) : SSlot :=
  (sl <| tx_msgbuf_ := Some (ea_req_msgbuf a) |>
      <| cur_req_num_ ::= fun n => add64 n kSessionReqWindow |>)
    <| client_info_ ::= start_ci a tsc |>.

Lemma starts_new a tsc sl sl4 :
  etid_ok (ea_cont_etid a) ->
  norm_sl sl4 = norm_sl (new_sl a tsc sl) ->
  starts (ea_req_msgbuf a) (ea_resp_msgbuf a) (norm_sl sl)
    (norm_sl (sl4 <| client_info_ ::= reset_ci a |>)).
Proof.
  intros He E.
  cut (starts (ea_req_msgbuf a) (ea_resp_msgbuf a) (norm_sl sl)
         ((norm_sl sl4) <| client_info_ ::= reset_ci a |>)).
  { intros []. destruct sl4 as [? ? ? ? ? ? [] ?]. by split. }
  rewrite E. by destruct sl as [? ? ? ? ? ? [] ?].
Qed.

(** The slot goes on the stall queue. *)
Lemma CI_stall g R s sl :
  CI g R -> slot_at R s = Some sl -> is_client_ sl = true -> tx_msgbuf_ sl <> None ->
  g_x g = Some s -> num_tx_ (client_info_ sl) = 0 -> s ∉ g_sq g ->
  num_rx_ (client_info_ sl) < tot (r_user_mb R) sl ->
  CI (with_x None (with_sq (g_sq g ++ [s]) g)) R.
Proof.
  intros HC Hsl Hc Ht Hx Hz Hsq Hlt. destruct (CI_slot _ _ _ _ HC Hsl Hc) as (se & _ & _ & _ & _ & Hok).
  eapply (CI_ghost g); try done; cbn.
  - split; cbn; try done.
    + intros s' Hne H. apply elem_of_app. by left.
    + intros s' Hne H. congruence.
  - destruct Hok as [? ? ? ? ? Htt ? Hp ? ? ?]. split; try done; cbn.
    + intros Hn. destruct (Htt Hn). by auto.
    + intros _. left. apply elem_snoc.
  - apply NoDup_app. split; [apply HC|]. split; [|apply NoDup_singleton].
    by intros x Hx' ->%list_elem_of_singleton.
  - intros s' [?| ->%list_elem_of_singleton]%elem_of_app Hne; done.
Qed.

(** ** A request starts *)

(** What a start needs: a connected client session [se] with slot [i] the last
    of its free vector, and ghosts that may be changed in the session. *)
Record start_pre (g g' : ghost) (r : Rpc) (a : enq_req_args_t) (sid i : Z) (l : list Z)
    (se : Session) : Prop := {
  sp_sid : ea_session_num a = sid;
  sp_sess : sess_at r sid = Some se;
  sp_client : is_client se = true;
  sp_conn : is_connected se = true;
  sp_fv : fv_list (sslot_free_vec_ se) = l ++ [i];
  sp_other : ghost_other sid g g';
  sp_x : g_x g = None;
  sp_x' : g_x g' = Some (sid, i);
  sp_bl : g_bl g' sid (enq_req_backlog_ se) = [] \/ l = [];
  sp_args a' : a' ∈ g_bl g' sid (enq_req_backlog_ se) ->
    ea_session_num a' = sid /\ etid_ok (ea_cont_etid a');
  sp_etid : etid_ok (ea_cont_etid a);
  sp_nodup : NoDup (ea_req_msgbuf a :: ea_resp_msgbuf a :: claims g' (nf r));
  sp_req : claim_ok (r_user_mb r) (ea_req_msgbuf a);
  sp_resp : claim_ok (r_user_mb r) (ea_resp_msgbuf a);
  sp_claims p : p ∈ claims g' (nf r) -> claim_ok (r_user_mb r) p;
}.

Lemma start_slot g g' r a sid i l se :
  cinv g r -> start_pre g g' r a sid i l se ->
  exists sl, slot_at r (sid, i) = Some sl /\ is_client_ sl = true /\ tx_msgbuf_ sl = None /\
    zlookup (sslot_arr_ (norm_se se)) i = Some (norm_sl sl) /\ fv_ok (sslot_free_vec_ se).
Proof.
  intros Hc P. pose proof (cv_core _ _ Hc) as HC.
  pose proof (sess_at_nf_Some _ _ _ (sp_sess _ _ _ _ _ _ _ _ P)) as Hse.
  pose proof (CI_sess _ _ HC _ _ Hse (sp_client _ _ _ _ _ _ _ _ P)) as Hs.
  destruct (proj1 (co_free _ _ _ _ Hs i)) as (sl' & Hi & Ht).
  { change (sslot_free_vec_ (norm_se se)) with (sslot_free_vec_ se).
    rewrite (sp_fv _ _ _ _ _ _ _ _ P). apply elem_snoc. }
  assert (H : slot_at (nf r) (sid, i) = Some sl') by (apply slot_at_Some; eauto).
  destruct (nf_slot _ _ _ H) as (sl & Hsl & <-). exists sl. split_and!; try done.
  - transitivity (is_client_ (norm_sl sl)); [done|].
    rewrite (CI_role _ _ HC _ _ _ _ Hse Hi). apply P.
  - exact (co_fv _ _ _ _ Hs).
Qed.

Lemma put_sess_put_sess sid se se' R : put_sess sid se' (put_sess sid se R) = put_sess sid se' R.
Proof.
  unfold put_sess, update, u_session_vec. destruct R; cbn. f_equal. apply zinsert_zinsert.
Qed.

(** The normal form of a state in which session and slot were written. *)
Lemma nf_put_slot_sess r sid i se0 se sl sl' sl'' :
  sess_at r sid = Some se0 -> zlookup (sslot_arr_ se) i = Some sl ->
  nf (put_slot (sid, i) sl'' (put_slot (sid, i) sl' (put_sess sid se r)))
  = put_sess sid ((norm_se se) <| sslot_arr_ ::= zinsert i (norm_sl sl'') |>) (nf r).
Proof.
  intros Hse Hi.
  assert (H1 : sess_at (put_sess sid se r) sid = Some se)
    by (by rewrite (sess_at_put _ _ _ _ _ Hse), decide_True).
  assert (H2 : slot_at (put_sess sid se r) (sid, i) = Some sl) by (apply slot_at_Some; eauto).
  rewrite (put_slot_put_slot _ _ _ _ _ H2), nf_put_slot, nf_put_sess.
  rewrite (put_slot_sess _ _ (norm_se se)).
  2:{ cbn [fst]. by rewrite (sess_at_put _ _ _ _ _ (sess_at_nf_Some _ _ _ Hse)), decide_True. }
  apply put_sess_put_sess.
Qed.

Lemma act_new R sid i se se' sl sl' s :
  sess_at R sid = Some se -> zlookup (sslot_arr_ se) i = Some sl ->
  sslot_arr_ se' = zinsert i sl' (sslot_arr_ se) -> is_client_ sl' = true -> tx_msgbuf_ sl' <> None ->
  act (put_sess sid se' R) s <-> s = (sid, i) \/ act R s.
Proof.
  intros Hse Hi Ea Hc Ht. unfold act. rewrite (slot_at_put_sess _ _ _ _ _ Hse), Ea.
  destruct s as [a b]; cbn [fst snd]. rewrite (zlookup_zinsert _ _ _ _ _ Hi).
  destruct (decide (sid = a)) as [<-|Hne]; [destruct (decide (i = b)) as [<-|Hne]|].
  - split; [by left|]. intros _. by exists sl'.
  - unfold slot_at at 1. cbn [fst snd]. rewrite Hse. cbn. split; [by right|].
    intros [[= ->]|?]; done.
  - split; [by right|]. intros [[= -> ->]|?]; done.
Qed.

(** The state in which the slot is set up and on the list, before the kick. *)
Lemma start_cinv g g' r a sid i l se sl v tsc r4 sl4 lact :
  cinv g r -> start_pre g g' r a sid i l se -> slot_at r (sid, i) = Some sl ->
  fv_ok v -> fv_list v = l -> fv_capacity v = fv_capacity (sslot_free_vec_ se) ->
  near (put_slot (sid, i) (new_sl a tsc sl) (put_sess sid (se <| sslot_free_vec_ := v |>) r)) r4 ->
  (forall s, s ∈ lact <-> act (nf r) s) -> dll r4 (lact ++ [(sid, i)]) ->
  slot_at r4 (sid, i) = Some sl4 -> norm_sl sl4 = norm_sl (new_sl a tsc sl) ->
  cinv g' (put_slot (sid, i) (sl4 <| client_info_ ::= reset_ci a |>) r4).
Proof.
  intros Hc P H Hv1 Hv2 Hv3 N Hact Hl H4 En.
  destruct (start_slot _ _ _ _ _ _ _ _ Hc P) as (sl0 & H' & Hcl & Htx & Hi & Hfv).
  rewrite H in H'. injection H' as <-. set (sl5 := update client_info_ (reset_ci a) sl4).
  pose proof (sp_sess _ _ _ _ _ _ _ _ P) as Hse. pose proof (sess_at_nf_Some _ _ _ Hse) as Hse'.
  set (se1 := se <| sslot_free_vec_ := v |>) in *.
  pose proof H as (se0 & E1 & Hj)%slot_at_Some. cbn in E1, Hj. rewrite Hse in E1. injection E1 as <-.
  assert (Hj1 : zlookup (sslot_arr_ se1) i = Some sl) by (by destruct se).
  assert (St : starts (ea_req_msgbuf a) (ea_resp_msgbuf a) (norm_sl sl) (norm_sl sl5))
    by exact (starts_new a tsc sl sl4 (sp_etid _ _ _ _ _ _ _ _ P) En).
  set (se5 := (norm_se se1) <| sslot_arr_ ::= zinsert i (norm_sl sl5) |>).
  assert (Enf : nf (put_slot (sid, i) sl5 r4) = put_sess sid se5 (nf r)).
  { rewrite nf_put_slot, (nr_nf _ _ N), <- nf_put_slot. by eapply nf_put_slot_sess. }
  assert (Hc5 : is_client_ (norm_sl sl5) = true) 
    by (transitivity (is_client_ (norm_sl sl)); [apply St|exact Hcl]).
  assert (Ht5 : tx_msgbuf_ (norm_sl sl5) <> None) by (by rewrite (st_tx _ _ _ _ St)).
  assert (Ea : sslot_arr_ se5 = zinsert i (norm_sl sl5) (sslot_arr_ (norm_se se))) by (by destruct se).
  assert (SS : start_sess i l (norm_sl sl5) (norm_se se) se5) by (by split).
  assert (Hsame : forall y : SSlot, slot_at r4 (sid, i) = Some sl4 ->
    r_wheel (put_slot (sid, i) y r4) = r_wheel r /\ r_huge (put_slot (sid, i) y r4) = r_huge r /\
    r_tx_batch (put_slot (sid, i) y r4) = r_tx_batch r /\
    r_ctrl_msgbuf_head (put_slot (sid, i) y r4) = r_ctrl_msgbuf_head r).
  { intros y (se4 & E4 & _)%slot_at_Some. rewrite (put_slot_sess _ _ _ _ E4).
    destruct N as [_ N1 N2 N3 N4 N5]. rewrite (put_slot_sess _ _ se1) in N1, N2, N4, N5
      by (cbn [fst]; by rewrite (sess_at_put _ _ _ _ _ Hse), decide_True).
    split_and!; [exact N1|exact N2|exact N4|exact N5]. }
  destruct (Hsame sl5 H4) as (W1 & W2 & W3 & W4).
  apply (cinv_change g g' r _ sid (norm_se se) se5 (lact ++ [(sid, i)])); try done.
  - eapply (CI_start g g' (nf r) sid i l (norm_se se) se5 (norm_sl sl) (norm_sl sl5));
      [apply Hc|done|apply P|apply P|done|exact St|exact SS| | | | | | | | |].
    1: exact (sp_other _ _ _ _ _ _ _ _ P). 1: exact (sp_x _ _ _ _ _ _ _ _ P).
    1: exact (sp_x' _ _ _ _ _ _ _ _ P). all: apply P.
  - apply P.
  - intros j y Hy. rewrite Ea, (zlookup_zinsert _ _ _ _ _ Hi). case_decide; [|by eauto].
    subst j. rewrite Hi in Hy. injection Hy as <-. exists (norm_sl sl5). split; [done|]. by rewrite Hc5.
  - eapply dll_links; [|exact Hl]. eapply same_links_put_slot; [exact H4|..]; by destruct sl4 as [? ? ? ? ? ? [] ?].
  - intros s. rewrite (act_new _ _ _ _ _ _ _ s Hse' Hi Ea Hc5 Ht5).
    rewrite elem_of_app, list_elem_of_singleton, Hact. tauto.
Qed.

(** The last step: kick the request, or stall it without credits. *)
Definition started (g g' : ghost) (s : sref) (r r' : Rpc) : Prop :=
  exists sq, (sq = g_sq g /\ r_stallq r' = r_stallq r \/
              sq = g_sq g ++ [s] /\ r_stallq r' = r_stallq r ++ [s]) /\
    cinv_e (with_x None (with_sq sq g')) r'.

Lemma with_sq_same g : with_sq (g_sq g) g = g.
Proof. by destruct g. Qed.

Lemma cinv_push_stallq g r f : cinv g (r <| r_stallq ::= f |>) <-> cinv g r.
Proof.
  split; [|apply cinv_stallq]. intros H.
  apply (cinv_stallq g _ (fun _ => r_stallq r)) in H. by destruct r.
Qed.

Lemma kick_or_stall_wp g g' r r0 s se sl :
  cinv g' r -> active r s se sl -> g_sq g' = g_sq g -> g_x g' = Some s -> s ∉ g_sq g ->
  num_tx_ (client_info_ sl) = 0 -> r_stallq r = r_stallq r0 ->
  wpe client_err (se ← get_session s.1;
    if 0 <? credits_ se then kick_req_st s
    else modify (fun r => r <| r_stallq ::= fun q => q ++ [s] |>))
    (fun _ r' => started g g' s r0 r' /\ exists se', sess_at r' s.1 = Some se' /\
       enq_req_backlog_ se' = enq_req_backlog_ se /\ is_client se' = is_client se) r.
Proof.
  intros Hc Ha Hsq Hx Hnin Hz Hst. pose proof (active_ok _ _ _ _ _ Hc Ha) as Hf.
  pose proof (active_npk _ _ _ _ Hf) as [HN HM]. pose proof (af_rx _ _ _ _ Hf) as Hrx.
  pose proof (npk_le_tot (r_user_mb r) sl 0 ltac:(lia) ltac:(lia)) as Htot.
  wp_step. eapply wp_get_session; [apply Ha|]. destruct (0 <? credits_ se) eqn:Hcr.
  - apply Z.ltb_lt in Hcr. eapply wp_mono; [eapply (kick_req_st_wp g'); try done; [by rewrite Hsq|lia]|].
    cbn. intros _ r' (Hc' & S).
    destruct (sent_active _ _ _ _ _ _ Ha S) as (se' & sl' & Ha' & Es & _). split.
    + exists (g_sq g). split; [left; split; [done|by rewrite (sn_stallq _ _ _ _ S)]|].
      rewrite <- Hsq, with_sq_same. eapply sent_unexempt; [exact Hc'|done|exact Ha|exact S|lia|lia].
    + exists se'. split; [apply Ha'|]. split.
      * exact (f_equal enq_req_backlog_ Es).
      * unfold is_client. pose proof (f_equal role_ Es) as Er. cbn in Er. by rewrite Er.
  - wp_step. split.
    + exists (g_sq g ++ [s]). split; [right; split; [done|rsimp; by rewrite Hst]|].
      apply cinv_e_intro, cinv_push_stallq.
      apply cinv_parts in Hc as (HC & Hb & Hw). apply cinv_parts. split_and!; [|done|done].
      rewrite <- Hsq. eapply CI_stall; [exact HC|apply slot_at_nf_Some, Ha|apply Ha|apply Ha|done|exact Hz|by rewrite Hsq|].
      change (num_rx_ (client_info_ sl) < tot (r_user_mb r) sl). lia.
    + exists se. split; [apply Ha|done].
Qed.

Lemma act_clients r l : (forall s, s ∈ l <-> act (nf r) s) -> nodes_ok r l.
Proof.
  intros H s Hs. apply H in Hs as (sl' & Hsl & Hc & _). destruct (nf_slot _ _ _ Hsl) as (sl & E & <-).
  by exists sl.
Qed.

(** The state with the slot's fields set. *)
Record set_up (r r3 : Rpc) (s : sref) (x : SSlot) (se3 : Session) (lact : list sref) : Prop := {
  su_links : same_links r r3;
  su_nodes : nodes_ok r3 (s :: lact);
  su_fresh : s ∉ lact;
  su_slot : slot_at r3 s = Some x;
  su_sess : sess_at r3 s.1 = Some se3;
  su_stallq : r_stallq r3 = r_stallq r;
  su_ub : r_user_mb r3 = r_user_mb r;
}.

Lemma set_up_ok r sid i se se1 sl x lact :
  sess_at r sid = Some se -> sslot_arr_ se1 = sslot_arr_ se -> slot_at r (sid, i) = Some sl ->
  tx_msgbuf_ sl = None -> is_client_ x = true -> is_client_ sl = true ->
  ci_next_ (client_info_ x) = ci_next_ (client_info_ sl) ->
  ci_prev_ (client_info_ x) = ci_prev_ (client_info_ sl) ->
  (forall s, s ∈ lact <-> act (nf r) s) ->
  set_up r (put_slot (sid, i) x (put_sess sid se1 r)) (sid, i) x
    (se1 <| sslot_arr_ ::= zinsert i x |>) lact.
Proof.
  intros Hse Ea H Htx Hcx Hcl En Ep Hact. set (r1 := put_sess sid se1 r).
  assert (Hse1 : sess_at r1 sid = Some se1)
    by (unfold r1; by rewrite (sess_at_put _ _ _ _ _ Hse), decide_True).
  assert (Hat : forall s, slot_at r1 s = slot_at r s).
  { intros s. unfold r1. rewrite (slot_at_put_sess _ _ _ _ _ Hse). case_decide as D; [|done].
    unfold slot_at. rewrite <- D, Hse. cbn. by rewrite Ea. }
  assert (H1 : slot_at r1 (sid, i) = Some sl) by (by rewrite Hat).
  split.
  - transitivity r1; [by apply same_links_put_sess with se|].
    eapply same_links_put_slot; [exact H1|congruence|done|done].
  - intros s [->|Hs]%elem_of_cons; rewrite (slot_at_put_slot _ _ _ _ _ H1); [rewrite decide_True by done; eauto|].
    case_decide; [eauto|]. rewrite Hat. by apply (act_clients _ _ Hact).
  - intros (y & Hy & _ & Ht)%Hact. rewrite (slot_at_nf_Some _ _ _ H) in Hy. injection Hy as <-.
    by apply Ht.
  - by rewrite (slot_at_put_slot _ _ _ _ _ H1), decide_True.
  - rewrite (sess_at_put_slot _ (sid, i) _ _ _ Hse1). by rewrite decide_True.
  - by rewrite (put_slot_sess r1 (sid, i) se1 x Hse1).
  - by rewrite (put_slot_sess r1 (sid, i) se1 x Hse1).
Qed.

(** Setting up the slot, up to the headers. *)
Lemma setup_wp g g' r a sid i l se sl v (Q : unit -> Rpc -> Prop) m :
  cinv g r -> start_pre g g' r a sid i l se -> slot_at r (sid, i) = Some sl ->
  fv_ok v -> fv_list v = l -> fv_capacity v = fv_capacity (sslot_free_vec_ se) ->
  (forall r5 se5 sl5, cinv g' r5 -> r_stallq r5 = r_stallq r -> r_user_mb r5 = r_user_mb r ->
     active r5 (sid, i) se5 sl5 -> num_tx_ (client_info_ sl5) = 0 ->
     enq_req_backlog_ se5 = enq_req_backlog_ se -> wpe client_err m Q r5) ->
  wpe client_err (
    upd_sslot (sid, i) (fun sl => sl <| tx_msgbuf_ := Some (ea_req_msgbuf a) |>
                              <| cur_req_num_ ::= fun n => add64 n kSessionReqWindow |>);;
    tsc ← gets r_ev_loop_tsc;
    upd_ci (sid, i) (start_ci a tsc);;
    add_to_active_rpc_list (sid, i);;
    upd_ci (sid, i) (reset_ci a);; m) Q (put_sess sid (se <| sslot_free_vec_ := v |>) r).
Proof.
  intros Hc P H Hv1 Hv2 Hv3 HQ. set (r1 := put_sess _ _ r).
  destruct (start_slot _ _ _ _ _ _ _ _ Hc P) as (sl' & H' & Hcl & Htx & Hi & Hfv).
  rewrite H in H'. injection H' as <-. pose proof (sp_sess _ _ _ _ _ _ _ _ P) as Hse.
  destruct (cv_list _ _ Hc) as (lact & Hl & Hact).
  set (se1 := se <| sslot_free_vec_ := v |>) in *.
  assert (U : forall tsc, set_up r (put_slot (sid, i) (new_sl a tsc sl) r1) (sid, i) (new_sl a tsc sl)
    (se1 <| sslot_arr_ ::= zinsert i (new_sl a tsc sl) |>) lact).
  { intros tsc. unfold r1. apply set_up_ok with se sl; try done; by destruct se, sl as [? ? ? ? ? ? [] ?]. }
  assert (H1 : slot_at r1 (sid, i) = Some sl).
  { unfold r1. rewrite (slot_at_put_sess _ _ _ _ _ Hse), decide_True by done.
    apply slot_at_Some in H as (se0 & E1 & E2). cbn in E1, E2. rewrite Hse in E1. injection E1 as <-.
    by destruct se. }
  wp_step. eapply wp_upd_sslot; [exact H1|]. do 2 wp_step. wp_step.
  eapply wp_upd_ci; [by rewrite (slot_at_put_slot _ _ _ _ _ H1), decide_True|exact Hcl|].
  rewrite (put_slot_put_slot _ _ _ _ _ H1). set (tsc := r_ev_loop_tsc _).
  match goal with |- context [put_slot (sid, i) ?x r1] => change x with (new_sl a tsc sl) end.
  clearbody tsc. specialize (U tsc). set (r3 := put_slot (sid, i) (new_sl a tsc sl) r1) in *. destruct U as [L3 Hn3 Hf3 H3 Hse3 Esq Eub].
  wp_step. eapply wp_mono; [apply (add_to_active_wp r3 (sid, i) lact); try done; by eapply dll_links|].
  cbn. intros _ r4 [N Hl4].
  assert (H4 : slot_at (nf r4) (sid, i) = Some (norm_sl (new_sl a tsc sl)))
    by (rewrite (nr_nf _ _ N); by apply slot_at_nf_Some).
  assert (Hse4 : sess_at (nf r4) sid = Some (norm_se (se1 <| sslot_arr_ ::= zinsert i (new_sl a tsc sl) |>)))
    by (rewrite (nr_nf _ _ N); by apply sess_at_nf_Some).
  destruct (nf_slot _ _ _ H4) as (sl4 & H4' & En), (nf_sess _ _ _ Hse4) as (se4 & Hse4' & Es).
  assert (Hcl4 : is_client_ sl4 = true) by (transitivity (is_client_ (norm_sl sl4)); [done|by rewrite En]).
  assert (Htx4 : tx_msgbuf_ sl4 = Some (ea_req_msgbuf a))
    by (transitivity (tx_msgbuf_ (norm_sl sl4)); [done|by rewrite En]).
  wp_step. eapply wp_upd_ci; [exact H4'|exact Hcl4|].
  pose proof (start_cinv _ _ _ _ _ _ _ _ _ _ tsc _ _ _ Hc P H Hv1 Hv2 Hv3 N Hact Hl4 H4' En) as Hc5.
  rewrite (put_slot_sess _ (sid, i) _ _ Hse4') in Hc5 |- *. cbn [fst snd] in Hc5 |- *.
  eapply HQ; [exact Hc5| | | | |].
  - transitivity (r_stallq r4); [done|]. by rewrite (nr_stallq _ _ N).
  - transitivity (r_user_mb r4); [done|]. rewrite <- Eub. exact (f_equal r_user_mb (nr_nf _ _ N)).
  - rewrite <- (put_slot_sess _ (sid, i) _ _ Hse4'). split.
    + rewrite (sess_at_put_slot _ (sid, i) _ _ _ Hse4'). by rewrite decide_True.
    + by rewrite (slot_at_put_slot _ _ _ _ _ H4'), decide_True.
    + by destruct sl4.
    + change (tx_msgbuf_ sl4 <> None). by rewrite Htx4.
  - by destruct sl4 as [? ? ? ? ? ? [] ?].
  - transitivity (enq_req_backlog_ (norm_se se4)); [by destruct se4|]. rewrite Es. by destruct se.
Qed.

(** [enqueue_request] on a session with a free slot. *)
Lemma enqueue_start_wp g g' r a sid i l se :
  cinv g r -> start_pre g g' r a sid i l se ->
  wpe client_err (enqueue_request_st a) (fun _ r' => started g g' (sid, i) r r' /\
    exists se', sess_at r' sid = Some se' /\ enq_req_backlog_ se' = enq_req_backlog_ se /\
      is_client se' = true) r.
Proof.
  intros Hc P. destruct (start_slot _ _ _ _ _ _ _ _ Hc P) as (sl & H & Hcl & Htx & Hi & Hfv).
  pose proof (sp_sess _ _ _ _ _ _ _ _ P) as Hse. pose proof (sp_fv _ _ _ _ _ _ _ _ P) as Hl.
  pose proof (fv_size_length _ Hfv) as Hsz. rewrite Hl, zlength_app in Hsz.
  change (zlength [i]) with 1 in Hsz. pose proof (zlength_nonneg l).
  unfold enqueue_request_st. rewrite (sp_sid _ _ _ _ _ _ _ _ P). cbv zeta.
  wp_step. eapply wp_get_session; [exact Hse|]. wp_step. wp_step; [apply P|].
  replace (fv_size (sslot_free_vec_ se) =? 0) with false by lia.
  wp_step. eapply fv_pop_back_wp; [done|exact Hl|]. intros v Hv1 Hv2 Hv3. cbn [fst snd].
  wp_step. eapply wp_upd_session; [exact Hse|].
  assert (H1 : slot_at (put_sess sid (se <| sslot_free_vec_ := v |>) r) (sid, i) = Some sl).
  { rewrite (slot_at_put_sess _ _ _ _ _ Hse), decide_True by done.
    apply slot_at_Some in H as (se0 & E1 & E2). cbn in E1, E2. rewrite Hse in E1. injection E1 as <-.
    by destruct se. }
  wp_step. eapply wp_get_sslot; [exact H1|]. wp_step. wp_step; [by apply bool_decide_eq_true|].
  eapply setup_wp; try done. intros r5 se5 sl5 Hc5 Hst5 Hub5 Ha5 Hz5 Hb5.
  destruct (sp_req _ _ _ _ _ _ _ _ P) as (n & mb & Ep & Hn & Hmb).
  wp_step. eapply wp_get_mb; [rewrite Ep; cbn; by rewrite Hub5|].
  wp_step. eapply wp_get_sslot; [apply Ha5|]. unfold mem_mod at 1. do 2 wp_step.
  set (r6 := update r_mem _ r5).
  wp_step. eapply (wp_mono _ (fun _ r' => still r5 r' /\ r_tx_batch r' = r_tx_batch r5)).
  { wp_step; [|by split; [apply still_mem|]]. eapply wp_mono; [apply copy_hdrs_wp|].
    cbn. intros _ r' [S E]. split; [etrans; [apply still_mem|exact S]|done]. }
  cbn. intros _ r7 [S7 E7]. assert (Hc7 : cinv g' r7) by (by eapply cinv_noise).
  destruct (still_active _ _ _ _ _ S7 Ha5) as (se7 & sl7 & Ha7 & Es & El).
  pose proof (f_equal enq_req_backlog_ Es) as Eb. cbn in Eb.
  eapply wp_mono; [eapply (kick_or_stall_wp g g' r7 r (sid, i) se7 sl7 Hc7 Ha7)|].
  - exact (go_sq _ _ _ (sp_other _ _ _ _ _ _ _ _ P)).
  - exact (sp_x' _ _ _ _ _ _ _ _ P).
  - intros Hin. destruct (stalled_active _ _ _ Hc Hin) as (? & sl' & Ha' & _).
    pose proof (ac_slot _ _ _ _ Ha') as E. rewrite H in E. injection E as <-. by apply (ac_tx _ _ _ _ Ha').
  - rewrite <- Hz5. exact (f_equal (fun sl => num_tx_ (client_info_ sl)) El).
  - rewrite <- Hst5. apply S7.
  - cbn. intros _ r' (H8 & se8 & E1 & E2 & E3). split; [done|]. exists se8. split; [done|].
    rewrite E2, E3, Eb. split; [done|]. exact (af_client _ _ _ _ (active_ok _ _ _ _ _ Hc7 Ha7)).
Qed.

(** ** [enqueue_request] between operations *)

(** The buffers that requests own. *)
Definition owned (r : Rpc) : list mbptr := claims (rest [] []) (nf r).

(** What the API asks of a request's arguments: a connected client session, and
    two message buffers that no other request owns. *)
Record req_legal (r : Rpc) (a : enq_req_args_t) : Prop := {
  rl_sess : exists se, sess_at r (ea_session_num a) = Some se /\ is_client se = true /\
    is_connected se = true;
  rl_etid : etid_ok (ea_cont_etid a);
  rl_nodup : NoDup (args_claims a ++ owned r);
  rl_bufs p : p ∈ args_claims a -> claim_ok (r_user_mb r) p;
}.

Lemma enqueue_request_st_wp r a :
  client_inv r -> req_legal r a ->
  wpe client_err (enqueue_request_st a) (fun _ => client_inv) r.
Proof.
  intros [ents Hc] [(se & Hse & Hcl & Hconn) Het Hnd Hbufs]. set (g := rest (r_stallq r) ents) in *.
  pose proof (cv_core _ _ Hc) as HC. pose proof (sess_at_nf_Some _ _ _ Hse) as Hse'.
  pose proof (CI_sess _ _ HC _ _ Hse' Hcl) as Hs.
  destruct (fv_list (sslot_free_vec_ se)) as [|j0 l0] eqn:Hfl.
  - pose proof (fv_size_length _ (co_fv _ _ _ _ Hs : fv_ok (sslot_free_vec_ se))) as Hsz.
    rewrite Hfl in Hsz. unfold enqueue_request_st. cbv zeta. wp_step.
    eapply wp_get_session; [exact Hse|]. wp_step. wp_step; [done|].
    rewrite Hsz. change (zlength [] =? 0) with true. cbv iota.
    eapply wp_upd_session; [exact Hse|]. exists ents. set (r' := put_sess _ _ r).
    destruct (cv_list _ _ Hc) as (l & Hl & Hact).
    assert (En : nf r' = put_sess (ea_session_num a)
              (set_backlog (enq_req_backlog_ (norm_se se) ++ [a]) (norm_se se)) (nf r)).
    { unfold r'. rewrite nf_put_sess. by destruct se. }
    eapply (cinv_change g g r r' _ _ _ l Hc Hse' En); try done.
    + by apply CI_push_backlog.
    + intros i sl Hi. exists sl. by destruct se.
    + eapply dll_links; [|exact Hl]. apply same_links_put_sess with se; [done|by destruct se].
    + intros s. rewrite Hact. unfold act. rewrite (slot_at_put_sess _ _ _ _ _ Hse').
      case_decide as D; [|done]. unfold slot_at. by rewrite <- D, Hse'.
  - destruct (exists_last (l := j0 :: l0)) as (l & i & El); [done|]. rewrite El in Hfl.
    assert (P : start_pre g (with_x (Some (ea_session_num a, i)) g) r a (ea_session_num a) i l se).
    { split; try done.
      - left. destruct (co_backlog _ _ _ _ Hs) as [Hb|[Hb|Hb]]; [done|exact Hb|].
        change (fv_list (sslot_free_vec_ se) = []) in Hb. rewrite Hfl in Hb. by destruct l.
      - exact (co_args _ _ _ _ Hs).
      - apply Hbufs. by left.
      - apply Hbufs. right. by left.
      - exact (CI_claims _ _ HC). }
    eapply wp_mono; [by eapply enqueue_start_wp|]. cbn.
    intros _ r' ((sq & Hsq & [e Hc']) & _). exists e.
    destruct Hsq as [[-> Eq]|[-> Eq]]; rewrite Eq; exact Hc'.
Qed.
End Start.
