(* ===== verification/ClientRx.v ===== *)
(** * The client's invariant: credit returns and response packets

    [client_rx_update] and [process_expl_cr_st]. *)
From S2P Require Import Prelude Config HugeAlloc PktHdr Msg SmTypes Timer Timely MemPool TimingWheel WheelChain WheelSpec Session RpcState RpcBase RpcTx RpcApi RpcRx RpcWp ClientInv ClientLemmas ClientSteps ClientReq ClientFin ClientTx ClientKick ClientSend ClientQueue ClientList ClientLoss ClientStart.

Section Rx.
Context {T : TTr} {TOk : TTrOk T} {Os : ShmOs} {C : RpcConf} {W : World} {WOk : WorldOk W}.

(** ** In order? *)

(** What [in_order_client] finds. *)
Record in_order (sl : SSlot) (h : pkthdr_t) : Prop := {
  io_req : req_num_ h = cur_req_num_ sl;
  io_pkt : pkt_num_ h = num_rx_ (client_info_ sl);
  io_sent : num_rx_ (client_info_ sl) < num_tx_ (client_info_ sl);
  io_wheel : zlookup (in_wheel_ (client_info_ sl)) (num_rx_ (client_info_ sl) mod kSessionCredits)
             = Some false;
}.

Lemma client_slot_iw g r s sl :
  cinv g r -> slot_at r s = Some sl -> is_client_ sl = true ->
  length (in_wheel_ (client_info_ sl)) = Z.to_nat kSessionCredits /\
  length (tx_ts_ (client_info_ sl)) = Z.to_nat kSessionCredits.
Proof.
  intros Hc H Hcl. pose proof (slot_at_nf_Some _ _ _ H) as H'.
  destruct (CI_slot _ _ _ _ (cv_core _ _ Hc) H' Hcl) as (_ & _ & _ & _ & _ & Hok).
  split; [exact (so_iw _ _ _ _ Hok)|]. pose proof (so_ts _ _ _ _ Hok) as E. cbn in E.
  by rewrite length_replicate in E.
Qed.

Lemma in_order_client_wp g r s sl h :
  cinv g r -> slot_at r s = Some sl -> is_client_ sl = true ->
  wpe client_err (in_order_client s h) (fun b r' => cinv g r' /\ still r r' /\
    slot_at r' s = Some sl /\ (b = true -> in_order sl h)) r.
Proof.
  intros Hc H Hcl. destruct (client_slot_iw _ _ _ _ Hc H Hcl) as [Hiw _].
  unfold in_order_client. wp_step. eapply wp_get_sslot; [exact H|].
  destruct (req_num_ h =? cur_req_num_ sl) eqn:E1; cbn [negb]; [|by wp_step].
  wp_step. eapply wp_get_ci; [done..|].
  destruct (pkt_num_ h =? num_rx_ (client_info_ sl)) eqn:E2; cbn [negb]; [|by wp_step].
  destruct (num_tx_ (client_info_ sl) <=? pkt_num_ h) eqn:E3; [by wp_step|].
  apply Z.eqb_eq in E1, E2. apply Z.leb_gt in E3.
  destruct (bit_exists _ (pkt_num_ h) Hiw) as [w Hw].
  wp_step. eapply wp_deref; [done|]. change (kCcPacing && w) with w. destruct w; cbv iota.
  - do 2 wp_step. set (r' := update r_still_in_wheel _ r). wp_step.
    assert (S : still r r') by apply still_siw. split_and!; [by eapply cinv_noise|done|exact H|done].
  - wp_step. split_and!; [done|done|done|]. intros _. split; try done; try congruence; lia.
Qed.

(** An in-order packet belongs to an active request. *)
Lemma in_order_active g r s sl h :
  cinv g r -> slot_at r s = Some sl -> is_client_ sl = true -> in_order sl h ->
  exists se, active r s se sl.
Proof.
  intros Hc H Hcl Hio. pose proof (slot_at_nf_Some _ _ _ H) as H'.
  destruct (CI_slot _ _ _ _ (cv_core _ _ Hc) H' Hcl) as (_ & _ & _ & _ & _ & Hok).
  pose proof H as (se & Hse & _)%slot_at_Some. exists se. split; try done.
  intros E. pose proof (so_idle _ _ _ _ Hok E) as Ei. cbn in Ei. pose proof (io_sent _ _ Hio). lia.
Qed.

(** ** The bookkeeping *)
Lemma update_rate_env tsc srtt t :
  wpe client_err (update_rate tsc srtt) (fun _ _ => True) t.
Proof.
  unfold update_rate. do 2 wp_step. wp_step.
  destruct ((1000000000 <=? tsc) && (last_update_tsc_ t <=? tsc)).
  2:{ apply wp_fail. unfold client_err. auto. }
  wp_step; [done|]. wp_step; [by wp_step|]. wp_step; [by wp_step|]. do 2 wp_step. wp_step.
  apply (wp_err_mono (fun _ => False)); [|done]. apply new_rate_of_ok. intros rate. by wp_step.
Qed.

Lemma update_timely_rate_wp g r s se sl n tsc :
  cinv g r -> active r s se sl ->
  wpe client_err (update_timely_rate s n tsc) (fun _ r' => cinv g r' /\ still r r') r.
Proof.
  intros Hc Ha. destruct (client_slot_iw _ _ _ _ Hc (ac_slot _ _ _ _ Ha) (ac_client _ _ _ _ Ha)) as [_ Hts].
  unfold update_timely_rate. wp_step. eapply wp_get_ci; [apply Ha..|].
  destruct (zlookup_is_Some (tx_ts_ (client_info_ sl)) (n mod kSessionCredits)) as [ts Hts'].
  { unfold zlength. rewrite Hts. pose proof (Z.mod_pos_bound n kSessionCredits). unfold kSessionCredits in *. lia. }
  wp_step. eapply wp_deref; [done|]. wp_step. eapply wp_get_session; [apply Ha|].
  pose proof (update_rate_env tsc (sub64 tsc ts) (timely_ se)) as Hu. unfold wpe in Hu.
  destruct (update_rate _ _ _) as [u t|e]; [|by apply wp_fail].
  eapply wp_upd_session; [apply Ha|]. set (r' := put_sess _ _ r).
  assert (S : still r r') by (apply still_put_sess with se; [apply Ha|by destruct se..]).
  split; [by eapply cinv_noise|done].
Qed.

Definition received_at (tsc : Z) (sl : SSlot) : SSlot :=
  sl <| client_info_ ::= fun ci => ci <| num_rx_ ::= fun n => add64 n 1 |> <| progress_tsc_ := tsc |> |>.
Lemma norm_received tsc sl :
  0 <= num_rx_ (client_info_ sl) < 2 ^ 14 -> norm_sl (received_at tsc sl) = received (norm_sl sl).
Proof.
  destruct sl as [? ? ? ? ? ? [] ?]. cbn. intros H. unfold received_at, received, update, norm_sl, norm_ci.
  cbn. by rewrite add64_small by lia.
Qed.

(** The slot after an in-order packet: one more credit, one more packet received. *)
Record rx_after (se : Session) (sl : SSlot) (se' : Session) (sl' : SSlot) : Prop := {
  ra_credits : credits_ se' = credits_ se + 1;
  ra_state : state_ se' = state_ se;
  ra_tx : num_tx_ (client_info_ sl') = num_tx_ (client_info_ sl);
  ra_rx : num_rx_ (client_info_ sl') = num_rx_ (client_info_ sl) + 1;
  ra_buf : tx_msgbuf_ sl' = tx_msgbuf_ sl;
  ra_resp : resp_msgbuf_ (client_info_ sl') = resp_msgbuf_ (client_info_ sl);
}.

Lemma client_rx_update_wp g r s se sl h tsc :
  cinv g r -> active r s se sl -> g_x g = None -> in_order sl h ->
  wpe client_err (client_rx_update s h tsc) (fun _ r' => cinv (with_x (Some s) g) r' /\
    same_links r r' /\ r_stallq r' = r_stallq r /\ r_user_mb r' = r_user_mb r /\
    exists se' sl', active r' s se' sl' /\ rx_after se sl se' sl') r.
Proof.
  intros Hc Ha Hx Hio. pose proof (io_sent _ _ Hio) as Hsent. unfold client_rx_update.
  change kCcRateComp with true. wp_step. cbn [when].
  eapply wp_mono; [by eapply update_timely_rate_wp|]. cbn. intros _ r1 [Hc1 S1].
  destruct (still_active _ _ _ _ _ S1 Ha) as (se1 & sl1 & Ha1 & Es & El).
  pose proof (active_ok _ _ _ _ _ Hc1 Ha1) as Hf1. pose proof (af_win _ _ _ _ Hf1) as Hwin.
  pose proof (af_rx _ _ _ _ Hf1) as Hrx. pose proof (af_tx _ _ _ _ Hf1) as Htx.
  pose proof (af_credits _ _ _ _ Hf1) as Hcr.
  assert (Etx : num_tx_ (client_info_ sl1) = num_tx_ (client_info_ sl))
    by exact (f_equal (fun sl => num_tx_ (client_info_ sl)) El).
  assert (Erx : num_rx_ (client_info_ sl1) = num_rx_ (client_info_ sl))
    by exact (f_equal (fun sl => num_rx_ (client_info_ sl)) El).
  assert (Ecr : credits_ se1 = credits_ se) by exact (f_equal credits_ Es).
  assert (Hw1 : 0 < win sl1) by (unfold win; lia).
  unfold bump_credits. wp_step. wp_step. eapply wp_get_session; [apply Ha1|].
  wp_step. wp_step; [apply Hf1|]. wp_step. wp_step; [lia|]. eapply wp_upd_session; [apply Ha1|].
  do 2 wp_step.
  eapply wp_upd_ci; [eapply (active_put_sess r1 s se1); [exact Ha1|by destruct se1]|apply Ha1|].
  set (tsc' := r_ev_loop_tsc _). clearbody tsc'.
  rewrite (put_sc_stack2 r1 s _ se1 (fun c => add64 c 1) (ac_sess _ _ _ _ Ha1)).
  rewrite add64_small by (unfold kSessionCredits in *; lia).
  match goal with |- context [put_sc s ?x _ r1] => change x with (received_at tsc' sl1) end.
  assert (Hrx14 : 0 <= num_rx_ (client_info_ sl1) < 2 ^ 14) by lia.
  assert (En : norm_sl (received_at tsc' sl1) = received (norm_sl sl1)) by (by apply norm_received).
  pose proof (ac_sess _ _ _ _ Ha1) as Hse1. pose proof (ac_slot _ _ _ _ Ha1) as H1.
  assert (Hub : r_user_mb r1 = r_user_mb r) by (by apply still_ub).
  split_and!.
  - apply cinv_parts in Hc1 as (HC & Hb & Hw). apply cinv_parts.
    split_and!; [|by eapply base_ok_put_sc|by apply wheel_ok_put_sc].
    rewrite nf_put_sc, En, (put_sc_sess _ _ _ _ _ (sess_at_nf_Some _ _ _ Hse1)).
    pose proof (af_client _ _ _ _ Hf1) as Hcl. pose proof (af_nth _ _ _ _ Hf1) as Hi.
    change (credits_ se1) with (credits_ (norm_se se1)).
    destruct s as [sid i]. apply CI_rx; try done; [by apply sess_at_nf_Some|].
    rewrite <- (io_wheel _ _ Hio). change (num_rx_ (client_info_ (norm_sl sl1))) with (num_rx_ (client_info_ sl1)).
    rewrite Erx. f_equal. exact (f_equal (fun sl => in_wheel_ (client_info_ sl)) El).
  - etrans; [apply S1|]. by eapply same_links_put_sc.
  - rewrite (put_sc_sess _ _ _ _ _ Hse1). apply S1.
  - by rewrite (put_sc_sess _ _ _ _ _ Hse1).
  - exists (upd_sc s.2 (received_at tsc' sl1) (credits_ se1 + 1) se1), (received_at tsc' sl1). split.
    + split; [by rewrite (sess_at_put_sc _ _ _ _ _ _ Hse1), decide_True
        |by rewrite (slot_at_put_sc _ _ _ _ _ _ H1), decide_True|apply Ha1|apply Ha1].
    + split; [|exact (f_equal state_ Es)|exact Etx| |exact (f_equal tx_msgbuf_ El)|].
      * change (credits_ se1 + 1 = credits_ se + 1). lia.
      * change (add64 (num_rx_ (client_info_ sl1)) 1 = num_rx_ (client_info_ sl) + 1).
        rewrite add64_small by lia. lia.
      * exact (f_equal (fun sl => resp_msgbuf_ (client_info_ sl)) El).
Qed.

(** ** Explicit credit returns *)

(** An explicit credit return acknowledges a request packet that is not the
    request's last; the server sends no other. *)
Definition cr_conforms (r : Rpc) (s : sref) (h : pkthdr_t) : Prop :=
  exists sl, slot_at r s = Some sl /\ is_client_ sl = true /\ req_num_ h <= cur_req_num_ sl /\
    (in_order sl h -> pkt_num_ h < npk (r_user_mb r) (tx_msgbuf_ sl) - 1).

Lemma expl_cr_wp r s pkt tsc :
  client_inv r -> cr_conforms r s (m_hdr (r_mem r) pkt) ->
  wpe client_err (process_expl_cr_st s pkt tsc) (fun _ => client_inv) r.
Proof.
  intros [ents Hc] (sl & H & Hcl & Hreq & Hlast). unfold process_expl_cr_st.
  wp_step. apply wp_assert_dispatch; [by eapply cinv_etid|]. wp_step. apply wp_hdr_at.
  set (h := m_hdr _ _) in *. clearbody h.
  wp_step. eapply wp_get_sslot; [exact H|]. wp_step. wp_step; [lia|].
  wp_step. eapply wp_mono; [by eapply in_order_client_wp|]. cbn. intros ok r1 (Hc1 & S1 & H1 & Hio).
  assert (Esq : r_stallq r1 = r_stallq r) by apply S1.
  destruct ok; cbn [negb]; [|wp_step; exists ents; by rewrite Esq].
  specialize (Hio eq_refl). specialize (Hlast Hio).
  destruct (in_order_active _ _ _ _ _ Hc1 H1 Hcl Hio) as [se Ha].
  wp_step. eapply wp_mono; [by eapply client_rx_update_wp|].
  cbn. intros _ r2 (Hc2 & L2 & Hsq2 & Hub2 & se2 & sl2 & Ha2 & [R1 _ R3 R4 R5 R6]).
  pose proof (active_ok _ _ _ _ _ Hc2 Ha2) as Hf2. pose proof (af_credits _ _ _ _ Hf2) as Hcr2.
  pose proof (af_credits _ _ _ _ (active_ok _ _ _ _ _ Hc1 Ha)) as Hcr.
  pose proof (active_npk _ _ _ _ Hf2) as [HN HM]. pose proof (io_pkt _ _ Hio) as Hp.
  assert (Hub1 : r_user_mb r1 = r_user_mb r) by (by apply still_ub).
  rewrite Hub2, R5, Hub1 in HN.
  assert (Hsq : s ∉ r_stallq r).
  { apply (flying_not_stalled _ _ _ _ _ Hc1 Ha). unfold win. pose proof (io_sent _ _ Hio). lia. }
  wp_step. eapply req_pkts_pending_wp; [done..|]. rewrite Hub2, R3, R5, Hub1. wp_step.
  - rename select (_ = true) into Hlt. apply Z.ltb_lt in Hlt.
    eapply wp_mono; [eapply kick_req_st_wp; [done|done|done|lia|by rewrite Hub2, R3, R5, Hub1]|].
    cbn. intros _ r3 (Hc3 & S3).
    pose proof (sent_unexempt _ _ _ _ _ _ _ Hc3 eq_refl Ha2 S3) as [e Hc4].
    + rewrite Hub2, R3, R5, Hub1. lia.
    + apply (af_rx _ _ _ _ Hf2).
    + exists e. rewrite (sn_stallq _ _ _ _ S3), Hsq2, Esq. exact Hc4.
  - rename select (_ = false) into Hge. apply Z.ltb_ge in Hge.
    destruct (cinv_unexempt _ _ _ _ _ (cinv_e_intro _ _ Hc2) Ha2 eq_refl) as [e Hc3]; [lia|].
    exists e. rewrite Hsq2, Esq. exact Hc3.
Qed.
End Rx.
