(* ===== verification/ClientResp.v ===== *)
(** * The client's invariant: a request completes

    [complete_request] frees the slot, starts a backlogged request in it, and
    runs the continuation, which may make further API calls. *)
From S2P Require Import Prelude Config HugeAlloc PktHdr Msg SmTypes Timer Timely MemPool TimingWheel WheelChain WheelSpec Session RpcState RpcBase RpcTx RpcApi RpcRx RpcWp ClientInv ClientLemmas ClientSteps ClientReq ClientFin ClientTx ClientKick ClientSend ClientQueue ClientList ClientLoss ClientStart ClientRx.

(** ** Legal applications

    A continuation may enqueue requests that the API allows and write to memory. *)
Section Legal.
Context {T : TTr} {Os : ShmOs} {C : RpcConf} {W : World}.

Definition legal_call (c : ucall) (r : Rpc) : Prop :=
  match c with
  | UEnqueueRequest a =>
      req_legal r (mkEnqReqArgs (ea_session_num a) (ea_req_type a) (ea_req_msgbuf a)
        (ea_resp_msgbuf a) (ea_cont_func a) (ea_tag a) kInvalidBgETid)
  | UWrite _ _ => True
  | _ => False
  end.
Fixpoint legal (p : uprog) (r : Rpc) : Prop :=
  match p with
  | UDone => True
  | UGet k => legal (k r) r
  | UCall c k => legal_call c r /\ forall r', run_ucall c r = Ok tt r' -> legal k r'
  end.

Class ClientApp (A : App) : Prop :=
  app_cont_legal f tag r : client_inv r -> legal (app_cont f tag) r.
End Legal.

Section Resp.
Context {T : TTr} {TOk : TTrOk T} {Os : ShmOs} {C : RpcConf} {W : World} {WOk : WorldOk W}.

Lemma run_user_wp p : forall r,
  client_inv r -> legal p r -> wpe client_err (run_user p) (fun _ => client_inv) r.
Proof.
  induction p as [|k IH|c p IH]; intros r Hi Hl; cbn [run_user legal] in *; [by wp_step|by apply IH|].
  destruct Hl as [Hc Hk]. wp_step.
  assert (Hw : wpe client_err (run_ucall c) (fun _ => client_inv) r).
  { destruct c; cbn [legal_call run_ucall] in *; try done.
    - unfold enqueue_request, in_dispatch. do 2 wp_step. destruct Hi as [ents Hci].
      rewrite (cinv_etid _ _ Hci), Z.eqb_refl. cbv iota. apply enqueue_request_st_wp; [by exists ents|done].
    - unfold mem_mod. wp_step. eapply client_inv_still; [exact Hi|apply still_mem|done]. }
  unfold wpe in *. destruct (run_ucall c r) as [[] r'|e] eqn:E; [|done]. by apply IH; [|apply Hk].
Qed.

(** ** What the core of the invariant reads *)
Lemma CI_same_core g R R' :
  CI g R -> r_etid R' = r_etid R -> r_session_vec R' = r_session_vec R ->
  r_user_mb R' = r_user_mb R -> zlength (r_bg_req_queue_arr R') = zlength (r_bg_req_queue_arr R) ->
  r_ctrl_msgbufs R' = r_ctrl_msgbufs R -> CI g R'.
Proof.
  intros [? Hr Hs ? Hq Hn Hc ? He Hb ?] E1 E2 E3 E4 E5.
  assert (Es : forall sid, sess_at R' sid = sess_at R sid) by (intros; unfold sess_at; by rewrite E2).
  assert (El : forall s, slot_at R' s = slot_at R s) by (intros; unfold slot_at; by rewrite Es).
  assert (Ec : claims g R' = claims g R) by (unfold claims; by rewrite E2).
  split; rewrite ?E1, ?E3, ?E4, ?E5, ?Ec; try done.
  - intros sid se i sl. rewrite Es. apply Hr.
  - intros sid se. rewrite Es. apply Hs.
  - intros s Hs'. rewrite (El s). by apply Hq.
  - intros e He'. rewrite (El (we_sslot e)). by apply He.
Qed.

(** ** The slot is freed *)
Lemma free_size (l : list Z) i n :
  NoDup l -> i ∉ l -> (forall j, j ∈ i :: l -> 0 <= j < n) -> zlength l < n.
Proof.
  intros Hnd Hi Hb.
  assert (Hsub : i :: l ⊆ Z.of_nat <$> seq 0 (Z.to_nat n)).
  { intros j Hj. apply Hb in Hj. apply list_elem_of_fmap. exists (Z.to_nat j).
    rewrite elem_of_seq. lia. }
  assert (Hnd' : NoDup (i :: l)) by (by apply NoDup_cons).
  apply (NoDup_submseteq _ _ Hnd'), submseteq_length in Hsub.
  rewrite length_fmap, length_seq in Hsub. unfold zlength. cbn [length] in Hsub.
  assert (0 <= i < n) by (apply Hb; by left). lia.
Qed.

Lemma act_idle R sid i se se' sl sl' s :
  sess_at R sid = Some se -> zlookup (sslot_arr_ se) i = Some sl ->
  sslot_arr_ se' = zinsert i sl' (sslot_arr_ se) -> tx_msgbuf_ sl' = None ->
  act (put_sess sid se' R) s <-> s <> (sid, i) /\ act R s.
Proof.
  intros Hse Hi Ea Ht. unfold act. rewrite (slot_at_put_sess _ _ _ _ _ Hse), Ea.
  destruct s as [a b]; cbn [fst snd]. rewrite (zlookup_zinsert _ _ _ _ _ Hi).
  destruct (decide (sid = a)) as [<-|Hne]; [destruct (decide (i = b)) as [<-|Hne]|].
  - split; [intros (y & [= <-] & _ & ?)|intros [? _]]; done.
  - unfold slot_at at 1. cbn [fst snd]. rewrite Hse. cbn. split; [|by intros [_ ?]].
    split; [congruence|done].
  - split; [|by intros [_ ?]]. split; [congruence|done].
Qed.

Lemma finish_cinv g r sid i se sl r2 se2 v l1 l2 :
  let s := (sid, i) in
  cinv g r -> active r s se sl -> g_x g = Some s -> g_bf g = None -> win sl = 0 ->
  0 < num_tx_ (client_info_ sl) -> near (put_slot s (idled sl) r) r2 -> dll r2 (l1 ++ l2) ->
  NoDup (l1 ++ s :: l2) -> (forall s', s' ∈ l1 ++ s :: l2 <-> act (nf r) s') ->
  sess_at r2 sid = Some se2 -> fv_ok v -> fv_list v = fv_list (sslot_free_vec_ se2) ++ [i] ->
  fv_capacity v = fv_capacity (sslot_free_vec_ se2) ->
  cinv (finishing sid g) (put_sess sid (se2 <| sslot_free_vec_ := v |>) r2).
Proof.
  intros s Hc Ha Hx Hbf Hw Htx N Hl Hnd Hact Hse2 Hv1 Hv2 Hv3.
  pose proof (active_ok _ _ _ _ _ Hc Ha) as Hf. pose proof (af_nth _ _ _ _ Hf) as Hi. cbn [snd s] in Hi.
  destruct Ha as [Hse H Hcl Ht]. cbn [fst s] in Hse. pose proof (sess_at_nf_Some _ _ _ Hse) as Hse'.
  pose proof (put_slot_sess (nf r) s (norm_se se) (norm_sl (idled sl)) Hse') as Eps.
  pose proof (put_slot_sess r s se (idled sl) Hse) as Eps'. cbn [fst snd s] in Eps, Eps'. fold s in Eps, Eps'.
  assert (Es2 : norm_se se2 = (norm_se se) <| sslot_arr_ ::= zinsert i (norm_sl (idled sl)) |>).
  { apply sess_at_nf_Some in Hse2. rewrite (nr_nf _ _ N), nf_put_slot in Hse2.
    rewrite Eps in Hse2.
    rewrite (sess_at_put _ _ _ _ _ Hse'), decide_True in Hse2 by done. by apply Some_inj in Hse2. }
  set (se3 := se2 <| sslot_free_vec_ := v |>).
  assert (Es3 : norm_se se3 = (norm_se se2) <| sslot_free_vec_ := v |>) by (by destruct se2).
  assert (En : nf (put_sess sid se3 r2) = put_sess sid (norm_se se3) (nf r)).
  { rewrite nf_put_sess, (nr_nf _ _ N), nf_put_slot, Eps.
    apply put_sess_put_sess. }
  assert (Eid : norm_sl (idled sl) = idled (norm_sl sl)) by (by destruct sl).
  assert (Ea : sslot_arr_ (norm_se se3) = zinsert i (idled (norm_sl sl)) (sslot_arr_ (norm_se se))).
  { rewrite Es3. transitivity (sslot_arr_ (norm_se se2)); [by destruct se2|]. rewrite Es2, Eid. done. }
  assert (Efv : sslot_free_vec_ se2 = sslot_free_vec_ se) by exact (f_equal sslot_free_vec_ Es2).
  assert (SS : finish_sess i (idled (norm_sl sl)) (norm_se se) (norm_se se3)).
  { rewrite Efv in Hv2, Hv3. split; [exact (f_equal role_ Es2)|exact Ea|exact Hv1|exact Hv2|exact Hv3| |].
    - exact (f_equal credits_ Es2).
    - exact (f_equal enq_req_backlog_ Es2). }
  destruct N as [_ N1 N2 N3 N4 N5]. rewrite Eps' in N1, N2, N4, N5.
  apply (cinv_change g (finishing sid g) r _ sid (norm_se se) (norm_se se3) (l1 ++ l2)); try done.
  - eapply (CI_finish g (nf r)); try done; [apply Hc|apply Hf].
  - intros j y Hy. rewrite Ea, (zlookup_zinsert _ _ _ _ _ Hi). case_decide; [|by eauto].
    subst j. rewrite Hi in Hy. injection Hy as <-. exists (idled (norm_sl sl)). split; [done|by destruct sl].
  - eapply dll_links; [|exact Hl]. apply same_links_put_sess with se2; [done|by destruct se2].
  - intros s'. rewrite (act_idle _ _ _ _ _ _ _ s' Hse' Hi Ea eq_refl), <- Hact.
    fold s. rewrite !elem_of_app, elem_of_cons.
    apply NoDup_app in Hnd as (_ & Hd & [Hs2 _]%NoDup_cons).
    split; [|tauto]. intros Hin. split; [|tauto]. intros ->.
    destruct Hin as [Hin|Hin]; [|done]. apply (Hd s Hin). by left.
Qed.

(** ** The backlog is served *)
Lemma backlog_start_pre sq ents r sid i se a q :
  let g := rest sq ents in
  cinv (finishing sid g) r -> sess_at r sid = Some se -> is_client se = true ->
  is_connected se = true -> fv_list (sslot_free_vec_ se) = [i] -> enq_req_backlog_ se = a :: q ->
  start_pre (finishing sid g) (popping sid (Some (sid, i)) g) r a sid i [] se.
Proof.
  intros g Hc Hse Hcl Hcon Hfv Hq. pose proof (cv_core _ _ Hc) as HC.
  pose proof (sess_at_nf_Some _ _ _ Hse) as Hse'.
  pose proof (CI_sess _ _ HC _ _ Hse' Hcl) as Hs.
  assert (Hargs : forall a', a' ∈ a :: q -> ea_session_num a' = sid /\ etid_ok (ea_cont_etid a')).
  { intros a' Ha'. apply (co_args _ _ _ _ Hs). change (a' ∈ enq_req_backlog_ se). by rewrite Hq. }
  assert (Hcp : args_claims a ++ claims (popping sid (Some (sid, i)) g) (nf r)
                ≡ₚ claims (finishing sid g) (nf r)).
  { eapply (claims_pop sq None (Some sid) ents sid (norm_se se)); try done. by intros ? [= <-]. }
  pose proof (CI_claims_nodup _ _ HC) as Hnd. rewrite <- Hcp in Hnd.
  assert (Hall : forall p, p ∈ args_claims a ++ claims (popping sid (Some (sid, i)) g) (nf r) ->
    claim_ok (r_user_mb r) p).
  { intros p. rewrite Hcp. apply (CI_claims _ _ HC). }
  split; try done.
  - apply Hargs. by left.
  - split; cbn; try done; [intros sid' [= <-]; by left|]. intros sid' l' Hne. by rewrite decide_False.
  - by right.
  - cbn. rewrite decide_True, Hq by done. intros a' Ha'. apply Hargs. by right.
  - apply Hargs. by left.
  - apply Hall. by left.
  - apply Hall. right. by left.
  - intros p Hp. apply Hall, elem_of_app. by right.
Qed.

(** [complete_request]'s middle part. *)
Definition serve_backlog (sid : Z) (v : FixedVector Z) (l : list enq_req_args_t) : MR unit :=
  match l with
  | [] => mret tt
  | args :: _ =>
      assert_ (fv_size v =? 1) "process_resp: free slots with a backlog";;
      enqueue_request args;;
      upd_session sid (fun se => se <| enq_req_backlog_ ::= tail |>)
  end.

Lemma cinv_backlog_end sq ents r sid se :
  cinv (finishing sid (rest sq ents)) r -> sess_at r sid = Some se -> is_client se = true ->
  enq_req_backlog_ se = [] -> cinv (rest sq ents) r.
Proof.
  intros (HC & Hb & Hw)%cinv_parts Hse Hcl Hq. apply cinv_parts. split_and!; [|done|done].
  eapply CI_no_backlog; [exact HC|by apply sess_at_nf_Some|done|done].
Qed.

Lemma cinv_backlog_pop sq ents r sid se a q :
  cinv (popping sid None (rest sq ents)) r -> sess_at r sid = Some se -> is_client se = true ->
  enq_req_backlog_ se = a :: q ->
  cinv (rest sq ents) (put_sess sid (se <| enq_req_backlog_ ::= tail |>) r).
Proof.
  intros Hc Hse Hcl Hq. pose proof (sess_at_nf_Some _ _ _ Hse) as Hse'.
  destruct (cv_list _ _ Hc) as (l & Hl & Hact). set (r' := put_sess _ _ r).
  assert (En : nf r' = put_sess sid (set_backlog q (norm_se se)) (nf r)).
  { unfold r'. rewrite nf_put_sess. f_equal. destruct se; cbn in *. by rewrite Hq. }
  eapply (cinv_change _ (rest sq ents) r r' _ _ _ l Hc Hse' En); try done.
  - eapply CI_pop_backlog; [apply Hc|done..].
  - intros i sl Hi. exists sl. by destruct se.
  - eapply dll_links; [|exact Hl]. apply same_links_put_sess with se; [done|by destruct se].
  - intros s. rewrite Hact. unfold act. rewrite (slot_at_put_sess _ _ _ _ _ Hse').
    case_decide as D; [|done]. unfold slot_at. by rewrite <- D, Hse'.
Qed.

Lemma serve_backlog_wp ents r sid i se :
  cinv (finishing sid (rest (r_stallq r) ents)) r -> sess_at r sid = Some se ->
  is_client se = true -> is_connected se = true ->
  (enq_req_backlog_ se = [] \/ fv_list (sslot_free_vec_ se) = [i]) -> fv_ok (sslot_free_vec_ se) ->
  wpe client_err (serve_backlog sid (sslot_free_vec_ se) (enq_req_backlog_ se))
    (fun _ => client_inv) r.
Proof.
  intros Hc Hse Hcl Hcon Hfv Hok. destruct (enq_req_backlog_ se) as [|a q] eqn:Hq; cbn [serve_backlog].
  - wp_step. exists ents. by eapply cinv_backlog_end.
  - destruct Hfv as [?|Hfv]; [done|]. wp_step.
    wp_step; [by rewrite (fv_size_length _ Hok), Hfv|].
    unfold enqueue_request, in_dispatch. wp_step. do 2 wp_step.
    rewrite (cinv_etid _ _ Hc), Z.eqb_refl. cbv iota.
    pose proof (backlog_start_pre _ _ _ _ _ _ _ _ Hc Hse Hcl Hcon Hfv Hq) as P.
    eapply wp_mono; [by eapply enqueue_start_wp|]. cbn.
    intros _ r' ((sq & Hsq & [e Hc']) & se' & Hse' & Hb' & Hcl'). rewrite Hq in Hb'.
    eapply wp_upd_session; [exact Hse'|]. exists e.
    change (cinv (popping sid None (rest sq e)) r') in Hc'.
    set (r2 := put_sess _ _ r'). assert (Est : r_stallq r2 = r_stallq r') by done. rewrite Est.
    assert (E : r_stallq r' = sq) by (destruct Hsq as [[-> ->]|[-> ->]]; done). rewrite E.
    by eapply cinv_backlog_pop.
Qed.

(** ** The continuation *)
Lemma client_inv_noise r r' :
  client_inv r -> still r r' -> r_tx_batch r' = r_tx_batch r -> client_inv r'.
Proof.
  intros [ents Hc] S E. exists ents. replace (r_stallq r') with (r_stallq r) by (symmetry; apply S).
  by eapply cinv_noise.
Qed.

Lemma client_inv_etid r : client_inv r -> r_etid r = c_creator_etid.
Proof. intros [ents Hc]. by eapply cinv_etid. Qed.

Lemma push_bg_wp e wi r :
  client_inv r -> 0 <= e < c_num_bg_threads ->
  wpe client_err (push_bg e wi) (fun _ => client_inv) r.
Proof.
  intros [ents Hc] He. pose proof (CI_bg _ _ (cv_core _ _ Hc)) as Hq.
  change (c_num_bg_threads <= zlength (r_bg_req_queue_arr r)) in Hq.
  destruct (zlookup_is_Some (r_bg_req_queue_arr r) e) as [l Hl]; [lia|].
  unfold push_bg. do 2 wp_step. wp_step. eapply wp_deref; [done|]. wp_step.
  exists ents. destruct Hc as [HC (k & Hk & Hact) Ht Hh Hw]. split; try done.
  - eapply CI_same_core; [exact HC|done..| |done]. apply zlength_zinsert.
  - exists k. split; [|exact Hact]. eapply dll_links; [|exact Hk]. by intros a.
Qed.

(** [call_cont] or [submit_bg_resp_st]. *)
Lemma cont_wp {A : App} {AOk : ClientApp A} e f tag r :
  client_inv r -> etid_ok e ->
  wpe client_err (if e =? kInvalidBgETid then call_cont f tag else submit_bg_resp_st f tag e)
    (fun _ => client_inv) r.
Proof.
  intros Hi He. destruct (e =? kInvalidBgETid) eqn:E; cbv iota.
  - unfold call_cont, emit. wp_step. wp_step. set (r1 := update r_trace _ r).
    assert (Hi1 : client_inv r1) by (eapply client_inv_noise; [exact Hi|apply still_trace|done]).
    apply run_user_wp; [done|]. by apply app_cont_legal.
  - apply Z.eqb_neq in E. destruct He as [?|He]; [done|]. unfold submit_bg_resp_st.
    wp_step. apply wp_assert_dispatch; [by apply client_inv_etid|].
    wp_step. wp_step; [lia|]. wp_step. wp_step; [lia|]. by apply push_bg_wp.
Qed.

(** ** [complete_request] *)

(** The slot and its session, taken off the list. *)
Record freed (r r2 : Rpc) (s : sref) (se : Session) (sl : SSlot) (se2 : Session) : Prop := {
  fr_sess : sess_at r2 s.1 = Some se2;
  fr_slot : exists sl2, slot_at r2 s = Some sl2 /\ index_ sl2 = index_ sl;
  fr_fv : sslot_free_vec_ se2 = sslot_free_vec_ se;
  fr_backlog : enq_req_backlog_ se2 = enq_req_backlog_ se;
  fr_state : state_ se2 = state_ se;
  fr_role : role_ se2 = role_ se;
}.

Lemma freed_intro r r2 s se sl :
  sess_at r s.1 = Some se -> slot_at r s = Some sl -> near (put_slot s (idled sl) r) r2 ->
  exists se2, freed r r2 s se sl se2.
Proof.
  intros Hse H N.
  assert (Hse2n : sess_at (nf r2) s.1 = Some (norm_se (se <| sslot_arr_ ::= zinsert s.2 (idled sl) |>))).
  { rewrite (nr_nf _ _ N). apply sess_at_nf_Some.
    rewrite (sess_at_put_slot _ s _ _ _ Hse). by rewrite decide_True. }
  destruct (nf_sess _ _ _ Hse2n) as (se2 & Hse2 & Es2).
  assert (H2n : slot_at (nf r2) s = Some (norm_sl (idled sl))).
  { rewrite (nr_nf _ _ N). apply slot_at_nf_Some.
    by rewrite (slot_at_put_slot _ s _ _ _ H), decide_True. }
  destruct (nf_slot _ _ _ H2n) as (sl2 & H2 & El2). exists se2. split; [done| | | | |].
  - exists sl2. split; [done|]. exact (f_equal index_ El2).
  - pose proof (f_equal sslot_free_vec_ Es2) as E; by destruct se.
  - pose proof (f_equal enq_req_backlog_ Es2) as E; by destruct se.
  - pose proof (f_equal state_ Es2) as E; by destruct se.
  - pose proof (f_equal role_ Es2) as E; by destruct se.
Qed.

Lemma unlink_wp g r s se sl :
  cinv g r -> active r s se sl ->
  wpe client_err (upd_sslot s (fun sl => sl <| tx_msgbuf_ := None |>);; delete_from_active_rpc_list s)
    (fun _ r2 => near (put_slot s (idled sl) r) r2 /\ exists l1 l2, dll r2 (l1 ++ l2) /\
       NoDup (l1 ++ s :: l2) /\ forall s', s' ∈ l1 ++ s :: l2 <-> act (nf r) s') r.
Proof.
  intros Hc [Hse H Hcl Ht]. pose proof (slot_at_nf_Some _ _ _ H) as H'.
  destruct (cv_list _ _ Hc) as (lact & Hl & Hact).
  assert (Hin : s ∈ lact).
  { apply Hact. exists (norm_sl sl). split; [exact H'|]. by split. }
  destruct (list_elem_of_split _ _ Hin) as (l1 & l2 & El). subst lact.
  wp_step. eapply wp_upd_sslot; [exact H|]. set (r1 := put_slot s _ r).
  eapply wp_mono; [apply (delete_from_active_wp r1 s l1 l2)|].
  { eapply dll_links; [|exact Hl]. by apply (same_links_put_slot r s sl). }
  { intros s' Hs'. unfold r1. rewrite (slot_at_put_slot _ _ _ _ _ H).
    case_decide; [by eexists|]. by apply (act_clients _ _ Hact). }
  cbn. intros _ r2 [N Hl2]. split; [done|]. exists l1, l2. split; [done|]. split; [apply Hl|done].
Qed.

(** The free vector has room for the slot. *)
Lemma free_room g r s se sl :
  cinv g r -> active r s se sl -> fv_ok (sslot_free_vec_ se) /\ index_ sl = s.2 /\
    fv_size (sslot_free_vec_ se) < fv_capacity (sslot_free_vec_ se).
Proof.
  intros Hc Ha. pose proof (active_ok _ _ _ _ _ Hc Ha) as Hf. destruct Ha as [Hse H Hcl Ht].
  pose proof (CI_sess _ _ (cv_core _ _ Hc) _ _ (sess_at_nf_Some _ _ _ Hse) (af_client _ _ _ _ Hf)) as Hs.
  pose proof (af_nth _ _ _ _ Hf) as Hn. pose proof (co_fv _ _ _ _ Hs) as Hfv.
  change (fv_ok (sslot_free_vec_ se)) in Hfv. split; [done|]. split.
  { exact (so_index _ _ _ _ (co_slot _ _ _ _ Hs _ _ Hn)). }
  pose proof (co_cap _ _ _ _ Hs) as Hcap.
  change (fv_capacity (sslot_free_vec_ se) = kSessionReqWindow) in Hcap.
  rewrite Hcap, fv_size_length by done. apply (free_size _ s.2); [exact (co_nodup _ _ _ _ Hs)| |].
  - intros (y & Hy & E)%(co_free _ _ _ _ Hs). rewrite Hn in Hy. injection Hy as <-. done.
  - rewrite <- (co_len _ _ _ _ Hs). intros j [->|Hj]%elem_of_cons; [by eapply zlookup_lt|].
    destruct (proj1 (co_free _ _ _ _ Hs j) Hj) as (y & Hy & _). by eapply zlookup_lt.
Qed.

Lemma wp_assoc {S E B} (m n : M S unit) (k : M S B) Q s :
  wpe E ((m;; n);; k) Q s -> wpe E (m;; n;; k) Q s.
Proof. unfold wpe, base.mbind, M_bind. by destruct (m s). Qed.

(** Freeing the slot, up to the backlog. *)
Lemma free_slot_wp ents r sid i se sl (Q : unit -> Rpc -> Prop) m :
  let s := (sid, i) in
  cinv (with_x (Some s) (rest (r_stallq r) ents)) r -> active r s se sl -> win sl = 0 ->
  0 < num_tx_ (client_info_ sl) ->
  (forall r3 se3, cinv (finishing sid (rest (r_stallq r) ents)) r3 -> r_stallq r3 = r_stallq r ->
     sess_at r3 sid = Some se3 -> is_client se3 = true -> state_ se3 = state_ se ->
     fv_ok (sslot_free_vec_ se3) ->
     (enq_req_backlog_ se3 = [] \/ fv_list (sslot_free_vec_ se3) = [i]) ->
     wpe client_err (m se3) Q r3) ->
  wpe client_err (
    upd_sslot s (fun sl => sl <| tx_msgbuf_ := None |>);;
    delete_from_active_rpc_list s;;
    se ← get_session sid;
    sl ← get_sslot s;
    v ← fv_push_back (index_ sl) (sslot_free_vec_ se);
    upd_session sid (fun se => se <| sslot_free_vec_ := v |>);;
    m (se <| sslot_free_vec_ := v |>)) Q r.
Proof.
  intros s Hc Ha Hw Htx HQ. pose proof (active_ok _ _ _ _ _ Hc Ha) as Hf.
  destruct (free_room _ _ _ _ _ Hc Ha) as (Hfv & Ei & Hroom). cbn [snd s] in Ei.
  pose proof (sess_at_nf_Some _ _ _ (ac_sess _ _ _ _ Ha)) as Hse'.
  pose proof (CI_sess _ _ (cv_core _ _ Hc) _ _ Hse' (af_client _ _ _ _ Hf)) as Hs.
  apply wp_assoc. wp_step. eapply wp_mono; [by eapply unlink_wp|]. cbn. intros _ r2 (N & l1 & l2 & Hl2 & Hnd & Hact).
  destruct (freed_intro _ _ _ _ _ (ac_sess _ _ _ _ Ha) (ac_slot _ _ _ _ Ha) N)
    as (se2 & [Hse2 (sl2 & H2 & Ei2) Efv Eq Est Er]). cbn [fst s] in Hse2.
  wp_step. eapply wp_get_session; [exact Hse2|]. wp_step. eapply wp_get_sslot; [exact H2|].
  wp_step. eapply fv_push_back_wp; [by rewrite Efv|rewrite Efv; exact Hroom|].
  rewrite Efv, Ei2, Ei. intros v Hv1 Hv2 Hv3. wp_step. eapply wp_upd_session; [exact Hse2|].
  apply HQ; try (by destruct se2).
  - eapply (finish_cinv (with_x (Some s) (rest (r_stallq r) ents)) r sid i se sl r2 se2 v l1 l2);
      try done; by rewrite Efv.
  - transitivity (r_stallq r2); [done|]. rewrite (nr_stallq _ _ N).
    by rewrite (put_slot_sess _ s _ _ (ac_sess _ _ _ _ Ha)).
  - by rewrite (sess_at_put _ _ _ _ _ Hse2), decide_True.
  - transitivity (is_client se2); [by destruct se2|]. unfold is_client. rewrite Er. apply Hf.
  - change (enq_req_backlog_ se2 = [] \/ fv_list v = [i]). rewrite Eq, Hv2.
    destruct (co_backlog _ _ _ _ Hs) as [?|[Hb|Hb]]; [done|by left|right].
    change (fv_list (sslot_free_vec_ se) = []) in Hb. by rewrite Hb.
Qed.

(** All packets of the request have been received. *)
Lemma complete_request_wp {A : App} {AOk : ClientApp A} ents r s se sl :
  cinv (with_x (Some s) (rest (r_stallq r) ents)) r -> active r s se sl -> win sl = 0 ->
  0 < num_tx_ (client_info_ sl) -> is_connected se = true ->
  wpe client_err (complete_request s) (fun _ => client_inv) r.
Proof.
  intros Hc Ha Hw Htx Hcon. destruct s as [sid i]. pose proof Ha as [Hse H Hcl Ht].
  pose proof (slot_at_nf_Some _ _ _ H) as H'.
  destruct (no_window_no_bits _ _ _ _ (cv_core _ _ Hc) H' Hcl Hw) as [Hwc _].
  destruct (CI_slot _ _ _ _ (cv_core _ _ Hc) H' Hcl) as (_ & _ & _ & _ & _ & Hok).
  pose proof (so_etid _ _ _ _ Hok Ht) as He.
  unfold complete_request. wp_step. eapply wp_get_ci; [done..|]. wp_step. wp_step.
  { change (wheel_count_ (client_info_ sl) = 0) in Hwc. by rewrite Hwc. }
  apply (free_slot_wp ents r sid i se sl (fun _ => client_inv) (fun se3 =>
    serve_backlog sid (sslot_free_vec_ se3) (enq_req_backlog_ se3);;
    if cont_etid_ (client_info_ sl) =? kInvalidBgETid
    then call_cont (cont_func_ (client_info_ sl)) (tag_ (client_info_ sl))
    else submit_bg_resp_st (cont_func_ (client_info_ sl)) (tag_ (client_info_ sl))
           (cont_etid_ (client_info_ sl)))); [done..|].
  intros r3 se3 Hc3 Hst Hse3 Hcl3 Hstate Hfv3 Hb3. rewrite <- Hst in Hc3.
  wp_step. eapply wp_mono; [eapply serve_backlog_wp; try done|].
  - unfold is_connected in *. by rewrite Hstate.
  - cbn. intros _ r4 Hi4. by apply cont_wp.
Qed.
End Resp.
