(* ===== verification/ClientRecv.v ===== *)
(** * The client's invariant: response packets

    [process_resp_one_st]: the response buffer is resized by the first response
    packet, requests for response are sent for the rest, and the last packet
    completes the request. *)
From S2P Require Import Prelude Config HugeAlloc PktHdr Msg SmTypes Timer Timely MemPool TimingWheel WheelChain WheelSpec Session RpcState RpcBase RpcTx RpcApi RpcRx RpcWp ClientInv ClientLemmas ClientSteps ClientReq ClientFin ClientTx ClientKick ClientSend ClientQueue ClientList ClientLoss ClientStart ClientRx ClientResp.

Section Recv.
Context {T : TTr} {TOk : TTrOk T} {Os : ShmOs} {C : RpcConf} {W : World} {WOk : WorldOk W}.

(** ** Resizing the response buffer *)
Lemma num_pkts_mono d d' : d <= d' -> data_size_to_num_pkts d <= data_size_to_num_pkts d'.
Proof.
  intros H. pose proof ttr_data_pos. pose proof (data_size_to_num_pkts_pos d').
  unfold data_size_to_num_pkts at 1. case_match eqn:E; [lia|]. apply Z.leb_gt in E.
  unfold data_size_to_num_pkts. replace (d' <=? kMaxDataPerPkt) with false by lia.
  apply Z.div_le_mono; lia.
Qed.

Definition resized (n : Z) (mb : MsgBuffer) : MsgBuffer :=
  mb <| data_size_ := n |> <| num_pkts_ := data_size_to_num_pkts n |>.

Lemma umb_resized n mb : umb_ok mb -> 0 <= n <= max_data_size_ mb -> umb_ok (resized n mb).
Proof. intros [] Hn. by split. Qed.

Lemma resize_wp {S E} n mb (Q : MsgBuffer -> S -> Prop) s :
  umb_ok mb -> 0 <= n <= max_data_size_ mb -> Q (resized n mb) s ->
  wpe E (resize_msg_buffer mb n) Q s.
Proof.
  intros Hmb Hn HQ. unfold resize_msg_buffer, resize. wp_step. wp_step; [lia|].
  wp_step. wp_step; [lia|]. wp_step. wp_step; [|by wp_step].
  rewrite (um_maxp _ Hmb). apply Z.leb_le, num_pkts_mono. lia.
Qed.

(** The state with the buffer of an exempt slot resized. *)
Lemma cinv_resize g r s se sl n mb :
  cinv g r -> active r s se sl -> g_x g = Some s ->
  resp_msgbuf_ (client_info_ sl) = Some (MbUser n) -> umb_ok mb ->
  num_tx_ (client_info_ sl) <=
    total (npk (r_user_mb r) (tx_msgbuf_ sl)) (num_pkts_ mb) (num_rx_ (client_info_ sl)) ->
  cinv g (r <| r_user_mb ::= <[n := mb]> |>).
Proof.
  intros (HC & [(l & Hl & Hact) [Ht1 Ht2] Hh] & Hw)%cinv_parts Ha Hx Hr Hmb Htot.
  apply cinv_parts. split_and!; [| |done].
  - change (CI g (set_ub n mb (nf r))).
    eapply CI_resize; [exact HC|apply slot_at_nf_Some, Ha|apply Ha|apply Ha|done..].
  - split; [| |done].
    + exists l. split; [|exact Hact]. eapply dll_links; [|exact Hl]. by intros a.
    + split; [done|]. eapply Forall_impl; [exact Ht2|]. intros it (H1 & (p & mb' & H2 & H3) & H4).
      split_and!; [exact H1| |exact H4]. destruct p as [m|s'|s'|i].
      * destruct (decide (m = n)) as [->|Hne]; [exists (MbUser n), mb|exists (MbUser m), mb'];
          (split; [done|]).
        { exact (lookup_insert_eq (r_user_mb r) n mb). }
        transitivity (r_user_mb r !! m); [|exact H3].
        by apply (lookup_insert_ne (r_user_mb r)).
      * exists (MbPre s'), mb'. by split.
      * exists (MbDyn s'), mb'. by split.
      * exists (MbCtrl i), mb'. by split.
Qed.

Lemma resize_mb_wp g r s se sl p mb sz (Q : unit -> Rpc -> Prop) :
  cinv g r -> active r s se sl -> g_x g = Some s ->
  resp_msgbuf_ (client_info_ sl) = Some p -> mb_at r p = Some mb ->
  0 <= sz <= max_data_size_ mb ->
  num_tx_ (client_info_ sl) <= total (npk (r_user_mb r) (tx_msgbuf_ sl))
    (data_size_to_num_pkts sz) (num_rx_ (client_info_ sl)) ->
  (forall r', cinv g r' -> active r' s se sl -> r_stallq r' = r_stallq r ->
     mb_at r' p = Some (resized sz mb) ->
     npk (r_user_mb r') (tx_msgbuf_ sl) = npk (r_user_mb r) (tx_msgbuf_ sl) -> Q tt r') ->
  wpe client_err (resize_mb p sz) Q r.
Proof.
  intros Hc Ha Hx Hr Hm Hsz Htot HQ. pose proof (active_ok _ _ _ _ _ Hc Ha) as Hf.
  destruct (af_bufs _ _ _ _ Hf) as (n & mb1 & n' & mb' & Ep & Hn & _ & Eq & Hn' & Hmb').
  rewrite Hr in Eq. injection Eq as ->. cbn in Hm. rewrite Hn' in Hm. injection Hm as ->.
  unfold resize_mb. wp_step. eapply wp_get_mb; [exact Hn'|]. wp_step.
  apply resize_wp; [done..|]. eapply wp_set_mb; [exact Hn'|]. cbn [put_mb].
  apply HQ; try done.
  - eapply cinv_resize; try done. by apply umb_resized.
  - destruct Ha. by split.
  - exact (lookup_insert_eq (r_user_mb r) n' _).
  - change (npk (<[n' := resized sz mb]> (r_user_mb r)) (tx_msgbuf_ sl) = npk (r_user_mb r) (tx_msgbuf_ sl)).
    apply npk_insert. rewrite Ep. intros [= ->].
    pose proof (ac_slot _ _ _ _ Ha) as H. apply slot_at_nf_Some in H.
    destruct (other_bufs g (nf r) s s (norm_sl sl) (norm_sl sl) n' (cv_core _ _ Hc) H
      (ac_client _ _ _ _ Ha) (ac_tx _ _ _ _ Ha) Hr H (ac_client _ _ _ _ Ha) (ac_tx _ _ _ _ Ha))
      as [Hd _]. by apply Hd.
Qed.

(** ** Response packets *)

(** A response packet is numbered from the request's last packet on. The first
    one fits the response buffer; whether it is the only one follows from the
    size, which all the packets carry. *)
Record resp_fits (r : Rpc) (sl : SSlot) (h : pkthdr_t) : Prop := {
  rf_pos : 0 <= msg_size_ h;
  rf_num : npk (r_user_mb r) (tx_msgbuf_ sl) - 1 <= pkt_num_ h;
  rf_small : msg_size_ h <= kMaxDataPerPkt -> pkt_num_ h = npk (r_user_mb r) (tx_msgbuf_ sl) - 1;
  rf_first p mb : pkt_num_ h = npk (r_user_mb r) (tx_msgbuf_ sl) - 1 ->
    resp_msgbuf_ (client_info_ sl) = Some p -> mb_at r p = Some mb -> msg_size_ h <= max_data_size_ mb;
}.
Definition resp_conforms (r : Rpc) (s : sref) (h : pkthdr_t) : Prop :=
  exists se sl, sess_at r s.1 = Some se /\ slot_at r s = Some sl /\ is_client_ sl = true /\
    is_connected se = true /\ req_num_ h <= cur_req_num_ sl /\
    (in_order sl h -> resp_fits r sl h).

(** The slot after an in-order response packet. *)
Record resp_rx (g : ghost) (r : Rpc) (s : sref) (se : Session) (sl : SSlot) (p : mbptr)
    (mb : MsgBuffer) (N : Z) (h : pkthdr_t) : Prop := {
  rr_inv : cinv g r;
  rr_active : active r s se sl;
  rr_x : g_x g = Some s;
  rr_sq : s ∉ g_sq g;
  rr_conn : is_connected se = true;
  rr_resp : resp_msgbuf_ (client_info_ sl) = Some p;
  rr_mb : mb_at r p = Some mb;
  rr_n : N = npk (r_user_mb r) (tx_msgbuf_ sl);
  rr_rx : num_rx_ (client_info_ sl) = pkt_num_ h + 1;
  rr_credits : 0 < credits_ se;
  rr_last : N <= num_rx_ (client_info_ sl);
  rr_tx : pkt_num_ h = N - 1 -> num_tx_ (client_info_ sl) = N;
  rr_size : 0 <= msg_size_ h;
  rr_small : msg_size_ h <= kMaxDataPerPkt -> pkt_num_ h = N - 1;
  rr_first : pkt_num_ h = N - 1 -> msg_size_ h <= max_data_size_ mb;
}.

Lemma resp_mb g r s se sl :
  cinv g r -> active r s se sl ->
  exists p mb, resp_msgbuf_ (client_info_ sl) = Some p /\ mb_at r p = Some mb /\ umb_ok mb /\
    npk (r_user_mb r) (resp_msgbuf_ (client_info_ sl)) = num_pkts_ mb.
Proof.
  intros Hc Ha. destruct (af_bufs _ _ _ _ (active_ok _ _ _ _ _ Hc Ha))
    as (n & mb1 & n' & mb' & _ & _ & _ & Eq & Hn' & Hmb').
  exists (MbUser n'), mb'. split_and!; [done..|]. by rewrite Eq, (npk_user _ _ _ Hn').
Qed.

(** Copying the packet's data is noise. *)
Lemma rr_mem g r s se sl p mb N h f :
  resp_rx g r s se sl p mb N h -> resp_rx g (r <| r_mem ::= f |>) s se sl p mb N h.
Proof.
  intros []. split; try done; [|by destruct rr_active0].
  eapply cinv_noise; [done|apply still_mem|done].
Qed.

Lemma rr_resize g r s se sl p mb N h (Q : unit -> Rpc -> Prop) :
  resp_rx g r s se sl p mb N h -> pkt_num_ h = N - 1 ->
  (forall r', resp_rx g r' s se sl p (resized (msg_size_ h) mb) N h -> r_stallq r' = r_stallq r -> Q tt r') ->
  wpe client_err (resize_mb p (msg_size_ h)) Q r.
Proof.
  intros [] Hp HQ. specialize (rr_tx0 Hp). specialize (rr_first0 Hp).
  eapply resize_mb_wp; try done.
  - rewrite rr_tx0, <- rr_n0. unfold total. pose proof (data_size_to_num_pkts_pos (msg_size_ h)).
    replace (_ <? _) with false by lia. lia.
  - intros r' Hc' Ha' Hs' Hm' Hn'. apply HQ; [|done]. split; try done. congruence.
Qed.

Lemma copy_small_resp_wp g r s se sl p pkt mb N h (Q : unit -> Rpc -> Prop) :
  resp_rx g r s se sl p mb N h -> msg_size_ h <= kMaxDataPerPkt ->
  (forall r' mb', resp_rx g r' s se sl p mb' N h -> r_stallq r' = r_stallq r -> Q tt r') ->
  wpe client_err (copy_small_resp p pkt h) Q r.
Proof.
  intros R Hsz HQ. unfold copy_small_resp. wp_step.
  eapply rr_resize; [exact R|by apply (rr_small _ _ _ _ _ _ _ _ _ R)|]. intros r1 R1 Hs1.
  wp_step. eapply wp_get_mb; [apply R1|]. unfold mem_mod. wp_step. wp_step. wp_step.
  eapply HQ; [by do 2 eapply rr_mem|done].
Qed.

(** The rest of [large_resp_one], after the first packet's special case. *)
Lemma large_resp_rest_wp g r s se sl p mb req N h (f : MsgBuffer -> Mem -> Mem) :
  resp_rx g r s se sl p mb N h -> num_pkts_ req = N -> umb_ok req ->
  wpe client_err (resp ← get_mb p;
    ci ← get_ci s;
    when (negb (num_tx_ ci =? wire_pkts req resp)) (kick_rfr_st s);;
    mem_mod (f resp);;
    mret (num_rx_ ci =? wire_pkts req resp))
    (fun b r' => r_stallq r' = r_stallq r /\
       if b then exists mb', resp_rx g r' s se sl p mb' N h /\
                   num_tx_ (client_info_ sl) = num_rx_ (client_info_ sl)
       else cinv_e (with_x None g) r') r.
Proof.
  intros R Hreq Hok. pose proof R as []. pose proof (active_ok _ _ _ _ _ rr_inv0 rr_active0) as Hf.
  destruct (resp_mb _ _ _ _ _ rr_inv0 rr_active0) as (p' & mb' & Ep & Em & Hmb & Hnp).
  rewrite rr_resp0 in Ep. injection Ep as <-. rewrite rr_mb0 in Em. injection Em as <-.
  pose proof (af_tx _ _ _ _ Hf) as Htx. pose proof (af_rx _ _ _ _ Hf) as Hrx.
  assert (Etot : tot (r_user_mb r) sl = wire_pkts req mb).
  { rewrite wire_pkts_value by done. unfold tot, total. rewrite Hnp, <- rr_n0, Hreq.
    by replace (_ <? _) with false by lia. }
  wp_step. eapply wp_get_mb; [done|]. wp_step. eapply wp_get_ci; [apply rr_active0..|].
  rewrite <- Etot. wp_step. destruct (num_tx_ (client_info_ sl) =? tot (r_user_mb r) sl) eqn:E; cbn [negb when].
  - apply Z.eqb_eq in E. wp_step. unfold mem_mod. do 3 wp_step. split; [done|].
    case_match eqn:E'.
    + apply Z.eqb_eq in E'. exists mb. split; [by apply rr_mem|lia].
    + apply Z.eqb_neq in E'. eapply cinv_unexempt; [|exact (rr_active _ _ _ _ _ _ _ _ _ (rr_mem _ _ _ _ _ _ _ _ _ _ R))|done|lia].
      apply cinv_e_intro. by apply (rr_mem _ _ _ _ _ _ _ _ _ _ R).
  - apply Z.eqb_neq in E. eapply wp_mono; [eapply kick_rfr_st_wp; try done; lia|].
    cbn. intros _ r1 (Hc1 & S1). unfold mem_mod. do 3 wp_step.
    replace (num_rx_ (client_info_ sl) =? tot (r_user_mb r) sl) with false by lia.
    split; [exact (sn_stallq _ _ _ _ S1)|].
    destruct (sent_unexempt _ _ _ _ _ _ _ Hc1 rr_x0 rr_active0 S1) as [e Hc2]; [lia|lia|].
    exists e. eapply cinv_noise; [exact Hc2|apply still_mem|done].
Qed.

Lemma large_resp_one_wp g r s se sl p pkt mb N h :
  resp_rx g r s se sl p mb N h ->
  wpe client_err (large_resp_one s p pkt h) (fun b r' => r_stallq r' = r_stallq r /\
       if b then exists mb', resp_rx g r' s se sl p mb' N h /\
                   num_tx_ (client_info_ sl) = num_rx_ (client_info_ sl)
       else cinv_e (with_x None g) r') r.
Proof.
  intros R. pose proof R as []. pose proof (active_ok _ _ _ _ _ rr_inv0 rr_active0) as Hf.
  destruct (af_bufs _ _ _ _ Hf) as (n & req & _ & _ & Eq & Hn & Hreq & _).
  assert (EN : num_pkts_ req = N) by (by rewrite rr_n0, Eq, (npk_user _ _ _ Hn)).
  pose proof (umb_pkts _ Hreq) as Hpk. change (2 ^ 13) with 8192 in Hpk.
  unfold large_resp_one. wp_step. eapply wp_get_sslot; [apply rr_active0|].
  wp_step. eapply wp_get_mb_opt; [exact Eq|exact Hn|]. wp_step.
  rewrite sub64_small, EN by lia. destruct (pkt_num_ h =? N - 1) eqn:E; cbn [when].
  - apply Z.eqb_eq in E. wp_step. eapply rr_resize; [exact R|done|]. intros r1 R1 Hs1.
    wp_step. eapply wp_get_mb; [apply R1|]. unfold mem_mod at 1. wp_step.
    set (r2 := update r_mem _ r1). assert (R2 : resp_rx g r2 s se sl p (resized (msg_size_ h) mb) N h)
      by (by apply rr_mem). assert (Hs2 : r_stallq r2 = r_stallq r) by exact Hs1. clearbody r2.
    eapply wp_mono; [by apply (large_resp_rest_wp g r2 s se sl p (resized (msg_size_ h) mb) req N h
      (fun resp => copy_data_to_msgbuf resp (resp_ntoi (pkt_num_ h) N) pkt))|].
    cbn beta. intros b r' [E' ?]. split; [by rewrite E'|done].
  - wp_step. by apply (large_resp_rest_wp g r s se sl p mb req N h
      (fun resp => copy_data_to_msgbuf resp (resp_ntoi (pkt_num_ h) N) pkt)).
Qed.

(** The in-order packet is accounted for. *)
Lemma rr_intro g r r1 s se0 se sl se2 sl2 r2 h :
  sess_at r s.1 = Some se0 -> is_connected se0 = true -> resp_fits r sl h -> in_order sl h ->
  still r r1 -> cinv g r1 -> active r1 s se sl -> s ∉ g_sq g ->
  cinv (with_x (Some s) g) r2 -> r_user_mb r2 = r_user_mb r1 -> active r2 s se2 sl2 ->
  rx_after se sl se2 sl2 ->
  exists p mb N, resp_msgbuf_ (client_info_ sl) = Some p /\
    resp_rx (with_x (Some s) g) r2 s se2 sl2 p mb N h.
Proof.
  intros Hse0 Hcon [Hp Hn Hsm Hfi] Hio S1 Hc1 Ha1 Hsq Hc2 Hub Ha2 [R1 R2 R3 R4 R5 R6].
  pose proof (active_ok _ _ _ _ _ Hc1 Ha1) as Hf1. pose proof (active_ok _ _ _ _ _ Hc2 Ha2) as Hf2.
  pose proof (active_npk _ _ _ _ Hf1) as [HN1 _]. pose proof (af_tx _ _ _ _ Hf1) as Htx.
  pose proof (af_credits _ _ _ _ Hf1) as Hcr. pose proof (still_ub _ _ S1) as Hub1.
  pose proof (io_pkt _ _ Hio) as Hpk. pose proof (io_sent _ _ Hio) as Hsent.
  destruct (af_bufs _ _ _ _ Hf2) as (n & mb1 & n' & mb' & _ & _ & _ & Eq & Hn' & Hmb').
  rewrite R6 in Eq. rewrite Hub1 in HN1.
  exists (MbUser n'), mb', (npk (r_user_mb r) (tx_msgbuf_ sl)). split; [done|].
  split; rewrite ?R3, ?R4, ?R5, ?R6, ?Hub, ?Hub1; try done; try lia.
  - unfold is_connected. rewrite R2.
    destruct (quiet_sess _ _ _ _ (sl_quiet _ _ S1) Hse0) as (se' & Hse' & Es).
    rewrite (ac_sess _ _ _ _ Ha1) in Hse'. injection Hse' as <-.
    pose proof (f_equal state_ Es) as E. cbn in E. rewrite E. exact Hcon.
  - intros E. unfold tot, total in Htx. rewrite Hub1 in Htx. case_match; lia.
  - intros E. apply (Hfi (MbUser n')); [done|done|]. cbn. by rewrite <- Hub1, <- Hub.
Qed.

Lemma rr_complete {A : App} {AOk : ClientApp A} ents r s se sl p mb N h sq :
  resp_rx (with_x (Some s) (rest sq ents)) r s se sl p mb N h -> r_stallq r = sq ->
  num_tx_ (client_info_ sl) = num_rx_ (client_info_ sl) ->
  wpe client_err (complete_request s) (fun _ => client_inv) r.
Proof.
  intros [] <- E. pose proof (active_npk _ _ _ _ (active_ok _ _ _ _ _ rr_inv0 rr_active0)) as [HN _].
  eapply complete_request_wp; [exact rr_inv0|exact rr_active0|unfold win; lia|lia|done].
Qed.

Lemma process_resp_one_wp {A : App} {AOk : ClientApp A} r s pkt tsc :
  client_inv r -> resp_conforms r s (m_hdr (r_mem r) pkt) ->
  wpe client_err (process_resp_one_st s pkt tsc) (fun _ => client_inv) r.
Proof.
  intros [ents Hc] (se0 & sl & Hse0 & H & Hcl & Hcon & Hreq & Hfits). unfold process_resp_one_st.
  wp_step. apply wp_assert_dispatch; [by eapply cinv_etid|]. wp_step. apply wp_hdr_at.
  set (h := m_hdr _ _) in *. clearbody h.
  wp_step. eapply wp_get_sslot; [exact H|]. wp_step. wp_step; [lia|].
  wp_step. eapply wp_mono; [by eapply in_order_client_wp|]. cbn. intros ok r1 (Hc1 & S1 & H1 & Hio).
  assert (Esq : r_stallq r1 = r_stallq r) by apply S1.
  destruct ok; cbn [negb]; [|wp_step; exists ents; by rewrite Esq].
  specialize (Hio eq_refl). specialize (Hfits Hio).
  destruct (in_order_active _ _ _ _ _ Hc1 H1 Hcl Hio) as [se Ha].
  assert (Hsq : s ∉ r_stallq r).
  { apply (flying_not_stalled _ _ _ _ _ Hc1 Ha). unfold win. pose proof (io_sent _ _ Hio). lia. }
  wp_step. eapply wp_get_ci; [done..|]. wp_step.
  destruct (resp_mb _ _ _ _ _ Hc1 Ha) as (p & _ & Ep & _). eapply wp_deref; [exact Ep|].
  wp_step. eapply wp_mono; [by eapply client_rx_update_wp|].
  cbn. intros _ r2 (Hc2 & _ & Hsq2 & Hub2 & se2 & sl2 & Ha2 & Hrx).
  destruct (rr_intro _ _ _ _ _ _ _ _ _ _ _ Hse0 Hcon Hfits Hio S1 Hc1 Ha Hsq Hc2 Hub2 Ha2 Hrx)
    as (p' & mb & N & Ep' & R). rewrite Ep in Ep'. injection Ep' as <-.
  assert (Esq2 : r_stallq r2 = r_stallq r) by congruence.
  wp_step. destruct (msg_size_ h <=? kMaxDataPerPkt) eqn:E.
  - apply Z.leb_le in E. wp_step. eapply copy_small_resp_wp; [exact R|done|].
    intros r3 mb' R3 Es3. wp_step. cbn [when]. eapply rr_complete; [exact R3|congruence|].
    rewrite (rr_rx _ _ _ _ _ _ _ _ _ R3). pose proof (rr_small _ _ _ _ _ _ _ _ _ R3 E) as E2.
    rewrite (rr_tx _ _ _ _ _ _ _ _ _ R3 E2). lia.
  - eapply wp_mono; [eapply large_resp_one_wp; exact R|]. cbn.
    intros [] r3 [Es3 H3]; cbn [when].
    + destruct H3 as (mb' & R3 & Et). eapply rr_complete; [exact R3|congruence|done].
    + wp_step. destruct H3 as [e H3]. exists e. rewrite Es3, Esq2. exact H3.
Qed.
End Recv.
