(* ===== verification/ClientInit.v ===== *)
(** * The client's invariant holds initially

    An endpoint without requests satisfies it: new sessions, empty queues, an
    empty list of active RPCs, an empty wheel. *)
From S2P Require Import Prelude Config HugeAlloc PktHdr Msg SmTypes Timer Timely MemPool TimingWheel WheelChain WheelSpec Session RpcState RpcBase RpcWp ClientInv ClientLemmas.

Section Init.
Context {T : TTr} {TOk : TTrOk T} {Os : ShmOs} {C : RpcConf}.

(** A session as its constructor leaves it, as far as flow control goes. *)
Record fresh_sess (se : Session) : Prop := {
  fse_slots : sslot_arr_ se = SSlot_init (role_ se) <$> [0; 1; 2; 3; 4; 5; 6; 7];
  fse_credits : credits_ se = kSessionCredits;
  fse_fv : fv_ok (sslot_free_vec_ se);
  fse_cap : fv_capacity (sslot_free_vec_ se) = kSessionReqWindow;
  fse_list : fv_list (sslot_free_vec_ se) = [7; 6; 5; 4; 3; 2; 1; 0];
  fse_backlog : enq_req_backlog_ se = [];
}.

Lemma Session_new_fresh {S E} role tok fr bw tsc (s : S) :
  wpe E (Session_new role tok fr bw tsc) (fun se s' => fresh_sess se /\ role_ se = role /\ s' = s) s.
Proof.
  apply Session_new_wp. intros se <- _ H1 H2 H3 H4 H5 H6. split; [|done]. by split.
Qed.

Lemma zlookup_8 {A} (f : Z -> A) i x :
  zlookup (f <$> [0; 1; 2; 3; 4; 5; 6; 7]) i = Some x <-> 0 <= i < 8 /\ x = f i.
Proof.
  split.
  - intros H. pose proof (zlookup_lt _ _ _ H) as Hi. change (zlength _) with 8 in Hi.
    split; [done|].
    assert (Hc : i = 0 \/ i = 1 \/ i = 2 \/ i = 3 \/ i = 4 \/ i = 5 \/ i = 6 \/ i = 7) by lia.
    destruct_or! Hc; subst; by injection H.
  - intros [Hi ->].
    assert (Hc : i = 0 \/ i = 1 \/ i = 2 \/ i = 3 \/ i = 4 \/ i = 5 \/ i = 6 \/ i = 7) by lia.
    by destruct_or! Hc; subst.
Qed.

Lemma slot_ok_init ents ub sid i r :
  slot_ok (rest [] ents) ub (sid, i) (SSlot_init r i).
Proof.
  split; try done; cbn; try lia.
  intros k H. unfold zlookup in H. case_match; [|done]. by apply lookup_replicate in H as [? _].
Qed.

Lemma csess_ok_fresh ents ub sid se :
  fresh_sess se -> csess_ok (rest [] ents) ub sid se.
Proof.
  intros [F1 F2 F3 F4 F5 F6]. split; rewrite ?F1, ?F2, ?F5, ?F6; try done.
  - intros i sl [Hi ->]%zlookup_8. apply slot_ok_init.
  - by apply (bool_decide_eq_true (NoDup [7; 6; 5; 4; 3; 2; 1; 0])).
  - intros i. rewrite !elem_of_cons, elem_of_nil. split.
    + intros Hi. exists (SSlot_init (role_ se) i). split; [|done]. apply zlookup_8. split; [lia|done].
    + intros (sl & [Hi _]%zlookup_8 & _). lia.
  - by right; left.
  - cbn. intros a Ha. by apply elem_of_nil in Ha.
Qed.

Lemma fresh_norm se : fresh_sess se -> fresh_sess (norm_se se).
Proof. intros []. split; try done. cbn. by rewrite fse_slots0. Qed.

(** An endpoint without requests. *)
Record idle_rpc (r : Rpc) : Prop := {
  id_etid : r_etid r = c_creator_etid;
  id_sess sid se : sess_at r sid = Some se -> fresh_sess se;
  id_stallq : r_stallq r = [];
  id_batch : r_tx_batch r = [];
  id_next : r_root_next r = Some ATail;
  id_prev : r_tail_prev r = Some ARoot;
  id_bg : c_num_bg_threads <= zlength (r_bg_req_queue_arr r);
  id_ctrl : zlength (r_ctrl_msgbufs r) = 2 * kUnsigBatch;
  id_head : 0 <= r_ctrl_msgbuf_head r < 2 * kUnsigBatch;
  id_wheel : wheel_ok [] r;
}.

Lemma fresh_no_claims sid se : fresh_sess se -> sess_claims (rest [] []) sid se = [].
Proof. intros [F1 _ _ _ _ F6]. unfold sess_claims. by rewrite F1, F6. Qed.

Lemma idle_no_claims r :
  (forall sid se, sess_at r sid = Some se -> fresh_sess se) -> claims (rest [] []) (nf r) = [].
Proof.
  intros H. unfold claims. apply concat_nil_Forall, Forall_lookup. intros i x.
  rewrite list_lookup_imap. destruct (r_session_vec (nf r) !! i) as [[se|]|] eqn:E; cbn;
    [|by intros [= <-]|done].
  intros [= <-]. apply fresh_no_claims.
  assert (Hs : sess_at (nf r) (Z.of_nat i) = Some se).
  { apply sess_at_lookup. unfold zlookup. rewrite (proj2 (Z.leb_le 0 (Z.of_nat i))) by lia.
    by rewrite Nat2Z.id. }
  rewrite sess_at_nf in Hs. destruct (sess_at r (Z.of_nat i)) as [se0|] eqn:E0; [|done].
  apply Some_inj in Hs. subst se. apply fresh_norm. by eapply H.
Qed.

Lemma client_inv_idle r : idle_rpc r -> client_inv r.
Proof.
  intros [H1 H2 H3 H4 H5 H6 H7 H8 H9 H10]. exists []. rewrite H3.
  assert (Hn : forall sid se, sess_at (nf r) sid = Some se -> fresh_sess se).
  { intros sid se. rewrite sess_at_nf. destruct (sess_at r sid) as [se0|] eqn:E; [|done].
    intros <-%Some_inj. by eapply fresh_norm, H2. }
  assert (Hslot : forall s sl, slot_at (nf r) s = Some sl -> exists ro, sl = SSlot_init ro s.2).
  { intros s sl (se & Hse & Hi)%slot_at_Some. rewrite (fse_slots _ (Hn _ _ Hse)) in Hi.
    apply zlookup_8 in Hi as [_ ->]. by eexists. }
  split; [| |by split; rewrite H4; [apply ttr_postlist_pos|constructor]|done|exact H10].
  - split; try done; cbn [rest g_sq g_ents].
    + intros sid se i sl Hse Hi. rewrite (fse_slots _ (Hn _ _ Hse)) in Hi.
      by apply zlookup_8 in Hi as [_ ->].
    + intros sid se Hse _. by eapply csess_ok_fresh, Hn.
    + constructor.
    + intros s Hs. by apply elem_of_nil in Hs.
    + rewrite idle_no_claims by done. constructor.
    + intros p. rewrite idle_no_claims by done. by intros ?%elem_of_nil.
    + constructor.
    + intros e He. by apply elem_of_nil in He.
  - exists []. split.
    + split; [constructor|]. by split.
    + intros s. split; [by intros ?%elem_of_nil|]. intros (sl & Hs & _ & Ht).
      by destruct (Hslot _ _ Hs) as [ro ->].
Qed.
End Init.
