(* ===== verification/ClientProps.v ===== *)
(** * Properties of the client

    The client's operations as one step relation, and what the invariant says
    about every state that can be reached: credits are conserved, requests make
    progress, no assertion fails, the loss scan terminates. *)
From S2P Require Import Prelude Config HugeAlloc PktHdr Msg SmTypes Timer Timely MemPool TimingWheel WheelChain WheelSpec Session RpcState RpcBase RpcTx RpcApi RpcRx RpcSm RpcLoop RpcWp ClientInv ClientLemmas ClientSteps ClientReq ClientFin ClientTx ClientKick ClientSend ClientQueue ClientList ClientLoss ClientStart ClientRx ClientResp ClientRecv ClientInit.

Section Props.
Context {T : TTr} {TOk : TTrOk T} {Os : ShmOs} {C : RpcConf} {W : World} {WOk : WorldOk W}.
Context {A : App} {AOk : ClientApp A}.

(** ** The operations *)
Inductive client_op :=
  | OpEnqueueRequest (a : enq_req_args_t)
  | OpResp (s : sref) (pkt rx_tsc : Z)      (* a packet for the slot, by its header's address *)
  | OpExplCr (s : sref) (pkt rx_tsc : Z)
  | OpStallQueue
  | OpWheel
  | OpTxBurst
  | OpLossScan
  | OpClock (now : Z)                       (* the event loop samples the clock *)
  | OpDma (f : Mem -> Mem).                 (* the NIC or the application writes memory *)

Definition run_op (o : client_op) : MR unit :=
  match o with
  | OpEnqueueRequest a => enqueue_request_st a
  | OpResp s pkt tsc => process_resp_one_st s pkt tsc
  | OpExplCr s pkt tsc => process_expl_cr_st s pkt tsc
  | OpStallQueue => process_credit_stall_queue_st
  | OpWheel => process_wheel_st
  | OpTxBurst => n ← gets (fun r => zlength (r_tx_batch r)); when (0 <? n) do_tx_burst_st
  | OpLossScan => pkt_loss_scan_st
  | OpClock now => modify (fun r => r <| r_ev_loop_tsc := now |>)
  | OpDma f => modify (fun r => r <| r_mem ::= f |>)
  end.

(** What the application and the server have to respect. *)
Definition op_ok (r : Rpc) (o : client_op) : Prop :=
  match o with
  | OpEnqueueRequest a => req_legal r a
  | OpResp s pkt _ => resp_conforms r s (m_hdr (r_mem r) pkt)
  | OpExplCr s pkt _ => cr_conforms r s (m_hdr (r_mem r) pkt)
  | _ => True
  end.

Inductive client_step (r r' : Rpc) : Prop :=
  client_step_op o : op_ok r o -> run_op o r = Ok tt r' -> client_step r r'.

Lemma still_ev_tsc r f : still r (r <| r_ev_loop_tsc ::= f |>).
Proof. still_noise. Qed.

Lemma tx_burst_inv_wp r :
  client_inv r -> wpe client_err (run_op OpTxBurst) (fun _ => client_inv) r.
Proof.
  intros [ents Hc]. cbn [run_op]. do 2 wp_step. wp_step; [|by exists ents].
  destruct (cv_txb _ _ Hc) as [_ Hok].
  eapply wp_mono; [apply do_tx_burst_wp; [by eapply cinv_etid| |done]|].
  - intros E. match goal with H : (_ <? _) = true |- _ => by rewrite E in H end.
  - cbn. intros _ r' [S E]. exists ents. rewrite (sl_stallq _ _ S).
    eapply cinv_still; [done|done|]. split; rewrite E; [apply ttr_postlist_pos|constructor].
Qed.

Lemma run_op_wp r o : client_inv r -> op_ok r o -> wpe client_err (run_op o) (fun _ => client_inv) r.
Proof.
  intros Hi Ho. destruct o; cbn [op_ok run_op] in *.
  - exact (enqueue_request_st_wp r a Hi Ho).
  - exact (process_resp_one_wp r s pkt rx_tsc Hi Ho).
  - exact (expl_cr_wp r s pkt rx_tsc Hi Ho).
  - eapply wp_mono; [by apply stall_queue_wp|]. by intros _ r' (? & _).
  - eapply wp_mono; [by apply process_wheel_wp|]. by intros _ r' (? & _).
  - exact (tx_burst_inv_wp r Hi).
  - by apply pkt_loss_scan_wp.
  - wp_step. eapply client_inv_noise; [exact Hi|apply still_ev_tsc|done].
  - wp_step. eapply client_inv_noise; [exact Hi|apply still_mem|done].
Qed.

Lemma client_steps_inv r r' : client_inv r -> rtc client_step r r' -> client_inv r'.
Proof.
  intros Hi Hs. induction Hs as [r|r1 r2 r3 [o Ho E] _ IH]; [done|]. apply IH.
  pose proof (run_op_wp r1 o Hi Ho) as H. unfold wpe in H. by rewrite E in H.
Qed.

(** ** Readings of the invariant *)
Lemma zsum_norm l : zsum win (norm_sl <$> l) = zsum win l.
Proof. induction l as [|sl l IH]; cbn; [done|]. by rewrite IH. Qed.

Lemma client_inv_sess r sid se :
  client_inv r -> sess_at r sid = Some se -> is_client se = true ->
  exists g ub, csess_ok g ub sid (norm_se se) /\ g_bf g = None /\
    (forall l, g_bl g sid l = l).
Proof.
  intros [ents Hc] Hse Hcl. exists (rest (r_stallq r) ents), (r_user_mb r). split; [|done].
  exact (CI_sess _ _ (cv_core _ _ Hc) _ _ (sess_at_nf_Some _ _ _ Hse) Hcl).
Qed.

(** C1 Take a client whose application keeps to the API ([ClientApp]: requests on
    connected sessions, of legal sizes, into buffers it owns) and a step that keeps
    to the protocol ([op_ok]: response and credit-return packets that a correct
    server sends). The step keeps the client invariant, and it fails no
    assertion, dereferences no null pointer and indexes no array out of range,
    with the exceptions [client_err] lists: it may end with a thrown exception,
    and under congestion control with a duration that no [size_t] holds or with
    one of two of the code's own assertions, the wheel's horizon and the rate
    controller's check of the timestamp, which depend on the clock. *)
Theorem client_ops_safe r o :
  client_inv r -> op_ok r o ->
  match run_op o r with Ok _ r' => client_inv r' | Fail e => client_err e end.
Proof. intros Hi Ho. exact (run_op_wp r o Hi Ho). Qed.

(** C3 Flow control: in every state that the client's operations reach, the
    credits of a session and the packets in flight of its eight slots add up to
    the session's 32 credits, and neither is ever negative. *)
Theorem credits_conserved r0 r sid se :
  client_inv r0 -> rtc client_step r0 r -> sess_at r sid = Some se -> is_client se = true ->
  0 <= credits_ se <= kSessionCredits /\
  credits_ se + zsum win (sslot_arr_ se) = kSessionCredits /\
  Forall (fun sl => 0 <= win sl) (sslot_arr_ se).
Proof.
  intros Hi Hst Hse Hcl. pose proof (client_steps_inv _ _ Hi Hst) as Hi'.
  destruct (client_inv_sess _ _ _ Hi' Hse Hcl) as (g & ub & Hs & _).
  pose proof (co_credits _ _ _ _ Hs) as Hcr. pose proof (co_pos _ _ _ _ Hs) as Hp.
  pose proof (csess_credits_le _ _ _ _ Hs) as Hle. cbn in Hcr, Hp, Hle.
  rewrite zsum_norm in Hcr. split_and!; try done.
  apply Forall_lookup. intros i sl Hi2. 
  destruct (csess_win _ _ _ _ (Z.of_nat i) (norm_sl sl) Hs) as [Hw _]; [|exact Hw].
  unfold zlookup. rewrite (proj2 (Z.leb_le 0 (Z.of_nat i))), Nat2Z.id by lia.
  cbn. rewrite list_lookup_fmap. by rewrite Hi2.
Qed.

Lemma active_win r s se sl :
  client_inv r -> active r s se sl ->
  (s ∈ r_stallq r /\ num_tx_ (client_info_ sl) = 0) \/ 0 < win sl.
Proof.
  intros [ents Hc] [Hse H Hcl Ht]. pose proof (slot_at_nf_Some _ _ _ H) as H'.
  pose proof (cv_core _ _ Hc) as HC.
  destruct (CI_slot _ _ _ _ HC H' Hcl) as (_ & _ & _ & _ & _ & Hok).
  destruct (so_prog _ _ _ _ Hok Ht) as [Hq|[?|Hlt]]; [left|done|right].
  - split; [exact Hq|]. destruct (CI_sq _ _ HC s Hq) as (sl2 & E & _ & _ & Hz).
    rewrite H' in E. injection E as <-. exact Hz.
  - unfold win. cbn in Hlt. lia.
Qed.

(** C4 Progress: in every reachable state an active request either has a
    packet in flight, so that a response or the retransmission timer will make
    it move, or waits in the stall queue without having sent anything. *)
Theorem requests_progress r0 r s se sl :
  client_inv r0 -> rtc client_step r0 r -> active r s se sl ->
  (s ∈ r_stallq r /\ num_tx_ (client_info_ sl) = 0) \/ 0 < win sl.
Proof. intros Hi Hst. by apply active_win, (client_steps_inv r0). Qed.

(** No deadlock on credits: after the stall queue has been processed, the
    session of every active request has packets in flight, also the session of
    a request that is still stalled; their return brings credits. *)
Theorem stalled_session_in_flight r r' s se sl :
  client_inv r -> process_credit_stall_queue_st r = Ok tt r' -> active r' s se sl ->
  exists i y, zlookup (sslot_arr_ se) i = Some y /\ 0 < win y.
Proof.
  intros Hi E Ha. pose proof (stall_queue_wp r Hi) as H. unfold wpe in H. rewrite E in H.
  destruct H as (Hi' & _ & _ & Hq). destruct (active_win _ _ _ _ Hi' Ha) as [[Hs _]|Hw].
  - rewrite Forall_forall in Hq. destruct (Hq s Hs) as (se2 & E2 & Hz).
    rewrite (ac_sess _ _ _ _ Ha) in E2. injection E2 as <-.
    pose proof Hi' as [ents Hc]. pose proof (active_ok _ _ _ _ _ Hc Ha) as Hf.
    destruct (client_inv_sess _ _ _ Hi' (ac_sess _ _ _ _ Ha) (af_client _ _ _ _ Hf)) as (g & ub & Hs' & _).
    pose proof (co_credits _ _ _ _ Hs') as Hcr. cbn in Hcr. rewrite zsum_norm, Hz in Hcr.
    destruct (decide (Exists (fun y => 0 < win y) (sslot_arr_ se))) as [Hx|Hx].
    + apply Exists_exists in Hx as (y & Hy & Hwy). apply list_elem_of_lookup in Hy as [i Hy].
      exists (Z.of_nat i), y. split; [|done]. unfold zlookup.
      rewrite (proj2 (Z.leb_le 0 (Z.of_nat i))) by lia. by rewrite Nat2Z.id.
    + apply not_Exists_Forall in Hx; [|intros y; apply _].
      assert (Hle : zsum win (sslot_arr_ se) <= 0); [|unfold kSessionCredits in *; lia].
      clear -Hx. induction Hx as [|y l Hy _ IH]; cbn; [lia|]. apply Z.nlt_ge in Hy. lia.
  - pose proof (ac_slot _ _ _ _ Ha) as (se2 & E2 & Hy)%slot_at_Some.
    rewrite (ac_sess _ _ _ _ Ha) in E2. injection E2 as <-. by exists s.2, sl.
Qed.

(** A session's free vector lists exactly its idle slots, each once, and a
    request waits in the backlog only while every slot is taken. *)
Theorem free_slots_exact r0 r sid se :
  client_inv r0 -> rtc client_step r0 r -> sess_at r sid = Some se -> is_client se = true ->
  NoDup (fv_list (sslot_free_vec_ se)) /\
  (forall i, i ∈ fv_list (sslot_free_vec_ se) <->
     exists sl, zlookup (sslot_arr_ se) i = Some sl /\ tx_msgbuf_ sl = None) /\
  (enq_req_backlog_ se = [] \/ fv_list (sslot_free_vec_ se) = []).
Proof.
  intros Hi Hst Hse Hcl. pose proof (client_steps_inv _ _ Hi Hst) as Hi'.
  destruct (client_inv_sess _ _ _ Hi' Hse Hcl) as (g & ub & Hs & Hbf & Hbl).
  split_and!; [exact (co_nodup _ _ _ _ Hs)| |].
  - intros i. pose proof (co_free _ _ _ _ Hs i) as Hf. cbn in Hf. rewrite Hf. split.
    + intros (sl & Hi2 & Ht). rewrite zlookup_fmap in Hi2.
      destruct (zlookup (sslot_arr_ se) i) as [sl0|]; [|done]. exists sl0. split; [done|].
      apply Some_inj in Hi2. by subst.
    + intros (sl & Hi2 & Ht). exists (norm_sl sl). by rewrite zlookup_fmap, Hi2.
  - destruct (co_backlog _ _ _ _ Hs) as [?|[Hb|Hb]]; [congruence|left|right; exact Hb].
    rewrite Hbl in Hb. exact Hb.
Qed.


(** C6 A retransmission of a request with packets in flight leaves it with packets
    in flight. If some still sit in the wheel, nothing is put out and the request
    stays as it is. Else it takes back the credits of all the packets in flight,
    and puts out again, from the first packet that was not received and in order,
    exactly as many as the credits and the message allow: each is the next request
    packet (or, when the response has begun, a request for response with the next
    packet number), joins the TX batch, which goes to the transport when full, or
    the wheel; and nothing else is put out. The errors are those of C1. *)
Theorem retransmit_recovers r s se sl :
  client_inv r -> active r s se sl -> 0 < win sl ->
  match pkt_loss_retransmit_st s r with
  | Ok _ r' => client_inv r' /\ retransmitted r s se sl r'
  | Fail e => client_err e
  end.
Proof.
  intros Hi Ha Hw. pose proof (retransmit_wp r s se sl Hi Ha) as H. unfold wpe in H.
  destruct (pkt_loss_retransmit_st s r); [|done]. destruct H as (H1 & _ & H2). auto.
Qed.

(** A response packet that is not the next one in order (a duplicate, a
    reordered packet, one of an earlier request, or one whose request packet
    still sits in the wheel) changes nothing but a statistic: no continuation
    runs. *)
Theorem stale_response_ignored r s sl pkt tsc :
  client_inv r -> slot_at r s = Some sl -> is_client_ sl = true ->
  req_num_ (m_hdr (r_mem r) pkt) <= cur_req_num_ sl -> ~ in_order sl (m_hdr (r_mem r) pkt) ->
  exists n, process_resp_one_st s pkt tsc r = Ok tt (r <| r_still_in_wheel := n |>).
Proof.
  intros Hi H Hcl Hreq Hno. destruct Hi as [ents Hc]. destruct (client_slot_iw _ _ _ _ Hc H Hcl) as [Hiw _].
  cut (wp (process_resp_one_st s pkt tsc) (fun _ r' => exists n, r' = r <| r_still_in_wheel := n |>) r).
  { intros ([] & r' & -> & n & ->)%wp_run. by exists n. }
  assert (Hsame : exists n, r = r <| r_still_in_wheel := n |>)
    by (exists (r_still_in_wheel r); by destruct r).
  unfold process_resp_one_st. wp_step. apply wp_assert_dispatch; [by eapply cinv_etid|].
  wp_step. apply wp_hdr_at. set (h := m_hdr _ _) in *. clearbody h.
  wp_step. eapply wp_get_sslot; [exact H|]. wp_step. wp_step; [lia|]. wp_step.
  unfold in_order_client. wp_step. eapply wp_get_sslot; [exact H|].
  destruct (req_num_ h =? cur_req_num_ sl) eqn:E1; cbn [negb]; [|by do 2 wp_step].
  wp_step. eapply wp_get_ci; [done..|].
  destruct (pkt_num_ h =? num_rx_ (client_info_ sl)) eqn:E2; cbn [negb]; [|by do 2 wp_step].
  destruct (num_tx_ (client_info_ sl) <=? pkt_num_ h) eqn:E3; [by do 2 wp_step|].
  apply Z.eqb_eq in E1, E2. apply Z.leb_gt in E3.
  destruct (bit_exists _ (pkt_num_ h) Hiw) as [w Hw].
  wp_step. eapply wp_deref; [done|]. change (kCcPacing && w) with w. destruct w; cbv iota.
  - do 3 wp_step. cbn [negb]. wp_step. by eexists.
  - exfalso. apply Hno. split; try done; try congruence; lia.
Qed.

End Props.
