(* ===== verification/ClientExamples.v ===== *)
(** * A concrete client

    An endpoint on InfiniBand with one connected client session, and a request
    of two packets: the states at which the client's properties are applied. *)
From S2P Require Import Prelude Config HugeAlloc PktHdr Msg SmTypes Timer Timely MemPool TimingWheel WheelChain WheelSpec Session RpcState RpcBase RpcTx RpcApi RpcRx RpcSm RpcLoop RpcWp ClientInv ClientLemmas ClientTx ClientKick ClientLoss ClientStart ClientRx ClientResp ClientRecv ClientInit ClientProps.

#[local] Existing Instance BumpOs.
#[local] Instance ExT : TTr := Transports.IBTransport false.
#[local] Instance ExT_ok : TTrOk ExT := Transports.IBTransport_ok false.
#[local] Instance ExC : RpcConf := {|
  c_rpc_id := 0; c_transport_type := kInfiniBand; c_hostname := "client"; c_sm_udp_port := 31850;
  c_num_bg_threads := 1; c_freq_ghz := fconst 26 10; c_creation_tsc := 0; c_req_func_arr := [];
  c_creator_etid := 1
|}.
#[local] Instance ExW : World := {|
  w_tsc _ := 5000; w_slow_rand := Z.of_nat; w_bandwidth := fconst 7000000000 1;
  w_resolve := Some; w_local_rinfo := []; w_fuel := 1
|}.
#[local] Instance ExW_ok : WorldOk ExW.
Proof. split; [|exact BumpOs_ok]. intros n. cbn. by vm_compute. Qed.

(** The application's continuations do nothing. *)
#[local] Instance ExA : App := {|
  app_req _ _ := UDone; app_cont _ _ := UDone; app_sm _ _ _ := UDone
|}.
#[local] Instance ExA_ok : ClientApp ExA.
Proof. intros f tag r _. exact I. Qed.

(** The state a run ends in. *)
Definition after_run {A} (m : MR A) (r : Rpc) : Rpc :=
  match m r with Ok _ r' => r' | Fail _ => r end.
Definition runs {A} (m : MR A) (r : Rpc) : bool :=
  match m r with Ok _ _ => true | Fail _ => false end.
Lemma after_run_ok (m : MR unit) r : runs m r = true -> m r = Ok tt (after_run m r).
Proof. unfold runs, after_run. by destruct (m r) as [[] r'|e]. Qed.

Definition blank_sess : Session :=
  mkSession kClient 0 (fconst 26 10) (fconst 7000000000 1) kConnectInProgress
    (SessionEndpoint_new kInvalid) (SessionEndpoint_new kInvalid) [] 0 0 0 (FixedVector_new []) [] 0
    Timely_default 0 0.
Definition ex_sess : Session :=
  match Session_new kClient 7 (fconst 26 10) w_bandwidth 0 tt with
  | Ok se _ => se <| state_ := kConnected |>
  | Fail _ => blank_sess
  end.

(** Two application buffers of 5000 bytes. *)
Definition ex_buf (a : Z) : MsgBuffer := mkMsgBuffer (mkBuffer a 8192 7) 5000 5000 2 2 (a + 16).
Definition ex0 : Rpc :=
  mkRpc 1 [Some ex_sess] 4064 [] [] 0 [] 0 0 (Some ATail) None None (Some ARoot)
    (HugeAlloc_new (MB 8)) (replicate 128 zeroMsgBuffer) 0 0 WheelExamples.wheel26 [] [] 0 [] [[]]
    ∅ [] (mkFaults false false (of_size 0) 0) [] (mkDpathStats 0 0 0 0 0) 0 0 3824 false
    {[0 := ex_buf 1048576; 1 := ex_buf 1064960]} zero_mem [] 0 [].

Lemma ex_sess_fresh : fresh_sess ex_sess.
Proof.
  pose proof (Session_new_fresh (E := fun _ => False) kClient 7 (fconst 26 10) w_bandwidth 0 tt) as H.
  unfold wpe in H. unfold ex_sess.
  destruct (Session_new kClient 7 (fconst 26 10) w_bandwidth 0 tt) as [se []|]; [|done].
  destruct H as ([] & _ & _). destruct se. by split.
Qed.

Lemma ex0_idle : idle_rpc ex0.
Proof.
  split; try done.
  - intros sid se. unfold sess_at, zlookup. case_match; [|done]. cbn.
    destruct (Z.to_nat sid) as [|[|]]; cbn; [|done..]. intros [= <-]. exact ex_sess_fresh.
  - exists [], (mkAWheel 2300 (replicate nslots []) []), (replicate nslots []).
    split; [apply alloc_inv_new; vm_compute; discriminate|].
    split; [exact WheelExamples.wheel26_rep|]. split.
    + unfold aw_entries. cbn [aw_ready aw_slots]. by rewrite concat_replicate_nil.
    + change (tw_horizon_tsc (r_wheel ex0)) with 21299200.
      change (tw_wslot_width_tsc (r_wheel ex0)) with 1300. unfold nslots, kMaxTsc.
      assert (E : kWheelNumWslots = 16385) by exact WheelExamples.nslots_value. rewrite E. lia.
Qed.
Lemma ex0_inv : client_inv ex0.
Proof. apply client_inv_idle, ex0_idle. Qed.

Definition ex_args : enq_req_args_t := mkEnqReqArgs 0 1 (MbUser 0) (MbUser 1) 5 9 kInvalidBgETid.

Lemma ex_claim n a : ex0.(r_user_mb) !! n = Some (ex_buf a) -> claim_ok (r_user_mb ex0) (MbUser n).
Proof.
  intros H. exists n, (ex_buf a). split; [done|]. split; [done|].
  split; cbn; try done; try lia; by vm_compute.
Qed.

Lemma ex_legal : req_legal ex0 ex_args.
Proof.
  split.
  - by exists ex_sess.
  - by left.
  - unfold owned. rewrite idle_no_claims by apply ex0_idle.
    by apply (bool_decide_eq_true (NoDup _)).
  - intros p [->|[->|?%elem_of_nil]%elem_of_cons]%elem_of_cons; [| |done].
    + by apply (ex_claim 0 1048576).
    + by apply (ex_claim 1 1064960).
Qed.

(** The request is sent. *)
Definition ex1 : Rpc := after_run (run_op (OpEnqueueRequest ex_args)) ex0.
Lemma ex1_run : run_op (OpEnqueueRequest ex_args) ex0 = Ok tt ex1.
Proof. apply after_run_ok. vm_compute. reflexivity. Qed.
Lemma ex1_step : client_step ex0 ex1.
Proof. exists (OpEnqueueRequest ex_args); [exact ex_legal|exact ex1_run]. Qed.

(** What there is to see at [ex1], checked by running it. *)
Definition ex_check (r : Rpc) : bool :=
  match sess_at r 0, slot_at r (0, 0) with
  | Some se, Some sl =>
      is_client se && is_client_ sl && bool_decide (tx_msgbuf_ sl <> None) && (0 <? win sl)
      && runs process_credit_stall_queue_st r
      && (req_num_ (m_hdr (r_mem r) 64) <? cur_req_num_ sl)
  | _, _ => false
  end.
Lemma ex_check_slot r :
  ex_check r = true ->
  exists se sl, active r (0, 0) se sl /\ is_client se = true /\ 0 < win sl /\
    runs process_credit_stall_queue_st r = true /\ req_num_ (m_hdr (r_mem r) 64) < cur_req_num_ sl.
Proof.
  unfold ex_check. intros H.
  destruct (sess_at r 0) as [se|] eqn:E1; [|done]. destruct (slot_at r (0, 0)) as [sl|] eqn:E2; [|done].
  apply andb_true_iff in H as [H H6]. apply andb_true_iff in H as [H H5].
  apply andb_true_iff in H as [H H4]. apply andb_true_iff in H as [H H3].
  apply andb_true_iff in H as [H1 H2].
  apply bool_decide_eq_true in H3. apply Z.ltb_lt in H4, H6.
  exists se, sl. split_and!; [by split|done..].
Qed.
Lemma ex1_checked : ex_check ex1 = true.
Proof. vm_compute. reflexivity. Qed.
Lemma ex1_slot :
  exists se sl, active ex1 (0, 0) se sl /\ is_client se = true /\ 0 < win sl /\
    runs process_credit_stall_queue_st ex1 = true /\
    req_num_ (m_hdr (r_mem ex1) 64) < cur_req_num_ sl.
Proof. exact (ex_check_slot ex1 ex1_checked). Qed.
Lemma ex1_inv : client_inv ex1.
Proof. eapply client_steps_inv; [exact ex0_inv|apply rtc_once, ex1_step]. Qed.

(** ** The properties at these states *)
Lemma client_ops_safe_witness :
  match run_op (OpEnqueueRequest ex_args) ex0 with
  | Ok _ r' => client_inv r'
  | Fail e => client_err e
  end.
Proof. exact (client_ops_safe ex0 (OpEnqueueRequest ex_args) ex0_inv ex_legal). Defined.

Lemma credits_conserved_witness :
  exists se, sess_at ex1 0 = Some se /\ 0 <= credits_ se <= kSessionCredits /\
    credits_ se + zsum win (sslot_arr_ se) = kSessionCredits /\
    Forall (fun sl => 0 <= win sl) (sslot_arr_ se).
Proof.
  destruct ex1_slot as (se & sl & Ha & Hcl & _). exists se. split; [apply Ha|].
  apply (credits_conserved ex0 ex1 0 se ex0_inv (rtc_once _ _ ex1_step) (ac_sess _ _ _ _ Ha) Hcl).
Defined.

Lemma requests_progress_witness :
  exists se sl, active ex1 (0, 0) se sl /\
    (((0, 0) ∈ r_stallq ex1 /\ num_tx_ (client_info_ sl) = 0) \/ 0 < win sl).
Proof.
  destruct ex1_slot as (se & sl & Ha & _). exists se, sl. split; [exact Ha|].
  exact (requests_progress ex0 ex1 (0, 0) se sl ex0_inv (rtc_once _ _ ex1_step) Ha).
Defined.

Lemma stalled_session_in_flight_witness :
  exists r', process_credit_stall_queue_st ex1 = Ok tt r' /\
    forall s se sl, active r' s se sl ->
      exists i y, zlookup (sslot_arr_ se) i = Some y /\ 0 < win y.
Proof.
  destruct ex1_slot as (_ & _ & _ & _ & _ & Hr & _).
  exists (after_run process_credit_stall_queue_st ex1). split; [exact (after_run_ok _ _ Hr)|].
  intros s se sl. exact (stalled_session_in_flight ex1 _ s se sl ex1_inv (after_run_ok _ _ Hr)).
Defined.

Lemma free_slots_exact_witness :
  exists se, sess_at ex1 0 = Some se /\ NoDup (fv_list (sslot_free_vec_ se)) /\
  (forall i, i ∈ fv_list (sslot_free_vec_ se) <->
     exists sl, zlookup (sslot_arr_ se) i = Some sl /\ tx_msgbuf_ sl = None) /\
  (enq_req_backlog_ se = [] \/ fv_list (sslot_free_vec_ se) = []).
Proof.
  destruct ex1_slot as (se & sl & Ha & Hcl & _). exists se. split; [apply Ha|].
  apply (free_slots_exact ex0 ex1 0 se ex0_inv (rtc_once _ _ ex1_step) (ac_sess _ _ _ _ Ha) Hcl).
Defined.


Lemma retransmit_recovers_witness :
  exists se sl, active ex1 (0, 0) se sl /\
    match pkt_loss_retransmit_st (0, 0) ex1 with
    | Ok _ r' => client_inv r' /\ retransmitted ex1 (0, 0) se sl r'
    | Fail e => client_err e
    end.
Proof.
  destruct ex1_slot as (se & sl & Ha & _ & Hw & _). exists se, sl. split; [exact Ha|].
  pose proof (retransmit_recovers ex1 (0, 0) se sl ex1_inv Ha Hw) as H. exact H.
Defined.

Lemma stale_response_ignored_witness :
  exists n, process_resp_one_st (0, 0) 64 6000 ex1 = Ok tt (ex1 <| r_still_in_wheel := n |>).
Proof.
  destruct ex1_slot as (se & sl & Ha & _ & _ & _ & Hr).
  apply (stale_response_ignored ex1 (0, 0) sl 64 6000 ex1_inv (ac_slot _ _ _ _ Ha) (ac_client _ _ _ _ Ha)).
  - apply Z.lt_le_incl, Hr.
  - intros [E _ _ _]. rewrite E in Hr. exact (Z.lt_irrefl _ Hr).
Defined.
