(* ===== verification/Frame.v ===== *)
(** * What operations leave alone

    [frame s r r']: slot [s] keeps what the reception of requests depends on (its
    role, request number, and progress) from [r] to [r'], and no request handler
    runs for it. [keeps s m]: whenever [m] returns,
    it has respected that frame. The transmission and bookkeeping operations
    keep every slot; those of another session keep a server slot. *)
From S2P Require Import Prelude Config HugeAlloc PktHdr Msg SmTypes Timer Timely MemPool TimingWheel Session RpcState RpcBase RpcTx RpcApi RpcRx RpcWp.

(** The requests of slot [s] whose handlers have run, oldest first. *)
Definition handled_in (s : sref) (t : list event) : list Z :=
  omap (fun e => match e with
                 | EvHandler _ s' n => if decide (s' = s) then Some n else None
                 | _ => None
                 end) t.
Definition handled (r : Rpc) (s : sref) : list Z := handled_in s (r_trace r).

(** The slot's role, its request number, and how many packets of how many it
    has received in order. *)
Record slot_view := mkView { v_client : bool; v_req : Z; v_rx : Z; v_pkts : Z }.
Definition view_of (sl : SSlot) : slot_view :=
  mkView (is_client_ sl) (cur_req_num_ sl) (si_num_rx_ (server_info_ sl))
    (num_pkts_ (req_msgbuf_ (server_info_ sl))).
Definition srv_view (r : Rpc) (s : sref) : option slot_view := view_of <$> slot_at r s.

Record frame (s : sref) (r r' : Rpc) : Prop := {
  fm_handled : handled r' s = handled r s;
  fm_view : srv_view r' s = srv_view r s;
}.
#[export] Instance frame_preorder s : PreOrder (frame s).
Proof. split; [by split|]. intros r1 r2 r3 [] []. split; congruence. Qed.

Definition keeps {A} (s : sref) (m : MR A) : Prop :=
  forall r, wpe any_err m (fun _ r' => frame s r r') r.

Create HintDb keeps.

Section Rules.
Context (s : sref).

Lemma keeps_ret {A} (a : A) : keeps s (mret a).
Proof. intros r. by wp_step. Qed.
Lemma keeps_fail {A} e : keeps (A := A) s (fail e).
Proof. intros r. exact I. Qed.
Lemma keeps_bind {A B} (m : MR A) (k : A -> MR B) :
  keeps s m -> (forall a, keeps s (k a)) -> keeps s (m ≫= k).
Proof.
  intros Hm Hk r. apply wp_bind. eapply wp_mono; [apply Hm|]. cbn. intros a r1 F1.
  eapply wp_mono; [apply Hk|]. cbn. intros b r2 F2. by etrans.
Qed.
(** Reading does nothing, and says what was read. *)
Lemma keeps_gets {A} (f : Rpc -> A) : keeps s (gets f).
Proof. intros r. by wp_step. Qed.
Lemma keeps_modify f : (forall r, frame s r (f r)) -> keeps s (modify f).
Proof. intros H r. wp_step. apply H. Qed.
Lemma keeps_assert b what : keeps s (assert_ b what).
Proof. intros r. unfold assert_, wpe. by destruct b. Qed.
Lemma keeps_rt_assert b what : keeps s (rt_assert b what).
Proof. intros r. unfold rt_assert, wpe. by destruct b. Qed.
Lemma keeps_deref {A} (o : option A) what : keeps s (deref o what).
Proof. intros r. unfold deref, wpe. by destruct o. Qed.
Lemma keeps_when b m : keeps s m -> keeps s (when b m).
Proof. intros H. destruct b; [exact H|apply keeps_ret]. Qed.
Lemma keeps_miter {A} (f : A -> MR unit) l : (forall x, keeps s (f x)) -> keeps s (miter f l).
Proof. intros H. induction l as [|x l IH]; [apply keeps_ret|]. by apply keeps_bind. Qed.
Lemma keeps_mrepeat n f : keeps s f -> keeps s (mrepeat n f).
Proof. intros H. induction n as [|n IH]; [apply keeps_ret|]. by apply keeps_bind. Qed.
Lemma keeps_zoom {T A} (g : Rpc -> T) (p : T -> Rpc -> Rpc) (m : M T A) :
  (forall t r, frame s r (p t r)) -> keeps s (zoom g p m).
Proof. intros H r. unfold zoom, wpe. destruct (m (g r)); [apply H|done]. Qed.

(** A change of anything but sessions and the trace. *)
Lemma frame_other (f : Rpc -> Rpc) r :
  r_session_vec (f r) = r_session_vec r -> r_trace (f r) = r_trace r -> frame s r (f r).
Proof.
  intros E1 E2. split; [unfold handled; by rewrite E2|].
  unfold srv_view, slot_at, sess_at. by rewrite E1.
Qed.
Lemma frame_emit r e :
  (forall f n, e <> EvHandler f s n) -> frame s r (r <| r_trace ::= fun t => t ++ [e] |>).
Proof.
  intros He. split; [|done]. unfold handled, handled_in. rsimp. rewrite omap_app. cbn.
  destruct e; try by rewrite app_nil_r. case_decide; [|by rewrite app_nil_r].
  subst. by destruct (He req_func req_num).
Qed.

Lemma frame_put_sess r sid se se' :
  sess_at r sid = Some se ->
  (sid = s.1 -> view_of <$> zlookup (sslot_arr_ se') s.2 = view_of <$> zlookup (sslot_arr_ se) s.2) ->
  frame s r (put_sess sid se' r).
Proof.
  intros Hse H. split; [done|]. unfold srv_view, slot_at. rewrite (sess_at_put _ _ _ _ _ Hse).
  case_decide as D; [|done]. rewrite <- D, Hse. cbn. by apply H.
Qed.
Lemma frame_put_slot r s' sl sl' :
  slot_at r s' = Some sl ->
  (s' = s -> view_of sl' = view_of sl) -> frame s r (put_slot s' sl' r).
Proof.
  intros H Hs. pose proof H as (se & Hse & _)%slot_at_Some. split.
  - by rewrite (put_slot_sess _ _ _ _ Hse).
  - unfold srv_view. rewrite (slot_at_put_slot _ _ _ _ _ H). case_decide as D; [|done].
    rewrite <- D, H. cbn. by rewrite (Hs D).
Qed.

(** ** The accessors *)
Lemma keeps_get_session sid : keeps s (get_session sid).
Proof. intros r. unfold get_session. do 2 wp_step. apply keeps_deref. Qed.
Lemma keeps_get_sslot s' : keeps s (get_sslot s').
Proof. intros r. unfold get_sslot. do 2 wp_step. apply keeps_deref. Qed.
Lemma keeps_get_mb p : keeps s (get_mb p).
Proof. intros r. unfold get_mb. do 2 wp_step. apply keeps_deref. Qed.
Lemma keeps_upd_session sid f :
  (forall se, sid = s.1 -> sslot_arr_ (f se) = sslot_arr_ se) -> keeps s (upd_session sid f).
Proof.
  intros Hf r. unfold upd_session, get_session, deref. do 2 wp_step. wp_step.
  destruct (sess_at r sid) as [se|] eqn:E; [|exact I]. do 2 wp_step.
  apply (frame_put_sess r sid se); [done|]. intros Es. by rewrite Hf.
Qed.
Lemma keeps_upd_sslot s' f :
  (forall sl, s' = s -> view_of (f sl) = view_of sl) -> keeps s (upd_sslot s' f).
Proof.
  intros Hf r. unfold upd_sslot, get_sslot, deref. do 2 wp_step. wp_step.
  destruct (slot_at r s') as [sl|] eqn:E; [|exact I]. do 2 wp_step.
  eapply frame_put_slot; [done|]. auto.
Qed.
End Rules.
#[export] Hint Resolve keeps_ret keeps_fail keeps_gets keeps_assert keeps_rt_assert keeps_deref
  keeps_get_session keeps_get_sslot keeps_get_mb : keeps.

(** One step of the structural part of a [keeps] proof. *)
Ltac keeps_step :=
  first
    [ solve [eauto 2 with keeps nocore]
    | lazymatch goal with
      | |- keeps _ (base.mbind _ _) => apply keeps_bind; [|intros ?]
      | |- keeps _ (when _ _) => apply keeps_when
      | |- keeps _ (miter _ _) => apply keeps_miter; intros ?
      | |- keeps _ (mrepeat _ _) => apply keeps_mrepeat
      | |- keeps _ (zoom _ _ _) => apply keeps_zoom; intros; by apply (frame_other _ (fun r => _))
      | |- keeps _ (modify _) => apply keeps_modify; intros; by apply (frame_other _ (fun r => _))
      | |- keeps _ (upd_session _ _) => apply keeps_upd_session; intros [] ?; reflexivity
      | |- keeps _ (upd_sslot _ _) => apply keeps_upd_sslot; intros [] ?; reflexivity
      | |- keeps _ (if ?b then _ else _) => destruct b
      | |- keeps _ (match ?x with _ => _ end) => destruct x
      end ].
Ltac keeps_tac := repeat keeps_step.

Section Ops.
Context {T : TTr} {Os : ShmOs} {C : RpcConf} {W : World}.
Context (s : sref).

Lemma keeps_get_ci s' : keeps s (get_ci s').
Proof. unfold get_ci. keeps_tac. Qed.
Lemma keeps_get_si s' : keeps s (get_si s').
Proof. unfold get_si. keeps_tac. Qed.
Lemma keeps_upd_ci s' f : keeps s (upd_ci s' f).
Proof.
  intros r. unfold upd_ci, get_sslot, deref. do 2 wp_step. wp_step.
  destruct (slot_at r s') as [sl|] eqn:E; [|exact I]. wp_step. destruct (is_client_ sl); [|exact I].
  wp_step. by eapply frame_put_slot.
Qed.
Lemma keeps_upd_si s' f :
  (forall si, s' = s -> si_num_rx_ (f si) = si_num_rx_ si /\
     num_pkts_ (req_msgbuf_ (f si)) = num_pkts_ (req_msgbuf_ si)) -> keeps s (upd_si s' f).
Proof.
  intros Hf r. unfold upd_si, get_sslot, deref. do 2 wp_step. wp_step.
  destruct (slot_at r s') as [sl|] eqn:E; [|exact I]. wp_step. destruct (is_client_ sl); [exact I|].
  wp_step. eapply frame_put_slot; [done|]. intros Es.
  destruct (Hf (server_info_ sl) Es) as [E1 E2]. unfold view_of. rsimp. by rewrite E1, E2.
Qed.
Lemma keeps_mem_mod f : keeps s (mem_mod f).
Proof. unfold mem_mod. keeps_tac. Qed.
Lemma keeps_hdr_at a : keeps s (hdr_at a).
Proof. unfold hdr_at. keeps_tac. Qed.
Lemma keeps_emit e : (forall f n, e <> EvHandler f s n) -> keeps s (emit e).
Proof. intros He. apply keeps_modify. intros r. by apply frame_emit. Qed.
End Ops.
#[export] Hint Resolve keeps_get_ci keeps_get_si keeps_upd_ci keeps_mem_mod
  keeps_hdr_at : keeps.

#[export] Hint Extern 1 (keeps _ (upd_si _ _)) =>
  (apply keeps_upd_si; intros [] ?; split; reflexivity) : keeps.

(** ** The operations *)
Section Helpers.
Context {T : TTr} {Os : ShmOs} {C : RpcConf} {W : World}.
Context (s : sref).

Lemma keeps_assert_dispatch : keeps s assert_dispatch.
Proof. unfold assert_dispatch, in_dispatch. keeps_tac. Qed.
Lemma keeps_rdtsc : keeps s rdtsc.
Proof. unfold rdtsc. keeps_tac. Qed.
Lemma keeps_fast_rand : keeps s fast_rand_next_u32.
Proof. unfold fast_rand_next_u32. keeps_tac. Qed.
Lemma keeps_get_mb_opt o : keeps s (get_mb_opt o).
Proof. unfold get_mb_opt. keeps_tac. Qed.
Lemma frame_put_mb r p mb : frame s r (put_mb p mb r).
Proof.
  destruct p; cbn [put_mb]; try by apply (frame_other s (fun r => _)).
  all: destruct (slot_at r s0) as [sl|] eqn:E; [|done]; eapply frame_put_slot; [exact E|done].
Qed.
Lemma keeps_set_mb p mb : keeps s (set_mb p mb).
Proof.
  unfold set_mb. apply keeps_bind; [apply keeps_get_mb|intros _]. apply keeps_modify.
  intros r. apply frame_put_mb.
Qed.
Lemma keeps_with_huge {A} (m : M HugeAlloc A) : keeps s (with_huge m).
Proof. unfold with_huge. keeps_tac. Qed.
Lemma keeps_with_wheel {A} (m : M WS A) : keeps s (with_wheel m).
Proof. unfold with_wheel. keeps_tac. Qed.
Lemma keeps_with_mem {A} (m : M Mem A) : keeps s (with_mem m).
Proof. unfold with_mem. keeps_tac. Qed.
End Helpers.
#[export] Hint Resolve keeps_assert_dispatch keeps_rdtsc keeps_fast_rand keeps_get_mb_opt
  keeps_set_mb keeps_with_huge keeps_with_wheel keeps_with_mem : keeps.

Section Buffers.
Context {T : TTr} {Os : ShmOs} {C : RpcConf} {W : World}.
Context (s : sref).

Lemma keeps_alloc_msg_buffer n : keeps s (alloc_msg_buffer n).
Proof. unfold alloc_msg_buffer. keeps_tac. Qed.
Lemma keeps_free_msg_buffer mb : keeps s (free_msg_buffer mb).
Proof. unfold free_msg_buffer. keeps_tac. Qed.
Lemma keeps_resize_mb p n : keeps s (resize_mb p n).
Proof. unfold resize_mb, resize_msg_buffer, resize. keeps_tac. Qed.
End Buffers.
#[export] Hint Resolve keeps_alloc_msg_buffer keeps_free_msg_buffer keeps_resize_mb : keeps.

Section Bury.
Context {T : TTr} {Os : ShmOs} {C : RpcConf} {W : World}.
Context (s : sref).

Lemma keeps_bury_resp s' : keeps s (bury_resp_msgbuf_server_st s').
Proof. unfold bury_resp_msgbuf_server_st. keeps_tac. Qed.
Lemma keeps_bury_req s' : keeps s (bury_req_msgbuf_server_st s').
Proof. unfold bury_req_msgbuf_server_st. keeps_tac. Qed.
Lemma keeps_wire_of it : keeps s (wire_of it).
Proof. unfold wire_of. keeps_tac. Qed.
Lemma keeps_wire_of_all l : keeps s (wire_of_all l).
Proof.
  induction l as [|it l IH]; cbn [wire_of_all]; [keeps_tac|].
  apply keeps_bind; [apply keeps_wire_of|intros w]. apply keeps_bind; [exact IH|]. intros. keeps_tac.
Qed.
Lemma keeps_stamp_tx t it : keeps s (stamp_tx t it).
Proof. unfold stamp_tx. keeps_tac. Qed.
End Bury.
#[export] Hint Resolve keeps_bury_resp keeps_bury_req keeps_wire_of_all keeps_stamp_tx : keeps.

Section Transmit.
Context {T : TTr} {Os : ShmOs} {C : RpcConf} {W : World}.
Context (s : sref).

Lemma keeps_do_tx_burst : keeps s do_tx_burst_st.
Proof. unfold do_tx_burst_st. keeps_tac. by apply keeps_emit. Qed.
Lemma keeps_enqueue_item it : keeps s (enqueue_item it).
Proof. unfold enqueue_item. keeps_tac. apply keeps_do_tx_burst. Qed.
End Transmit.
#[export] Hint Resolve keeps_do_tx_burst keeps_enqueue_item : keeps.

Section Enqueue.
Context {T : TTr} {Os : ShmOs} {C : RpcConf} {W : World}.
Context (s : sref).

Lemma keeps_testing_roll mb i : keeps s (testing_roll mb i).
Proof. unfold testing_roll, roll_pkt_drop. keeps_tac. Qed.
Lemma keeps_drain : keeps s drain_tx_batch_and_dma_queue.
Proof. unfold drain_tx_batch_and_dma_queue. keeps_tac. by apply keeps_emit. Qed.
Lemma keeps_next_ctrl : keeps s next_ctrl_msgbuf.
Proof. unfold next_ctrl_msgbuf. keeps_tac. Qed.
Lemma keeps_fill_ctrl p a b c d e : keeps s (fill_ctrl_hdr p a b c d e).
Proof. unfold fill_ctrl_hdr. keeps_tac. Qed.
End Enqueue.
#[export] Hint Resolve keeps_testing_roll keeps_drain keeps_next_ctrl keeps_fill_ctrl : keeps.

Section Enqueue2.
Context {T : TTr} {Os : ShmOs} {C : RpcConf} {W : World}.
Context (s : sref).

Lemma keeps_enqueue_pkt s' i ts : keeps s (enqueue_pkt_tx_burst_st s' i ts).
Proof. unfold enqueue_pkt_tx_burst_st. keeps_tac. Qed.
Lemma keeps_enqueue_hdr s' p ts : keeps s (enqueue_hdr_tx_burst_st s' p ts).
Proof. unfold enqueue_hdr_tx_burst_st. keeps_tac. Qed.
End Enqueue2.
#[export] Hint Resolve keeps_enqueue_pkt keeps_enqueue_hdr : keeps.

Section Control.
Context {T : TTr} {Os : ShmOs} {C : RpcConf} {W : World}.
Context (s : sref).

Lemma keeps_enqueue_cr s' h : keeps s (enqueue_cr_st s' h).
Proof. unfold enqueue_cr_st. keeps_tac. Qed.
Lemma keeps_enqueue_rfr s' h : keeps s (enqueue_rfr_st s' h).
Proof. unfold enqueue_rfr_st. keeps_tac. Qed.
(** The wheel's session is written back with a new transmission time only. *)
Lemma keeps_enqueue_wheel s' n sz : keeps s (enqueue_wheel s' n sz).
Proof.
  intros r. unfold enqueue_wheel. wp_step. eapply wp_mono; [apply keeps_rdtsc|].
  cbn. intros t r1 F1. wp_step. unfold get_session, deref at 1. do 2 wp_step.
  destruct (sess_at r1 s'.1) as [se|] eqn:E; [|exact I]. wp_step. wp_step.
  unfold cc_getupdate_tx_tsc, deref. wp_step. destruct (ns_to_cycles _ _); [|exact I].
  wp_step. wp_step. destruct (to_size _); [|exact I]. do 2 wp_step.
  wp_step. eapply (wp_mono _ (fun _ r' => frame s r r')).
  { cbn [snd]. eapply wp_upd_session; [exact E|]. etrans; [exact F1|].
    apply (frame_put_sess s r1 _ se); [done|]. intros _. by destruct se. }
  cbn [fst]. intros _ r2 F2.
  eapply (wp_mono _ (fun _ r' => frame s r2 r')); [|intros; by etrans].
  match goal with |- wpe _ ?m _ _ => assert (K : keeps s m) by keeps_tac end. apply K.
Qed.
End Control.
#[export] Hint Resolve keeps_enqueue_cr keeps_enqueue_rfr keeps_enqueue_wheel : keeps.
