(* ===== verification/ServerOnce.v ===== *)
(** * Servers run each request at most once

    A handler that runs in the dispatch thread is called at most once for every
    request number of a slot, in increasing order, whatever packets arrive and
    however often they are repeated. *)
From S2P Require Import Prelude Config HugeAlloc PktHdr Msg SmTypes Timer Timely MemPool TimingWheel Session RpcState RpcBase RpcTx RpcApi RpcRx RpcWp Frame.
From Stdlib Require Import Sorted.

(** ** The API leaves other sessions' slots alone *)
Section Api1.
Context {T : TTr} {Os : ShmOs} {C : RpcConf} {W : World}.
Context (s : sref).

Lemma keeps_can_bypass s' : keeps s (can_bypass_wheel s').
Proof. unfold can_bypass_wheel. keeps_tac. Qed.
Lemma keeps_pay_credit s' : keeps s (pay_credit s').
Proof. unfold pay_credit. keeps_tac. Qed.
Lemma keeps_wheel_req s' n : keeps s (enqueue_wheel_req_st s' n).
Proof. unfold enqueue_wheel_req_st. keeps_tac. Qed.
Lemma keeps_set_next a v : keeps s (set_next a v).
Proof. unfold set_next. keeps_tac. Qed.
Lemma keeps_copy_hdrs mb f : keeps s (copy_hdrs mb f).
Proof. unfold copy_hdrs. keeps_tac. Qed.
End Api1.
#[export] Hint Resolve keeps_can_bypass keeps_pay_credit keeps_wheel_req keeps_set_next
  keeps_copy_hdrs : keeps.

Section Api2.
Context {T : TTr} {Os : ShmOs} {C : RpcConf} {W : World}.
Context (s : sref).

Lemma keeps_kick_req_one s' b : keeps s (kick_req_one s' b).
Proof. unfold kick_req_one. keeps_tac. Qed.
Lemma keeps_kick_req s' : keeps s (kick_req_st s').
Proof. unfold kick_req_st. keeps_tac. apply keeps_kick_req_one. Qed.
Lemma keeps_add_active s' : keeps s (add_to_active_rpc_list s').
Proof. unfold add_to_active_rpc_list. keeps_tac. Qed.
Lemma keeps_fv_pop {A} (v : FixedVector A) : keeps s (fv_pop_back v).
Proof. unfold fv_pop_back. keeps_tac. Qed.
End Api2.
#[export] Hint Resolve keeps_kick_req keeps_add_active keeps_fv_pop : keeps.

Section Queues.
Context {T : TTr} {Os : ShmOs} {C : RpcConf} {W : World}.
Context (s : sref).

Lemma keeps_kick_rfr s' : keeps s (kick_rfr_st s').
Proof. unfold kick_rfr_st, kick_rfr_one. cbv zeta. keeps_tac. Qed.
Lemma keeps_kick s' : keeps s (kick_st s').
Proof. unfold kick_st, req_pkts_pending. keeps_tac. apply keeps_kick_rfr. Qed.
Lemma keeps_stall_loop l : keeps s (stall_loop l).
Proof.
  induction l as [|s' l IH]; cbn [stall_loop]; keeps_tac; [apply keeps_kick|apply IH..].
Qed.
Lemma keeps_stall_queue : keeps s process_credit_stall_queue_st.
Proof. unfold process_credit_stall_queue_st. keeps_tac. apply keeps_stall_loop. Qed.
Lemma keeps_wheel : keeps s process_wheel_st.
Proof. unfold process_wheel_st, process_wheel_one. cbv zeta. keeps_tac. Qed.
End Queues.

Section Api3.
Context {T : TTr} {Os : ShmOs} {C : RpcConf} {W : World}.
Context (s : sref).

Lemma keeps_enqueue_request_st a : ea_session_num a <> s.1 -> keeps s (enqueue_request_st a).
Proof.
  intros Hne. unfold enqueue_request_st. cbv zeta. keeps_tac.
  all: first [apply keeps_upd_session|apply keeps_upd_sslot]; try done.
  intros sl E. by subst s.
Qed.
Lemma keeps_enqueue_request a : ea_session_num a <> s.1 -> keeps s (enqueue_request a).
Proof.
  intros Hne. unfold enqueue_request, in_dispatch, get_etid. keeps_tac.
  by apply keeps_enqueue_request_st.
Qed.
Lemma keeps_enqueue_response_st s' p : keeps s (enqueue_response_st s' p).
Proof. unfold enqueue_response_st. keeps_tac. Qed.
Lemma keeps_enqueue_response s' p : keeps s (enqueue_response s' p).
Proof. unfold enqueue_response, in_dispatch. keeps_tac. apply keeps_enqueue_response_st. Qed.
Lemma keeps_assign_mb p mb : keeps s (assign_mb p mb).
Proof. destruct p; cbn [assign_mb]; keeps_tac. Qed.
End Api3.
#[export] Hint Resolve keeps_enqueue_response keeps_assign_mb : keeps.

(** ** Applications

    A handler makes any of the datapath's calls, but enqueues requests on other
    sessions than [s]'s only, which is a server session. *)
Definition polite_call (s : sref) (c : ucall) : Prop :=
  match c with
  | UEnqueueRequest a => ea_session_num a <> s.1
  | UCreateSession _ _ | UDestroySession _ => False
  | _ => True
  end.
Fixpoint polite (s : sref) (p : uprog) : Prop :=
  match p with
  | UDone => True
  | UGet k => forall r, polite s (k r)
  | UCall c k => polite_call s c /\ polite s k
  end.
Class ServerApp (A : App) (s : sref) : Prop :=
  app_req_polite f s' : polite s (app_req f s').

Section Once.
Context {T : TTr} {Os : ShmOs} {C : RpcConf} {W : World}.
Context (s : sref).

Lemma keeps_run_ucall c : polite_call s c -> keeps s (run_ucall c).
Proof.
  destruct c; cbn [polite_call run_ucall]; intros Hc; try done; keeps_tac.
  by apply keeps_enqueue_request.
Qed.
Lemma keeps_run_user p : polite s p -> keeps s (run_user p).
Proof.
  induction p as [|k IH|c p IH]; cbn [polite run_user].
  - intros _. keeps_tac.
  - intros Hk r. apply (IH r (Hk r)).
  - intros [Hc Hp]. apply keeps_bind; [by apply keeps_run_ucall|]. intros _. by apply IH.
Qed.

(** ** The invariant *)

(** The history is increasing up to the current request, whose handler runs
    only when its last packet arrives. *)
Record once_view (v : slot_view) (h : list Z) : Prop := {
  ov_server : v_client v = false;
  ov_range : in_u 44 (v_req v);
  ov_sorted : StronglySorted Z.lt h;
  ov_le : Forall (fun n => n <= v_req v) h;
  ov_last : v_req v ∈ h -> v_pkts v <= v_rx v /\ 1 <= v_rx v;
}.
Definition once (r : Rpc) : Prop := exists v, srv_view r s = Some v /\ once_view v (handled r s).

Lemma once_frame r r' : frame s r r' -> once r -> once r'.
Proof. intros [E1 E2] (v & Hv & Ho). exists v. by rewrite E1, E2. Qed.

(** A computation that keeps the frame, then the rest. *)
Lemma wp_keeps {A B} (m : MR A) (k : A -> MR B) Q r :
  keeps s m -> (forall a r1, frame s r r1 -> wpe any_err (k a) Q r1) ->
  wpe any_err (m ≫= k) Q r.
Proof. intros Hm Hk. apply wp_bind. eapply wp_mono; [apply Hm|]. cbn. auto. Qed.

Lemma wp_keeps_end {A} (m : MR A) (Q : A -> Rpc -> Prop) r :
  keeps s m -> (forall a r1, frame s r r1 -> Q a r1) -> wpe any_err m Q r.
Proof. intros Hm HQ. eapply wp_mono; [apply Hm|]. cbn. auto. Qed.

Lemma keeps_once {A} (m : MR A) r : keeps s m -> once r -> wpe any_err m (fun _ => once) r.
Proof. intros Hm Ho. apply wp_keeps_end; [done|]. intros _ r' F. by eapply once_frame. Qed.

Lemma sorted_snoc (l : list Z) n :
  StronglySorted Z.lt l -> Forall (fun m => m < n) l -> StronglySorted Z.lt (l ++ [n]).
Proof.
  induction l as [|x l IH]; cbn; intros Hs Hf; [by repeat constructor|].
  apply StronglySorted_inv in Hs as [Hs Hx]. apply Forall_cons in Hf as [Hxn Hf].
  constructor; [by apply IH|]. apply Forall_app. by repeat constructor.
Qed.

(** The handler runs for the current request. *)
Lemma once_run v h :
  once_view v h -> v_req v ∉ h -> v_pkts v <= v_rx v -> 1 <= v_rx v -> once_view v (h ++ [v_req v]).
Proof.
  intros [H1 H0 H2 H3 H4] Hn Hp Hr. split; [done|done| | |done].
  - apply sorted_snoc; [done|]. rewrite Forall_forall in H3. apply Forall_forall. intros x Hx.
    specialize (H3 x Hx). assert (x <> v_req v) by (intros ->; done). lia.
  - apply Forall_app. split; [done|]. by repeat constructor.
Qed.

Lemma once_next v h n rx p :
  once_view v h -> v_req v < n -> in_u 44 n -> once_view (mkView false n rx p) h /\ n ∉ h.
Proof.
  intros [H1 H0 H2 H3 H4] Hn Hr. rewrite Forall_forall in H3.
  assert (Hnin : n ∉ h) by (intros Hin; specialize (H3 n Hin); lia).
  split; [|done]. split; cbn; try done. apply Forall_forall. intros x Hx. specialize (H3 x Hx). lia.
Qed.

(** ** The handler is called *)
Context {A : App} {AOk : ServerApp A s}.

Lemma call_req_func_other f s' : s' <> s -> keeps s (call_req_func f s').
Proof.
  intros Hne. unfold call_req_func. keeps_tac.
  - apply keeps_emit. intros f' n [= _ E _]. done.
  - apply keeps_run_user, app_req_polite.
Qed.

Lemma handled_emit r f n :
  handled (r <| r_trace ::= fun t => t ++ [EvHandler f s n] |>) s = handled r s ++ [n].
Proof. unfold handled, handled_in. rsimp. rewrite omap_app. cbn. by rewrite decide_True. Qed.

Lemma call_req_func_once f r v :
  srv_view r s = Some v -> once_view v (handled r s) -> v_req v ∉ handled r s ->
  v_pkts v <= v_rx v -> 1 <= v_rx v ->
  wpe any_err (call_req_func f s) (fun _ => once) r.
Proof.
  intros Hv Ho Hn Hp Hr. unfold call_req_func. apply wp_keeps; [keeps_tac|]. intros fn r1 [E1 E2].
  rewrite <- E1 in Ho, Hn. rewrite <- E2 in Hv. wp_step. unfold get_sslot, deref. do 2 wp_step.
  unfold srv_view in Hv. destruct (slot_at r1 s) as [sl|] eqn:Hsl; [|done]. injection Hv as <-.
  wp_step. unfold emit. wp_step. wp_step.
  apply keeps_once; [apply keeps_run_user, app_req_polite|].
  exists (view_of sl). split; [change (view_of <$> slot_at r1 s = Some (view_of sl)); by rewrite Hsl|]. rewrite handled_emit.
  apply (once_run (view_of sl)); done.
Qed.

(** ** The receiving functions *)
Lemma keeps_set_pending s' ty : keeps s (set_pending s' ty).
Proof. unfold set_pending. keeps_tac. Qed.
Lemma keeps_push_bg e wi : keeps s (push_bg e wi).
Proof. unfold push_bg. keeps_tac. Qed.
Lemma keeps_submit_req s' : keeps s (submit_bg_req_st s').
Proof. unfold submit_bg_req_st. keeps_tac. apply keeps_push_bg. Qed.
Lemma keeps_resend s' i : keeps s (resend_resp s' i).
Proof. unfold resend_resp. keeps_tac. Qed.
Lemma keeps_copy_from_pkt mb pkt n : keeps s (copy_from_pkt mb pkt n).
Proof. unfold copy_from_pkt. keeps_tac. Qed.
#[local] Hint Resolve keeps_set_pending keeps_submit_req keeps_resend keeps_copy_from_pkt
  call_req_func_other : keeps.

(** Reading a slot that is known. *)
Lemma wp_srv_sslot r v k (Q : unit -> Rpc -> Prop) :
  srv_view r s = Some v -> (forall sl, view_of sl = v -> wpe any_err (k sl) Q r) ->
  wpe any_err (get_sslot s ≫= k) Q r.
Proof.
  intros Hv Hk. apply wp_bind. unfold get_sslot, deref. do 2 wp_step. unfold srv_view in Hv.
  destruct (slot_at r s) as [sl|]; [|done]. injection Hv as Ev. wp_step. by apply Hk.
Qed.
Lemma wp_srv_si r v k (Q : unit -> Rpc -> Prop) :
  srv_view r s = Some v ->
  (forall si, si_num_rx_ si = v_rx v -> num_pkts_ (req_msgbuf_ si) = v_pkts v ->
     wpe any_err (k si) Q r) -> wpe any_err (get_si s ≫= k) Q r.
Proof.
  intros Hv Hk. apply wp_bind. unfold get_si, get_sslot, deref. do 2 wp_step. wp_step.
  unfold srv_view in Hv. destruct (slot_at r s) as [sl|]; [|done]. injection Hv as Ev. wp_step.
  destruct (is_client_ sl); [done|]. wp_step. by apply Hk; rewrite <- Ev.
Qed.

(** Writing it. *)
Lemma wp_upd_view_sl r v f k (Q : unit -> Rpc -> Prop) v' :
  srv_view r s = Some v -> (forall sl, view_of sl = v -> view_of (f sl) = v') ->
  (forall r', srv_view r' s = Some v' -> handled r' s = handled r s -> wpe any_err (k tt) Q r') ->
  wpe any_err (upd_sslot s f ≫= k) Q r.
Proof.
  intros Hv Hf Hk. apply wp_bind. unfold upd_sslot. unfold srv_view in Hv.
  destruct (slot_at r s) as [sl|] eqn:Hsl; [|done]. injection Hv as Ev.
  wp_step. eapply wp_get_sslot; [exact Hsl|]. wp_step. apply Hk.
  - unfold srv_view. rewrite (slot_at_put_slot _ _ _ _ _ Hsl), decide_True by done. cbn. by rewrite Hf.
  - pose proof Hsl as (se & Hse & _)%slot_at_Some. by rewrite (put_slot_sess _ _ _ _ Hse).
Qed.
Lemma wp_upd_view_si r v f k (Q : unit -> Rpc -> Prop) rx p :
  srv_view r s = Some v ->
  (forall si, si_num_rx_ si = v_rx v -> num_pkts_ (req_msgbuf_ si) = v_pkts v ->
     si_num_rx_ (f si) = rx /\ num_pkts_ (req_msgbuf_ (f si)) = p) ->
  (forall r', srv_view r' s = Some (mkView false (v_req v) rx p) -> handled r' s = handled r s ->
     wpe any_err (k tt) Q r') ->
  wpe any_err (upd_si s f ≫= k) Q r.
Proof.
  intros Hv Hf Hk. apply wp_bind. unfold upd_si. unfold srv_view in Hv.
  destruct (slot_at r s) as [sl|] eqn:Hsl; [|done]. injection Hv as Ev.
  wp_step. eapply wp_get_sslot; [exact Hsl|]. destruct (is_client_ sl) eqn:Hcl; [exact I|]. wp_step.
  apply Hk.
  - unfold srv_view. rewrite (slot_at_put_slot _ _ _ _ _ Hsl), decide_True by done. cbn.
    destruct (Hf (server_info_ sl)) as [E1 E2]; [by rewrite <- Ev..|].
    unfold view_of. rsimp. by rewrite E1, E2, Hcl, <- Ev.
  - pose proof Hsl as (se & Hse & _)%slot_at_Some. by rewrite (put_slot_sess _ _ _ _ Hse).
Qed.

Lemma wp_keeps_view {B C'} (m : MR B) (k : B -> MR C') r v h (Q : C' -> Rpc -> Prop) :
  keeps s m -> srv_view r s = Some v -> handled r s = h ->
  (forall a r1, srv_view r1 s = Some v -> handled r1 s = h -> wpe any_err (k a) Q r1) ->
  wpe any_err (m ≫= k) Q r.
Proof.
  intros Hm Hv Hh Hk. apply wp_keeps; [done|]. intros a r1 [E1 E2]. apply Hk; congruence.
Qed.

(** The current request is a new one: whatever the view, the history is older. *)
Lemma once_new r v h n rx p :
  once_view v h -> v_req v < n -> in_u 44 n -> srv_view r s = Some (mkView false n rx p) ->
  handled r s = h -> once r.
Proof.
  intros Ho Hn Hr Hv Hh. exists (mkView false n rx p). split; [done|]. rewrite Hh.
  by apply (once_next v h n rx p).
Qed.

(** Over a computation that keeps the slot, forgetting the old state. *)
Ltac keep v h :=
  eapply (wp_keeps_view _ _ _ v h); [keeps_tac|assumption|assumption|];
  match goal with r : Rpc |- _ => clear dependent r end.

Lemma wp_mret_bind (m : MR unit) (Q : unit -> Rpc -> Prop) r :
  wpe any_err (m;; mret tt) Q r -> wpe any_err m Q r.
Proof. unfold wpe, base.mbind, M_bind. by destruct (m r) as [[]|]. Qed.

(** The copying path for background handlers. *)
Lemma copy_small_view pkt hd r v :
  srv_view r s = Some v ->
  wpe any_err (copy_small_req s pkt hd) (fun _ r' => handled r' s = handled r s /\
    exists p, srv_view r' s = Some (mkView false (v_req v) (v_rx v) p)) r.
Proof.
  intros Hv. remember (handled r s) as h eqn:Hh. symmetry in Hh. unfold copy_small_req.
  keep v h. intros mb r Hv Hh.
  eapply (wp_upd_view_si r v _ _ _ (v_rx v) (num_pkts_ mb)); [exact Hv|by intros [] E1 _|].
  rewrite Hh. clear dependent r. intros r Hv Hh.
  apply wp_keeps_end; [keeps_tac|]. intros _ r1 [E1 E2]. split; [congruence|].
  exists (num_pkts_ mb). congruence.
Qed.

Lemma small_req_once pkt r :
  once r -> pkthdr_wf (m_hdr (r_mem r) pkt) -> wpe any_err (process_small_req_st s pkt) (fun _ => once) r.
Proof.
  intros (v & Hv & Ho) Hwf. remember (handled r s) as h eqn:Hh. symmetry in Hh.
  unfold process_small_req_st, assert_dispatch, in_dispatch. wp_step. do 2 wp_step.
  unfold assert_. destruct (_ =? _); [|exact I]. wp_step. wp_step. apply wp_hdr_at.
  set (hd := m_hdr _ _) in *. clearbody hd. pose proof (hw_req_num _ Hwf) as Hrn.
  eapply wp_srv_sslot; [done|]. intros sl Ev.
  destruct (req_num_ hd <=? cur_req_num_ sl) eqn:E.
  { apply keeps_once; [|exists v; by rewrite Hh]. keeps_tac. }
  apply Z.leb_gt in E. assert (Hn : v_req v < req_num_ hd) by (by rewrite <- Ev).
  keep v h. intros _ r Hv Hh. keep v h. intros si r Hv Hh. keep v h. intros _ r Hv Hh.
  keep v h. intros _ r Hv Hh.
  eapply (wp_upd_view_sl r v _ _ _ (mkView (v_client v) (req_num_ hd) (v_rx v) (v_pkts v))); [done| |].
  { intros sl' <-. by destruct sl'. }
  rewrite Hh. clear dependent r. intros r Hv Hh.
  eapply (wp_upd_view_si r _ _ _ _ 1 (v_pkts v)); [exact Hv|by intros [] _ E1|].
  rewrite Hh. clear dependent r. cbn [v_req]. intros r Hv Hh.
  match type of Hv with _ = Some ?v' => set (v1 := v') in * end.
  keep v1 h. intros f r Hv Hh. destruct (negb (is_background f)).
  - change kZeroCopyRX with true. cbv iota.
    eapply (wp_upd_view_si r v1 _ _ _ 1 1); [exact Hv|by intros [] E1 _|].
    rewrite Hh. clear dependent r. intros r Hv Hh. cbn in Hv.
    destruct (once_next v h (req_num_ hd) 1 1 Ho Hn Hrn) as [Ho' Hnin].
    eapply call_req_func_once; [exact Hv|by rewrite Hh|by rewrite Hh|done|done].
  - wp_step. eapply wp_mono; [exact (copy_small_view pkt hd r v1 Hv)|]. cbn beta.
    intros _ r' (Hh' & p & Hv'). apply keeps_once; [keeps_tac|].
    eapply once_new; [exact Ho|exact Hn|exact Hrn|exact Hv'|by rewrite Hh'].
Qed.

(** Packet 0 of a large request. *)
Lemma large_first_view hd r v :
  srv_view r s = Some v ->
  wpe any_err (large_req_first s hd) (fun _ r' => handled r' s = handled r s /\
    exists p, srv_view r' s = Some (mkView false (req_num_ hd) 1 p)) r.
Proof.
  intros Hv. remember (handled r s) as h eqn:Hh. symmetry in Hh. unfold large_req_first.
  keep v h. intros si r Hv Hh. keep v h. intros _ r Hv Hh. keep v h. intros _ r Hv Hh.
  keep v h. intros mb r Hv Hh.
  eapply (wp_upd_view_si r v _ _ _ (v_rx v) (num_pkts_ mb)); [exact Hv|by intros [] E1 _|].
  rewrite Hh. clear dependent r. intros r Hv Hh.
  match type of Hv with _ = Some ?v' => set (v1 := v') in * end.
  keep v1 h. intros _ r Hv Hh.
  eapply (wp_upd_view_sl r v1 _ _ _ (mkView false (req_num_ hd) (v_rx v) (num_pkts_ mb))); [done| |].
  { intros sl' E. destruct sl' as [? ? c ? ? ? ? si']. unfold v1 in E. injection E as E1 _ E3 E4.
    transitivity (mkView c (req_num_ hd) (si_num_rx_ si') (num_pkts_ (req_msgbuf_ si'))); [done|].
    by rewrite E1, E3, E4. }
  rewrite Hh. clear dependent r. intros r Hv Hh. apply wp_mret_bind.
  eapply (wp_upd_view_si r _ _ _ _ 1 (num_pkts_ mb)); [exact Hv|by intros [] _ E1|].
  rewrite Hh. clear dependent r. cbn [v_req]. intros r Hv Hh. wp_step. split; [done|]. by exists (num_pkts_ mb).
Qed.

(** The bookkeeping of an in-order packet of a large request. *)
Lemma large_advance hd r v h :
  srv_view r s = Some v -> handled r s = h -> once_view v h -> pkthdr_wf hd ->
  (req_num_ hd =? v_req v) && (pkt_num_ hd =? v_rx v)
    || (req_num_ hd =? add64 (v_req v) kSessionReqWindow) && (pkt_num_ hd =? 0) = true ->
  wpe any_err (if pkt_num_ hd =? 0 then large_req_first s hd
               else upd_si s (fun si => si <| si_num_rx_ ::= fun n => add64 n 1 |>))
    (fun _ r' => exists v', srv_view r' s = Some v' /\ handled r' s = h /\ once_view v' h /\
       1 <= v_rx v' /\ (v_rx v' = v_pkts v' -> v_req v' ∉ h)) r.
Proof.
  intros Hv Hh Ho Hwf Hb. pose proof (hw_req_num _ Hwf) as Hrn. pose proof (hw_pkt_num _ Hwf) as Hpn.
  unfold in_u in *. destruct (pkt_num_ hd =? 0) eqn:E0.
  - apply Z.eqb_eq in E0. eapply wp_mono; [by apply (large_first_view hd r v)|]. cbn beta.
    intros _ r' (Hh' & p & Hv'). exists (mkView false (req_num_ hd) 1 p). rewrite Hh', Hh. cbn.
    assert (H : once_view (mkView false (req_num_ hd) 1 p) h /\ req_num_ hd ∉ h).
    { apply orb_true_iff in Hb as [[H1%Z.eqb_eq H2%Z.eqb_eq]%andb_true_iff|[H1%Z.eqb_eq _]%andb_true_iff].
      - destruct Ho as [O1 O0 O2 O3 O4].
        assert (Hn : v_req v ∉ h) by (intros Hin; destruct (O4 Hin); lia).
        rewrite H1. split; [|done]. by split.
      - apply (once_next v); [done| |done]. pose proof (ov_range _ _ Ho) as Hr. unfold in_u in Hr.
        change kSessionReqWindow with 8 in H1. rewrite add64_small in H1 by lia. lia. }
    destruct H. by split_and!.
  - rewrite andb_false_r, orb_false_r in Hb. apply andb_true_iff in Hb as [H1%Z.eqb_eq H2%Z.eqb_eq].
    apply Z.eqb_neq in E0. apply wp_mret_bind.
    eapply (wp_upd_view_si r v _ _ _ (v_rx v + 1) (v_pkts v)); [exact Hv| |].
    { intros si E1 E2. split; [|by rewrite <- E2; destruct si]. rsimp. rewrite E1.
      apply add64_small. lia. }
    rewrite Hh. clear dependent r. intros r Hv Hh. wp_step.
    exists (mkView false (v_req v) (v_rx v + 1) (v_pkts v)). destruct Ho as [O1 O0 O2 O3 O4]. cbn.
    split_and!; [done|done| |lia|].
    + split; cbn; try done. intros Hin. destruct (O4 Hin). lia.
    + intros E Hin. destruct (O4 Hin). lia.
Qed.

Lemma large_req_once pkt r :
  once r -> pkthdr_wf (m_hdr (r_mem r) pkt) ->
  wpe any_err (process_large_req_one_st s pkt) (fun _ => once) r.
Proof.
  intros (v & Hv & Ho) Hwf. remember (handled r s) as h eqn:Hh. symmetry in Hh.
  unfold process_large_req_one_st, assert_dispatch, in_dispatch. wp_step. do 2 wp_step.
  unfold assert_ at 1. destruct (_ =? _); [|exact I]. wp_step. wp_step. apply wp_hdr_at.
  set (hd := m_hdr _ _) in *. clearbody hd.
  eapply wp_srv_sslot; [done|]. intros sl Ev. eapply wp_srv_si; [done|]. intros si E1 E2. cbv zeta.
  replace (cur_req_num_ sl) with (v_req v) by (by rewrite <- Ev). rewrite E1.
  destruct (_ || _) eqn:Hb; cbn [negb].
  2:{ apply keeps_once; [|exists v; by rewrite Hh]. unfold large_req_reordered. keeps_tac. }
  wp_step. eapply wp_mono; [by apply (large_advance hd r v h)|]. cbn beta.
  clear dependent r. clear Hb. intros _ r (v' & Hv & Hh & Ho' & Hrx & Hnin).
  eapply wp_srv_si; [done|]. intros si' E1' E2'. keep v' h. intros _ r Hv Hh.
  keep v' h. intros _ r Hv Hh. rewrite E1', E2'.
  destruct (v_rx v' =? v_pkts v') eqn:E; cbn [negb].
  - apply Z.eqb_eq in E. keep v' h. intros f r Hv Hh. destruct (negb (is_background f)).
    + eapply call_req_func_once; [exact Hv|by rewrite Hh|rewrite Hh; auto|lia|done].
    + apply keeps_once; [keeps_tac|]. exists v'. by rewrite Hh.
  - wp_step. exists v'. by rewrite Hh.
Qed.

(** ** Requests for response *)
Lemma rfr_once pkt r :
  once r -> pkthdr_wf (m_hdr (r_mem r) pkt) -> wpe any_err (process_rfr_st s pkt) (fun _ => once) r.
Proof.
  intros (v & Hv & Ho) Hwf. remember (handled r s) as h eqn:Hh. symmetry in Hh.
  unfold process_rfr_st, assert_dispatch, in_dispatch. wp_step. do 2 wp_step.
  unfold assert_ at 1. destruct (_ =? _); [|exact I]. wp_step. wp_step. apply wp_hdr_at.
  set (hd := m_hdr _ _) in *. clearbody hd. pose proof (hw_pkt_num _ Hwf) as Hpn. unfold in_u in Hpn.
  eapply wp_srv_sslot; [done|]. intros sl Ev. keep v h. intros _ r Hv Hh.
  eapply wp_srv_si; [done|]. intros si E1 E2. keep v h. intros _ r Hv Hh. cbv zeta.
  replace (cur_req_num_ sl) with (v_req v) by (by rewrite <- Ev). rewrite E1.
  destruct (_ && _) eqn:Hb; cbn [negb].
  2:{ apply keeps_once; [|exists v; by rewrite Hh]. keeps_tac. }
  apply andb_true_iff in Hb as [H1%Z.eqb_eq H2%Z.eqb_eq].
  eapply (wp_upd_view_si r v _ _ _ (v_rx v + 1) (v_pkts v)); [exact Hv| |].
  { intros si' E1' E2'. split; [|by rewrite <- E2'; destruct si']. rsimp. rewrite E1'.
    apply add64_small. lia. }
  rewrite Hh. clear dependent r. intros r Hv Hh. apply keeps_once; [keeps_tac|].
  eexists. split; [exact Hv|]. rewrite Hh. destruct Ho as [O1 O0 O2 O3 O4].
  split; cbn; try done. intros Hin. destruct (O4 Hin). lia.
Qed.

(** ** Packets for other slots *)
Lemma keeps_small_other s' pkt : s' <> s -> keeps s (process_small_req_st s' pkt).
Proof.
  intros Hne. unfold process_small_req_st, copy_small_req. keeps_tac.
  all: first [by apply keeps_upd_sslot|by apply keeps_upd_si|by apply call_req_func_other].
Qed.
Lemma keeps_large_other s' pkt : s' <> s -> keeps s (process_large_req_one_st s' pkt).
Proof.
  intros Hne. unfold process_large_req_one_st, large_req_reordered, large_req_first. cbv zeta. keeps_tac.
  all: first [by apply keeps_upd_sslot|by apply keeps_upd_si|by apply call_req_func_other].
Qed.
Lemma keeps_rfr_other s' pkt : s' <> s -> keeps s (process_rfr_st s' pkt).
Proof.
  intros Hne. unfold process_rfr_st. cbv zeta. keeps_tac.
  all: first [by apply keeps_upd_sslot|by apply keeps_upd_si].
Qed.

(** ** Everything that happens around a server slot *)
Inductive server_op :=
  | SrvReq (s' : sref) (pkt : Z)                  (* a request packet *)
  | SrvRfr (s' : sref) (pkt : Z)                  (* a request for response *)
  | SrvResponse (s' : sref) (p : mbptr)           (* the application responds *)
  | SrvRequest (a : enq_req_args_t)               (* the application is a client, too *)
  | SrvTxBurst
  | SrvStallQueue
  | SrvWheel
  | SrvDma (f : Mem -> Mem).

(** [process_comps_st]'s dispatch on the size. *)
Definition run_server_op (o : server_op) : MR unit :=
  match o with
  | SrvReq s' pkt =>
      h ← hdr_at pkt;
      if msg_size_ h <=? kMaxDataPerPkt then process_small_req_st s' pkt
      else process_large_req_one_st s' pkt
  | SrvRfr s' pkt => process_rfr_st s' pkt
  | SrvResponse s' p => enqueue_response s' p
  | SrvRequest a => enqueue_request a
  | SrvTxBurst => do_tx_burst_st
  | SrvStallQueue => process_credit_stall_queue_st
  | SrvWheel => process_wheel_st
  | SrvDma f => mem_mod f
  end.
(** Headers have their bit widths; requests go to client sessions. *)
Definition server_op_ok (r : Rpc) (o : server_op) : Prop :=
  match o with
  | SrvReq _ pkt | SrvRfr _ pkt => pkthdr_wf (m_hdr (r_mem r) pkt)
  | SrvRequest a => ea_session_num a <> s.1
  | _ => True
  end.
Inductive server_step (r r' : Rpc) : Prop :=
  server_step_op o : server_op_ok r o -> run_server_op o r = Ok tt r' -> server_step r r'.

Lemma server_op_once r o :
  once r -> server_op_ok r o -> wpe any_err (run_server_op o) (fun _ => once) r.
Proof.
  intros Ho Hok. destruct o as [s' pkt|s' pkt|s' p|a| | | |f]; cbn [run_server_op server_op_ok] in *.
  - wp_step. apply wp_hdr_at. destruct (decide (s' = s)) as [->|Hne]; case_match.
    + by apply small_req_once.
    + by apply large_req_once.
    + apply keeps_once; [by apply keeps_small_other|done].
    + apply keeps_once; [by apply keeps_large_other|done].
  - destruct (decide (s' = s)) as [->|Hne]; [by apply rfr_once|].
    apply keeps_once; [by apply keeps_rfr_other|done].
  - apply keeps_once; [apply keeps_enqueue_response|done].
  - apply keeps_once; [by apply keeps_enqueue_request|done].
  - apply keeps_once; [apply keeps_do_tx_burst|done].
  - apply keeps_once; [apply keeps_stall_queue|done].
  - apply keeps_once; [apply keeps_wheel|done].
  - apply keeps_once; [apply keeps_mem_mod|done].
Qed.

Lemma server_steps_once r r' : once r -> rtc server_step r r' -> once r'.
Proof.
  intros Ho Hs. induction Hs as [r|r1 r2 r3 [o Hok E] _ IH]; [done|]. apply IH.
  pose proof (server_op_once r1 o Ho Hok) as H. unfold wpe in H. by rewrite E in H.
Qed.

(** C2 At-most-once execution: from a fresh server slot on, whatever request
    packets and requests for response arrive, duplicated, reordered or invented,
    the handler calls of the dispatch thread for the slot have strictly
    increasing request numbers: no request is executed twice. *)
Theorem requests_at_most_once r0 r v :
  srv_view r0 s = Some v -> v_client v = false -> in_u 44 (v_req v) -> handled r0 s = [] ->
  rtc server_step r0 r ->
  StronglySorted Z.lt (handled r s) /\ NoDup (handled r s).
Proof.
  intros Hv Hc Hr Hh Hst. assert (Ho : once r0).
  { exists v. split; [done|]. rewrite Hh. split; try done; [constructor..|]. by intros ?%elem_of_nil. }
  destruct (server_steps_once _ _ Ho Hst) as (v' & _ & [_ _ Hs _ _]). split; [done|].
  clear -Hs. induction Hs as [|n l Hs IH Hn]; constructor; [|done]. intros Hin.
  rewrite Forall_forall in Hn. specialize (Hn n Hin). lia.
Qed.

End Once.
