(* ===== verification/ServerProps.v ===== *)
(** * The life of a request at the server

    A waiting slot delivers a new request to its handler; the handler's response
    is laid out, queued for transmission, and the slot waits for the next
    request. Packets of past requests change nothing. *)
From S2P Require Import Prelude Config HugeAlloc PktHdr Msg SmTypes Timer Timely MemPool TimingWheel Session RpcState RpcBase RpcTx RpcApi RpcRx RpcWp.

Section Serve.
Context {T : TTr} {TOk : TTrOk T} {Os : ShmOs} {C : RpcConf} {W : World} {A : App}.
Context {OsOk : ShmOsOk Os w_fuel}.
Context (s : sref).

Lemma wp_unit (m : MR unit) (Q : Rpc -> Prop) r :
  wp m (fun _ => Q) r -> exists r', m r = Ok tt r' /\ Q r'.
Proof. rewrite wp_run. intros ([] & r' & H). by exists r'. Qed.

Lemma wp_eq (m : MR unit) r r' : wp m (fun _ r2 => r2 = r') r -> m r = Ok tt r'.
Proof. intros (r2 & H & ->)%wp_unit. done. Qed.


(** ** One slot changes *)

(** [r'] is [r] with slot [s] changed to [sl'], as far as responding goes. *)
Record moved (r r' : Rpc) (sl' : SSlot) : Prop := {
  mv_slot : slot_at r' s = Some sl';
  mv_sess se : sess_at r s.1 = Some se -> exists se', sess_at r' s.1 = Some se' /\
    is_connected se' = is_connected se /\ remote_session_num_ se' = remote_session_num_ se;
  mv_mb p : mb_at r' p = mb_at r p;
  mv_mem : r_mem r' = r_mem r;
  mv_batch : r_tx_batch r' = r_tx_batch r;
  mv_etid : r_etid r' = r_etid r;
  mv_trace : r_trace r' = r_trace r;
}.
Lemma moved_trans r1 r2 r3 sl2 sl3 : moved r1 r2 sl2 -> moved r2 r3 sl3 -> moved r1 r3 sl3.
Proof.
  intros [A1 B1 C1 D1 E1 F1 G1] [A2 B2 C2 D2 E2 F2 G2]. split; try congruence.
  intros se (se2 & H2 & ? & ?)%B1. destruct (B2 se2 H2) as (se3 & ? & ? & ?).
  exists se3. split_and!; congruence.
Qed.
Lemma moved_put r sl sl' :
  slot_at r s = Some sl -> pre_resp_msgbuf_ sl' = pre_resp_msgbuf_ sl ->
  dyn_resp_msgbuf_ sl' = dyn_resp_msgbuf_ sl -> moved r (put_slot s sl' r) sl'.
Proof.
  intros H Ep Ed. pose proof H as (se & Hse & _)%slot_at_Some. split.
  - by rewrite (slot_at_put_slot _ _ _ _ _ H), decide_True.
  - intros se0 E0. rewrite Hse in E0. injection E0 as <-.
    rewrite (sess_at_put_slot _ _ _ _ _ Hse), decide_True by done. eexists. split; [done|]. by destruct se.
  - intros p. destruct p as [n|s'|s'|i]; cbn [mb_at];
      rewrite ?(slot_at_put_slot _ _ _ _ _ H); try (rewrite (put_slot_sess _ _ _ _ Hse); done).
    all: case_decide as D; [subst s'|done]; rewrite H; cbn; congruence.
  - by rewrite (put_slot_sess _ _ _ _ Hse).
  - by rewrite (put_slot_sess _ _ _ _ Hse).
  - by rewrite (put_slot_sess _ _ _ _ Hse).
  - by rewrite (put_slot_sess _ _ _ _ Hse).
Qed.
Lemma upd_si_moved (E : err -> Prop) r0 r sl f (Q : unit -> Rpc -> Prop) :
  moved r0 r sl -> is_client_ sl = false ->
  (forall r', moved r0 r' (sl <| server_info_ ::= f |>) -> Q tt r') -> wpe E (upd_si s f) Q r.
Proof.
  intros M Hc HQ. eapply wp_upd_si; [apply M|done|]. apply HQ. eapply moved_trans; [exact M|].
  apply moved_put with sl; [apply M|done..].
Qed.
Lemma upd_sslot_moved (E : err -> Prop) r0 r sl f (Q : unit -> Rpc -> Prop) :
  moved r0 r sl -> pre_resp_msgbuf_ (f sl) = pre_resp_msgbuf_ sl ->
  dyn_resp_msgbuf_ (f sl) = dyn_resp_msgbuf_ sl ->
  (forall r', moved r0 r' (f sl) -> Q tt r') -> wpe E (upd_sslot s f) Q r.
Proof.
  intros M Ep Ed HQ. eapply wp_upd_sslot; [apply M|]. apply HQ. eapply moved_trans; [exact M|].
  apply moved_put with sl; [apply M|done..].
Qed.
(** A buffer in use, of a class that the bit scan finds. *)
Definition freeable (r : Rpc) (mb : MsgBuffer) : Prop :=
  bsrl_defined (b_class_size (buffer_ mb)) /\ exists live, alloc_inv (buffer_ mb :: live) (r_huge r).
Lemma free_moved (E : err -> Prop) r0 r sl mb live (Q : unit -> Rpc -> Prop) :
  moved r0 r sl -> alloc_inv (buffer_ mb :: live) (r_huge r) -> bsrl_defined (b_class_size (buffer_ mb)) ->
  (forall r', moved r0 r' sl -> Q tt r') -> wpe E (free_msg_buffer mb) Q r.
Proof.
  intros M Hl Hbsr HQ. unfold free_msg_buffer, with_huge. apply wp_zoom.
  eapply wp_mono; [eapply wp_err_mono; [by apply free_buf_spec|done]|].
  cbn beta. intros [] h _. apply HQ. eapply moved_trans; [exact M|].
  split; try done; [apply M|]. intros se Hse. by exists se.
Qed.

Lemma moved_refl r sl : slot_at r s = Some sl -> moved r r sl.
Proof. intros H. split; try done. intros se Hse. by exists se. Qed.

(** A packet joins a batch with room. *)
Lemma enqueue_pkt_moved (E : err -> Prop) r r1 sl i (Q : unit -> Rpc -> Prop) :
  moved r r1 sl -> r_etid r = c_creator_etid -> zlength (r_tx_batch r) + 1 < kPostlist ->
  Q tt (r1 <| r_tx_batch := r_tx_batch r ++ [mkTxItem s.1 (tx_msgbuf_ sl) i None false] |>) ->
  wpe E (enqueue_pkt_tx_burst_st s i None) Q r1.
Proof.
  intros M He Hb HQ.
  unfold enqueue_pkt_tx_burst_st. wp_step. apply wp_assert_dispatch; [by rewrite (mv_etid _ _ _ M)|].
  wp_step. eapply wp_get_sslot; [apply M|]. change kTesting with false. cbv iota.
  do 2 wp_step. unfold enqueue_item. do 4 wp_step.
  assert (Eb : r_tx_batch r1 = r_tx_batch r) by apply M. wp_step.
  - exfalso. apply Z.eqb_eq in H. revert H. rsimp. rewrite zlength_app, Eb.
    change (zlength [_]) with 1. lia.
  - rewrite <- Eb in HQ. by destruct r1.
Qed.

(** ** A new request is delivered *)

(** A slot that waits for its next request, and the request's handler. *)
Record awaits (r : Rpc) (sl : SSlot) (h : pkthdr_t) (f : ReqFunc) (fn : Z) : Prop := {
  aw_disp : r_etid r = c_creator_etid;
  aw_slot : slot_at r s = Some sl;
  aw_server : is_client_ sl = false;
  aw_num : req_num_ h = add64 (cur_req_num_ sl) kSessionReqWindow;
  aw_new : cur_req_num_ sl < req_num_ h;
  aw_buried : is_buried (req_msgbuf_ (server_info_ sl)) = true;
  aw_idle : si_req_type_ (server_info_ sl) = kInvalidReqType;
  aw_resp : tx_msgbuf_ sl = Some (MbDyn s) ->
    freeable r (dyn_resp_msgbuf_ sl);
  aw_func : zlookup c_req_func_arr (req_type_ h) = Some f;
  aw_fg : is_background f = false;
  aw_fn : req_func_ f = Some fn;
}.

(** The state in which the handler starts: the slot has the request's number,
    type and data, which stay in the receive ring; nothing else has changed. *)
Definition delivered_slot (pkt : Z) (h : pkthdr_t) (f : ReqFunc) (sl : SSlot) : SSlot :=
  sl <| tx_msgbuf_ := None |> <| cur_req_num_ := req_num_ h |>
     <| server_info_ := mkServerInfo (MsgBuffer_fake pkt (msg_size_ h)) (req_type_ h)
          (req_func_type_ f) 1 (sav_num_req_pkts_ (server_info_ sl)) |>.
Definition delivered (r r1 : Rpc) (pkt : Z) (h : pkthdr_t) (f : ReqFunc) (fn : Z) (sl : SSlot) : Prop :=
  exists r0, moved r r0 (delivered_slot pkt h f sl) /\
    r1 = r0 <| r_trace ::= fun t => t ++ [EvHandler fn s (req_num_ h)] |>.

Lemma small_req_delivered (E : err -> Prop) r pkt sl f fn (Q : unit -> Rpc -> Prop) :
  let h := m_hdr (r_mem r) pkt in
  awaits r sl h f fn ->
  (forall r1, delivered r r1 pkt h f fn sl -> wpe E (run_user (app_req fn s)) Q r1) ->
  wpe E (process_small_req_st s pkt) Q r.
Proof.
  intros h [A1 A2 A3 A4 A5 A6 A7 A8 A9 A10 A11] HQ. unfold process_small_req_st.
  wp_step. apply wp_assert_dispatch; [done|]. wp_step. apply wp_hdr_at. fold h. clearbody h.
  wp_step. eapply wp_get_sslot; [exact A2|]. rewrite (proj2 (Z.leb_gt _ _)) by lia.
  wp_step. wp_step; [lia|]. wp_step. eapply wp_get_si; [done..|]. wp_step. wp_step; [done|].
  unfold bury_resp_msgbuf_server_st. wp_step. wp_step. apply wp_assert_dispatch; [done|].
  wp_step. eapply wp_get_sslot; [exact A2|].
  wp_step. apply (wp_mono _ (fun _ r0 => moved r r0 sl)).
  { wp_step; [|by apply moved_refl]. apply bool_decide_eq_true in H. destruct (A8 H) as (Hbsr & live & Hl).
    wp_step. eapply wp_get_mb; [cbn; by rewrite A2|].
    eapply free_moved; [by apply moved_refl|exact Hl|exact Hbsr|]. done. }
  intros _ r0 M0. eapply upd_sslot_moved; [exact M0|done..|]. intros r1 M1.
  wp_step. eapply upd_sslot_moved; [exact M1|done..|]. intros r2 M2.
  wp_step. eapply upd_si_moved; [exact M2|done|]. intros r3 M3.
  unfold set_pending. wp_step. wp_step. eapply wp_deref; [exact A9|].
  wp_step. eapply wp_get_si; [apply M3|done|]. wp_step. apply wp_assert.
  { change ((si_req_type_ (server_info_ sl) =? kInvalidReqType) = true). by rewrite A7, Z.eqb_refl. }
  wp_step. eapply upd_si_moved; [exact M3|done|]. intros r4 M4.
  wp_step. rewrite A10. cbn [negb]. wp_step. eapply upd_si_moved; [exact M4|done|]. intros r5 M5.
  unfold call_req_func. wp_step. eapply wp_deref; [exact A11|]. wp_step. eapply wp_get_sslot; [apply M5|].
  unfold emit. wp_step. wp_step. eapply HQ. exists r5. split; [|done].
  by destruct sl as [? ? ? ? ? ? ? []].
Qed.

Lemma new_request_ok r pkt sl f fn :
  let h := m_hdr (r_mem r) pkt in
  awaits r sl h f fn ->
  exists r1, delivered r r1 pkt h f fn sl /\
    process_small_req_st s pkt r = run_user (app_req fn s) r1.
Proof.
  intros h Ha.
  assert (H : wpe (fun e => exists r1, delivered r r1 pkt h f fn sl /\ run_user (app_req fn s) r1 = Fail e)
    (process_small_req_st s pkt)
    (fun a r' => exists r1, delivered r r1 pkt h f fn sl /\ run_user (app_req fn s) r1 = Ok a r') r).
  { eapply small_req_delivered; [exact Ha|]. intros r1 Hd. unfold wpe.
    destruct (run_user _ r1) eqn:E; by exists r1. }
  unfold wpe in H. destruct (process_small_req_st s pkt r); destruct H as (r1 & Hd & <-); by exists r1.
Qed.

(** A slot that waits for a request and receives the next small request
    passes every assertion, takes over the packet without copying it, and its
    handler runs, once, on exactly that request. *)
Theorem new_request_delivered r pkt sl f fn :
  let h := m_hdr (r_mem r) pkt in
  awaits r sl h f fn ->
  exists r1, delivered r r1 pkt h f fn sl /\
    process_small_req_st s pkt r = run_user (app_req fn s) r1.
Proof. apply new_request_ok. Qed.

(** ** The response *)

Lemma get_pkthdr_n_inj mb i j :
  0 <= i -> 0 <= j -> 0 <= max_data_size_ mb < 2 ^ 32 ->
  get_pkthdr_n mb i = get_pkthdr_n mb j -> i = j.
Proof.
  intros Hi Hj Hm. destruct sizeof_pkthdr_mult as (k & Hk & Hk2).
  destruct (round_up_8 _ Hm) as [Hr _]. unfold get_pkthdr_n, get_pkthdr_0.
  assert (0 < sizeof_pkthdr) by lia.
  repeat case_match; rewrite ?Z.eqb_eq, ?Z.eqb_neq in *; nia.
Qed.

(** The other packets' headers are copies of packet 0's. *)
Record hdrs_copied (mb : MsgBuffer) (f : pkthdr_t -> Z -> Z) (k : Z) (m m' : Mem) : Prop := {
  hc_bytes : m_byte m' = m_byte m;
  hc_0 : m_hdr m' (get_pkthdr_0 mb) = m_hdr m (get_pkthdr_0 mb);
  hc_n i : 1 <= i < k ->
    m_hdr m' (get_pkthdr_n mb i) =
      let h0 := m_hdr m (get_pkthdr_0 mb) in set_pkt_num (f h0 i) h0;
}.
Lemma hdrs_copied_step mb f k m m' :
  0 <= max_data_size_ mb < 2 ^ 32 -> 1 <= k -> hdrs_copied mb f k m m' ->
  let h0 := m_hdr m' (get_pkthdr_0 mb) in
  hdrs_copied mb f (k + 1) m (write_hdr (get_pkthdr_n mb k) (set_pkt_num (f h0 k) h0) m').
Proof.
  intros Hm Hk [H1 H2 H3] h0.
  assert (Hw : forall a h, m_hdr (write_hdr (get_pkthdr_n mb k) h m') a
            = if a =? get_pkthdr_n mb k then h else m_hdr m' a) by done.
  split; [done| |]; [|intros i Hi]; rewrite Hw; case_match eqn:E; rewrite ?Z.eqb_eq, ?Z.eqb_neq in E.
  - change (get_pkthdr_0 mb) with (get_pkthdr_n mb 0) in E.
    apply get_pkthdr_n_inj in E; lia.
  - done.
  - apply get_pkthdr_n_inj in E; [|lia..]. subst i. unfold h0. by rewrite H2.
  - apply H3. assert (i <> k) by congruence. lia.
Qed.

Lemma copy_hdrs_copied (E : err -> Prop) mb f r (Q : unit -> Rpc -> Prop) :
  0 <= max_data_size_ mb < 2 ^ 32 -> 1 <= num_pkts_ mb ->
  (forall m', hdrs_copied mb f (num_pkts_ mb) (r_mem r) m' -> Q tt (r <| r_mem := m' |>)) ->
  wpe E (copy_hdrs mb f) Q r.
Proof.
  intros Hm Hn HQ. unfold copy_hdrs. remember (Z.of_nat <$> seq 1 (Z.to_nat (num_pkts_ mb - 1))) as l eqn:Dl.
  assert (El : num_pkts_ mb = 1 + zlength l).
  { rewrite Dl. unfold zlength. rewrite length_fmap, length_seq. lia. }
  eapply wp_mono.
  { apply (wp_miter _ (fun d r' => exists m', r' = r <| r_mem := m' |> /\
                         hdrs_copied mb f (1 + zlength d) (r_mem r) m')).
    { exists (r_mem r). split; [by destruct r|]. split; [done..|]. unfold zlength; cbn. lia. }
    intros d x todo r' Hl (m' & -> & Hc).
    assert (x = 1 + zlength d) as ->.
    { assert (Hx : l !! length d = Some x) by (rewrite Hl; by apply list_lookup_middle).
      rewrite Dl in Hx. apply list_lookup_fmap_Some in Hx as (y & -> & [-> _]%lookup_seq). unfold zlength. lia. }
    wp_step. apply wp_hdr_at. unfold mem_mod. wp_step. eexists. split; [reflexivity|].
    rewrite zlength_app. change (zlength [_]) with 1. rewrite Z.add_assoc.
    apply hdrs_copied_step; [done| |done]. pose proof (zlength_nonneg d). lia. }
  cbn beta. intros [] r' (m' & -> & Hc). apply HQ. by rewrite El.
Qed.

(** The buried request buffer. *)
Definition buried_req (si : ServerInfo) : MsgBuffer :=
  (req_msgbuf_ si) <| buffer_ ::= fun b => b <| b_buf := 0 |> |> <| buf_ := 0 |>.
Lemma bury_req_moved (E : err -> Prop) r0 r sl (Q : unit -> Rpc -> Prop) :
  moved r0 r sl -> is_client_ sl = false ->
  (is_dynamic (req_msgbuf_ (server_info_ sl)) = true ->
     freeable r (req_msgbuf_ (server_info_ sl))) ->
  (forall r', moved r0 r' (sl <| server_info_ ::= fun si => si <| req_msgbuf_ := buried_req si |> |>) ->
     Q tt r') ->
  wpe E (bury_req_msgbuf_server_st s) Q r.
Proof.
  intros M Hc Hd HQ. unfold bury_req_msgbuf_server_st.
  wp_step. eapply wp_get_si; [apply M|done|]. wp_step. wp_step.
  - destruct (Hd H) as (Hbsr & live & Hl). wp_step. eapply free_moved; [exact M|exact Hl|exact Hbsr|]. intros r1 M1.
    eapply upd_si_moved; [exact M1|done|]. intros r2 M2.
    eapply upd_si_moved; [exact M2|done|]. intros r3 M3. apply HQ.
    destruct sl as [? ? ? ? ? ? ? []]. exact M3.
  - eapply upd_si_moved; [exact M|done|]. intros r1 M1. apply HQ.
    destruct sl as [? ? ? ? ? ? ? [[[b ? ?] ? ? ? ? ?] ? ? ? ?]].
    apply negb_false_iff, Z.eqb_eq in H. cbn in H. subst b. exact M1.
Qed.

(** A slot whose handler owes a response, and the response. *)
Record executing (r : Rpc) (se : Session) (sl : SSlot) (p : mbptr) (mb : MsgBuffer) : Prop := {
  ex_disp : r_etid r = c_creator_etid;
  ex_sess : sess_at r s.1 = Some se;
  ex_conn : is_connected se = true;
  ex_slot : slot_at r s = Some sl;
  ex_server : is_client_ sl = false;
  ex_tx : tx_msgbuf_ sl = None;
  ex_type : si_req_type_ (server_info_ sl) <> kInvalidReqType;
  ex_dyn : is_dynamic (req_msgbuf_ (server_info_ sl)) = true ->
    freeable r (req_msgbuf_ (server_info_ sl));
  ex_resp : mb_at r p = Some mb;
  ex_pkts : 1 <= num_pkts_ mb;
  ex_size : 0 <= max_data_size_ mb < 2 ^ 32;
  ex_room : zlength (r_tx_batch r) + 1 < kPostlist;
}.

(** Header [i] of a response. *)
Record resp_hdr (se : Session) (sl : SSlot) (mb : MsgBuffer) (i : Z) (h : pkthdr_t) : Prop := {
  rh_type : pkt_type_ h = kResp;
  rh_req_type : req_type_ h = wrap 8 (si_req_type_ (server_info_ sl));
  rh_size : msg_size_ h = wrap kMsgSizeBits (data_size_ mb);
  rh_dest : dest_session_num_ h = u16 (remote_session_num_ se);
  rh_pkt : pkt_num_ h = wrap kPktNumBits (num_pkts_ (req_msgbuf_ (server_info_ sl)) - 1 + i);
  rh_req : req_num_ h = wrap kReqNumBits (cur_req_num_ sl);
}.

(** What [enqueue_response] leaves. *)
Record responded (r r' : Rpc) (se : Session) (sl : SSlot) (p : mbptr) (mb : MsgBuffer) : Prop := {
  rs_slot : exists sl', slot_at r' s = Some sl' /\ is_client_ sl' = false /\ tx_msgbuf_ sl' = Some p /\
    cur_req_num_ sl' = cur_req_num_ sl /\ si_req_type_ (server_info_ sl') = kInvalidReqType /\
    is_buried (req_msgbuf_ (server_info_ sl')) = true /\
    sav_num_req_pkts_ (server_info_ sl') = num_pkts_ (req_msgbuf_ (server_info_ sl));
  rs_mb : mb_at r' p = Some mb;
  rs_hdrs i : 0 <= i < num_pkts_ mb -> resp_hdr se sl mb i (m_hdr (r_mem r') (get_pkthdr_n mb i));
  rs_data : m_byte (r_mem r') = m_byte (r_mem r);
  rs_batch : r_tx_batch r' = r_tx_batch r ++ [mkTxItem s.1 (Some p) 0 None false];
  rs_trace : r_trace r' = r_trace r;
  rs_etid : r_etid r' = r_etid r;
}.

(** The response's headers, once packet 0's is written and copied. *)
Lemma resp_hdrs_written se sl mb m m' i :
  let h := resp_hdr_0 mb (si_req_type_ (server_info_ sl)) (remote_session_num_ se)
             (num_pkts_ (req_msgbuf_ (server_info_ sl))) (cur_req_num_ sl) in
  hdrs_copied mb (fun h0 i => add64 (pkt_num_ h0) i) (num_pkts_ mb)
    (upd_hdr (get_pkthdr_0 mb) h m) m' ->
  0 <= i < num_pkts_ mb -> resp_hdr se sl mb i (m_hdr m' (get_pkthdr_n mb i)).
Proof.
  intros h [_ H0 Hn] Hi. set (h0 := m_hdr m (get_pkthdr_0 mb)) in *.
  assert (E0 : m_hdr (upd_hdr (get_pkthdr_0 mb) h m) (get_pkthdr_0 mb) = h h0).
  { unfold upd_hdr, write_hdr, update. cbn -[get_pkthdr_0]. by rewrite Z.eqb_refl. }
  rewrite E0 in H0. specialize (Hn i). rewrite E0 in Hn. cbv zeta in Hn.
  assert (Ep : pkt_num_ (h h0) = wrap kPktNumBits (num_pkts_ (req_msgbuf_ (server_info_ sl)) - 1)).
  { change (pkt_num_ (h h0)) with
      (wrap kPktNumBits (sub64 (num_pkts_ (req_msgbuf_ (server_info_ sl))) 1)).
    unfold sub64. by rewrite wrap_wrap. }
  destruct (decide (i = 0)) as [->|Hi0].
  - change (get_pkthdr_n mb 0) with (get_pkthdr_0 mb). rewrite H0.
    split; [reflexivity..| |reflexivity]. rewrite Ep. f_equal. lia.
  - rewrite Hn by lia. split; [reflexivity..| |reflexivity].
    change (pkt_num_ (set_pkt_num ?a _)) with (wrap kPktNumBits a).
    unfold add64. by rewrite Ep, wrap_wrap, wrap_add_l.
Qed.

Lemma when_copy_hdrs (E : err -> Prop) mb f r (Q : unit -> Rpc -> Prop) :
  0 <= max_data_size_ mb < 2 ^ 32 -> 1 <= num_pkts_ mb ->
  (forall m', hdrs_copied mb f (num_pkts_ mb) (r_mem r) m' -> Q tt (r <| r_mem := m' |>)) ->
  wpe E (when (1 <? num_pkts_ mb) (copy_hdrs mb f)) Q r.
Proof.
  intros Hm Hn HQ. wp_step; [by apply copy_hdrs_copied|].
  replace r with (r <| r_mem := r_mem r |>) by (by destruct r). apply HQ. split; [done..|].
  intros i Hi. exfalso. apply Z.ltb_ge in H. lia.
Qed.

(** The second half: the slot is marked, and packet 0 is queued. *)
Lemma respond_tail_wp (E : err -> Prop) r sl p (Q : unit -> Rpc -> Prop) si :
  slot_at r s = Some sl -> is_client_ sl = false -> tx_msgbuf_ sl = None ->
  si_req_type_ si <> kInvalidReqType -> r_etid r = c_creator_etid ->
  zlength (r_tx_batch r) + 1 < kPostlist ->
  (forall r1, moved r r1 (sl <| tx_msgbuf_ := Some p |>
                            <| server_info_ ::= fun si => si <| si_req_type_ := kInvalidReqType |> |>) ->
     Q tt (r1 <| r_tx_batch := r_tx_batch r ++ [mkTxItem s.1 (Some p) 0 None false] |>)) ->
  wpe E (assert_ (bool_decide (tx_msgbuf_ sl = None)) "enqueue_response: tx_msgbuf";;
         upd_sslot s (fun sl => sl <| tx_msgbuf_ := Some p |>);;
         assert_ (negb (si_req_type_ si =? kInvalidReqType)) "enqueue_response: req_type";;
         upd_si s (fun si => si <| si_req_type_ := kInvalidReqType |>);;
         enqueue_pkt_tx_burst_st s 0 None) Q r.
Proof.
  intros H Hc Ht Hty He Hb HQ. wp_step. wp_step; [by apply bool_decide_eq_true|].
  wp_step. eapply wp_upd_sslot; [exact H|].
  assert (M1 : moved r (put_slot s (sl <| tx_msgbuf_ := Some p |>) r) _) by (by apply (moved_put _ _ _ H)).
  set (r1 := put_slot _ _ r) in *. clearbody r1.
  wp_step. wp_step; [by apply negb_true_iff, Z.eqb_neq|].
  wp_step. eapply upd_si_moved; [exact M1|done|]. intros r2 M2.
  eapply enqueue_pkt_moved; [exact M2|done..|]. by apply HQ.
Qed.

Lemma response_sent_ok r se sl p mb :
  executing r se sl p mb ->
  exists r', enqueue_response s p r = Ok tt r' /\ responded r r' se sl p mb.
Proof.
  intros [X1 X2 X3 X4 X5 X6 X7 X8 X9 X10 X11 X12]. apply wp_unit.
  unfold enqueue_response, in_dispatch. do 2 wp_step. rewrite X1, Z.eqb_refl.
  unfold enqueue_response_st. wp_step. eapply wp_upd_si; [done..|].
  set (r1 := put_slot s _ r).
  assert (Eh : r_huge r1 = r_huge r) by (unfold r1; by rewrite (put_slot_sess _ _ _ _ X2)).
  assert (M1 : moved r r1 _) by (by apply (moved_put _ _ _ X4)). clearbody r1.
  wp_step. eapply bury_req_moved; [exact M1|done| |].
  { intros H. destruct (X8 H) as (Hbsr & live & Hl). split; [done|]. exists live. by rewrite Eh. }
  intros r2 M2. wp_step. destruct (mv_sess _ _ _ M2 se X2) as (se2 & Hse2 & Hc2 & Hn2).
  eapply wp_get_session; [exact Hse2|]. rewrite Hc2, X3. cbn [negb].
  wp_step. eapply wp_get_si; [apply M2|done|]. wp_step. eapply wp_get_sslot; [apply M2|].
  wp_step. eapply wp_get_mb; [by rewrite (mv_mb _ _ _ M2)|]. unfold mem_mod. do 2 wp_step.
  wp_step. eapply when_copy_hdrs; [done..|]. intros m' Hc.
  eapply respond_tail_wp.
  - apply (mv_slot _ _ _ M2).
  - done.
  - done.
  - done.
  - etrans; [apply (mv_etid _ _ _ M2)|done].
  - change (zlength (r_tx_batch r2) + 1 < kPostlist). by rewrite (mv_batch _ _ _ M2).
  - intros r3 M3. split.
    + eexists. split; [apply (mv_slot _ _ _ M3)|]. by split_and!.
    + change (mb_at r3 p = Some mb). rewrite (mv_mb _ _ _ M3).
      change (mb_at r2 p = Some mb). by rewrite (mv_mb _ _ _ M2).
    + intros i Hi. change (r_mem (update _ _ r3)) with (r_mem r3). rewrite (mv_mem _ _ _ M3).
      rewrite Hn2 in Hc. apply (resp_hdrs_written _ _ _ (r_mem r2)); [exact Hc|exact Hi].
    + change (m_byte (r_mem r3) = m_byte (r_mem r)). rewrite (mv_mem _ _ _ M3).
      change (m_byte m' = m_byte (r_mem r)). rewrite (hc_bytes _ _ _ _ _ Hc).
      change (m_byte (r_mem r2) = m_byte (r_mem r)). by rewrite (mv_mem _ _ _ M2).
    + change (r_tx_batch r2 ++ [mkTxItem s.1 (Some p) 0 None false]
              = r_tx_batch r ++ [mkTxItem s.1 (Some p) 0 None false]).
      f_equal. apply (mv_batch _ _ _ M2).
    + change (r_trace r3 = r_trace r). rewrite (mv_trace _ _ _ M3). apply (mv_trace _ _ _ M2).
    + change (r_etid r3 = r_etid r). rewrite (mv_etid _ _ _ M3). apply (mv_etid _ _ _ M2).
Qed.

(** [enqueue_response] by the dispatch thread, for a slot whose handler owes a
    response: it passes every assertion, buries the request, writes every
    response header (the response's packet numbers continue the request's),
    queues packet 0 for transmission and leaves the slot waiting. *)
Theorem response_sent r se sl p mb :
  executing r se sl p mb ->
  exists r', enqueue_response s p r = Ok tt r' /\ responded r r' se sl p mb.
Proof. apply response_sent_ok. Qed.

(** ** Requests one after the other *)

(** C5 A handler that responds at once: the next small request is received,
    executed and answered without any failure, and the slot then waits for the
    request after it, whatever its number. *)
Theorem request_served r pkt se sl f fn p mb :
  let h := m_hdr (r_mem r) pkt in
  awaits r sl h f fn -> app_req fn s = UCall (UEnqueueResponse s p) UDone ->
  sess_at r s.1 = Some se -> is_connected se = true -> req_type_ h <> kInvalidReqType ->
  mb_at r p = Some mb -> 1 <= num_pkts_ mb -> 0 <= max_data_size_ mb < 2 ^ 32 ->
  zlength (r_tx_batch r) + 1 < kPostlist ->
  exists r1 r' se1, process_small_req_st s pkt r = Ok tt r' /\ delivered r r1 pkt h f fn sl /\
    responded r1 r' se1 (delivered_slot pkt h f sl) p mb /\
    remote_session_num_ se1 = remote_session_num_ se /\
    forall h', req_num_ h' = add64 (req_num_ h) kSessionReqWindow -> req_num_ h < req_num_ h' ->
      req_type_ h' = req_type_ h -> p <> MbDyn s -> exists sl', awaits r' sl' h' f fn.
Proof.
  intros h Ha Happ Hse Hcon Hty Hmb Hp Hm Hb.
  destruct (new_request_ok r pkt sl f fn Ha) as (r1 & Hd & ->). pose proof Hd as (r0 & M & E1).
  destruct (mv_sess _ _ _ M se Hse) as (se1 & Hse1 & Hc1 & Hn1).
  destruct (response_sent_ok r1 se1 (delivered_slot pkt h f sl) p mb) as (r' & E & Hr).
  { subst r1. split; try done.
    - rewrite <- (aw_disp _ _ _ _ _ Ha). apply (mv_etid _ _ _ M).
    - congruence.
    - apply (mv_slot _ _ _ M).
    - apply (aw_server _ _ _ _ _ Ha).
    - change (mb_at r0 p = Some mb). by rewrite (mv_mb _ _ _ M).
    - change (zlength (r_tx_batch r0) + 1 < kPostlist). by rewrite (mv_batch _ _ _ M). }
  exists r1, r', se1. rewrite Happ. cbn [run_user run_ucall].
  split; [|split_and!; try done].
  { unfold base.mbind, M_bind. by rewrite E. }
  intros h' E' Hlt Et Hne. destruct (rs_slot _ _ _ _ _ _ Hr) as (sl' & H1 & H2 & H3 & H4 & H5 & H6 & _).
  destruct Ha as [A1 A2 A3 A4 A5 A6 A7 A8 A9 A10 A11]. exists sl'. split; try done.
  - rewrite (rs_etid _ _ _ _ _ _ Hr), E1. etrans; [exact (mv_etid _ _ _ M)|done].
  - by rewrite H4.
  - by rewrite H4.
  - rewrite H3. intros [= ?]. done.
  - by rewrite Et.
Qed.

(** ** Packets of the past *)
(** A packet of an earlier request changes nothing: whether it is a small
    request, a packet of a large one, or a request for response, no assertion
    fails, nothing is sent and no handler runs. *)
Theorem past_packets_ignored r sl pkt :
  r_etid r = c_creator_etid -> slot_at r s = Some sl -> is_client_ sl = false ->
  let h := m_hdr (r_mem r) pkt in
  0 <= req_num_ h < cur_req_num_ sl -> cur_req_num_ sl + kSessionReqWindow < 2 ^ 64 ->
  process_small_req_st s pkt r = Ok tt r /\
  process_large_req_one_st s pkt r = Ok tt r /\
  process_rfr_st s pkt r = Ok tt r.
Proof.
  intros He H Hc h Hlt Hr. split_and!; apply wp_eq.
  - unfold process_small_req_st.
    wp_step. apply wp_assert_dispatch; [done|]. wp_step. apply wp_hdr_at. fold h.
    wp_step. eapply wp_get_sslot; [exact H|].
    rewrite (proj2 (Z.leb_le _ _)), (proj2 (Z.ltb_lt _ _)) by lia. by wp_step.
  - unfold process_large_req_one_st.
    wp_step. apply wp_assert_dispatch; [done|]. wp_step. apply wp_hdr_at. fold h.
    wp_step. eapply wp_get_sslot; [exact H|]. wp_step. eapply wp_get_si; [done..|].
    assert (Hw : 0 <= kSessionReqWindow) by done.
    rewrite (add64_small (cur_req_num_ sl)) by lia.
    rewrite !(proj2 (Z.eqb_neq (req_num_ h) _)) by lia. cbn [negb andb orb].
    unfold large_req_reordered. wp_step. eapply wp_get_sslot; [exact H|].
    wp_step. eapply wp_get_si; [done..|].
    rewrite !(proj2 (Z.eqb_neq (req_num_ h) _)) by lia. by wp_step.
  - unfold process_rfr_st.
    wp_step. apply wp_assert_dispatch; [done|]. wp_step. apply wp_hdr_at. fold h.
    wp_step. eapply wp_get_sslot; [exact H|]. wp_step. wp_step; [by rewrite Hc|].
    wp_step. eapply wp_get_si; [done..|]. wp_step. wp_step; [apply Z.leb_le; lia|].
    replace (req_num_ h =? cur_req_num_ sl) with false by lia. cbn [negb andb].
    rewrite (proj2 (Z.ltb_lt _ _)) by lia. by wp_step.
Qed.

(** A request for response that is in order is answered with the response
    packet it asks for, and the slot counts it. *)
Theorem rfr_served r sl pkt :
  r_etid r = c_creator_etid -> slot_at r s = Some sl -> is_client_ sl = false ->
  let h := m_hdr (r_mem r) pkt in
  let si := server_info_ sl in
  req_num_ h = cur_req_num_ sl -> pkt_num_ h = si_num_rx_ si -> si_num_rx_ si < 2 ^ 64 - 1 ->
  1 <= sav_num_req_pkts_ si <= pkt_num_ h -> zlength (r_tx_batch r) + 1 < kPostlist ->
  exists r' sl', process_rfr_st s pkt r = Ok tt r' /\ slot_at r' s = Some sl' /\
    si_num_rx_ (server_info_ sl') = si_num_rx_ si + 1 /\
    r_tx_batch r' = r_tx_batch r ++
      [mkTxItem s.1 (tx_msgbuf_ sl) (pkt_num_ h - (sav_num_req_pkts_ si - 1)) None false].
Proof.
  intros He H Hc h si Hn Hp Hr Hs Hb.
  cut (wp (process_rfr_st s pkt) (fun _ r' => exists sl', slot_at r' s = Some sl' /\
         si_num_rx_ (server_info_ sl') = si_num_rx_ si + 1 /\
         r_tx_batch r' = r_tx_batch r ++
           [mkTxItem s.1 (tx_msgbuf_ sl) (pkt_num_ h - (sav_num_req_pkts_ si - 1)) None false]) r).
  { intros (r' & E & sl' & H')%wp_unit. by exists r', sl'. }
  unfold process_rfr_st. wp_step. apply wp_assert_dispatch; [done|]. wp_step. apply wp_hdr_at. fold h.
  wp_step. eapply wp_get_sslot; [exact H|]. wp_step. wp_step; [by rewrite Hc|].
  wp_step. eapply wp_get_si; [done..|]. wp_step. wp_step; [apply Z.leb_le; lia|].
  fold si. rewrite Hn, Hp, !Z.eqb_refl. cbn [negb andb]. wp_step.
  eapply upd_si_moved; [by apply moved_refl|done|]. intros r1 M1.
  eapply enqueue_pkt_moved; [exact M1|done|done|].
  unfold resp_ntoi. rewrite (sub64_small _ 1), sub64_small by lia.
  eexists. split; [apply M1|]. split; [|done].
  change (add64 (si_num_rx_ si) 1 = si_num_rx_ si + 1). apply add64_small. lia.
Qed.
End Serve.
