(* ===== verification/ServerExamples.v ===== *)
(** * A concrete server

    An endpoint with one connected server session whose request handler answers
    every request with the slot's preallocated buffer: the states at which the
    server's properties are applied. *)
From Stdlib Require Import Sorting.Sorted.
From S2P Require Import Prelude Config HugeAlloc PktHdr Msg SmTypes Timer Timely MemPool TimingWheel WheelChain WheelSpec Session RpcState RpcBase RpcTx RpcApi RpcRx RpcWp ClientTx ClientExamples Frame ServerOnce ServerProps.

#[local] Existing Instance BumpOs.
#[local] Instance SxT : TTr := Transports.IBTransport false.
#[local] Instance SxT_ok : TTrOk SxT := Transports.IBTransport_ok false.
#[local] Instance SxC : RpcConf := {|
  c_rpc_id := 1; c_transport_type := kInfiniBand; c_hostname := "server"; c_sm_udp_port := 31850;
  c_num_bg_threads := 0; c_freq_ghz := fconst 26 10; c_creation_tsc := 0;
  c_req_func_arr := [ReqFunc_null; mkReqFunc (Some 3) kForeground];
  c_creator_etid := 1
|}.
#[local] Instance SxW : World := {|
  w_tsc _ := 5000; w_slow_rand := Z.of_nat; w_bandwidth := fconst 7000000000 1;
  w_resolve := Some; w_local_rinfo := []; w_fuel := 1
|}.
#[local] Instance SxW_ok : ShmOsOk BumpOs w_fuel := BumpOs_ok.

(** The handler responds at once. *)
#[local] Instance SxA : App := {|
  app_req _ s := UCall (UEnqueueResponse s (MbPre s)) UDone;
  app_cont _ _ := UDone; app_sm _ _ _ := UDone
|}.
Definition sx : sref := (0, 0).
#[local] Instance SxA_polite : ServerApp SxA sx.
Proof. intros f s'. by split. Qed.

Definition sx_sess : Session :=
  match Session_new kServer 7 (fconst 26 10) w_bandwidth 0 tt with
  | Ok se _ => se <| state_ := kConnected |> <| remote_session_num_ := 4 |>
                  <| sslot_arr_ ::= fmap (fun sl => sl <| pre_resp_msgbuf_ := ex_buf 1048576 |>) |>
  | Fail _ => blank_sess
  end.
(** Two packets have arrived: a small request at 64, a request for the second
    packet of its response at 4096. *)
Definition sx_hdr (ty pkt_num : Z) : pkthdr_t := mkPkthdr (replicate 2 0) 1 100 0 ty pkt_num 8 11.
Definition sx_mem : Mem :=
  write_hdr 4096 (sx_hdr kRFR 1) (write_hdr 64 (sx_hdr kReq 0) zero_mem).
Definition sx0 : Rpc :=
  mkRpc 1 [Some sx_sess] 4064 [] [] 0 [] 0 0 (Some ATail) None None (Some ARoot)
    (HugeAlloc_new (MB 8)) (replicate 128 zeroMsgBuffer) 0 0 WheelExamples.wheel26 [] [] 0 [] []
    ∅ [] (mkFaults false false (of_size 0) 0) [] (mkDpathStats 0 0 0 0 0) 0 0 3824 false
    ∅ sx_mem [] 0 [].

(** What there is to see before and after the request, checked by running it. *)
Definition sx_slot (r : Rpc) : SSlot := default (SSlot_init kServer 0) (slot_at r sx).

Definition sx_ready (r : Rpc) (pkt : Z) (f : ReqFunc) (fn : Z) : bool :=
  let sl := sx_slot r in
  let h := m_hdr (r_mem r) pkt in
  bool_decide (slot_at r sx <> None) && (r_etid r =? c_creator_etid) && negb (is_client_ sl)
  && (req_num_ h =? add64 (cur_req_num_ sl) kSessionReqWindow) && (cur_req_num_ sl <? req_num_ h)
  && is_buried (req_msgbuf_ (server_info_ sl))
  && (si_req_type_ (server_info_ sl) =? kInvalidReqType) && bool_decide (tx_msgbuf_ sl = None)
  && bool_decide (zlookup c_req_func_arr (req_type_ h) = Some f) && negb (is_background f)
  && bool_decide (req_func_ f = Some fn).
Definition sx_can_respond (r : Rpc) : bool :=
  let mb := pre_resp_msgbuf_ (sx_slot r) in
  match sess_at r 0 with Some se => is_connected se | None => false end
  && (1 <=? num_pkts_ mb) && (0 <=? max_data_size_ mb) && (max_data_size_ mb <? 2 ^ 32)
  && (zlength (r_tx_batch r) + 1 <? kPostlist).
Definition sx_owes (r : Rpc) : bool :=
  let sl := sx_slot r in
  bool_decide (slot_at r sx <> None) && (r_etid r =? c_creator_etid) && negb (is_client_ sl)
  && bool_decide (tx_msgbuf_ sl = None) && negb (is_dynamic (req_msgbuf_ (server_info_ sl)))
  && negb (si_req_type_ (server_info_ sl) =? kInvalidReqType).

Ltac split_checks :=
  repeat match goal with
  | H : (_ && _) = true |- _ => apply andb_true_iff in H as [? ?]
  | H : negb _ = true |- _ => apply negb_true_iff in H
  | H : bool_decide _ = true |- _ => apply bool_decide_eq_true in H
  | H : (_ =? _) = true |- _ => apply Z.eqb_eq in H
  | H : (_ =? _) = false |- _ => apply Z.eqb_neq in H
  | H : (_ <? _) = true |- _ => apply Z.ltb_lt in H
  | H : (_ <=? _) = true |- _ => apply Z.leb_le in H
  end.

Lemma sx_slot_at r : slot_at r sx <> None -> slot_at r sx = Some (sx_slot r).
Proof. unfold sx_slot. by destruct (slot_at r sx). Qed.
Lemma sx_ready_awaits r pkt f fn :
  sx_ready r pkt f fn = true -> awaits sx r (sx_slot r) (m_hdr (r_mem r) pkt) f fn.
Proof.
  unfold sx_ready. intros H. split_checks. split; try done; [by apply sx_slot_at|].
  intros E. congruence.
Qed.
Record can_respond (r : Rpc) (se : Session) (mb : MsgBuffer) : Prop := {
  cr_sess : sess_at r 0 = Some se;
  cr_conn : is_connected se = true;
  cr_mb : pre_resp_msgbuf_ <$> slot_at r sx = Some mb;
  cr_pkts : 1 <= num_pkts_ mb;
  cr_size : 0 <= max_data_size_ mb < 2 ^ 32;
  cr_room : zlength (r_tx_batch r) + 1 < kPostlist;
}.
Lemma sx_can_respond_ok r :
  slot_at r sx <> None -> sx_can_respond r = true ->
  exists se, can_respond r se (pre_resp_msgbuf_ (sx_slot r)).
Proof.
  unfold sx_can_respond. intros Hsl H. split_checks. destruct (sess_at r 0) as [se|] eqn:E; [|done].
  exists se. split; try done. by rewrite (sx_slot_at r Hsl).
Qed.
Lemma sx_owes_executing r :
  sx_owes r && sx_can_respond r = true ->
  exists se, executing sx r se (sx_slot r) (MbPre sx) (pre_resp_msgbuf_ (sx_slot r)).
Proof.
  unfold sx_owes. intros H. split_checks. destruct (sx_can_respond_ok r) as (se & []); [done..|].
  exists se. split; try done; [by apply sx_slot_at|]. intros E. congruence.
Qed.

(** The states: after the request, and while its handler runs. *)
Definition sx1 : Rpc := after_run (process_small_req_st sx 64) sx0.
Definition SxIdle : App := {|
  app_req _ _ := UDone; app_cont _ _ := UDone; app_sm _ _ _ := UDone
|}.
Definition sx_busy : Rpc := after_run (process_small_req_st (A := SxIdle) sx 64) sx0.
Definition sx_fn : ReqFunc := mkReqFunc (Some 3) kForeground.

Lemma sx0_ready : sx_ready sx0 64 sx_fn 3 = true.
Proof. vm_compute. reflexivity. Qed.
Lemma sx0_can : bool_decide (slot_at sx0 sx <> None) && sx_can_respond sx0 = true.
Proof. vm_compute. reflexivity. Qed.
Lemma sx_busy_owes : sx_owes sx_busy && sx_can_respond sx_busy = true.
Proof. vm_compute. reflexivity. Qed.

(** What the later properties ask of [sx1]. *)
Definition sx1_ok (r : Rpc) : bool :=
  let sl := sx_slot r in
  let h := m_hdr (r_mem r) 4096 in
  bool_decide (slot_at r sx <> None) && (r_etid r =? c_creator_etid) && negb (is_client_ sl)
  && (0 <=? req_num_ (m_hdr (r_mem r) 128)) && (req_num_ (m_hdr (r_mem r) 128) <? cur_req_num_ sl)
  && (cur_req_num_ sl + kSessionReqWindow <? 2 ^ 64)
  && (req_num_ h =? cur_req_num_ sl) && (pkt_num_ h =? si_num_rx_ (server_info_ sl))
  && (si_num_rx_ (server_info_ sl) <? 2 ^ 64 - 1) && (1 <=? sav_num_req_pkts_ (server_info_ sl))
  && (sav_num_req_pkts_ (server_info_ sl) <=? pkt_num_ h) && (zlength (r_tx_batch r) + 1 <? kPostlist)
  && runs (process_small_req_st sx 64) sx0 && runs (process_small_req_st sx 64) r.
Lemma sx1_checked : sx1_ok sx1 = true.
Proof. vm_compute. reflexivity. Qed.

(** ** The properties at these states *)
Lemma new_request_delivered_witness :
  exists r1, delivered sx sx0 r1 64 (m_hdr (r_mem sx0) 64) sx_fn 3 (sx_slot sx0) /\
    process_small_req_st sx 64 sx0 = run_user (app_req 3 sx) r1.
Proof. exact (new_request_delivered sx sx0 64 (sx_slot sx0) sx_fn 3 (sx_ready_awaits _ _ _ _ sx0_ready)). Defined.

Lemma response_sent_witness :
  exists se r', enqueue_response sx (MbPre sx) sx_busy = Ok tt r' /\
    responded sx sx_busy r' se (sx_slot sx_busy) (MbPre sx) (pre_resp_msgbuf_ (sx_slot sx_busy)).
Proof.
  destruct (sx_owes_executing sx_busy sx_busy_owes) as (se & He). exists se.
  exact (response_sent sx sx_busy se (sx_slot sx_busy) (MbPre sx) _ He).
Defined.

Lemma request_served_witness :
  exists se r1 r' se1, process_small_req_st sx 64 sx0 = Ok tt r' /\
    delivered sx sx0 r1 64 (m_hdr (r_mem sx0) 64) sx_fn 3 (sx_slot sx0) /\
    responded sx r1 r' se1 (delivered_slot 64 (m_hdr (r_mem sx0) 64) sx_fn (sx_slot sx0)) (MbPre sx)
      (pre_resp_msgbuf_ (sx_slot sx0)) /\
    remote_session_num_ se1 = remote_session_num_ se.
Proof.
  pose proof sx0_can as H. split_checks.
  destruct (sx_can_respond_ok sx0) as (se & [C1 C2 C3 C4 C5 C6]); [done..|]. exists se.
  destruct (request_served (A := SxA) sx sx0 64 se (sx_slot sx0) sx_fn 3 (MbPre sx) (pre_resp_msgbuf_ (sx_slot sx0))
              (sx_ready_awaits _ _ _ _ sx0_ready) eq_refl C1 C2) as (r1 & r' & se1 & E1 & E2 & E3 & E4 & _).
  - vm_compute. discriminate.
  - exact C3.
  - exact C4.
  - exact C5.
  - exact C6.
  - exists r1, r', se1. split; [exact E1|]. split; [exact E2|]. split; [exact E3|exact E4].
Defined.

Lemma past_packets_ignored_witness :
  process_small_req_st sx 128 sx1 = Ok tt sx1 /\
  process_large_req_one_st sx 128 sx1 = Ok tt sx1 /\
  process_rfr_st sx 128 sx1 = Ok tt sx1.
Proof.
  pose proof sx1_checked as H. unfold sx1_ok in H. split_checks.
  apply (past_packets_ignored sx sx1 (sx_slot sx1) 128); [assumption|by apply sx_slot_at|assumption| |assumption].
  by split.
Defined.

Lemma rfr_served_witness :
  exists r' sl', process_rfr_st sx 4096 sx1 = Ok tt r' /\ slot_at r' sx = Some sl' /\
    si_num_rx_ (server_info_ sl') = si_num_rx_ (server_info_ (sx_slot sx1)) + 1 /\
    r_tx_batch r' = r_tx_batch sx1 ++
      [mkTxItem 0 (tx_msgbuf_ (sx_slot sx1))
         (pkt_num_ (m_hdr (r_mem sx1) 4096) - (sav_num_req_pkts_ (server_info_ (sx_slot sx1)) - 1))
         None false].
Proof.
  pose proof sx1_checked as H. unfold sx1_ok in H. split_checks.
  apply (rfr_served sx sx1 (sx_slot sx1) 4096); [assumption|by apply sx_slot_at|assumption..| |assumption].
  by split.
Defined.

(** The request arrives twice. *)
Definition sx_req : server_op := SrvReq sx 64.
Definition sx_once (r : Rpc) : Rpc := after_run (run_server_op sx_req) r.
Definition sx_ok (r : Rpc) : bool :=
  runs (run_server_op sx_req) r && bool_decide (m_hdr (r_mem r) 64 = sx_hdr kReq 0).
Lemma sx_hdr_wf : pkthdr_wf (sx_hdr kReq 0).
Proof. split; try done; [by repeat constructor|..]; by split. Qed.
Lemma sx_step r : sx_ok r = true -> server_step sx r (sx_once r).
Proof.
  intros H. unfold sx_ok in H. split_checks. exists sx_req; [|by apply after_run_ok].
  cbn [server_op_ok sx_req]. rewrite H0. exact sx_hdr_wf.
Qed.
Lemma sx_steps r : sx_ok r && sx_ok (sx_once r) = true -> rtc (server_step sx) r (sx_once (sx_once r)).
Proof.
  intros H. split_checks. eapply rtc_l; [by apply sx_step|]. by apply rtc_once, sx_step.
Qed.

#[local] Instance slot_view_eq_dec : EqDecision slot_view.
Proof. solve_decision. Defined.
Lemma sx_start :
  bool_decide (srv_view sx0 sx = Some (mkView false 0 0 0)) && bool_decide (handled sx0 sx = [])
  && (sx_ok sx0 && sx_ok (sx_once sx0)) = true.
Proof. vm_compute. reflexivity. Qed.

Lemma requests_at_most_once_witness :
  StronglySorted Z.lt (handled (sx_once (sx_once sx0)) sx) /\
  NoDup (handled (sx_once (sx_once sx0)) sx).
Proof.
  pose proof sx_start as H. apply andb_true_iff in H as [H H3]. apply andb_true_iff in H as [H1 H2].
  apply bool_decide_eq_true in H1, H2.
  apply (requests_at_most_once sx sx0 (sx_once (sx_once sx0)) (mkView false 0 0 0) H1 eq_refl).
  - by split.
  - exact H2.
  - exact (sx_steps sx0 H3).
Defined.
