(* ===== verification/SmFrame.v ===== *)
(** * How the session management state of an Rpc evolves

    [evo d r r']: what can be said of the sessions, the connect tokens and the
    RX ring entries between [r] and a later [r'], when [d] sessions have given
    their ring entries back but are not yet buried. [evolves m]: every run of
    [m] evolves the state with no session left in between. *)
From S2P Require Import Prelude Config HugeAlloc PktHdr Msg SmTypes Timer Timely MemPool TimingWheel Session RpcState RpcBase RpcTx RpcApi RpcRx RpcWp.

(** ** Counting live sessions *)
Definition num_live (v : list (option Session)) : Z := zlength (filter is_Some v).
Definition count (o : option Session) : Z := match o with Some _ => 1 | None => 0 end.

Lemma num_live_cons o v : num_live (o :: v) = count o + num_live v.
Proof.
  unfold num_live, zlength. destruct o as [se|].
  - rewrite filter_cons_True by eauto. cbn. lia.
  - rewrite filter_cons_False by (by intros [? [=]]). cbn. lia.
Qed.
Lemma num_live_app v w : num_live (v ++ w) = num_live v + num_live w.
Proof. unfold num_live, zlength. rewrite filter_app, length_app. lia. Qed.
Lemma num_live_insert v i o o' :
  v !! i = Some o -> num_live (<[i := o']> v) = num_live v - count o + count o'.
Proof.
  revert i. induction v as [|a v IH]; intros i; [done|]. destruct i as [|i].
  - intros [= ->]. change (<[0%nat:=o']> (o :: v)) with (o' :: v). rewrite !num_live_cons. lia.
  - intros H. change (<[S i:=o']> (a :: v)) with (a :: <[i:=o']> v).
    rewrite !num_live_cons, (IH i H). lia.
Qed.
Lemma num_live_zinsert v i o o' :
  zlookup v i = Some o -> num_live (zinsert i o' v) = num_live v - count o + count o'.
Proof. unfold zlookup, zinsert. case_match; [apply num_live_insert|done]. Qed.
Lemma num_live_nonneg v : 0 <= num_live v.
Proof. unfold num_live, zlength. lia. Qed.

(** ** The evolution of a state *)

(** What a session keeps for life, and the order of its states. *)
Definition ident (se : Session) : Role * Z * Z := (role_ se, uniq_token_ se, local_session_num_ se).
Definition rank (st : SessionState) : Z :=
  match st with
  | kConnectInProgress => 0 | kConnected => 1 | kDisconnectInProgress => 2 | kResetInProgress => 3
  end.
(** Session numbers are 16 bits wide. *)
Definition kMaxSessions : Z := 65536.

(** [k] sessions have returned their entries but are still in the vector. *)
Record sm_ok (k : Z) (r : Rpc) : Prop := {
  so_ring : r_ring_entries_available r + kSessionCredits * num_live (r_session_vec r)
            = kNumRxRingEntries + kSessionCredits * k;
  so_range : 0 <= r_ring_entries_available r <= kNumRxRingEntries;
  so_num sid se : sess_at r sid = Some se -> local_session_num_ se = sid;
  so_role sid se : sess_at r sid = Some se ->
    match role_ se with
    | kServer => state_ se = kConnected \/ state_ se = kResetInProgress
    | kClient => state_ se <> kResetInProgress
    end;
  so_tok sid se : sess_at r sid = Some se -> role_ se = kServer ->
    r_conn_req_token_map r !! uniq_token_ se = Some sid;
  so_map t n : r_conn_req_token_map r !! t = Some n -> 0 <= n < zlength (r_session_vec r);
}.

Record evo (d : Z) (r r' : Rpc) : Prop := {
  ev_len : zlength (r_session_vec r) <= zlength (r_session_vec r');
  ev_sess sid se' : sid < zlength (r_session_vec r) -> sess_at r' sid = Some se' ->
    exists se, sess_at r sid = Some se /\ ident se' = ident se /\ rank (state_ se) <= rank (state_ se');
  ev_tok t n : r_conn_req_token_map r !! t = Some n -> r_conn_req_token_map r' !! t = Some n;
  ev_ok k : zlength (r_session_vec r') <= kMaxSessions -> sm_ok k r -> sm_ok (k + d) r';
}.

Lemma evo_trans d1 d2 r1 r2 r3 : evo d1 r1 r2 -> evo d2 r2 r3 -> evo (d1 + d2) r1 r3.
Proof.
  intros [L1 S1 T1 K1] [L2 S2 T2 K2]. split; [lia| |eauto|].
  - intros sid se3 Hs H3. destruct (S2 sid se3) as (se2 & H2 & I2 & R2); [lia|done|].
    destruct (S1 sid se2 Hs H2) as (se1 & H1 & I1 & R1). exists se1. split_and!; [done|congruence|lia].
  - intros k Hk Hok. rewrite Z.add_assoc. apply K2, K1; [done|lia|done].
Qed.
Lemma evo_trans0 r1 r2 r3 : evo 0 r1 r2 -> evo 0 r2 r3 -> evo 0 r1 r3.
Proof. apply (evo_trans 0 0). Qed.

(** Nothing that [evo] speaks of changes. *)
Record sm_same (r r' : Rpc) : Prop := {
  ss_vec : r_session_vec r' = r_session_vec r;
  ss_ring : r_ring_entries_available r' = r_ring_entries_available r;
  ss_map : r_conn_req_token_map r' = r_conn_req_token_map r;
}.
#[export] Instance sm_same_preorder : PreOrder sm_same.
Proof. split; [by split|]. intros r1 r2 r3 [] []. split; congruence. Qed.
Lemma ss_sess r r' sid : sm_same r r' -> sess_at r' sid = sess_at r sid.
Proof. intros [E _ _]. unfold sess_at. by rewrite E. Qed.

Lemma sm_ok_same k r r' : sm_same r r' -> sm_ok k r -> sm_ok k r'.
Proof.
  intros S. pose proof S as [E1 E2 E3]. intros [O1 O2 O3 O4 O5 O6].
  split; rewrite ?E1, ?E2, ?E3; [done|done| | | |done];
    intros sid se; rewrite (ss_sess _ _ _ S); [apply O3|apply O4|apply O5].
Qed.
Lemma evo_same r r' : sm_same r r' -> evo 0 r r'.
Proof.
  intros S. pose proof S as [E1 E2 E3]. split; rewrite ?E1, ?E2, ?E3; [done| |done|].
  - intros sid se' _. rewrite (ss_sess _ _ _ S). intros H. by exists se'.
  - intros k _ Hok. rewrite Z.add_0_r. by apply (sm_ok_same _ r).
Qed.
Lemma evo_refl r : evo 0 r r.
Proof. by apply evo_same. Qed.
#[export] Instance evo_preorder : PreOrder (evo 0).
Proof. split; [exact evo_refl|exact evo_trans0]. Qed.

(** A session is updated. *)
Definition sess_le (se se' : Session) : Prop :=
  ident se' = ident se /\ rank (state_ se) <= rank (state_ se') /\
  (role_ se = kServer -> state_ se' = state_ se \/ state_ se' = kResetInProgress) /\
  (role_ se = kClient -> state_ se' = kResetInProgress -> state_ se = kResetInProgress).

Lemma evo_put_sess r sid se se' :
  sess_at r sid = Some se -> sess_le se se' -> evo 0 r (put_sess sid se' r).
Proof.
  intros H (Hid & Hr & Hs & Hc). pose proof H as Hv%sess_at_lookup.
  assert (Hat : forall j sj, sess_at (put_sess sid se' r) j = Some sj ->
    (j = sid /\ sj = se') \/ sess_at r j = Some sj).
  { intros j sj. rewrite (sess_at_put _ _ _ _ _ H). case_decide as D; [|by right]. intros [= <-]. by left. }
  unfold ident in Hid. injection Hid as I1 I2 I3.
  split; unfold put_sess; rsimp; [by rewrite zlength_zinsert| |done|].
  - intros j sj _ [[-> ->]|Hj]%Hat; [|by exists sj]. exists se. split_and!; [done|unfold ident; congruence|done].
  - intros k _ [O1 O2 O3 O4 O5 O6]. rewrite Z.add_0_r. split; rsimp; [|done| | | |].
    + rewrite (num_live_zinsert _ _ _ _ Hv). cbn. rewrite <- O1. lia.
    + intros j sj [[-> ->]|Hj]%Hat; [rewrite I3|]; eauto.
    + intros j sj [[-> ->]|Hj]%Hat; [|by apply (O4 j)]. specialize (O4 sid se H). rewrite I1.
      destruct (role_ se); [|by intros Hk%Hc]. destruct (Hs eq_refl) as [->| ->]; [done|by right].
    + intros j sj [[-> ->]|Hj]%Hat; [rewrite I1, I2|]; eauto.
    + intros t n Ht. rewrite zlength_zinsert. eauto.
Qed.

(** A session is added, with ring entries of its own. *)
Lemma sess_at_app r (o : option Session) sid se :
  sess_at (r <| r_session_vec ::= fun v => v ++ [o] |>) sid = Some se ->
  sess_at r sid = Some se \/ (sid = zlength (r_session_vec r) /\ o = Some se).
Proof.
  unfold sess_at, zlookup, zlength. rsimp. case_match eqn:Hs; [|done].
  destruct (decide (Z.to_nat sid < length (r_session_vec r))%nat) as [Hlt|Hge].
  - rewrite lookup_app_l by done. by left.
  - rewrite lookup_app_r by lia. destruct (Z.to_nat sid - length (r_session_vec r))%nat eqn:Hd; [|done].
    cbn. intros H. right. split; [lia|done].
Qed.

Definition new_ok (r : Rpc) (se : Session) : Prop :=
  kSessionCredits <= r_ring_entries_available r /\
  local_session_num_ se = u16 (zlength (r_session_vec r)) /\
  match role_ se with
  | kServer => state_ se = kConnected /\ r_conn_req_token_map r !! uniq_token_ se = None
  | kClient => state_ se <> kResetInProgress
  end.
Definition add_sess (se : Session) (r : Rpc) : Rpc :=
  r <| r_conn_req_token_map ::= (if bool_decide (role_ se = kServer)
         then <[uniq_token_ se := local_session_num_ se]> else id) |>
    <| r_ring_entries_available ::= fun n => sub64 n kSessionCredits |>
    <| r_session_vec ::= fun v => v ++ [Some se] |>.

Lemma add_sess_map r se t n :
  new_ok r se -> r_conn_req_token_map (add_sess se r) !! t = Some n ->
  r_conn_req_token_map r !! t = Some n \/ n = local_session_num_ se.
Proof.
  intros (_ & _ & Hn). unfold add_sess. rsimp. destruct (role_ se) eqn:Hr.
  - rewrite bool_decide_true by done. destruct (decide (uniq_token_ se = t)) as [<-|Hne].
    + rewrite lookup_insert_eq. intros [= <-]. by right.
    + rewrite lookup_insert_ne by done. by left.
  - rewrite bool_decide_false by done. by left.
Qed.
Lemma add_sess_tok r se t n :
  new_ok r se -> r_conn_req_token_map r !! t = Some n ->
  r_conn_req_token_map (add_sess se r) !! t = Some n.
Proof.
  intros (_ & _ & Hn) Ht. unfold add_sess. rsimp. destruct (role_ se) eqn:Hr.
  - rewrite bool_decide_true by done. rewrite lookup_insert_ne; [done|]. intros <-.
    destruct Hn as [_ Hn]. congruence.
  - by rewrite bool_decide_false.
Qed.

Lemma evo_add_sess r se : new_ok r se -> evo 0 r (add_sess se r).
Proof.
  intros Hn. pose proof Hn as (Hc & Hl & Hr).
  assert (Hat : forall j sj, sess_at (add_sess se r) j = Some sj ->
    sess_at r j = Some sj \/ (j = zlength (r_session_vec r) /\ sj = se)).
  { intros j sj Hj. unfold add_sess in Hj.
    apply (sess_at_app (r <| r_conn_req_token_map ::= _ |> <| r_ring_entries_available ::= _ |>)) in Hj
      as [Hj|[-> [= ->]]]; [by left|by right]. }
  assert (Hlen : zlength (r_session_vec (add_sess se r)) = zlength (r_session_vec r) + 1).
  { unfold add_sess. rsimp. by rewrite zlength_app. }
  split; [lia| |by intros; apply add_sess_tok|].
  - intros sid se' Hs [H|[-> _]]%Hat; [|lia]. by exists se'.
  - intros k Hk [O1 O2 O3 O4 O5 O6]. rewrite Z.add_0_r.
    assert (Hnum : u16 (zlength (r_session_vec r)) = zlength (r_session_vec r)).
    { apply Z.mod_small. pose proof (zlength_nonneg (r_session_vec r)). unfold kMaxSessions in Hk. lia. }
    assert (Hsub : sub64 (r_ring_entries_available r) kSessionCredits
                   = r_ring_entries_available r - kSessionCredits).
    { apply Z.mod_small. change kNumRxRingEntries with 4096 in *. change kSessionCredits with 32 in *. lia. }
    split.
    + unfold add_sess. rsimp. rewrite num_live_app, Hsub. change (num_live [Some se]) with 1.
      change kSessionCredits with 32 in *. lia.
    + unfold add_sess. rsimp. rewrite Hsub. change kSessionCredits with 32 in *. lia.
    + intros sid sj [H|[-> ->]]%Hat; [by apply O3|congruence].
    + intros sid sj [H|[-> ->]]%Hat; [by apply (O4 sid)|]. destruct (role_ se); [left; apply Hr|done].
    + intros sid sj [H|[-> ->]]%Hat Hs; [apply add_sess_tok; eauto|].
      unfold add_sess. rsimp. rewrite bool_decide_true by done. rewrite lookup_insert_eq. congruence.
    + intros t n [H| ->]%(add_sess_map _ _ _ _ Hn); [specialize (O6 _ _ H); lia|].
      rewrite Hl, Hnum. pose proof (zlength_nonneg (r_session_vec r)). lia.
Qed.

(** Ring entries are returned; then the session is buried. *)
Lemma evo_free r :
  add64 (r_ring_entries_available r) kSessionCredits <= kNumRxRingEntries ->
  evo 1 r (r <| r_ring_entries_available ::= fun n => add64 n kSessionCredits |>).
Proof.
  intros Hf. split; [done| |done|]; rsimp.
  - intros sid se' _ H. by exists se'.
  - intros k _ [O1 O2 O3 O4 O5 O6].
    assert (Ha : add64 (r_ring_entries_available r) kSessionCredits
                 = r_ring_entries_available r + kSessionCredits).
    { apply Z.mod_small. change kNumRxRingEntries with 4096 in *. change kSessionCredits with 32 in *. lia. }
    split; rsimp; try done; rewrite Ha in *; change kSessionCredits with 32 in *; lia.
Qed.

Lemma evo_bury r sid se :
  sess_at r sid = Some se ->
  evo (-1) r (r <| r_session_vec ::= zinsert (local_session_num_ se) None |>).
Proof.
  intros H.
  assert (Hat : forall j sj,
    sess_at (r <| r_session_vec ::= zinsert (local_session_num_ se) None |>) j = Some sj ->
    sess_at r j = Some sj).
  { intros j sj. unfold sess_at. rsimp. destruct (decide (local_session_num_ se = j)) as [<-|Hne].
    - destruct (zlookup (zinsert _ _ _) _) as [o|] eqn:E; [|done].
      pose proof (zlookup_lt _ _ _ E) as Hl. rewrite zlength_zinsert in Hl.
      rewrite zlookup_zinsert_eq in E by done. by injection E as <-.
    - by rewrite zlookup_zinsert_ne. }
  split; rsimp; [by rewrite zlength_zinsert| |done|].
  - intros j sj _ Hj%Hat. by exists sj.
  - intros k _ [O1 O2 O3 O4 O5 O6]. split; rsimp; [|done| | | |].
    + rewrite (O3 _ _ H), (num_live_zinsert _ _ (Some se)) by (by apply sess_at_lookup).
      cbn [count]. change kSessionCredits with 32 in *. lia.
    + intros j sj Hj%Hat. by apply O3.
    + intros j sj Hj%Hat. by apply (O4 j).
    + intros j sj Hj%Hat. by apply O5.
    + intros t n Ht. rewrite zlength_zinsert. eauto.
Qed.

(** ** Operations that keep a relation

    [along R m]: whenever [m] returns, [R] holds from its first state to its
    last. *)
Definition along (R : relation Rpc) {A} (m : MR A) : Prop :=
  forall r, wpe any_err m (fun _ r' => R r r') r.
Abbreviation evolves := (along (evo 0)).
Abbreviation quiets := (along sm_same).
Create HintDb evolves.

Section Along.
Context (R : relation Rpc) `{!PreOrder R}.

Lemma along_ret {A} (a : A) : along R (mret a).
Proof. intros r. wp_step. reflexivity. Qed.
Lemma along_fail {A} e : along R (A := A) (fail e).
Proof. intros r. exact I. Qed.
Lemma along_bind {A B} (m : MR A) (k : A -> MR B) :
  along R m -> (forall a, along R (k a)) -> along R (m ≫= k).
Proof.
  intros Hm Hk r. apply wp_bind. eapply wp_mono; [apply Hm|]. cbn. intros a r1 F1.
  eapply wp_mono; [apply Hk|]. cbn. intros b r2 F2. by etrans.
Qed.
Lemma along_gets {A} (f : Rpc -> A) : along R (gets f).
Proof. intros r. wp_step. reflexivity. Qed.
Lemma along_get : along R get.
Proof. intros r. wp_step. reflexivity. Qed.
Lemma along_modify f : (forall r, R r (f r)) -> along R (modify f).
Proof. intros H r. wp_step. apply H. Qed.
Lemma along_assert b what : along R (assert_ b what).
Proof. intros r. apply wp_any_assert. intros _. reflexivity. Qed.
Lemma along_rt_assert b what : along R (rt_assert b what).
Proof. intros r. apply wp_rt_assert; [done|]. intros _. reflexivity. Qed.
Lemma along_deref {A} (o : option A) what : along R (deref o what).
Proof. intros r. apply wp_any_deref. intros a _. reflexivity. Qed.
Lemma along_when b m : along R m -> along R (when b m).
Proof. intros H. destruct b; [exact H|apply along_ret]. Qed.
Lemma along_miter {A} (f : A -> MR unit) l : (forall x, along R (f x)) -> along R (miter f l).
Proof. intros H. induction l as [|x l IH]; [apply along_ret|]. by apply along_bind. Qed.
Lemma along_mrepeat n f : along R f -> along R (mrepeat n f).
Proof. intros H. induction n as [|n IH]; [apply along_ret|]. by apply along_bind. Qed.
Lemma along_zoom {T A} (g : Rpc -> T) (p : T -> Rpc -> Rpc) (m : M T A) :
  (forall t r, R r (p t r)) -> along R (zoom g p m).
Proof. intros H r. unfold zoom, wpe. destruct (m (g r)); [apply H|done]. Qed.
Lemma along_get_session sid : along R (get_session sid).
Proof. intros r. unfold get_session. do 2 wp_step. apply along_deref. Qed.
Lemma along_get_sslot s : along R (get_sslot s).
Proof. intros r. unfold get_sslot. do 2 wp_step. apply along_deref. Qed.
Lemma along_get_mb p : along R (get_mb p).
Proof. intros r. unfold get_mb. do 2 wp_step. apply along_deref. Qed.
(** An operation after others. *)
Lemma along_after {A} (m : MR A) r0 r : R r0 r -> along R m -> wpe any_err m (fun _ r' => R r0 r') r.
Proof. intros H Hm. eapply wp_mono; [apply Hm|]. cbn. intros _ r' H'. by etrans. Qed.
End Along.

Lemma evolves_quiet {A} (m : MR A) : quiets m -> evolves m.
Proof. intros H r. eapply wp_mono; [apply H|]. cbn. intros _ r'. apply evo_same. Qed.

(** Updates of members that session management does not look at. *)
Lemma same_sess_le se se' : ident se' = ident se -> state_ se' = state_ se -> sess_le se se'.
Proof. intros Hi Hs. unfold sess_le. rewrite Hs. split_and!; [done|done|by left|done]. Qed.
Lemma evolves_upd_session sid f :
  (forall se, ident (f se) = ident se /\ state_ (f se) = state_ se) -> evolves (upd_session sid f).
Proof.
  intros Hf r. unfold upd_session, get_session. repeat any_step.
  apply (evo_put_sess r sid a); [done|]. apply same_sess_le; apply Hf.
Qed.
Lemma evo_put_slot r s sl : evo 0 r (put_slot s sl r).
Proof.
  unfold put_slot. destruct (sess_at r s.1) as [se|] eqn:E; [|apply evo_refl].
  apply (evo_put_sess r _ se); [done|]. by apply same_sess_le.
Qed.
Lemma evolves_upd_sslot s f : evolves (upd_sslot s f).
Proof. intros r. unfold upd_sslot, get_sslot. repeat any_step. apply evo_put_slot. Qed.
#[export] Hint Resolve along_ret along_fail along_gets along_get along_assert along_rt_assert
  along_deref along_get_session along_get_sslot along_get_mb evolves_upd_sslot : evolves.

(** One step of the structural part of an [along] proof. *)
Ltac evolves_step :=
  first
    [ solve [eauto 2 with evolves nocore typeclass_instances]
    | lazymatch goal with
      | |- along _ (base.mbind _ _) => apply along_bind; [exact _| |intros ?]
      | |- along _ (when _ _) => apply along_when; [exact _|]
      | |- along _ (miter _ _) => apply along_miter; [exact _|]; intros ?
      | |- along _ (mrepeat _ _) => apply along_mrepeat; [exact _|]
      | |- along _ (zoom _ _ _) => apply along_zoom; intros; first [apply evo_same; by split | by split]
      | |- along _ (modify _) => apply along_modify; intros; first [apply evo_same; by split | by split]
      | |- along _ (upd_session _ _) => apply evolves_upd_session; intros []; by split
      | |- along _ (if ?b then _ else _) => destruct b
      | |- along _ (match ?x with _ => _ end) => destruct x
      end ].
Ltac evolves_tac := repeat evolves_step.
