(* ===== verification/SmOps.v ===== *)
(** * Every datapath operation evolves the session management state

    The operations of the datapath leave sessions, ring entries and tokens
    alone, except through the callbacks they run, which may create and destroy
    sessions. *)
From S2P Require Import Prelude Config HugeAlloc PktHdr Msg Uri SmTypes Timer Timely MemPool TimingWheel Session RpcState RpcBase RpcTx RpcApi RpcRx RpcSm RpcLoop RpcWp SmFrame.

(** ** Helpers *)
Section Helpers.
Context {T : TTr} {Os : ShmOs} {C : RpcConf} {W : World}.

Lemma evolves_get_ci s : evolves (get_ci s).
Proof. unfold get_ci. evolves_tac. Qed.
Lemma evolves_get_si s : evolves (get_si s).
Proof. unfold get_si. evolves_tac. Qed.
Lemma evolves_put_slot s sl : evolves (modify (put_slot s sl)).
Proof. intros r. wp_step. apply evo_put_slot. Qed.
Lemma evolves_upd_ci s f : evolves (upd_ci s f).
Proof. unfold upd_ci. evolves_tac. apply evolves_put_slot. Qed.
Lemma evolves_upd_si s f : evolves (upd_si s f).
Proof. unfold upd_si. evolves_tac. apply evolves_put_slot. Qed.
Lemma evolves_mem_mod f : evolves (mem_mod f).
Proof. unfold mem_mod. evolves_tac. Qed.
Lemma evolves_hdr_at a : evolves (hdr_at a).
Proof. unfold hdr_at. evolves_tac. Qed.
Lemma evolves_emit e : evolves (emit e).
Proof. unfold emit. evolves_tac. Qed.
Lemma evolves_assert_dispatch : evolves assert_dispatch.
Proof. unfold assert_dispatch, in_dispatch. evolves_tac. Qed.
Lemma evolves_rdtsc : evolves rdtsc.
Proof. unfold rdtsc. evolves_tac. Qed.
Lemma evolves_fast_rand : evolves fast_rand_next_u32.
Proof. unfold fast_rand_next_u32. evolves_tac. Qed.
Lemma evolves_get_mb_opt o : evolves (get_mb_opt o).
Proof. unfold get_mb_opt. evolves_tac. Qed.
Lemma evo_put_mb r p mb : evo 0 r (put_mb p mb r).
Proof.
  destruct p; cbn [put_mb]; try by apply evo_same.
  all: destruct (slot_at r s); [apply evo_put_slot|apply evo_refl].
Qed.
Lemma evolves_put_mb p mb : evolves (modify (put_mb p mb)).
Proof. intros r. wp_step. apply evo_put_mb. Qed.
Lemma evolves_set_mb p mb : evolves (set_mb p mb).
Proof. unfold set_mb. evolves_tac. apply evolves_put_mb. Qed.
Lemma evolves_with_huge {A} (m : M HugeAlloc A) : evolves (with_huge m).
Proof. unfold with_huge. evolves_tac. Qed.
Lemma evolves_with_wheel {A} (m : M WS A) : evolves (with_wheel m).
Proof. unfold with_wheel. evolves_tac. Qed.
Lemma evolves_with_mem {A} (m : M Mem A) : evolves (with_mem m).
Proof. unfold with_mem. evolves_tac. Qed.
End Helpers.
#[export] Hint Resolve evolves_get_ci evolves_get_si evolves_upd_ci evolves_upd_si
  evolves_mem_mod evolves_hdr_at evolves_emit evolves_assert_dispatch evolves_rdtsc
  evolves_fast_rand evolves_get_mb_opt evolves_set_mb evolves_put_mb evolves_with_huge
  evolves_with_wheel evolves_with_mem : evolves.

(** ** Buffers and transmission *)
Section Transmit.
Context {T : TTr} {Os : ShmOs} {C : RpcConf} {W : World}.

Lemma evolves_alloc_msg_buffer n : evolves (alloc_msg_buffer n).
Proof. unfold alloc_msg_buffer. evolves_tac. Qed.
Lemma evolves_free_msg_buffer mb : evolves (free_msg_buffer mb).
Proof. unfold free_msg_buffer. evolves_tac. Qed.
Lemma evolves_resize_mb p n : evolves (resize_mb p n).
Proof. unfold resize_mb, resize_msg_buffer, resize. evolves_tac. Qed.
#[local] Hint Resolve evolves_alloc_msg_buffer evolves_free_msg_buffer evolves_resize_mb : evolves.
Lemma evolves_bury_resp s : evolves (bury_resp_msgbuf_server_st s).
Proof. unfold bury_resp_msgbuf_server_st. evolves_tac. Qed.
Lemma evolves_bury_req s : evolves (bury_req_msgbuf_server_st s).
Proof. unfold bury_req_msgbuf_server_st. evolves_tac. Qed.
Lemma evolves_wire_of it : evolves (wire_of it).
Proof. unfold wire_of. evolves_tac. Qed.
Lemma evolves_wire_of_all l : evolves (wire_of_all l).
Proof.
  induction l as [|it l IH]; cbn [wire_of_all]; [evolves_tac|].
  apply along_bind; [exact _|apply evolves_wire_of|intros w]. apply along_bind; [exact _|exact IH|]. intros. evolves_tac.
Qed.
Lemma evolves_stamp_tx t it : evolves (stamp_tx t it).
Proof. unfold stamp_tx. evolves_tac. Qed.
#[local] Hint Resolve evolves_bury_resp evolves_bury_req evolves_wire_of_all evolves_stamp_tx : evolves.
Lemma evolves_do_tx_burst : evolves do_tx_burst_st.
Proof. unfold do_tx_burst_st. evolves_tac. Qed.
#[local] Hint Resolve evolves_do_tx_burst : evolves.
Lemma evolves_enqueue_item it : evolves (enqueue_item it).
Proof. unfold enqueue_item. evolves_tac. Qed.
Lemma evolves_testing_roll mb i : evolves (testing_roll mb i).
Proof. unfold testing_roll, roll_pkt_drop. evolves_tac. Qed.
Lemma evolves_drain : evolves drain_tx_batch_and_dma_queue.
Proof. unfold drain_tx_batch_and_dma_queue. evolves_tac. Qed.
Lemma evolves_next_ctrl : evolves next_ctrl_msgbuf.
Proof. unfold next_ctrl_msgbuf. evolves_tac. Qed.
Lemma evolves_fill_ctrl p a b c d e : evolves (fill_ctrl_hdr p a b c d e).
Proof. unfold fill_ctrl_hdr. evolves_tac. Qed.
#[local] Hint Resolve evolves_enqueue_item evolves_testing_roll evolves_next_ctrl evolves_fill_ctrl : evolves.
Lemma evolves_enqueue_pkt s i ts : evolves (enqueue_pkt_tx_burst_st s i ts).
Proof. unfold enqueue_pkt_tx_burst_st. evolves_tac. Qed.
Lemma evolves_enqueue_hdr s p ts : evolves (enqueue_hdr_tx_burst_st s p ts).
Proof. unfold enqueue_hdr_tx_burst_st. evolves_tac. Qed.
#[local] Hint Resolve evolves_enqueue_pkt evolves_enqueue_hdr : evolves.
Lemma evolves_enqueue_cr s h : evolves (enqueue_cr_st s h).
Proof. unfold enqueue_cr_st. evolves_tac. Qed.
Lemma evolves_enqueue_rfr s h : evolves (enqueue_rfr_st s h).
Proof. unfold enqueue_rfr_st. evolves_tac. Qed.
End Transmit.
#[export] Hint Resolve evolves_alloc_msg_buffer evolves_free_msg_buffer evolves_resize_mb
  evolves_bury_resp evolves_bury_req evolves_do_tx_burst evolves_enqueue_item evolves_testing_roll
  evolves_drain evolves_next_ctrl evolves_fill_ctrl evolves_enqueue_pkt evolves_enqueue_hdr
  evolves_enqueue_cr evolves_enqueue_rfr : evolves.

(** ** The timing wheel, kicks, and the queues *)
Section Queues.
Context {T : TTr} {Os : ShmOs} {C : RpcConf} {W : World}.

(** What was read of a session still holds when the rest runs. *)
Lemma wp_session {A} sid (k : Session -> MR A) (Q : A -> Rpc -> Prop) r :
  (forall se, sess_at r sid = Some se -> wpe any_err (k se) Q r) ->
  wpe any_err (se ← get_session sid; k se) Q r.
Proof. intros H. unfold get_session. any_step. repeat any_step. by apply H. Qed.
(** A session is updated by a value computed before. *)
Lemma evolves_put_known {A} sid se se' (k : MR A) r :
  sess_at r sid = Some se -> sess_le se se' -> evolves k ->
  wpe any_err (upd_session sid (fun _ => se');; k) (fun _ r' => evo 0 r r') r.
Proof.
  intros H Hle Hk. any_step. eapply wp_upd_session; [exact H|]. apply along_after; [exact _| |done].
  by apply (evo_put_sess r sid se).
Qed.
Lemma cc_getupdate_any se t sz (Q : Z * Session -> Rpc -> Prop) r :
  (forall d tsc, Q (d, se <| prev_desired_tx_tsc_ := tsc |>) r) ->
  wpe any_err (cc_getupdate_tx_tsc se t sz) Q r.
Proof. intros HQ. unfold cc_getupdate_tx_tsc. by repeat any_step. Qed.

Lemma evolves_enqueue_wheel s n sz : evolves (enqueue_wheel s n sz).
Proof.
  unfold enqueue_wheel. apply along_bind; [exact _|apply evolves_rdtsc|]. intros t.
  intros r. apply wp_session. intros se Hse. any_step. apply cc_getupdate_any. intros d tsc.
  cbn [fst snd]. apply (evolves_put_known s.1 se); [done| |evolves_tac].
  by apply same_sess_le; destruct se.
Qed.
#[local] Hint Resolve evolves_enqueue_wheel : evolves.
Lemma evolves_wheel_req s n : evolves (enqueue_wheel_req_st s n).
Proof. unfold enqueue_wheel_req_st. evolves_tac. Qed.
Lemma evolves_can_bypass s : evolves (can_bypass_wheel s).
Proof. unfold can_bypass_wheel. evolves_tac. Qed.
Lemma evolves_pay_credit s : evolves (pay_credit s).
Proof. unfold pay_credit. evolves_tac. Qed.
Lemma evolves_set_next a v : evolves (set_next a v).
Proof. unfold set_next. evolves_tac. Qed.
Lemma evolves_set_prev a v : evolves (set_prev a v).
Proof. unfold set_prev. evolves_tac. Qed.
#[local] Hint Resolve evolves_wheel_req evolves_can_bypass evolves_pay_credit evolves_set_next
  evolves_set_prev : evolves.
Lemma evolves_kick_req_one s b : evolves (kick_req_one s b).
Proof. unfold kick_req_one. evolves_tac. Qed.
#[local] Hint Resolve evolves_kick_req_one : evolves.
Lemma evolves_kick_req s : evolves (kick_req_st s).
Proof. unfold kick_req_st. evolves_tac. Qed.
Lemma evolves_add_active s : evolves (add_to_active_rpc_list s).
Proof. unfold add_to_active_rpc_list. evolves_tac. Qed.
Lemma evolves_delete_active s : evolves (delete_from_active_rpc_list s).
Proof. unfold delete_from_active_rpc_list. evolves_tac. Qed.
Lemma evolves_fv_pop {A} (v : FixedVector A) : evolves (fv_pop_back v).
Proof. unfold fv_pop_back. evolves_tac. Qed.
Lemma evolves_fv_push {A} (x : A) (v : FixedVector A) : evolves (fv_push_back x v).
Proof. unfold fv_push_back. evolves_tac. Qed.
Lemma evolves_kick_rfr s : evolves (kick_rfr_st s).
Proof. unfold kick_rfr_st, kick_rfr_one. cbv zeta. evolves_tac. Qed.
#[local] Hint Resolve evolves_kick_req evolves_kick_rfr : evolves.
Lemma evolves_kick s : evolves (kick_st s).
Proof. unfold kick_st, req_pkts_pending. evolves_tac. Qed.
Lemma evolves_stall_loop l : evolves (stall_loop l).
Proof.
  induction l as [|s l IH]; cbn [stall_loop]; evolves_tac; [apply evolves_kick|exact IH..].
Qed.
#[local] Hint Resolve evolves_stall_loop : evolves.
Lemma evolves_stall_queue : evolves process_credit_stall_queue_st.
Proof. unfold process_credit_stall_queue_st. evolves_tac. Qed.
Lemma evolves_wheel : evolves process_wheel_st.
Proof. unfold process_wheel_st, process_wheel_one. cbv zeta. evolves_tac. Qed.
Lemma evolves_copy_hdrs mb f : evolves (copy_hdrs mb f).
Proof. unfold copy_hdrs. evolves_tac. Qed.
End Queues.
#[export] Hint Resolve evolves_kick_req evolves_kick_rfr evolves_kick evolves_add_active
  evolves_delete_active evolves_fv_pop evolves_fv_push evolves_stall_queue evolves_wheel
  evolves_copy_hdrs : evolves.

(** ** The API *)
Section Api.
Context {T : TTr} {Os : ShmOs} {C : RpcConf} {W : World}.

Lemma evolves_enqueue_request_st a : evolves (enqueue_request_st a).
Proof. unfold enqueue_request_st. evolves_tac. Qed.
#[local] Hint Resolve evolves_enqueue_request_st : evolves.
Lemma evolves_enqueue_request a : evolves (enqueue_request a).
Proof. unfold enqueue_request, in_dispatch. evolves_tac. Qed.
Lemma evolves_enqueue_response_st s p : evolves (enqueue_response_st s p).
Proof. unfold enqueue_response_st. evolves_tac. Qed.
#[local] Hint Resolve evolves_enqueue_response_st : evolves.
Lemma evolves_enqueue_response s p : evolves (enqueue_response s p).
Proof. unfold enqueue_response, in_dispatch. evolves_tac. Qed.
#[local] Hint Resolve evolves_enqueue_request evolves_enqueue_response : evolves.
Lemma evolves_bg_requests : evolves process_bg_queues_enqueue_request_st.
Proof. unfold process_bg_queues_enqueue_request_st. evolves_tac. Qed.
Lemma evolves_bg_responses : evolves process_bg_queues_enqueue_response_st.
Proof. unfold process_bg_queues_enqueue_response_st. evolves_tac. Qed.
Lemma evolves_sm_tx p : evolves (sm_pkt_udp_tx_st p).
Proof. unfold sm_pkt_udp_tx_st. evolves_tac. Qed.
#[local] Hint Resolve evolves_sm_tx : evolves.
Lemma evolves_send_sm_req sid : evolves (send_sm_req_st sid).
Proof. unfold send_sm_req_st. evolves_tac. Qed.
End Api.
#[export] Hint Resolve evolves_enqueue_request evolves_enqueue_response evolves_bg_requests
  evolves_bg_responses evolves_sm_tx evolves_send_sm_req : evolves.

(** ** Sessions: creation and destruction *)
Section Create.
Context {T : TTr} {Os : ShmOs} {C : RpcConf} {W : World}.

Lemma quiets_rdtsc : quiets rdtsc.
Proof. unfold rdtsc. evolves_tac. Qed.
Lemma quiets_slow_rand : quiets slow_rand_next_u64.
Proof. unfold slow_rand_next_u64. evolves_tac. Qed.
Lemma quiets_strcpy h : quiets (strcpy_hostname h).
Proof. unfold strcpy_hostname. evolves_tac. Qed.
Lemma quiets_hostname uri : quiets (extract_hostname_from_uri uri).
Proof. unfold extract_hostname_from_uri. evolves_tac. Qed.
Lemma quiets_port uri : quiets (extract_udp_port_from_uri uri).
Proof. unfold extract_udp_port_from_uri. evolves_tac. Qed.

(** A new session takes its ring entries and its place in the vector. *)
Lemma add_client_wp r0 r se (m : MR Z) :
  evo 0 r0 r -> role_ se = kClient -> state_ se <> kResetInProgress ->
  local_session_num_ se = u16 (zlength (r_session_vec r)) -> evolves m ->
  wpe any_err (alloc_ring_entries;; modify (fun r => r <| r_session_vec ::= fun v => v ++ [Some se] |>);; m)
    (fun _ r' => evo 0 r0 r') r.
Proof.
  intros F Hr Hs Hl Hm. unfold alloc_ring_entries, have_ring_entries. repeat any_step.
  apply along_after; [exact _| |done]. etrans; [exact F|].
  assert (Hn : new_ok r se).
  { split; [|split; [done|by rewrite Hr]]. by apply Z.leb_le. }
  etrans; [apply (evo_add_sess _ _ Hn)|]. apply evo_same. unfold add_sess. rewrite Hr.
  rewrite bool_decide_false by done. by destruct r.
Qed.

Lemma evolves_new_client_session h p id : evolves (new_client_session h p id).
Proof.
  intros r. unfold new_client_session. wp_step. eapply wp_mono; [apply quiets_slow_rand|]. cbn.
  intros tok r1 F1. wp_step. eapply wp_mono; [apply quiets_rdtsc|]. cbn. intros tsc r2 F2.
  wp_step. apply Session_new_wp. intros se H1 H2 _ _ _ _ _ _. wp_step. wp_step.
  wp_step. eapply wp_mono; [apply quiets_strcpy|]. cbn. intros lh r3 F3.
  wp_step. eapply wp_mono; [apply quiets_strcpy|]. cbn. intros rh r4 F4.
  assert (F : sm_same r2 r4) by (by etrans). apply add_client_wp; [|exact H1|done| |evolves_tac].
  - apply evo_same. etrans; [exact F1|]. by etrans.
  - cbn. by rewrite (ss_vec _ _ F).
Qed.
#[local] Hint Resolve evolves_new_client_session : evolves.

Lemma evolves_create_session uri id : evolves (create_session_st uri id).
Proof.
  unfold create_session_st, in_dispatch, have_ring_entries.
  evolves_tac; first [apply evolves_quiet, quiets_hostname | apply evolves_quiet, quiets_port].
Qed.

Lemma sess_le_client se st :
  role_ se = kClient -> rank (state_ se) <= rank st -> st <> kResetInProgress ->
  sess_le se (se <| state_ := st |>).
Proof.
  intros Hr Hk Hn. destruct se. cbn in *. subst. split; [done|]. split; [done|]. by split.
Qed.

(** The session is still as it was read. *)
Lemma evolves_state_change {A} r sid se st (k : MR A) :
  sess_at r sid = Some se -> sess_le se (se <| state_ := st |>) -> evolves k ->
  wpe any_err (upd_session sid (fun se => se <| state_ := st |>);; k) (fun _ r' => evo 0 r r') r.
Proof.
  intros H Hle Hk. any_step. eapply wp_upd_session; [exact H|]. apply along_after; [exact _| |done].
  by apply (evo_put_sess r sid se).
Qed.
Lemma wp_keep {A B} (m : MR A) (k : A -> MR B) (I : Rpc -> Prop) r (Q : B -> Rpc -> Prop) :
  wpe any_err m (fun _ => I) r -> (forall a r', I r' -> wpe any_err (k a) Q r') ->
  wpe any_err (m ≫= k) Q r.
Proof. intros Hm Hk. apply wp_bind. eapply wp_mono; [exact Hm|]. auto. Qed.

(** Disconnecting does not change what was checked of the slots. *)
Lemma wp_check_all l (r : Rpc) : wpe any_err (miter check_sslot_buried l) (fun _ r' => r' = r) r.
Proof.
  apply (wp_miter _ (fun _ r' => r' = r)); [done|]. intros _ sl _ r' _ ->.
  unfold check_sslot_buried. by repeat any_step.
Qed.

Lemma evolves_destroy_session n : evolves (destroy_session_st n).
Proof.
  intros r. unfold destroy_session_st, in_dispatch, is_usr_session_num_in_range_st, assert_dispatch,
    in_dispatch.
  do 2 any_step. any_step; [any_step; apply evo_refl|]. do 6 any_step.
  any_step. destruct (sess_at r n) as [se|] eqn:Hse;
    [|any_step; apply evo_refl].
  any_step; [any_step; apply evo_refl|]. any_step; [any_step; apply evo_refl|].
  eapply wp_keep; [apply wp_check_all|]. cbn. intros _ r' ->.
  destruct (state_ se) eqn:Hst; try by (wp_step; apply evo_refl).
  apply (evolves_state_change _ _ se); [done| |evolves_tac].
  apply sess_le_client; rewrite ?Hst; [|by cbn; lia|done].
  apply negb_false_iff in H2. by apply bool_decide_eq_true in H2.
Qed.
End Create.
#[export] Hint Resolve evolves_create_session evolves_destroy_session : evolves.

(** ** Callbacks and reception *)
Section Receive.
Context {T : TTr} {Os : ShmOs} {C : RpcConf} {W : World}.

Lemma evolves_run_ucall c : evolves (run_ucall c).
Proof. destruct c; cbn [run_ucall]; unfold assign_mb; evolves_tac. Qed.
Lemma evolves_run_user p : evolves (run_user p).
Proof.
  induction p as [|k IH|c p IH]; cbn [run_user]; [evolves_tac|intros r; apply IH|].
  apply along_bind; [exact _|apply evolves_run_ucall|]. intros _. exact IH.
Qed.
#[local] Hint Resolve evolves_run_user : evolves.

Context {A : App}.
Lemma evolves_call_req_func f s : evolves (call_req_func f s).
Proof. unfold call_req_func. evolves_tac. Qed.
Lemma evolves_call_cont f tag : evolves (call_cont f tag).
Proof. unfold call_cont. evolves_tac. Qed.
Lemma evolves_push_bg etid wi : evolves (push_bg etid wi).
Proof. unfold push_bg. evolves_tac. Qed.
#[local] Hint Resolve evolves_call_req_func evolves_call_cont evolves_push_bg : evolves.
Lemma evolves_submit_bg_req s : evolves (submit_bg_req_st s).
Proof. unfold submit_bg_req_st. evolves_tac. Qed.
Lemma evolves_submit_bg_resp f tag e : evolves (submit_bg_resp_st f tag e).
Proof. unfold submit_bg_resp_st. evolves_tac. Qed.
Lemma evolves_copy_from_pkt mb pkt n : evolves (copy_from_pkt mb pkt n).
Proof. unfold copy_from_pkt. evolves_tac. Qed.
Lemma evolves_set_pending s ty : evolves (set_pending s ty).
Proof. unfold set_pending. evolves_tac. Qed.
Lemma evolves_resend_resp s i : evolves (resend_resp s i).
Proof. unfold resend_resp. evolves_tac. Qed.
#[local] Hint Resolve evolves_submit_bg_req evolves_submit_bg_resp evolves_copy_from_pkt
  evolves_set_pending evolves_resend_resp : evolves.
Lemma evolves_process_small_req s pkt : evolves (process_small_req_st s pkt).
Proof. unfold process_small_req_st, copy_small_req. evolves_tac. Qed.
Lemma evolves_process_large_req s pkt : evolves (process_large_req_one_st s pkt).
Proof. unfold process_large_req_one_st, large_req_reordered, large_req_first. cbv zeta. evolves_tac. Qed.
Lemma evolves_process_rfr s pkt : evolves (process_rfr_st s pkt).
Proof. unfold process_rfr_st. cbv zeta. evolves_tac. Qed.
Lemma evolves_bump_credits sid : evolves (bump_credits sid).
Proof. unfold bump_credits. evolves_tac. Qed.
Lemma evolves_update_timely s n t : evolves (update_timely_rate s n t).
Proof. unfold update_timely_rate. evolves_tac. Qed.
#[local] Hint Resolve evolves_bump_credits evolves_update_timely : evolves.
Lemma evolves_client_rx_update s h t : evolves (client_rx_update s h t).
Proof. unfold client_rx_update. evolves_tac. Qed.
#[local] Hint Resolve evolves_client_rx_update : evolves.
Lemma evolves_in_order s h : evolves (in_order_client s h).
Proof. unfold in_order_client. evolves_tac. Qed.
#[local] Hint Resolve evolves_in_order : evolves.
Lemma evolves_process_expl_cr s pkt t : evolves (process_expl_cr_st s pkt t).
Proof. unfold process_expl_cr_st, req_pkts_pending. evolves_tac. Qed.
Lemma evolves_complete_request s : evolves (complete_request s).
Proof. unfold complete_request. evolves_tac. Qed.
#[local] Hint Resolve evolves_complete_request : evolves.
Lemma evolves_process_resp s pkt t : evolves (process_resp_one_st s pkt t).
Proof. unfold process_resp_one_st, copy_small_resp, large_resp_one. evolves_tac. Qed.
#[local] Hint Resolve evolves_process_small_req evolves_process_large_req evolves_process_rfr
  evolves_process_expl_cr evolves_process_resp : evolves.
Lemma evolves_process_comp_one : evolves process_comp_one.
Proof. unfold process_comp_one, dispatch_pkt. cbv zeta. evolves_tac. Qed.
Lemma evolves_rx_deliver i ps : evolves (rx_deliver i ps).
Proof. revert i. induction ps as [|p ps IH]; intros i; cbn [rx_deliver]; evolves_tac. Qed.
#[local] Hint Resolve evolves_process_comp_one evolves_rx_deliver : evolves.
Lemma evolves_process_comps : evolves process_comps_st.
Proof. unfold process_comps_st, rx_burst. evolves_tac. Qed.
Lemma evolves_bg_thread_step i : evolves (bg_thread_step i).
Proof. unfold bg_thread_step, run_bg_item. evolves_tac. Qed.
End Receive.
#[export] Hint Resolve evolves_run_user evolves_call_cont evolves_process_comps
  evolves_bg_thread_step : evolves.
