(* ===== verification/SmHandlers.v ===== *)
(** * The session management handlers evolve the state

    A handler that ends a session returns its ring entries, runs the
    application's callback, and buries the session; the callback may create
    sessions in between. *)
From S2P Require Import Prelude Config HugeAlloc PktHdr Msg Uri SmTypes Timer Timely MemPool TimingWheel Session RpcState RpcBase RpcTx RpcApi RpcRx RpcSm RpcLoop RpcWp SmFrame SmOps.

Section Handlers.
Context {T : TTr} {Os : ShmOs} {C : RpcConf} {W : World} {A : App}.

Lemma evolves_call_sm_handler n ev e : evolves (call_sm_handler n ev e).
Proof. unfold call_sm_handler. evolves_tac. Qed.
Lemma evolves_send_resp p e : evolves (send_resp p e).
Proof. unfold send_resp, sm_construct_resp, sm_pkt_type_req_to_resp. evolves_tac. Qed.
Lemma quiets_resolve ri : quiets (resolve_rinfo ri).
Proof. unfold resolve_rinfo. evolves_tac. Qed.
#[local] Hint Resolve evolves_call_sm_handler evolves_send_resp : evolves.

(** ** The end of a session *)
Definition ends {A} (d : Z) (m : MR A) : Prop := forall r, wpe any_err m (fun _ r' => evo d r r') r.

Lemma ends_free : ends 1 free_ring_entries.
Proof.
  intros r. unfold free_ring_entries. repeat any_step. apply evo_free. by apply Z.leb_le.
Qed.
Lemma ends_bind {A' B} d1 d2 (m : MR A') (k : A' -> MR B) :
  ends d1 m -> (forall a, ends d2 (k a)) -> ends (d1 + d2) (m ≫= k).
Proof.
  intros Hm Hk r. apply wp_bind. eapply wp_mono; [apply Hm|]. cbn. intros a r1 F1.
  eapply wp_mono; [apply Hk|]. cbn. intros b r2 F2. by eapply evo_trans.
Qed.
Lemma quiets_free mb : quiets (free_msg_buffer mb).
Proof. unfold free_msg_buffer, with_huge. evolves_tac. Qed.
Lemma quiets_alloc n : quiets (alloc_msg_buffer n).
Proof. unfold alloc_msg_buffer, with_huge, with_mem, mem_mod. evolves_tac. Qed.
#[local] Hint Resolve quiets_free quiets_alloc quiets_rdtsc : evolves.

Lemma ends_bury sid : ends (-1) (bury_session_st sid).
Proof.
  apply (ends_bind 0 (-1)); [apply evolves_assert_dispatch|]. intros _ r.
  apply wp_session. intros se Hse. apply wp_bind. eapply (wp_mono _ (fun _ r' => sm_same r r')).
  { match goal with |- wpe _ ?m _ _ => assert (K : quiets m) by evolves_tac end. apply K. }
  cbn. intros _ r1 F. repeat any_step. apply (evo_trans 0 (-1) r r1); [by apply evo_same|].
  apply (evo_bury r1 sid). by rewrite (ss_sess _ _ _ F).
Qed.

(** Entries back, the callback, the burial. *)
Lemma evolves_end {B} (m : MR B) sid :
  evolves m -> evolves (free_ring_entries;; m;; bury_session_st sid).
Proof.
  intros Hm. apply (ends_bind 1 (-1)); [apply ends_free|]. intros _.
  apply (ends_bind 0 (-1)); [exact Hm|]. intros _. apply ends_bury.
Qed.

(** ** Connect requests *)
Lemma wp_alloc_entries (Q : unit -> Rpc -> Prop) r :
  (kSessionCredits <= r_ring_entries_available r ->
     Q tt (r <| r_ring_entries_available ::= fun n => sub64 n kSessionCredits |>)) ->
  wpe any_err alloc_ring_entries Q r.
Proof.
  intros H. unfold alloc_ring_entries, have_ring_entries. repeat any_step. apply H. by apply Z.leb_le.
Qed.
Lemma quiets_alloc_pre_resps n size acc : quiets (alloc_pre_resps n size acc).
Proof.
  revert acc. induction n as [|n IH]; intros acc; cbn [alloc_pre_resps]; evolves_tac.
Qed.

Lemma evolves_connect_new p ri r :
  r_conn_req_token_map r !! sm_uniq_token_ p = None ->
  wpe any_err (connect_new p ri) (fun _ r' => evo 0 r r') r.
Proof.
  intros Ht. unfold connect_new. wp_step. eapply wp_mono; [apply quiets_rdtsc|]. cbn.
  intros tsc r1 F1. wp_step. apply Session_new_wp. intros se H1 H2 _ _ _ _ _ _. do 2 wp_step.
  apply wp_bind. eapply wp_mono; [apply quiets_alloc_pre_resps|]. cbn. intros bufs r2 F2.
  assert (F : sm_same r r2) by (by etrans). pose proof (evo_same _ _ F) as E2.
  destruct bufs as [bufs|]; [|by apply along_after; [exact _| |apply evolves_send_resp]].
  do 2 wp_step. do 2 wp_step. set (num := u16 _). set (se' := server_session se p bufs ri num).
  wp_step. apply wp_alloc_entries. rsimp. intros Hle. wp_step. wp_step.
  apply along_after; [exact _| |unfold sm_construct_resp, sm_pkt_type_req_to_resp; evolves_tac].
  etrans; [exact E2|]. etrans; [apply (evo_add_sess r2 se')|].
  - split; [exact Hle|]. split; [by destruct se|]. subst se'. unfold server_session. rsimp.
    rewrite H1, H2, (ss_map _ _ F). by split.
  - apply evo_same. unfold add_sess. rewrite bool_decide_true by (by destruct se).
    subst se' num. by destruct r2, se.
Qed.

Lemma evolves_connect_duplicate p n : evolves (connect_duplicate p n).
Proof. unfold connect_duplicate, sm_construct_resp, sm_pkt_type_req_to_resp. evolves_tac. Qed.
#[local] Hint Resolve evolves_connect_duplicate : evolves.

Lemma evolves_connect_req p : evolves (handle_connect_req_st p).
Proof.
  unfold handle_connect_req_st. apply along_bind; [exact _|evolves_tac|intros _].
  apply along_bind; [exact _|evolves_tac|intros _]. intros r. do 2 any_step.
  destruct (r_conn_req_token_map r !! sm_uniq_token_ p) as [n|] eqn:Ht; [apply evolves_connect_duplicate|].
  wp_step; [apply evolves_send_resp|]. unfold have_ring_entries. do 2 any_step.
  any_step; [apply evolves_send_resp|]. apply wp_bind. eapply wp_mono; [apply quiets_resolve|].
  cbn. intros o r1 F. destruct o as [ri|].
  - eapply wp_mono; [apply evolves_connect_new; by rewrite (ss_map _ _ F)|]. cbn. intros _ r2.
    by etrans; [apply evo_same|].
  - apply along_after; [exact _|by apply evo_same|apply evolves_send_resp].
Qed.

(** ** Connect responses *)
Lemma evolves_connect_failed sid se e : evolves (connect_failed sid se e).
Proof. apply evolves_end, evolves_call_sm_handler. Qed.

Lemma evolves_connect_succeeded sid se p r :
  sess_at r sid = Some se -> role_ se = kClient -> state_ se = kConnectInProgress ->
  wpe any_err (connect_succeeded sid se p) (fun _ r' => evo 0 r r') r.
Proof.
  intros Hse Hr Hs. unfold connect_succeeded. apply wp_bind. eapply wp_mono; [apply quiets_resolve|].
  cbn. intros o r1 F. pose proof (evo_same _ _ F) as E1. destruct o as [ri|].
  - apply wp_bind. eapply wp_mono; [apply quiets_rdtsc|]. cbn. intros tsc r2 F2.
    assert (E2 : evo 0 r r2) by (etrans; [exact E1|by apply evo_same]).
    any_step. eapply wp_upd_session.
    { by rewrite (ss_sess _ _ _ F2), (ss_sess _ _ _ F), Hse. }
    apply along_after; [exact _| |apply evolves_call_sm_handler]. etrans; [exact E2|].
    eapply evo_put_sess; [by rewrite (ss_sess _ _ _ F2), (ss_sess _ _ _ F)|].
    destruct se. cbn in *. subst. split; [done|]. split; [done|]. by split.
  - any_step. eapply wp_upd_session; [by rewrite (ss_sess _ _ _ F)|].
    apply along_after; [exact _| |evolves_tac]. etrans; [exact E1|].
    eapply evo_put_sess; [by rewrite (ss_sess _ _ _ F)|].
    destruct se. cbn in *. subst. split; [done|]. split; [done|]. by split.
Qed.

Lemma evolves_connect_resp p : evolves (handle_connect_resp_st p).
Proof.
  unfold handle_connect_resp_st. cbv zeta. do 2 (apply along_bind; [exact _|evolves_tac|intros _]).
  intros r. do 6 any_step. destruct (sess_at r (session_num_ (sm_client_ p))) as [se|] eqn:Hse; [|any_step; apply evo_refl].
  any_step; [any_step; apply evo_refl|].
  do 10 any_step. any_step; [apply along_modify; intros; by apply evo_same|].
  any_step; [apply evolves_connect_failed|].
  apply evolves_connect_succeeded; [done| |].
  - apply andb_true_iff in H1 as [H1 _]. by apply bool_decide_eq_true in H1.
  - apply negb_false_iff in H0. by apply bool_decide_eq_true in H0.
Qed.

(** ** Disconnects *)
#[local] Hint Extern 1 (along _ (base.mbind _ free_ring_entries)) =>
  (apply evolves_end; solve [eauto 2 with evolves nocore]) : evolves.
Lemma evolves_check_slot sid i : evolves (check_slot_finished sid i).
Proof. unfold check_slot_finished. evolves_tac. Qed.
#[local] Hint Resolve evolves_check_slot : evolves.

Lemma evolves_disconnect_req p : evolves (handle_disconnect_req_st p).
Proof.
  unfold handle_disconnect_req_st. cbv zeta.
  evolves_tac.
Qed.
Lemma evolves_disconnect_resp p : evolves (handle_disconnect_resp_st p).
Proof.
  unfold handle_disconnect_resp_st. cbv zeta.
  evolves_tac.
Qed.

(** ** Resets *)
Lemma evolves_reset_client_slot sid i : evolves (reset_client_slot sid i).
Proof. unfold reset_client_slot. evolves_tac. Qed.
#[local] Hint Resolve evolves_reset_client_slot : evolves.

Lemma evolves_reset_server sid : evolves (handle_reset_server_st sid).
Proof.
  unfold handle_reset_server_st. apply along_bind; [exact _|evolves_tac|intros _].
  intros r. apply wp_session. intros se Hse. any_step. apply wp_any_assert. intros Hr%bool_decide_eq_true.
  any_step. eapply wp_upd_session; [exact Hse|]. apply along_after; [exact _| |].
  - apply (evo_put_sess r sid se); [done|]. destruct se. cbn in *. subst. split; [done|].
    split; [by destruct state_|]. split; [by right|done].
  - destruct (_ =? _); [|evolves_tac].
    apply (ends_bind 1 (-1)); [apply ends_free|]. intros _.
    apply (ends_bind (-1) 0); [apply ends_bury|]. intros _. apply along_ret, _.
Qed.

(** ** The receive loop and the event loop *)
#[local] Hint Resolve evolves_connect_req evolves_connect_resp evolves_disconnect_req
  evolves_disconnect_resp : evolves.
Lemma evolves_handle_sm_one : evolves handle_sm_one.
Proof. unfold handle_sm_one. evolves_tac. Qed.
#[local] Hint Resolve evolves_handle_sm_one : evolves.
Lemma evolves_handle_sm_rx : evolves handle_sm_rx_st.
Proof. unfold handle_sm_rx_st. evolves_tac. Qed.
Lemma evolves_retransmit s : evolves (pkt_loss_retransmit_st s).
Proof. unfold pkt_loss_retransmit_st. cbv zeta. evolves_tac. Qed.
#[local] Hint Resolve evolves_handle_sm_rx evolves_retransmit : evolves.
Lemma evolves_scan_one s : evolves (scan_one s).
Proof. unfold scan_one. evolves_tac. Qed.
#[local] Hint Resolve evolves_scan_one : evolves.
Lemma evolves_scan_loop n cur : evolves (scan_loop n cur).
Proof.
  revert cur. induction n as [|n IH]; intros cur; cbn [scan_loop]; evolves_tac.
Qed.
#[local] Hint Resolve evolves_scan_loop : evolves.
Lemma evolves_scan_sm_one n : evolves (scan_sm_one n).
Proof. unfold scan_sm_one. evolves_tac. Qed.
#[local] Hint Resolve evolves_scan_sm_one : evolves.
Lemma evolves_pkt_loss_scan : evolves pkt_loss_scan_st.
Proof. unfold pkt_loss_scan_st. evolves_tac. Qed.
#[local] Hint Resolve evolves_pkt_loss_scan : evolves.
Lemma evolves_event_loop_one : evolves run_event_loop_do_one_st.
Proof. unfold run_event_loop_do_one_st. evolves_tac. Qed.
End Handlers.
#[export] Hint Resolve evolves_event_loop_one evolves_reset_server : evolves.
