(* ===== verification/SmProps.v ===== *)
(** * Sessions over the life of an Rpc

    The steps of an Rpc are its event loop, API calls of the application (from
    the main program or from callbacks), work items of background threads, resets
    of server sessions, and what the outside does: packets arrive at the NIC, SM
    packets in the Rpc's queue. *)
From S2P Require Import Prelude Config HugeAlloc PktHdr Msg Uri SmTypes Timer Timely MemPool TimingWheel Session RpcState RpcBase RpcTx RpcApi RpcRx RpcSm RpcLoop RpcWp SmFrame SmOps SmHandlers.

Section Props.
Context {T : TTr} {Os : ShmOs} {C : RpcConf} {W : World} {A : App}.

Inductive rpc_step (r r' : Rpc) : Prop :=
  | RsEventLoop : run_event_loop_do_one_st r = Ok tt r' -> rpc_step r r'
  | RsApi p : run_user p r = Ok tt r' -> rpc_step r r'
  | RsBackground i : bg_thread_step i r = Ok tt r' -> rpc_step r r'
  | RsResetServer sid b : handle_reset_server_st sid r = Ok b r' -> rpc_step r r'
  | RsSmPkt wi : r' = r <| r_sm_rx_queue ::= fun q => q ++ [wi] |> -> rpc_step r r'
  | RsNic b : r' = r <| r_nic_rx ::= fun q => q ++ [b] |> -> rpc_step r r'.

Lemma evolves_run {X} (m : MR X) r a r' : evolves m -> m r = Ok a r' -> evo 0 r r'.
Proof. intros H. exact (wpe_run _ _ _ _ _ _ (H r)). Qed.
Lemma rpc_step_evo r r' : rpc_step r r' -> evo 0 r r'.
Proof.
  intros [H|p H|i H|sid b H|wi ->|b ->]; try by apply evo_same.
  all: eapply evolves_run; [|exact H].
  - apply evolves_event_loop_one.
  - apply evolves_run_user.
  - apply evolves_bg_thread_step.
  - apply evolves_reset_server.
Qed.
Lemma rpc_steps_evo r r' : rtc rpc_step r r' -> evo 0 r r'.
Proof.
  induction 1 as [r|r1 r2 r3 H _ IH]; [apply evo_refl|]. by etrans; [apply rpc_step_evo|].
Qed.

(** An Rpc as its constructor leaves it, as far as sessions go. *)
Record no_sessions (r : Rpc) : Prop := {
  ns_vec : r_session_vec r = [];
  ns_ring : r_ring_entries_available r = kNumRxRingEntries;
  ns_map : r_conn_req_token_map r = ∅;
}.
Lemma no_sessions_ok r : no_sessions r -> sm_ok 0 r.
Proof.
  intros [E1 E2 E3].
  assert (Hn : forall sid, sess_at r sid = None).
  { intros sid. unfold sess_at, zlookup. rewrite E1. by case_match. }
  split; rewrite ?E1, ?E2, ?E3; try done; intros sid ?; rewrite ?Hn; done.
Qed.
Lemma reachable_ok r0 r :
  no_sessions r0 -> rtc rpc_step r0 r -> zlength (r_session_vec r) <= kMaxSessions -> sm_ok 0 r.
Proof.
  intros H0 Hr Hl. apply (ev_ok 0 r0 r (rpc_steps_evo _ _ Hr) 0 Hl). by apply no_sessions_ok.
Qed.

(** C12 The RX ring is never oversubscribed. In every reachable state each live
    session owns [kSessionCredits] entries of the ring, the rest is available,
    and so the packets that the peers of all sessions may have in flight fit in
    the ring: there are at most [kNumRxRingEntries / kSessionCredits] sessions.
    This is so as long as at most [kMaxSessions] (65536) sessions have been made
    since the start; beyond that the 16-bit session numbers wrap around, which the
    code does not prevent. *)
Theorem ring_entries_conserved r0 r :
  no_sessions r0 -> rtc rpc_step r0 r -> zlength (r_session_vec r) <= kMaxSessions ->
  r_ring_entries_available r = kNumRxRingEntries - kSessionCredits * num_live (r_session_vec r) /\
  0 <= r_ring_entries_available r /\
  num_live (r_session_vec r) <= kNumRxRingEntries / kSessionCredits.
Proof.
  intros H0 Hr Hl. destruct (reachable_ok r0 r H0 Hr Hl) as [O1 O2 _ _ _ _].
  change (kNumRxRingEntries / kSessionCredits) with 128.
  change kNumRxRingEntries with 4096 in *. change kSessionCredits with 32 in *. lia.
Qed.

(** C10 A connect token makes at most one session, ever: if a server session with
    some token is alive in one reachable state, and one with the same token is
    alive in a later state, they are the same session; repeated connect requests
    never duplicate it. This is so as long as at most [kMaxSessions] (65536)
    sessions have been made; the code does not prevent more, whose 16-bit numbers
    wrap around. *)
Theorem one_session_per_token r0 r1 r2 i j se1 se2 :
  no_sessions r0 -> rtc rpc_step r0 r1 -> rtc rpc_step r1 r2 ->
  zlength (r_session_vec r2) <= kMaxSessions ->
  sess_at r1 i = Some se1 -> role_ se1 = kServer ->
  sess_at r2 j = Some se2 -> role_ se2 = kServer -> uniq_token_ se2 = uniq_token_ se1 ->
  i = j.
Proof.
  intros H0 Hr1 Hr2 Hl H1 Hs1 H2 Hs2 Ht. pose proof (rpc_steps_evo _ _ Hr2) as E.
  destruct (reachable_ok r0 r1 H0 Hr1) as [_ _ _ _ O1 _]; [pose proof (ev_len _ _ _ E); lia|].
  destruct (reachable_ok r0 r2 H0) as [_ _ _ _ O2 _]; [by etrans|done|].
  pose proof (ev_tok _ _ _ E _ _ (O1 i se1 H1 Hs1)) as E1.
  pose proof (O2 j se2 H2 Hs2) as E2. rewrite Ht in E2. congruence.
Qed.

(** C11 Sessions only go forward: a session that is alive later was alive before,
    with the same role, token and number, and its state never moves back along
    connecting, connected, disconnecting; a buried session's number is never
    used again. Servers' sessions are connected (or being reset), and a session's
    number is its place in the vector. This is so as long as at most
    [kMaxSessions] (65536) sessions have been made; the code does not prevent more,
    and from then on the 16-bit numbers wrap around and are used again. *)
Theorem session_lifecycle r0 r1 r2 i se2 :
  no_sessions r0 -> rtc rpc_step r0 r1 -> rtc rpc_step r1 r2 ->
  zlength (r_session_vec r2) <= kMaxSessions ->
  sess_at r2 i = Some se2 ->
  local_session_num_ se2 = i /\
  (role_ se2 = kServer -> state_ se2 = kConnected \/ state_ se2 = kResetInProgress) /\
  (i < zlength (r_session_vec r1) ->
     exists se1, sess_at r1 i = Some se1 /\ ident se2 = ident se1 /\
       rank (state_ se1) <= rank (state_ se2)).
Proof.
  intros H0 Hr1 Hr2 Hl H2. pose proof (rpc_steps_evo _ _ Hr2) as E.
  destruct (reachable_ok r0 r2 H0) as [_ _ O3 O4 _ _]; [by etrans|done|].
  split; [by apply O3|]. split.
  - intros Hs. specialize (O4 i se2 H2). by rewrite Hs in O4.
  - intros Hi. by apply (ev_sess _ _ _ E).
Qed.
End Props.
