(* ===== verification/SmServe.v ===== *)
(** * The server's side of a connection

    What [handle_connect_req_st] does, on every branch, with the allocator it
    runs on: the operating system behaves as documented ([ShmOsOk]). *)
From S2P Require Import Prelude Config HugeAlloc PktHdr Msg Uri SmTypes Timer Timely MemPool TimingWheel Session RpcState RpcBase RpcTx RpcApi RpcRx RpcSm RpcWp SmFrame.

Section Alloc.
Context {T : TTr} {TOk : TTrOk T} {Os : ShmOs} {C : RpcConf} {W : World} {OsOk : ShmOsOk Os w_fuel}.

Lemma zsum_perm {X} (f : X -> Z) l l' : l ≡ₚ l' -> zsum f l = zsum f l'.
Proof. induction 1; cbn; lia. Qed.
Lemma alloc_inv_perm live live' a : live ≡ₚ live' -> alloc_inv live a -> alloc_inv live' a.
Proof.
  intros Hp HI. pose proof HI as [Hlen Hcl Hlive Hd Hin Hos Htot Hprev].
  split; try done.
  - intros b Hb. apply Hlive. by rewrite Hp.
  - by rewrite <- Hp.
  - by rewrite <- Hp.
  - by rewrite <- (zsum_perm _ _ _ Hp).
Qed.

(** Room for a message of [n] bytes and its headers, in a class that the bit scan
    finds. *)
Definition fits_class (n : Z) : Prop :=
  let size := n + data_size_to_num_pkts n * sizeof_pkthdr in
  1 <= n /\ size <= k_max_class_size /\ bsrl_defined size.
Definition with_alloc (h : HugeAlloc) (m : Mem) (r : Rpc) : Rpc := r <| r_huge := h |> <| r_mem := m |>.

(** A message buffer that can be freed. *)
Definition freeable_mb (mb : MsgBuffer) : Prop := buf_ mb <> 0 /\ bsrl_defined (b_class_size (buffer_ mb)).

Lemma alloc_msg_buffer_wpt live n (Q : MsgBuffer -> Rpc -> Prop) r :
  alloc_inv live (r_huge r) -> fits_class n ->
  (forall mb h m, (mb = zeroMsgBuffer /\ alloc_inv live h) \/
     (freeable_mb mb /\ alloc_inv (buffer_ mb :: live) h) -> Q mb (with_alloc h m r)) ->
  wpt (alloc_msg_buffer n) Q r.
Proof.
  intros HI (Hn1 & Hn2 & Hbsr) HQ. unfold alloc_msg_buffer. pose proof (data_size_to_num_pkts_pos n).
  assert (Hs : 0 < sizeof_pkthdr).
  { unfold sizeof_pkthdr. destruct ttr_headroom; lia. }
  assert (Hu : u64 (n + data_size_to_num_pkts n * sizeof_pkthdr) = n + data_size_to_num_pkts n * sizeof_pkthdr).
  { apply Z.mod_small. change k_max_class_size with 8388608 in Hn2. nia. }
  wp_step. wp_step; [lia|]. cbv zeta. rewrite Hu. wp_step. apply wp_zoom.
  eapply wp_mono; [apply (alloc_spec w_fuel live); [exact HI|split; nia|exact Hbsr]|].
  intros b h [[-> Hh]|(Hh & c & Hf & Hc)].
  - cbn. wp_step. specialize (HQ zeroMsgBuffer h (r_mem r)). destruct r. apply HQ. by left.
  - assert (Hb : 0 < b_buf b).
    { pose proof (ai_in _ _ Hh) as Hin. apply Forall_cons in Hin as [Hin _].
      apply Exists_exists in Hin as (reg & _ & Hr). unfold in_region in Hr. lia. }
    rewrite (proj2 (Z.eqb_neq _ _)) by lia. apply wp_zoom. unfold MsgBuffer_new.
    wp_step. wp_step; [apply negb_true_iff, Z.eqb_neq; lia|].
    wp_step. wp_step; [lia|]. wp_step. wp_step; [destruct Hf; lia|].
    repeat wp_step. apply HQ. right. split; [|done]. split; [cbn; lia|].
    destruct Hbsr as [H64|Hz]; [left|by right]. change (64 < b_class_size b). destruct Hf. lia.
Qed.

(** The buffers of an abandoned session are given back. *)
Definition free_acc (mb : MsgBuffer) : MR unit :=
  assert_ (negb (buf_ mb =? 0)) "connect_req: prealloc";; free_msg_buffer mb.
Lemma free_all_wp acc live (Q : unit -> Rpc -> Prop) r :
  alloc_inv ((buffer_ <$> acc) ++ live) (r_huge r) -> Forall freeable_mb acc ->
  (forall h, alloc_inv live h -> Q tt (r <| r_huge := h |>)) ->
  wpt (miter free_acc acc) Q r.
Proof.
  revert Q r. induction acc as [|mb acc IH]; intros Q r HI Hb HQ; cbn [miter].
  - wp_step. specialize (HQ (r_huge r) HI). by destruct r.
  - apply Forall_cons in Hb as [[Hmb Hbsr] Hb]. wp_step. unfold free_acc, free_msg_buffer, with_huge.
    wp_step. wp_step; [by apply negb_true_iff, Z.eqb_neq|]. apply wp_zoom.
    eapply wp_err_mono; [eapply wp_mono|]; [by apply (free_buf_spec ((buffer_ <$> acc) ++ live))| |done].
    cbn. intros _ h Hh. by apply IH.
Qed.

(** All the buffers, or none. *)
Lemma alloc_pre_resps_wp n size acc live (Q : option (list MsgBuffer) -> Rpc -> Prop) r :
  alloc_inv ((buffer_ <$> acc) ++ live) (r_huge r) -> fits_class size ->
  Forall freeable_mb acc ->
  (forall h m, alloc_inv live h -> Q None (with_alloc h m r)) ->
  (forall bufs h m, length bufs = (length acc + n)%nat ->
     alloc_inv ((buffer_ <$> bufs) ++ live) h -> Q (Some bufs) (with_alloc h m r)) ->
  wpt (alloc_pre_resps n size acc) Q r.
Proof.
  revert acc r Q. induction n as [|n IH]; intros acc r Q HI Hf Hb HN HS; cbn [alloc_pre_resps].
  - wp_step. specialize (HS acc (r_huge r) (r_mem r)). destruct r. apply HS; [lia|done].
  - wp_step. eapply alloc_msg_buffer_wpt; [exact HI|exact Hf|]. intros mb h m [[-> Hh]|[Hne Hh]].
    + cbn [buf_ zeroMsgBuffer]. change (0 =? 0) with true. cbv iota. wp_step.
      apply (free_all_wp acc live); [exact Hh|exact Hb|]. intros h' Hh'. wp_step.
      specialize (HN h' m Hh'). by destruct r.
    + rewrite (proj2 (Z.eqb_neq _ _)) by apply Hne. apply IH; try done.
      * eapply alloc_inv_perm; [|exact Hh]. rewrite fmap_app, <- app_assoc. cbn.
        by rewrite Permutation_middle.
      * apply Forall_app. by split; [|constructor].
      * intros bufs h' m' Hl H'. specialize (HS bufs h' m'). rewrite length_app in Hl. cbn in Hl.
        destruct r. apply HS; [lia|done].
Qed.
End Alloc.

(** ** Connect requests *)
Section Connect.
Context {T : TTr} {TOk : TTrOk T} {Os : ShmOs} {C : RpcConf} {W : World} {OsOk : ShmOsOk Os w_fuel}.

(** A response: the request's token and endpoints, with an error code. *)
Definition resp_of (p : SmPkt) (e : SmErrType) : SmPkt :=
  p <| sm_pkt_type_ := kConnectResp |> <| sm_err_type_ := e |>.
Definition sent_to (p q : SmPkt) (r : Rpc) : Rpc :=
  r <| r_trace ::= fun t =>
    t ++ [EvSmTx (hostname_ (sm_client_ p)) (sm_udp_port_ (sm_client_ p)) q] |>.
Definition replied (p : SmPkt) (e : SmErrType) (r : Rpc) : Rpc := sent_to p (resp_of p e) r.
(** The successful response carries the session's server endpoint. *)
Definition welcomed (p : SmPkt) (se : Session) (r : Rpc) : Rpc :=
  sent_to p ((resp_of p kNoError) <| sm_server_ := server_ se |>) r.

(** The session a request makes. *)
Record serves (p : SmPkt) (ri : routing_info_t) (num : Z) (se : Session) : Prop := {
  sv_role : role_ se = kServer;
  sv_tok : uniq_token_ se = sm_uniq_token_ p;
  sv_state : state_ se = kConnected;
  sv_local : local_session_num_ se = num;
  sv_remote : remote_session_num_ se = session_num_ (sm_client_ p);
  sv_server : server_ se = (sm_server_ p) <| session_num_ := num |> <| routing_info_ := w_local_rinfo |>;
  sv_client : client_ se = (sm_client_ p) <| routing_info_ := ri |>;
  sv_slots : zlength (sslot_arr_ se) = kSessionReqWindow;
  sv_credits : credits_ se = kSessionCredits;
}.

(** What a connect request does to [r], where [live] are the buffers in use. *)
Definition connect_outcome (live : list Buffer) (p : SmPkt) (r r' : Rpc) : Prop :=
  match r_conn_req_token_map r !! sm_uniq_token_ p with
  | Some n =>
      match sess_at r n with
      | Some se => r' = if is_connected se then welcomed p se r else r
      | None => r' = r
      end
  | None =>
      if negb (bool_decide (transport_type_ (sm_server_ p) = c_transport_type))
      then r' = replied p kInvalidTransport r
      else if r_ring_entries_available r <? kSessionCredits then r' = replied p kRingExhausted r
      else match w_resolve (routing_info_ (sm_client_ p)) with
           | None => r' = replied p kRoutingResolutionFailure r
           | Some ri => exists h m,
               let r1 := with_alloc h m (r <| r_tsc_reads ::= S |>) in
               (alloc_inv live h /\ r' = replied p kOutOfMemory r1) \/
               (exists se bufs, serves p ri (zlength (r_session_vec r)) se /\
                  zlength bufs = kSessionReqWindow /\ alloc_inv ((buffer_ <$> bufs) ++ live) h /\
                  r' = welcomed p se (add_sess se r1))
           end
  end.

Lemma construct_connect_resp (p : SmPkt) e (Q : SmPkt -> Rpc -> Prop) r (E : err -> Prop) :
  sm_pkt_type_ p = kConnectReq -> Q (resp_of p e) r -> wpe E (sm_construct_resp p e) Q r.
Proof.
  intros Hp HQ. unfold sm_construct_resp, sm_pkt_type_req_to_resp. rewrite Hp. do 2 wp_step.
  wp_step; [done|]. wp_step. wp_step. apply HQ.
Qed.
Lemma send_resp_wp p e (Q : unit -> Rpc -> Prop) r (E : err -> Prop) :
  sm_pkt_type_ p = kConnectReq -> Q tt (replied p e r) -> wpe E (send_resp p e) Q r.
Proof.
  intros Hp HQ. unfold send_resp. wp_step. apply construct_connect_resp; [done|].
  unfold sm_pkt_udp_tx_st, emit. wp_step. apply HQ.
Qed.
Lemma welcome_wp p se (Q : unit -> Rpc -> Prop) r (E : err -> Prop) :
  sm_pkt_type_ p = kConnectReq -> Q tt (welcomed p se r) ->
  wpe E (q ← sm_construct_resp p kNoError; sm_pkt_udp_tx_st (q <| sm_server_ := server_ se |>)) Q r.
Proof.
  intros Hp HQ. wp_step. apply construct_connect_resp; [done|].
  unfold sm_pkt_udp_tx_st, emit. wp_step. apply HQ.
Qed.

Lemma alloc_entries_wp (Q : unit -> Rpc -> Prop) r (E : err -> Prop) :
  kSessionCredits <= r_ring_entries_available r ->
  Q tt (r <| r_ring_entries_available ::= fun n => sub64 n kSessionCredits |>) ->
  wpe E alloc_ring_entries Q r.
Proof.
  intros H HQ. unfold alloc_ring_entries, have_ring_entries. do 2 wp_step. wp_step.
  wp_step; [by apply Z.leb_le|]. by wp_step.
Qed.

Lemma server_session_serves p ri num bufs se :
  role_ se = kServer -> uniq_token_ se = sm_uniq_token_ p -> credits_ se = kSessionCredits ->
  sslot_arr_ se = SSlot_init kServer <$> [0; 1; 2; 3; 4; 5; 6; 7] -> zlength bufs = kSessionReqWindow ->
  serves p ri num (server_session se p bufs ri num).
Proof.
  intros Hr Ht Hc Hs Hb. split; try by destruct se.
  unfold server_session. rsimp. rewrite Hs. unfold zlength in *. rewrite length_zip_with.
  change (Z.to_nat kSessionReqWindow) with 8%nat. rewrite length_fmap. cbn [length].
  change kSessionReqWindow with 8 in *. lia.
Qed.

Lemma connect_new_wp live p ri r :
  alloc_inv live (r_huge r) -> fits_class (r_pre_resp_msgbuf_size r) ->
  sm_pkt_type_ p = kConnectReq -> kSessionCredits <= r_ring_entries_available r ->
  zlength (r_session_vec r) < kMaxSessions ->
  wpt (connect_new p ri) (fun _ r' => exists h m,
    let r1 := with_alloc h m (r <| r_tsc_reads ::= S |>) in
    (alloc_inv live h /\ r' = replied p kOutOfMemory r1) \/
    (exists se bufs, serves p ri (zlength (r_session_vec r)) se /\
       zlength bufs = kSessionReqWindow /\ alloc_inv ((buffer_ <$> bufs) ++ live) h /\
       r' = welcomed p se (add_sess se r1))) r.
Proof.
  intros HI Hf Hp Hc Hl. unfold connect_new. wp_step. apply wp_rdtsc. wp_step.
  apply Session_new_wp. intros se Hr Ht Hcr _ _ _ _ Hs. do 2 wp_step.
  wp_step. apply (alloc_pre_resps_wp _ _ [] live); [exact HI|exact Hf|done| |].
  - intros h m Hh. apply send_resp_wp; [done|]. exists h, m. by left.
  - intros bufs h m Hb Hh. change (Z.to_nat kSessionReqWindow) with 8%nat in Hb. cbn in Hb.
    assert (Hz : zlength bufs = kSessionReqWindow) by (unfold zlength; by rewrite Hb).
    do 2 wp_step. cbv zeta.
    change (r_session_vec (with_alloc h m _)) with (r_session_vec r).
    assert (Hn : u16 (zlength (r_session_vec r)) = zlength (r_session_vec r)).
    { apply Z.mod_small. pose proof (zlength_nonneg (r_session_vec r)). unfold kMaxSessions in Hl. lia. }
    rewrite Hn. set (se' := server_session se p bufs ri _).
    pose proof (server_session_serves p ri (zlength (r_session_vec r)) bufs se Hr Ht Hcr Hs Hz) as Hsv.
    fold se' in Hsv. wp_step. wp_step. wp_step.
    apply alloc_entries_wp; [done|]. wp_step. wp_step. apply welcome_wp; [done|]. exists h, m. right. exists se', bufs. split_and!; [done..|].
    unfold add_sess. rewrite (bool_decide_true _ (sv_role _ _ _ _ Hsv)), (sv_local _ _ _ _ Hsv).
    by destruct r.
Qed.

Lemma connect_req_ok live p r :
  r_etid r = c_creator_etid -> sm_ok 0 r -> alloc_inv live (r_huge r) ->
  fits_class (r_pre_resp_msgbuf_size r) -> zlength (r_session_vec r) < kMaxSessions ->
  sm_pkt_type_ p = kConnectReq -> rpc_id_ (sm_server_ p) = c_rpc_id ->
  wpt (handle_connect_req_st p) (fun _ r' => connect_outcome live p r r') r.
Proof.
  intros He Hok HI Hf Hl Hp Hid. unfold handle_connect_req_st, connect_outcome. wp_step.
  apply wp_assert_dispatch; [done|]. wp_step. wp_step.
  { rewrite Hp, Hid, Z.eqb_refl. done. }
  do 2 wp_step. destruct (r_conn_req_token_map r !! sm_uniq_token_ p) as [n|] eqn:Ht.
  - unfold connect_duplicate. do 3 wp_step.
    wp_step; [apply Z.ltb_lt; by apply (so_map _ _ Hok _ _ Ht)|]. do 2 wp_step.
    destruct (sess_at r n) as [se|]; [|by wp_step].
    destruct (is_connected se); [|by wp_step]. cbn [negb]. by apply welcome_wp.
  - destruct (negb _); [by apply send_resp_wp|]. unfold have_ring_entries. do 2 wp_step.
    rewrite <- Z.ltb_antisym. destruct (Z.ltb_spec (r_ring_entries_available r) kSessionCredits);
      [by apply send_resp_wp|].
    unfold resolve_rinfo. do 3 wp_step. wp_step. change (kTesting && _) with false. cbv iota.
    destruct (w_resolve _) as [ri|]; [by apply connect_new_wp|by apply send_resp_wp].
Qed.

End Connect.
