(* ===== verification/SmHandshake.v ===== *)
(** * The connection handshake between two Rpcs

    The client's [create_session] sends a connect request; the server's handler
    answers it; the client's handler takes the answer. Client and server are two
    Rpcs with configurations and worlds of their own. *)
From S2P Require Import Prelude Config HugeAlloc PktHdr Msg Uri SmTypes Timer Timely MemPool TimingWheel Session RpcState RpcBase RpcTx RpcApi RpcRx RpcSm RpcWp SmFrame SmOps SmHandlers SmServe.

(** ** The client's side *)
Section Client.
Context {T : TTr} {Os : ShmOs} {C : RpcConf} {W : World} {A : App}.

Lemma sess_at_lt r sid se : sess_at r sid = Some se -> sid < zlength (r_session_vec r).
Proof. intros H%sess_at_lookup. apply zlookup_lt in H. lia. Qed.

(** A session waiting for its connect response, and the request it sent. *)
Record connecting (r : Rpc) (sid : Z) (se : Session) : Prop := {
  cg_at : sess_at r sid = Some se;
  cg_etid : r_etid r = c_creator_etid;
  cg_role : role_ se = kClient;
  cg_state : state_ se = kConnectInProgress;
  cg_local : local_session_num_ se = sid;
  cg_client_num : session_num_ (client_ se) = sid;
  cg_client_rpc : rpc_id_ (client_ se) = c_rpc_id;
  cg_client_rinfo : routing_info_ (client_ se) = w_local_rinfo;
  cg_server_num : session_num_ (server_ se) = kInvalidSessionNum;
  cg_server_transport : transport_type_ (server_ se) = c_transport_type;
}.
Definition request_of (se : Session) : SmPkt :=
  mkSmPkt kConnectReq kNoError (uniq_token_ se) (client_ se) (server_ se).
Definition request_sent (se : Session) : event :=
  EvSmTx (hostname_ (server_ se)) (sm_udp_port_ (server_ se)) (request_of se).

(** A call of [create_session] that returns a session number. *)
Record created (uri : string) (id : Z) (r : Rpc) (sid : Z) (r' : Rpc) : Prop := {
  cr_sid : sid = zlength (r_session_vec r);
  cr_conn : exists se, connecting r' sid se /\ rpc_id_ (server_ se) = id /\
    r_trace r' = r_trace r ++ [request_sent se];
}.

Lemma sess_at_last r v se :
  r_session_vec r = v ++ [Some se] -> sess_at r (zlength v) = Some se.
Proof.
  intros H. unfold sess_at, zlookup, zlength. rewrite H.
  rewrite (proj2 (Z.leb_le _ _)) by lia. rewrite Nat2Z.id, lookup_app_r, Nat.sub_diag by lia. done.
Qed.

(** What [send_sm_req_st] does to a session that is connecting. *)
Lemma send_connect_req_wp r sid se (E : err -> Prop) (Q : unit -> Rpc -> Prop) :
  connecting r sid se ->
  (forall r', connecting r' sid (se <| sm_req_ts_ := w_tsc (r_tsc_reads r) |>) ->
     r_trace r' = r_trace r ++ [request_sent se] -> Q tt r') ->
  wpe E (send_sm_req_st sid) Q r.
Proof.
  intros [] HQ. unfold send_sm_req_st. wp_step. apply wp_assert_dispatch; [done|]. wp_step.
  eapply wp_get_session; [done|]. do 2 wp_step. wp_step. apply wp_rdtsc. wp_step.
  eapply wp_upd_session; [exact cg_at0|]. wp_step.
  set (se' := se <| sm_req_ts_ := _ |>).
  assert (Hat : sess_at (put_sess sid se' (r <| r_sm_pending_reqs ::= set_insert (local_session_num_ se) |>
    <| r_tsc_reads ::= S |>)) sid = Some se').
  { erewrite sess_at_put; [|exact cg_at0]. by rewrite decide_True. }
  eapply wp_get_session; [exact Hat|]. subst se'. rsimp. rewrite cg_state0.
  unfold sm_pkt_udp_tx_st, emit. wp_step. apply HQ; [|done].
  split; try done; rsimp; done.
Qed.

Lemma wp_slow_rand (E : err -> Prop) (Q : Z -> Rpc -> Prop) r :
  Q (w_slow_rand (r_slow_rand_reads r)) (r <| r_slow_rand_reads ::= S |>) -> wpe E slow_rand_next_u64 Q r.
Proof. done. Qed.
Lemma wp_strcpy_any h (Q : string -> Rpc -> Prop) r : Q h r -> wpe any_err (strcpy_hostname h) Q r.
Proof. intros HQ. unfold strcpy_hostname. by case_match. Qed.

Lemma new_client_session_wp host port id r (Q : Z -> Rpc -> Prop) :
  r_etid r = c_creator_etid -> zlength (r_session_vec r) < kMaxSessions - 1 ->
  (forall se r', connecting r' (zlength (r_session_vec r)) se -> rpc_id_ (server_ se) = id ->
     r_trace r' = r_trace r -> Q (zlength (r_session_vec r)) r') ->
  wpe any_err (new_client_session host port id) Q r.
Proof.
  intros He Hl HQ. unfold new_client_session. wp_step. apply wp_slow_rand. wp_step. apply wp_rdtsc.
  wp_step. apply Session_new_wp. intros se Hr _ _ _ _ _ _ _. wp_step. wp_step. cbv zeta.
  wp_step. apply wp_strcpy_any. wp_step. apply wp_strcpy_any. wp_step. 
  apply wp_alloc_entries. intros _. do 3 wp_step.
  set (r' := _ <| r_session_vec ::= _ |>). set (se' := _ <| server_ := _ |>) in *.
  assert (Hn : u16 (zlength (r_session_vec r)) = zlength (r_session_vec r)).
  { apply Z.mod_small. pose proof (zlength_nonneg (r_session_vec r)). unfold kMaxSessions in Hl. lia. }
  change (Q (zlength (r_session_vec r)) r'). apply (HQ se'); [|done|done].
  assert (Hat : sess_at r' (zlength (r_session_vec r)) = Some se') by by apply sess_at_last.
  split; try done; subst se'; rsimp; done.
Qed.

Lemma create_session_wp uri id r :
  zlength (r_session_vec r) < kMaxSessions - 1 ->
  wpe any_err (create_session_st uri id) (fun n r' => 0 <= n -> created uri id r n r') r.
Proof.
  intros Hl. unfold create_session_st, in_dispatch. do 2 wp_step.
  destruct (Z.eqb_spec (r_etid r) c_creator_etid) as [He|]; cbn [negb]; [|apply wp_ret; intros Hneg; unfold EPERM in Hneg; lia].
  wp_step. apply extract_hostname_any. intros host. wp_step. apply extract_udp_port_any. intros port.
  cbv zeta. wp_step; [apply wp_ret; intros Hneg; unfold EINVAL in Hneg; lia|]. wp_step; [apply wp_ret; intros Hneg; unfold EINVAL in Hneg; lia|].
  unfold have_ring_entries. do 2 wp_step. wp_step; [apply wp_ret; intros Hneg; unfold ENOMEM in Hneg; lia|].
  wp_step. apply new_client_session_wp; [done..|]. intros se r' Hc Hid Htr.
  wp_step. eapply send_connect_req_wp; [exact Hc|]. intros r2 Hc2 Ht2. wp_step. intros _.
  assert (Hn : u16 (zlength (r_session_vec r)) = zlength (r_session_vec r)).
  { apply Z.mod_small. pose proof (zlength_nonneg (r_session_vec r)). unfold kMaxSessions in Hl. lia. }
  rewrite Hn. split; [done|]. eexists. split; [exact Hc2|]. split; [done|]. by rewrite Ht2, Htr.
Qed.

(** ** The response *)

(** The session once the server's endpoint is known. *)
Definition established (se : Session) (q : SmPkt) (ri : routing_info_t) (tsc : Z) : Session :=
  se <| server_ := (sm_server_ q) <| routing_info_ := ri |> |>
     <| remote_session_num_ := session_num_ (sm_server_ q) |>
     <| state_ := kConnected |> <| prev_desired_tx_tsc_ := tsc |>.
Definition opened (r : Rpc) (sid : Z) (se : Session) (q : SmPkt) (ri : routing_info_t) : Rpc :=
  (put_sess sid (established se q ri (w_tsc (r_tsc_reads r))) (r <| r_tsc_reads ::= S |>))
    <| r_trace ::= fun t => t ++ [EvSmHandler sid Event_kConnected kNoError] |>.
Lemma opened_at r sid se q ri :
  sess_at r sid = Some se -> sess_at (opened r sid se q ri) sid = Some (established se q ri (w_tsc (r_tsc_reads r))).
Proof.
  intros H. transitivity (sess_at (put_sess sid (established se q ri (w_tsc (r_tsc_reads r)))
    (r <| r_tsc_reads ::= S |>)) sid); [done|].
  rewrite (sess_at_put _ _ se); [|done]. by rewrite decide_True.
Qed.

(** The handler opens the session, and goes on with the application's callback. *)
Lemma connect_resp_wp r sid se q ri E (Q : unit -> Rpc -> Prop) :
  connecting r sid se -> sid < zlength (r_session_vec r) ->
  sm_pkt_type_ q = kConnectResp -> sm_err_type_ q = kNoError ->
  sm_client_ q = client_ se -> hostname_ (sm_server_ q) = hostname_ (server_ se) ->
  rpc_id_ (sm_server_ q) = rpc_id_ (server_ se) -> w_resolve (routing_info_ (sm_server_ q)) = Some ri ->
  wpe E (run_user (app_sm sid Event_kConnected kNoError)) Q (opened r sid se q ri) ->
  wpe E (handle_connect_resp_st q) Q r.
Proof.
  intros [] Hl Ht He Hcl Hh Hrp Hri HQ. unfold handle_connect_resp_st. cbv zeta.
  rewrite Hcl, cg_client_num0, He, Ht. wp_step. apply wp_assert_dispatch; [done|].
  wp_step. wp_step; [by rewrite cg_client_rpc0, Z.eqb_refl|]. do 3 wp_step. wp_step; [by apply Z.ltb_lt|].
  do 2 wp_step. rewrite cg_at0, cg_state0.
  wp_step; [by rewrite bool_decide_eq_true_2 in H|]. wp_step. wp_step.
  { unfold is_client. by rewrite cg_role0, endpoint_eqb_refl. }
  wp_step. wp_step; [by rewrite bool_decide_eq_true|]. wp_step. wp_step; [by rewrite Hrp, Z.eqb_refl|].
  wp_step. wp_step; [by rewrite cg_server_num0|]. do 2 wp_step.
  rewrite (bool_decide_eq_false_2 (kNoError = kInvalidRemoteRpcId)), (bool_decide_eq_true_2 (kNoError = kNoError)) by done.
  cbn [andb negb]. unfold connect_succeeded, resolve_rinfo. do 3 wp_step. wp_step. change (kTesting && _) with false.
  cbv iota. rewrite Hri. wp_step. apply wp_rdtsc. wp_step. eapply wp_upd_session; [exact cg_at0|].
  unfold call_sm_handler, emit. wp_step. wp_step. rewrite cg_local0. exact HQ.
Qed.
End Client.


(** Two runs of which the same holds are the same run. *)
Lemma wpe_same {S X} (m k : M S X) r s :
  (forall E Q, wpe E k Q s -> wpe E m Q r) -> m r = k s.
Proof.
  intros H. specialize (H (fun e => k s = Fail e) (fun a s' => k s = Ok a s')).
  unfold wpe in H. destruct (k s), (m r); rewrite H; done.
Qed.

(** ** Client and server together *)
Section Both.
Context {T : TTr} {TOk : TTrOk T}.
Context {Oc : ShmOs} {Cc : RpcConf} {Wc : World} {Ac : App}.
Context {Os : ShmOs} {Cs : RpcConf} {Ws : World} {OsOk : ShmOsOk Os (w_fuel (World := Ws))}.

Local Abbreviation client_takes q := (handle_connect_resp_st (Os := Oc) (C := Cc) (W := Wc) q).
Local Abbreviation client_runs p := (run_user (Os := Oc) (C := Cc) (W := Wc) p).
Local Abbreviation client_opened := (opened (W := Wc)).
Local Abbreviation client_connecting := (connecting (C := Cc) (W := Wc)).

(** The server answered [se]'s request: there was no memory for it, or it has a
    connected session [n] for the client's session [sid], which its reply opens. *)
Definition refused (se : Session) (rs rs' : Rpc) : Prop :=
  r_session_vec rs' = r_session_vec rs /\ r_ring_entries_available rs' = r_ring_entries_available rs /\
  r_trace rs' = r_trace rs ++
    [EvSmTx (hostname_ (client_ se)) (sm_udp_port_ (client_ se)) (resp_of (request_of se) kOutOfMemory)].
Definition accepted (rc : Rpc) (sid : Z) (se : Session) (rs rs' : Rpc) : Prop :=
  let n := zlength (r_session_vec rs) in
  exists sv q, sess_at rs' n = Some sv /\ state_ sv = kConnected /\ role_ sv = kServer /\
    remote_session_num_ sv = sid /\ local_session_num_ sv = n /\
    r_trace rs' = r_trace rs ++ [EvSmTx (hostname_ (client_ se)) (sm_udp_port_ (client_ se)) q] /\
    forall ri, w_resolve (World := Wc) (w_local_rinfo (World := Ws)) = Some ri ->
      let rc' := client_opened rc sid se q ri in
      client_takes q rc = client_runs (app_sm sid Event_kConnected kNoError) rc' /\
      exists sc, sess_at rc' sid = Some sc /\ state_ sc = kConnected /\ role_ sc = kClient /\
        remote_session_num_ sc = n /\ local_session_num_ sc = sid.

Lemma reply_opens rc sid se ri rs rs' sv ri' :
  client_connecting rc sid se -> serves (W := Ws) (request_of se) ri (zlength (r_session_vec rs)) sv ->
  w_resolve (World := Wc) (w_local_rinfo (World := Ws)) = Some ri' ->
  rs' = welcomed (request_of se) sv rs ->
  let q := (resp_of (request_of se) kNoError) <| sm_server_ := server_ sv |> in
  let rc' := client_opened rc sid se q ri' in
  client_takes q rc = client_runs (app_sm sid Event_kConnected kNoError) rc' /\
  exists sc, sess_at rc' sid = Some sc /\ state_ sc = kConnected /\ role_ sc = kClient /\
    remote_session_num_ sc = zlength (r_session_vec rs) /\ local_session_num_ sc = sid.
Proof.
  intros Hc Hs Hri _ q rc'. pose proof Hc as [Hat _ Hr _ Hl _ _ _ _ _].
  assert (Hsv : sm_server_ q = (server_ se) <| session_num_ := zlength (r_session_vec rs) |>
    <| routing_info_ := w_local_rinfo (World := Ws) |>) by (subst q; rsimp; apply Hs).
  split.
  - assert (HQ : forall E Q, wpe E (client_runs (app_sm sid Event_kConnected kNoError)) Q rc' ->
      wpe E (client_takes q) Q rc).
    { intros E Q. apply connect_resp_wp; try done; rewrite ?Hsv; try done. exact (sess_at_lt _ _ _ Hat). }
    by apply wpe_same.
  - eexists. split; [by apply opened_at|].
    unfold established. rewrite Hsv. rsimp. done.
Qed.

(** What the two Rpcs must agree on, and what the server needs to accept. *)
Record can_serve (uri_id : Z) (live : list Buffer) (rs : Rpc) : Prop := {
  cs_etid : r_etid rs = c_creator_etid (RpcConf := Cs);
  cs_ok : sm_ok 0 rs;
  cs_alloc : alloc_inv live (r_huge rs);
  cs_class : fits_class (r_pre_resp_msgbuf_size rs);
  cs_room : zlength (r_session_vec rs) < kMaxSessions;
  cs_ring : kSessionCredits <= r_ring_entries_available rs;
  cs_id : uri_id = c_rpc_id (RpcConf := Cs);
  cs_transport : c_transport_type (RpcConf := Cc) = c_transport_type (RpcConf := Cs);
  cs_resolve : is_Some (w_resolve (World := Ws) (w_local_rinfo (World := Wc)));
}.

Lemma connect_request_served rc sid se id live rs :
  client_connecting rc sid se -> rpc_id_ (server_ se) = id -> can_serve id live rs ->
  r_conn_req_token_map rs !! uniq_token_ se = None ->
  wpt (handle_connect_req_st (C := Cs) (W := Ws) (request_of se))
    (fun _ rs' => refused se rs rs' \/ accepted rc sid se rs rs') rs.
Proof.
  intros Hc Hid [] Hfresh. eapply wp_mono.
  { apply (connect_req_ok live); try done. by rewrite <- cs_id0. }
  intros [] rs' Ho. unfold connect_outcome in Ho. change (sm_uniq_token_ _) with (uniq_token_ se) in Ho.
  rewrite Hfresh in Ho. cbn [request_of sm_server_ sm_client_] in Ho.
  rewrite (cg_server_transport _ _ _ Hc), bool_decide_true in Ho by done. cbn [negb] in Ho.
  rewrite (proj2 (Z.ltb_ge _ _)) in Ho by done.
  rewrite (cg_client_rinfo _ _ _ Hc) in Ho. destruct cs_resolve0 as [ri Hri]. rewrite Hri in Ho.
  destruct Ho as (h & m & [[_ ->]|(sv & bufs & Hs & _ & _ & ->)]); [by left|]. right.
  eexists sv, _. split; [by apply sess_at_last|]. split_and!; [apply Hs..| | |done|].
  - rewrite (sv_remote _ _ _ _ Hs). apply (cg_client_num _ _ _ Hc).
  - apply Hs.
  - intros ri' Hri'. eapply reply_opens; done.
Qed.

End Both.
