(* ===== verification/SmExamples.v ===== *)
(** * A concrete client and server meeting

    Two Rpcs without sessions, a client on [client:31850] and a server on
    [server:31850]: the states at which the properties of session management are
    applied. *)
From S2P Require Import Prelude Config HugeAlloc PktHdr Msg Uri SmTypes Timer Timely MemPool TimingWheel WheelChain WheelSpec Session RpcState RpcBase RpcTx RpcApi RpcRx RpcSm RpcLoop RpcWp ClientInv ClientTx ClientExamples SmFrame SmOps SmHandlers SmProps SmServe SmHandshake.

#[local] Existing Instance BumpOs.
#[local] Instance HxT : TTr := Transports.IBTransport false.
#[local] Instance HxT_ok : TTrOk HxT := Transports.IBTransport_ok false.
Definition hx_conf (id : Z) (host : string) : RpcConf := {|
  c_rpc_id := id; c_transport_type := kInfiniBand; c_hostname := host; c_sm_udp_port := 31850;
  c_num_bg_threads := 0; c_freq_ghz := fconst 26 10; c_creation_tsc := 0;
  c_req_func_arr := []; c_creator_etid := 1
|}.
Definition hx_world (lid : Z) : World := {|
  w_tsc _ := 5000; w_slow_rand := Z.of_nat; w_bandwidth := fconst 7000000000 1;
  w_resolve := Some; w_local_rinfo := [lid]; w_fuel := 1
|}.
(** The applications' callbacks do nothing. *)
#[local] Instance HxA : App := {|
  app_req _ _ := UDone; app_cont _ _ := UDone; app_sm _ _ _ := UDone
|}.
Definition hx_client : RpcConf := hx_conf 3 "client".
Definition hx_server : RpcConf := hx_conf 1 "server".
Definition hx_wc : World := hx_world 17.
Definition hx_ws : World := hx_world 18.
#[local] Instance HxW_ok : ShmOsOk BumpOs (w_fuel (World := hx_ws)) := BumpOs_ok.

Definition hx0 : Rpc :=
  mkRpc 1 [] kNumRxRingEntries [] [] 0 [] 0 0 (Some ATail) None None (Some ARoot)
    (HugeAlloc_new (MB 8)) (replicate 128 zeroMsgBuffer) 0 0 WheelExamples.wheel26 [] [] 0 [] []
    ∅ [] (mkFaults false false (of_size 0) 0) [] (mkDpathStats 0 0 0 0 0) 0 0 3824 false
    ∅ zero_mem [] 0 [].
Lemma hx0_no_sessions : no_sessions hx0.
Proof. by split. Qed.

(** The client asks for a session; [hx_req] is its request. *)
Definition hx_create : MR Z := create_session_st (C := hx_client) (W := hx_wc) "server:31850" 1.
Definition hx_c1 : Rpc := after_run hx_create hx0.
Lemma after_run_num (m : MR Z) n r :
  match m r with Ok k _ => k =? n | Fail _ => false end = true -> m r = Ok n (after_run m r).
Proof. unfold after_run. destruct (m r); [|done]. by intros ->%Z.eqb_eq. Qed.
Lemma hx_create_run :
  create_session_st (C := hx_client) (W := hx_wc) "server:31850" 1 hx0 = Ok 0 hx_c1.
Proof. unfold hx_c1, hx_create. apply after_run_num. vm_compute. reflexivity. Qed.
Definition hx_req : SmPkt :=
  match sess_at hx_c1 0 with Some se => request_of se | None => request_of blank_sess end.

(** The server takes it from the Nexus' queue, twice. *)
Definition hx_queue (r : Rpc) : Rpc := r <| r_sm_rx_queue ::= fun q => q ++ [WiPkt 1 hx_req] |>.
Definition hx_loop : MR unit := run_event_loop_do_one_st (C := hx_server) (W := hx_ws).
Definition hx_s1 : Rpc := after_run hx_loop (hx_queue hx0).
Definition hx_s2 : Rpc := after_run hx_loop (hx_queue hx_s1).
Local Abbreviation hx_step := (rpc_step (C := hx_server) (W := hx_ws)).

Definition one_server (r : Rpc) : bool :=
  match sess_at r 0 with
  | Some se => bool_decide (role_ se = kServer) && (uniq_token_ se =? sm_uniq_token_ hx_req)
  | None => false
  end && (zlength (r_session_vec r) =? 1).
Lemma hx_checked :
  runs hx_loop (hx_queue hx0) && runs hx_loop (hx_queue hx_s1) && one_server hx_s1 && one_server hx_s2 = true.
Proof. vm_compute. reflexivity. Qed.
Lemma hx_packet_taken r :
  runs hx_loop (hx_queue r) = true -> rtc hx_step r (after_run hx_loop (hx_queue r)).
Proof.
  intros H. eapply rtc_l; [by eapply RsSmPkt|]. apply rtc_once, RsEventLoop, after_run_ok, H.
Qed.
Lemma hx_runs :
  rtc hx_step hx0 hx_s1 /\ rtc hx_step hx_s1 hx_s2 /\ one_server hx_s1 = true /\ one_server hx_s2 = true.
Proof.
  pose proof hx_checked as H. apply andb_true_iff in H as [H H4].
  apply andb_true_iff in H as [H H3]. apply andb_true_iff in H as [H1 H2].
  exact (conj (hx_packet_taken hx0 H1) (conj (hx_packet_taken hx_s1 H2) (conj H3 H4))).
Qed.
Lemma one_server_at r : one_server r = true ->
  exists se, sess_at r 0 = Some se /\ role_ se = kServer /\ uniq_token_ se = sm_uniq_token_ hx_req /\
    zlength (r_session_vec r) = 1.
Proof.
  unfold one_server. destruct (sess_at r 0) as [se|]; [|done]. intros H.
  do 2 apply andb_true_iff in H as [H ?]. exists se.
  split_and!; [done|by apply bool_decide_eq_true in H|by apply Z.eqb_eq|by apply Z.eqb_eq].
Qed.

(** ** The properties at these states *)
Lemma ring_entries_conserved_witness :
  r_ring_entries_available hx_s2 = kNumRxRingEntries - kSessionCredits * num_live (r_session_vec hx_s2) /\
  0 <= r_ring_entries_available hx_s2 /\
  num_live (r_session_vec hx_s2) <= kNumRxRingEntries / kSessionCredits.
Proof.
  destruct hx_runs as (H1 & H2 & _ & H). apply one_server_at in H as (_ & _ & _ & _ & Hl).
  apply (ring_entries_conserved (C := hx_server) (W := hx_ws) hx0 hx_s2 hx0_no_sessions); [by etrans|].
  rewrite Hl. by vm_compute.
Defined.

(** The repeated request found the session it had made. *)
Lemma one_session_per_token_witness :
  exists se1 se2, sess_at hx_s1 0 = Some se1 /\ sess_at hx_s2 0 = Some se2 /\
    uniq_token_ se2 = uniq_token_ se1 /\ (0 = 0)%Z.
Proof.
  destruct hx_runs as (R1 & R2 & H1 & H2).
  apply one_server_at in H1 as (se1 & E1 & Ro1 & T1 & _). apply one_server_at in H2 as (se2 & E2 & Ro2 & T2 & Hl).
  exists se1, se2. split; [done|]. split; [done|]. assert (Ht : uniq_token_ se2 = uniq_token_ se1) by congruence.
  split; [done|].
  refine (one_session_per_token (C := hx_server) (W := hx_ws) hx0 hx_s1 hx_s2 0 0 se1 se2
    hx0_no_sessions R1 R2 _ E1 Ro1 E2 Ro2 Ht).
  rewrite Hl. by vm_compute.
Defined.

Lemma session_lifecycle_witness :
  exists se, sess_at hx_s2 0 = Some se /\ local_session_num_ se = 0 /\
    (role_ se = kServer -> state_ se = kConnected \/ state_ se = kResetInProgress) /\
    (0 < zlength (r_session_vec hx_s1) -> exists se1, sess_at hx_s1 0 = Some se1 /\ ident se = ident se1 /\
       rank (state_ se1) <= rank (state_ se)).
Proof.
  destruct hx_runs as (R1 & R2 & _ & H2). apply one_server_at in H2 as (se & E & _ & _ & Hl).
  exists se. split; [done|].
  apply (session_lifecycle (C := hx_server) (W := hx_ws) hx0 hx_s1 hx_s2 0 se hx0_no_sessions R1 R2); [|done].
  rewrite Hl. by vm_compute.
Defined.

Lemma hx0_ok : sm_ok 0 hx0.
Proof. apply no_sessions_ok, hx0_no_sessions. Qed.
Lemma hx0_alloc : alloc_inv [] (r_huge hx0).
Proof. apply alloc_inv_new. by vm_compute. Qed.
Lemma hx0_class : fits_class (r_pre_resp_msgbuf_size hx0).
Proof. split_and!; [by vm_compute|by vm_compute|right; by vm_compute]. Qed.


Lemma hx0_can_serve : can_serve (Cc := hx_client) (Wc := hx_wc) (Cs := hx_server) (Ws := hx_ws) 1 [] hx0.
Proof.
  split; [reflexivity|exact hx0_ok|exact hx0_alloc|exact hx0_class|by vm_compute|by vm_compute|reflexivity..|].
  by exists [17].
Qed.
