(* ===== verification/EthCommon.v ===== *)
(** * Ethernet, IPv4 and UDP headers: [transport_impl/eth_common.h]

    The packed header structures with their layout in memory, the functions that
    fill them in, and the IPv4 checksum. Multi-byte fields hold what a load on a
    little-endian machine gives. *)
From S2P Require Import Prelude PktHdr.

Definition kIPEtherType : Z := 2048.
Definition kIPHdrProtocol : Z := 17.
Definition kBaseEthUDPPort : Z := 10000.

(** [htons] and [htonl], which are their own inverses. *)
Definition bswap (n : nat) (z : Z) : Z := le_val (rev (le_bytes n z)).
Abbreviation htons := (bswap 2).
Abbreviation ntohs := (bswap 2).
Abbreviation htonl := (bswap 4).
Abbreviation ntohl := (bswap 4).

(** ** The structures *)
Record eth_hdr_t := mkEthHdr { dst_mac_ : list Z; src_mac_ : list Z; eth_type_ : Z }.
Record ipv4_hdr_t := mkIpv4Hdr {
  ihl_ : Z; version_ : Z; ecn_ : Z; dscp_ : Z; tot_len_ : Z; id_ : Z; frag_off_ : Z;
  ttl_ : Z; protocol_ : Z; check_ : Z; src_ip_ : Z; dst_ip_ : Z;
}.
#[export] Instance eta_ipv4 : Eta ipv4_hdr_t := fun h =>
  mkIpv4Hdr (ihl_ h) (version_ h) (ecn_ h) (dscp_ h) (tot_len_ h) (id_ h) (frag_off_ h)
    (ttl_ h) (protocol_ h) (check_ h) (src_ip_ h) (dst_ip_ h).
Record udp_hdr_t := mkUdpHdr { src_port_ : Z; dst_port_ : Z; len_ : Z; udp_check_ : Z }.
#[export] Instance eta_udp : Eta udp_hdr_t := fun h =>
  mkUdpHdr (src_port_ h) (dst_port_ h) (len_ h) (udp_check_ h).

Definition sizeof_eth : Z := 14.
Definition sizeof_ipv4 : Z := 20.
Definition sizeof_udp : Z := 8.
Definition kInetHdrsTotSize : Z := sizeof_eth + sizeof_ipv4 + sizeof_udp.

(** Their bytes. Of two bit fields in a byte the first is the low one. *)
Definition eth_bytes (h : eth_hdr_t) : list Z := dst_mac_ h ++ src_mac_ h ++ le_bytes 2 (eth_type_ h).
Definition ipv4_bytes (h : ipv4_hdr_t) : list Z :=
  [Z.lor (ihl_ h) (Z.shiftl (version_ h) 4); Z.lor (ecn_ h) (Z.shiftl (dscp_ h) 2)]
  ++ le_bytes 2 (tot_len_ h) ++ le_bytes 2 (id_ h) ++ le_bytes 2 (frag_off_ h)
  ++ [ttl_ h; protocol_ h] ++ le_bytes 2 (check_ h) ++ le_bytes 4 (src_ip_ h) ++ le_bytes 4 (dst_ip_ h).
Definition udp_bytes (h : udp_hdr_t) : list Z :=
  le_bytes 2 (src_port_ h) ++ le_bytes 2 (dst_port_ h) ++ le_bytes 2 (len_ h) ++ le_bytes 2 (udp_check_ h).

(** The structure at the start of some bytes: the casts of pointers. *)
Definition field (bs : list Z) (offset n : nat) : Z := le_val (take n (drop offset bs)).
Definition eth_of (bs : list Z) : eth_hdr_t := mkEthHdr (take 6 bs) (take 6 (drop 6 bs)) (field bs 12 2).
Definition ipv4_of (bs : list Z) : ipv4_hdr_t :=
  mkIpv4Hdr (wrap 4 (field bs 0 1)) (Z.shiftr (field bs 0 1) 4) (wrap 2 (field bs 1 1)) (Z.shiftr (field bs 1 1) 2)
    (field bs 2 2) (field bs 4 2) (field bs 6 2) (field bs 8 1) (field bs 9 1) (field bs 10 2)
    (field bs 12 4) (field bs 16 4).
Definition udp_of (bs : list Z) : udp_hdr_t := mkUdpHdr (field bs 0 2) (field bs 2 2) (field bs 4 2) (field bs 6 2).

(** [eth_routing_info_t] in a [routing_info_t]: two bytes of padding follow the
    MAC address. *)
Record eth_routing_info_t := mkEthRinfo {
  er_mac : list Z; er_ipv4_addr : Z; er_udp_port : Z; er_rxq_id : Z; er_reta_size : Z;
}.
Definition eth_rinfo_bytes (ri : eth_routing_info_t) : list Z :=
  er_mac ri ++ [0; 0] ++ le_bytes 4 (er_ipv4_addr ri) ++ le_bytes 2 (er_udp_port ri)
  ++ le_bytes 2 (er_rxq_id ri) ++ le_bytes 2 (er_reta_size ri).
Definition eth_rinfo_of (bs : list Z) : eth_routing_info_t :=
  mkEthRinfo (take 6 bs) (field bs 8 4) (field bs 12 2) (field bs 14 2) (field bs 16 2).

(** ** Filling them in *)

(** Every member is assigned. *)
Definition gen_eth_header (src_mac dst_mac : list Z) : eth_hdr_t := mkEthHdr dst_mac src_mac (htons kIPEtherType).
Definition gen_ipv4_header (src_ip dst_ip data_size : Z) : ipv4_hdr_t := {|
  version_ := 4; ihl_ := 5; ecn_ := 1; dscp_ := 0;
  tot_len_ := htons (sizeof_ipv4 + sizeof_udp + data_size);
  id_ := htons 0; frag_off_ := htons 0; ttl_ := 128; protocol_ := kIPHdrProtocol;
  src_ip_ := htonl src_ip; dst_ip_ := htonl dst_ip; check_ := 0;
|}.
Definition gen_udp_header (src_port dst_port data_size : Z) : udp_hdr_t :=
  mkUdpHdr (htons src_port) (htons dst_port) (htons (sizeof_udp + data_size)) 0.

(** The 16-bit words, in the machine's order and in the network's. *)
Fixpoint words16 (bs : list Z) : list Z :=
  match bs with a :: b :: bs => (a + 256 * b) :: words16 bs | _ => [] end.
Fixpoint be_words16 (bs : list Z) : list Z :=
  match bs with a :: b :: bs => (256 * a + b) :: be_words16 bs | _ => [] end.

Definition get_ipv4_checksum (ipv4_hdr : ipv4_hdr_t) : Z :=
  let ptr16 := words16 (ipv4_bytes ipv4_hdr) in
  let ip_cksum := foldl (fun acc i => u32 (acc + nth i ptr16 0)) 0 [0; 1; 2; 3; 4; 6; 7; 8; 9]%nat in
  let ip_cksum := u32 (Z.shiftr (Z.land ip_cksum 4294901760) 16 + Z.land ip_cksum 65535) in
  let ip_cksum := if 65535 <? ip_cksum then u32 (ip_cksum - 65535) else ip_cksum in
  let ip_cksum := Z.land (u32 (Z.lnot ip_cksum)) 65535 in
  if ip_cksum =? 0 then 65535 else u16 ip_cksum.

(** ** The checksum is the one of RFC 1071 *)

(** One's complement addition of 16-bit words, with the end-around carry. *)
Definition oc_add (a b : Z) : Z := let s := a + b in if s <? 65536 then s else s - 65535.
Definition oc_sum (l : list Z) : Z := foldr oc_add 0 l.

(** The plain sum of words. *)
Abbreviation wsum := (zsum id).

Record ipv4_wf (h : ipv4_hdr_t) : Prop := {
  iw_ihl : in_u 4 (ihl_ h); iw_version : in_u 4 (version_ h); iw_ecn : in_u 2 (ecn_ h); iw_dscp : in_u 6 (dscp_ h);
  iw_tot_len : in_u 16 (tot_len_ h); iw_id : in_u 16 (id_ h); iw_frag_off : in_u 16 (frag_off_ h);
  iw_ttl : in_u 8 (ttl_ h); iw_protocol : in_u 8 (protocol_ h); iw_check : in_u 16 (check_ h);
  iw_src : in_u 32 (src_ip_ h); iw_dst : in_u 32 (dst_ip_ h);
}.

Lemma oc_sum_spec l :
  Forall (in_u 16) l ->
  0 <= oc_sum l <= 65535 /\ (oc_sum l = 0 <-> wsum l = 0) /\ 0 <= wsum l /\ exists k, wsum l = oc_sum l + k * 65535.
Proof.
  induction 1 as [|a l Ha _ (Hr & Hz & Hp & k & Hk)]; cbn.
  - split; [lia|]. split; [done|]. split; [lia|]. by exists 0.
  - unfold in_u in Ha. change (2 ^ 16) with 65536 in Ha. fold (oc_sum l) in *. unfold oc_add.
    destruct (Z.ltb_spec (a + oc_sum l) 65536).
    + split; [lia|]. split; [lia|]. split; [lia|]. exists k. lia.
    + split; [lia|]. split; [lia|]. split; [lia|]. exists (k + 1). lia.
Qed.
Lemma oc_sum_full l k : Forall (in_u 16) l -> wsum l = k * 65535 -> wsum l <> 0 -> oc_sum l = 65535.
Proof. intros H Hs Hn. destruct (oc_sum_spec l H) as (Hr & Hz & _ & j & Hj). nia. Qed.

(** Byte order does not matter: swapping multiplies by 256, modulo 65535. *)
Lemma be_words_sum bs : exists k, wsum (be_words16 bs) = 256 * wsum (words16 bs) + k * 65535.
Proof.
  remember (length bs) as n eqn:Hn. revert bs Hn. induction n as [n IH] using lt_wf_ind. intros [|a [|b bs]] Hn.
  1,2: by exists 0.
  destruct (IH (length bs) ltac:(cbn in Hn; lia) bs eq_refl) as [k Hk]. cbn.
  rewrite Hk. exists (k - b). lia.
Qed.
Lemma be_words_u16 bs : Forall is_byte bs -> Forall (in_u 16) (be_words16 bs).
Proof.
  remember (length bs) as n eqn:Hn. revert bs Hn. induction n as [n IH] using lt_wf_ind. intros [|a [|b bs]] Hn H; [constructor..|].
  apply Forall_cons in H as [Ha H]. apply Forall_cons in H as [Hb H]. cbn. constructor.
  - unfold is_byte, in_u in *. lia.
  - by apply (IH (length bs)); [cbn in Hn; lia| |].
Qed.

Lemma be_words_le bs : Forall is_byte bs -> 0 <= wsum (words16 bs) <= 256 * wsum (be_words16 bs).
Proof.
  remember (length bs) as n eqn:Hn. revert bs Hn. induction n as [n IH] using lt_wf_ind. intros [|a [|b bs]] Hn H; [done..|].
  apply Forall_cons in H as [Ha H]. apply Forall_cons in H as [Hb H].
  pose proof (IH (length bs) ltac:(cbn in Hn; lia) bs eq_refl H) as IHb. cbn.
  unfold is_byte, in_u in *. lia.
Qed.

(** What the code computes from the sum [s] of nine words. *)
Definition fold_sum (s : Z) : Z :=
  let c := u32 (Z.shiftr (Z.land s 4294901760) 16 + Z.land s 65535) in
  let c := if 65535 <? c then u32 (c - 65535) else c in
  let c := Z.land (u32 (Z.lnot c)) 65535 in
  if c =? 0 then 65535 else u16 c.
Lemma fold_sum_spec s : 0 <= s <= 9 * 65535 -> 0 < fold_sum s <= 65535 /\ exists k, s + fold_sum s = k * 65535.
Proof.
  intros Hs. unfold fold_sum.
  assert (E1 : Z.shiftr (Z.land s 4294901760) 16 = s / 65536).
  { rewrite Z.shiftr_land. change (Z.shiftr 4294901760 16) with (Z.ones 16). rewrite Z.land_ones by lia.
    rewrite Z.shiftr_div_pow2 by lia. change (2 ^ 16) with 65536.
    apply Z.mod_small. split; [apply Z.div_pos; lia|apply Z.div_lt_upper_bound; lia]. }
  assert (E2 : Z.land s 65535 = s mod 65536) by exact (Z.land_ones s 16 ltac:(lia)).
  rewrite E1, E2. pose proof (Z.div_mod s 65536) as Hd. pose proof (Z.mod_pos_bound s 65536) as Hm.
  set (hi := s / 65536) in *. set (lo := s mod 65536) in *. assert (0 <= hi <= 8) by (unfold hi in *; lia).
  rewrite (wrap_small 32 (hi + lo)) by (unfold in_u; lia). set (c := if _ <? _ then _ else _).
  assert (Hc : 0 <= c <= 65535 /\ exists k, s = c + k * 65535).
  { unfold c. destruct (Z.ltb_spec 65535 (hi + lo)).
    - rewrite wrap_small by (unfold in_u; lia). split; [lia|]. exists (hi + 1). lia.
    - split; [lia|]. exists hi. lia. }
  destruct Hc as (Hc & k & Hk).
  assert (E3 : Z.land (u32 (Z.lnot c)) 65535 = 65535 - c).
  { change 65535 with (Z.ones 16) at 1. rewrite Z.land_ones by lia. unfold wrap, Z.lnot.
    replace (Z.pred (- c)) with (4294967295 - c + -1 * 2 ^ 32) by lia. rewrite Z.mod_add by lia.
    rewrite (Z.mod_small (4294967295 - c)) by lia. replace (4294967295 - c) with (65535 - c + 65535 * 2 ^ 16) by lia.
    rewrite Z.mod_add by lia. apply Z.mod_small. lia. }
  rewrite E3. destruct (Z.eqb_spec (65535 - c) 0).
  - split; [lia|]. exists (k + 2). lia.
  - rewrite wrap_small by (unfold in_u; lia). split; [lia|]. exists (k + 1). lia.
Qed.

(** ** Bytes of the structures *)
Lemma le_bytes_val l : Forall is_byte l -> le_bytes (length l) (le_val l) = l.
Proof.
  induction 1 as [|b l Hb _ IH]; cbn [length le_bytes le_val]; [done|]. unfold is_byte, in_u in Hb. change (2 ^ 8) with 256 in Hb.
  assert ((b + 256 * le_val l) mod 256 = b /\ (b + 256 * le_val l) / 256 = le_val l) as [-> ->]
    by (split; Z.to_euclidean_division_equations; lia).
  by rewrite IH.
Qed.
Lemma bswap_bytes n z : le_bytes n (bswap n z) = rev (le_bytes n z).
Proof.
  unfold bswap. rewrite <- (length_le_bytes n z) at 1. rewrite <- length_rev. apply le_bytes_val.
  apply Forall_rev, le_bytes_are_bytes.
Qed.
Lemma bswap_bswap n z : 0 <= z < 256 ^ Z.of_nat n -> bswap n (bswap n z) = z.
Proof. intros Hz. unfold bswap at 1. rewrite bswap_bytes, rev_involutive. by apply le_val_bytes. Qed.
Lemma le_val_range l : Forall is_byte l -> 0 <= le_val l < 256 ^ Z.of_nat (length l).
Proof.
  induction 1 as [|b l Hb _ IH]; cbn [length le_val]; [cbn; lia|]. unfold is_byte, in_u in Hb. change (2 ^ 8) with 256 in Hb.
  rewrite Nat2Z.inj_succ, Z.pow_succ_r by lia. lia.
Qed.
Lemma bswap_range n z : 0 <= bswap n z < 256 ^ Z.of_nat n.
Proof.
  unfold bswap. pose proof (le_val_range (rev (le_bytes n z))) as H. rewrite length_rev, length_le_bytes in H.
  apply H, Forall_rev, le_bytes_are_bytes.
Qed.

Lemma ipv4_bytes_are_bytes h : ipv4_wf h -> Forall is_byte (ipv4_bytes h).
Proof.
  intros []. unfold ipv4_bytes. repeat first [apply Forall_app; split | apply le_bytes_are_bytes | apply Forall_cons; split | by apply Forall_nil]; try done.
  - rewrite lor_shiftl_add by done. unfold is_byte, in_u in *. lia.
  - rewrite lor_shiftl_add by done. unfold is_byte, in_u in *. lia.
Qed.
Lemma field_le n z : (n <= 8)%nat -> 0 <= z < 256 ^ Z.of_nat n -> le_val (le_bytes n z) = z.
Proof. intros _. apply le_val_bytes. Qed.

Lemma ipv4_of_bytes h rest : ipv4_wf h -> ipv4_of (ipv4_bytes h ++ rest) = h.
Proof.
  intros []. unfold ipv4_of.
  change (field (ipv4_bytes h ++ rest) 0 1) with (Z.lor (ihl_ h) (Z.shiftl (version_ h) 4) + 256 * 0).
  change (field (ipv4_bytes h ++ rest) 1 1) with (Z.lor (ecn_ h) (Z.shiftl (dscp_ h) 2) + 256 * 0).
  change (field (ipv4_bytes h ++ rest) 2 2) with (le_val (le_bytes 2 (tot_len_ h))).
  change (field (ipv4_bytes h ++ rest) 4 2) with (le_val (le_bytes 2 (id_ h))).
  change (field (ipv4_bytes h ++ rest) 6 2) with (le_val (le_bytes 2 (frag_off_ h))).
  change (field (ipv4_bytes h ++ rest) 8 1) with (ttl_ h + 256 * 0).
  change (field (ipv4_bytes h ++ rest) 9 1) with (protocol_ h + 256 * 0).
  change (field (ipv4_bytes h ++ rest) 10 2) with (le_val (le_bytes 2 (check_ h))).
  change (field (ipv4_bytes h ++ rest) 12 4) with (le_val (le_bytes 4 (src_ip_ h))).
  change (field (ipv4_bytes h ++ rest) 16 4) with (le_val (le_bytes 4 (dst_ip_ h))).
  rewrite !le_val_bytes by done. rewrite !Z.mul_0_r, !Z.add_0_r, !lor_shiftl_add by done.
  rewrite !field_low, !field_high by done. by destruct h.
Qed.
Lemma lor_split n b : 0 <= n -> Z.lor (wrap n b) (Z.shiftl (Z.shiftr b n) n) = b.
Proof.
  intros Hn. rewrite lor_shiftl_add by (done || by apply wrap_range). unfold wrap. rewrite Z.shiftr_div_pow2 by done.
  pose proof (Z.div_mod b (2 ^ n)). lia.
Qed.
Lemma field1 a bs : field (a :: bs) 0 1 = a.
Proof. change (a + 256 * 0 = a). lia. Qed.
Lemma le_bytes_val_n n l : length l = n -> Forall is_byte l -> le_bytes n (le_val l) = l.
Proof. intros <-. apply le_bytes_val. Qed.
(** The casts read exactly what is there. *)
Lemma ipv4_bytes_of bs : length bs = 20%nat -> Forall is_byte bs -> ipv4_bytes (ipv4_of bs) = bs.
Proof.
  intros Hl Hb. do 20 (destruct bs as [|? bs]; [done|]). destruct bs; [|done]. clear Hl.
  repeat (apply Forall_cons in Hb as [? Hb]). unfold ipv4_bytes, ipv4_of. cbn [ihl_ version_ ecn_ dscp_ tot_len_ id_ frag_off_ ttl_ protocol_ check_ src_ip_ dst_ip_].
  rewrite !lor_split by done. unfold field. rewrite !le_bytes_val_n by (try reflexivity; repeat (constructor; [done|]); constructor).
  lazy [firstn skipn app le_val]. by rewrite !Z.mul_0_r, !Z.add_0_r.
Qed.
Lemma field_range bs o n : Forall is_byte bs -> 0 <= field bs o n < 256 ^ Z.of_nat n.
Proof.
  intros Hb. unfold field. pose proof (le_val_range (take n (drop o bs)) ltac:(by apply Forall_take, Forall_drop)) as H.
  split; [lia|]. eapply Z.lt_le_trans; [apply H|]. apply Z.pow_le_mono_r; [lia|]. rewrite length_take. lia.
Qed.
Lemma ipv4_of_wf bs : Forall is_byte bs -> ipv4_wf (ipv4_of bs).
Proof.
  intros Hb. pose proof (field_range bs 0 1 Hb). pose proof (field_range bs 1 1 Hb).
  constructor; unfold ipv4_of; cbn [ihl_ version_ ecn_ dscp_ tot_len_ id_ frag_off_ ttl_ protocol_ check_ src_ip_ dst_ip_];
    try exact (field_range bs _ _ Hb); try (by apply wrap_range); rewrite Z.shiftr_div_pow2 by done; unfold in_u;
    Z.to_euclidean_division_equations; lia.
Qed.
Lemma udp_of_bytes h rest :
  in_u 16 (src_port_ h) -> in_u 16 (dst_port_ h) -> in_u 16 (len_ h) -> in_u 16 (udp_check_ h) ->
  udp_of (udp_bytes h ++ rest) = h.
Proof.
  intros H1 H2 H3 H4. unfold udp_of.
  change (field (udp_bytes h ++ rest) 0 2) with (le_val (le_bytes 2 (src_port_ h))).
  change (field (udp_bytes h ++ rest) 2 2) with (le_val (le_bytes 2 (dst_port_ h))).
  change (field (udp_bytes h ++ rest) 4 2) with (le_val (le_bytes 2 (len_ h))).
  change (field (udp_bytes h ++ rest) 6 2) with (le_val (le_bytes 2 (udp_check_ h))).
  rewrite !le_val_bytes by done. by destruct h.
Qed.
Lemma eth_of_bytes h rest :
  length (dst_mac_ h) = 6%nat -> length (src_mac_ h) = 6%nat -> in_u 16 (eth_type_ h) ->
  eth_of (eth_bytes h ++ rest) = h.
Proof.
  intros H1 H2 H3. unfold eth_of, eth_bytes, field. rewrite <- !app_assoc.
  rewrite (take_app_length' (dst_mac_ h)), (drop_app_length' (dst_mac_ h)), (take_app_length' (src_mac_ h)) by done.
  change 12%nat with (6 + 6)%nat. rewrite <- drop_drop, (drop_app_length' (dst_mac_ h)), (drop_app_length' (src_mac_ h)) by done.
  rewrite (take_app_length' (le_bytes 2 _)), le_val_bytes by done. by destruct h.
Qed.

Lemma foldl_u32 (l : list Z) (idx : list nat) acc :
  Forall (fun i => 0 <= nth i l 0 <= 65535) idx -> 0 <= acc -> acc + 65535 * Z.of_nat (length idx) < 2 ^ 32 ->
  foldl (fun acc i => u32 (acc + nth i l 0)) acc idx = acc + wsum ((fun i => nth i l 0) <$> idx).
Proof.
  intros H. revert acc. induction H as [|i idx Hi _ IH]; intros acc Ha Hb; cbn; [lia|].
  cbn [length] in Hb. rewrite (wrap_small 32) by (unfold in_u; lia). rewrite IH by lia. cbn. lia.
Qed.

(** The nine words that are summed, and what the code makes of the sum. *)
Definition nine_words (h : ipv4_hdr_t) : Z :=
  wsum ((fun i => nth i (words16 (ipv4_bytes h)) 0) <$> [0; 1; 2; 3; 4; 6; 7; 8; 9]%nat).
Lemma ipv4_word h i : ipv4_wf h -> (i < 10)%nat -> 0 <= nth i (words16 (ipv4_bytes h)) 0 <= 65535.
Proof.
  intros Hw Hi. assert (Hp : Forall (in_u 16) (words16 (ipv4_bytes h))).
  { pose proof (ipv4_bytes_are_bytes h Hw) as Hb. unfold ipv4_bytes in Hb |- *. cbn [app le_bytes] in Hb |- *. cbn [words16].
    repeat (apply Forall_cons in Hb as [? Hb]). repeat constructor; unfold is_byte, in_u in *; lia. }
  rewrite Forall_forall in Hp. assert (0 <= nth i (words16 (ipv4_bytes h)) 0 < 2 ^ 16); [|lia].
  apply Hp, list_elem_of_In, nth_In. exact Hi.
Qed.
Lemma nine_words_range h : ipv4_wf h -> 0 <= nine_words h <= 9 * 65535.
Proof.
  intros Hw. unfold nine_words. cbn [fmap list_fmap zsum id]. pose proof (fun i => ipv4_word h i Hw) as Hn.
  pose proof (Hn 0%nat). pose proof (Hn 1%nat). pose proof (Hn 2%nat). pose proof (Hn 3%nat). pose proof (Hn 4%nat).
  pose proof (Hn 6%nat). pose proof (Hn 7%nat). pose proof (Hn 8%nat). pose proof (Hn 9%nat). lia.
Qed.
Lemma get_ipv4_checksum_fold h : ipv4_wf h -> get_ipv4_checksum h = fold_sum (nine_words h).
Proof.
  intros Hw. unfold get_ipv4_checksum. rewrite foldl_u32; [reflexivity| |done|done].
  repeat (constructor; [by apply ipv4_word; [|lia]|]). constructor.
Qed.
Lemma get_ipv4_checksum_range h : ipv4_wf h -> in_u 16 (get_ipv4_checksum h).
Proof.
  intros Hw. rewrite get_ipv4_checksum_fold by done. destruct (fold_sum_spec _ (nine_words_range h Hw)) as [H _]. unfold in_u. lia.
Qed.
Lemma wsum_with_check h c :
  0 <= c <= 65535 -> wsum (words16 (ipv4_bytes (h <| check_ := c |>))) = nine_words h + c.
Proof.
  intros Hc. unfold nine_words. set (w := words16 (ipv4_bytes h)). change (words16 (ipv4_bytes (h <| check_ := c |>))) with
    ([nth 0 w 0; nth 1 w 0; nth 2 w 0; nth 3 w 0; nth 4 w 0] ++ [c mod 256 + 256 * (c / 256 mod 256)] ++ [nth 6 w 0; nth 7 w 0; nth 8 w 0; nth 9 w 0]).
  replace (c mod 256 + 256 * (c / 256 mod 256)) with c by (Z.to_euclidean_division_equations; lia).
  cbn [app zsum id fmap list_fmap]. lia.
Qed.

Lemma ipv4_checksum_ok h :
  ipv4_wf h -> oc_sum (be_words16 (ipv4_bytes (h <| check_ := get_ipv4_checksum h |>))) = 65535.
Proof.
  intros Hw. pose proof (get_ipv4_checksum_range h Hw) as Hcr. destruct (fold_sum_spec _ (nine_words_range h Hw)) as (Hr & k & Hk).
  rewrite <- get_ipv4_checksum_fold in Hr, Hk by done. pose proof (nine_words_range h Hw).
  set (c := get_ipv4_checksum h) in *. clearbody c. set (h' := h <| check_ := c |>).
  assert (Hs : wsum (words16 (ipv4_bytes h')) = k * 65535) by (rewrite <- Hk; apply wsum_with_check; lia).
  destruct (be_words_sum (ipv4_bytes h')) as [j Hj]. rewrite Hs in Hj.
  assert (Hby : Forall is_byte (ipv4_bytes h')) by (apply ipv4_bytes_are_bytes; destruct Hw; constructor; done).
  apply (oc_sum_full _ (256 * k + j) (be_words_u16 _ Hby)); [lia|].
  pose proof (be_words_le _ Hby) as Hle. rewrite Hs, <- Hk in Hle. lia.
Qed.

(** with the checksum that the code computes stored in it, any
    IPv4 header passes the receiver's check of RFC 1071: the one's complement sum
    of its sixteen-bit words, in network order, is all ones. *)
Theorem ipv4_checksum_valid h :
  ipv4_wf h -> oc_sum (be_words16 (ipv4_bytes (h <| check_ := get_ipv4_checksum h |>))) = 65535.
Proof. apply ipv4_checksum_ok. Qed.

(** The header of a full packet, between two hosts. *)
Lemma ipv4_checksum_valid_witness :
  ipv4_wf (gen_ipv4_header 3232235777 3232235778 976) /\ get_ipv4_checksum (gen_ipv4_header 3232235777 3232235778 976) = 44211 /\
  oc_sum (be_words16 (ipv4_bytes ((gen_ipv4_header 3232235777 3232235778 976)
    <| check_ := get_ipv4_checksum (gen_ipv4_header 3232235777 3232235778 976) |>))) = 65535.
Proof.
  assert (Hw : ipv4_wf (gen_ipv4_header 3232235777 3232235778 976)).
  { constructor; vm_compute; split; (discriminate || reflexivity). }
  split; [exact Hw|]. split; [vm_compute; reflexivity|].
  exact (ipv4_checksum_valid (gen_ipv4_header 3232235777 3232235778 976) Hw).
Defined.
