(* ===== verification/DpdkOwner.v ===== *)
(** * Ownership of DPDK queue pairs: [ownership_memzone_t] of [dpdk_transport.h]

    The memory zone that the DPDK daemon shares with the processes that use
    eRPC. Each operation holds the zone's mutex, so operations are atomic steps;
    the process that runs one is an argument. The log texts are left out. *)
From S2P Require Import Prelude Config.

Definition kMaxQueuesPerPort : Z := 16.
Definition kInvalidQpId : Z := 2 ^ 64 - 1.
Definition EPERM : Z := 1.
Definition EALREADY : Z := 114.

(** [pid_] is 0 when the queue pair is free. *)
Record qp_owner := mkOwner { pid_ : Z; proc_random_id_ : Z }.
#[export] Instance eta_qp_owner : Eta qp_owner := fun o => mkOwner (pid_ o) (proc_random_id_ o).
Record Zone := mkZone { epoch_ : Z; num_qps_available_ : Z; owner_ : list (list qp_owner) }.
#[export] Instance eta_Zone : Eta Zone := fun z => mkZone (epoch_ z) (num_qps_available_ z) (owner_ z).
Abbreviation MZ := (M Zone).

Definition zone_init : MZ unit :=
  modify (fun _ => mkZone 0 kMaxQueuesPerPort
    (replicate (Z.to_nat kMaxPhyPorts) (replicate (Z.to_nat kMaxQueuesPerPort) (mkOwner 0 0)))).
Definition get_epoch : MZ Z := gets epoch_.
Definition get_num_qps_available : MZ Z := gets num_qps_available_.

Definition get_owners (phy_port : Z) : MZ (list qp_owner) :=
  a ← gets owner_; deref (zlookup a phy_port) "owner_".
Definition set_owner (phy_port qp_id : Z) (o : qp_owner) : MZ unit :=
  l ← get_owners phy_port;
  modify (fun z => z <| owner_ ::= zinsert phy_port (zinsert qp_id o l) |>).

(** The first free queue pair. *)
Fixpoint find_free (i : Z) (l : list qp_owner) : option Z :=
  match l with [] => None | o :: l => if pid_ o =? 0 then Some i else find_free (i + 1) l end.

Definition get_qp (my_pid phy_port proc_random_id : Z) : MZ Z :=
  modify (fun z => z <| epoch_ ::= fun e => u64 (e + 1) |>);;
  l ← get_owners phy_port;
  if existsb (fun o => (pid_ o =? my_pid) && negb (proc_random_id_ o =? proc_random_id)) l then mret kInvalidQpId
  else
    match find_free 0 l with
    | Some i =>
        set_owner phy_port i (mkOwner my_pid proc_random_id);;
        modify (fun z => z <| num_qps_available_ ::= fun n => u64 (n - 1) |>);;
        mret i
    | None => mret kInvalidQpId
    end.

Definition free_qp (my_pid phy_port qp_id : Z) : MZ Z :=
  modify (fun z => z <| epoch_ ::= fun e => u64 (e + 1) |>);;
  l ← get_owners phy_port;
  o ← deref (zlookup l qp_id) "owner_";
  if pid_ o =? 0 then mret EALREADY
  else if negb (pid_ o =? my_pid) then mret EPERM
  else
    modify (fun z => z <| num_qps_available_ ::= fun n => u64 (n + 1) |>);;
    set_owner phy_port qp_id (o <| pid_ := 0 |>);;
    mret 0.

(** [kill(pid, 0) == 0] *)
Section Reclaim.
Variable kill_ok : Z -> bool.
Definition reclaim_one (phy_port i : Z) : MZ unit :=
  l ← get_owners phy_port;
  o ← deref (zlookup l i) "owner_";
  when (negb (kill_ok (pid_ o))) (
    modify (fun z => z <| num_qps_available_ ::= fun n => u64 (n + 1) |>);;
    set_owner phy_port i (o <| pid_ := 0 |>)).
Definition daemon_reclaim_qps_from_crashed (phy_port : Z) : MZ unit :=
  miter (reclaim_one phy_port) (Z.of_nat <$> seq 0 (Z.to_nat kMaxQueuesPerPort)).

(** ** Processes *)
Inductive zone_op :=
  | ZGet (phy_port proc_random_id : Z)
  | ZFree (phy_port qp_id : Z)
  | ZReclaim (phy_port : Z).
Definition run_zone (my_pid : Z) (o : zone_op) : MZ Z :=
  match o with
  | ZGet p r => get_qp my_pid p r
  | ZFree p q => free_qp my_pid p q
  | ZReclaim p => daemon_reclaim_qps_from_crashed p;; mret 0
  end.
Definition zone_args (o : zone_op) : Prop :=
  match o with
  | ZGet p _ | ZReclaim p => 0 <= p < kMaxPhyPorts
  | ZFree p q => 0 <= p < kMaxPhyPorts /\ 0 <= q < kMaxQueuesPerPort
  end.

(** ** Who owns what *)
Definition owner_at (z : Zone) (p q : Z) : option Z := l ← zlookup (owner_ z) p; pid_ <$> zlookup l q.

Definition used_of (o : qp_owner) : Z := if pid_ o =? 0 then 0 else 1.
Definition used (l : list qp_owner) : Z := zsum used_of l.
Definition total (z : Zone) : Z := zsum used (owner_ z).
(** One counter serves all ports: it is the number of free queue pairs as long
    as a single port is in use, and goes below zero, wrapped, beyond 16. *)
Record zone_inv (z : Zone) : Prop := {
  zi_ports : zlength (owner_ z) = kMaxPhyPorts;
  zi_qps p l : zlookup (owner_ z) p = Some l -> zlength l = kMaxQueuesPerPort;
  zi_count : num_qps_available_ z = u64 (kMaxQueuesPerPort - total z);
}.

Lemma get_owners_wp E p (Q : list qp_owner -> Zone -> Prop) z :
  zone_inv z -> 0 <= p < kMaxPhyPorts ->
  (forall l, zlookup (owner_ z) p = Some l -> zlength l = kMaxQueuesPerPort -> Q l z) -> wpe E (get_owners p) Q z.
Proof.
  intros Hi Hp HQ. rewrite <- (zi_ports _ Hi) in Hp. destruct (zlookup_is_Some _ _ Hp) as [l Hl].
  unfold get_owners. do 2 wp_step. eapply wp_deref; [exact Hl|]. apply HQ; [done|]. by eapply zi_qps.
Qed.

(** The effect of [set_owner] together with the counter. *)
Lemma set_owner_inv z p q l o o' d :
  zone_inv z -> zlookup (owner_ z) p = Some l -> zlookup l q = Some o -> d = used_of o - used_of o' ->
  let z' := z <| num_qps_available_ ::= fun n => u64 (n + d) |> <| owner_ ::= zinsert p (zinsert q o' l) |> in
  zone_inv z' /\ owner_at z' p q = Some (pid_ o') /\
  (forall p' q', (p', q') <> (p, q) -> owner_at z' p' q' = owner_at z p' q').
Proof.
  intros [H1 H2 H3] Hl Ho Hd z'. pose proof (zlookup_lt _ _ _ Hl) as Hp. pose proof (zlookup_lt _ _ _ Ho) as Hq.
  assert (Hat : forall p', zlookup (owner_ z') p' = if decide (p' = p) then Some (zinsert q o' l) else zlookup (owner_ z) p').
  { intros p'. unfold z'. rsimp. case_decide as Hpp; [subst; by apply zlookup_zinsert_eq|]. apply zlookup_zinsert_ne. congruence. }
  split; [split|split].
  - unfold z'. rsimp. by rewrite zlength_zinsert.
  - intros p' l'. rewrite Hat. case_decide; [intros [= <-]; rewrite zlength_zinsert|]; by eapply H2.
  - unfold total, z'. rsimp. rewrite H3, (zsum_zinsert used _ p l _ Hl). unfold used at 2 3.
    rewrite (zsum_zinsert used_of _ q o _ Ho). unfold total, wrap. rewrite Zplus_mod_idemp_l. f_equal. lia.
  - unfold owner_at. rewrite Hat, decide_True by done. cbn. by rewrite zlookup_zinsert_eq.
  - intros p' q' Hne. unfold owner_at. rewrite Hat. case_decide; [subst|done]. rewrite Hl. cbn.
    rewrite zlookup_zinsert_ne by congruence. done.
Qed.
Lemma find_free_spec l i :
  match find_free i l with
  | Some k => exists j o, k = i + Z.of_nat j /\ l !! j = Some o /\ pid_ o = 0 /\
      forall j' o', (j' < j)%nat -> l !! j' = Some o' -> pid_ o' <> 0
  | None => forall j o, l !! j = Some o -> pid_ o <> 0
  end.
Proof.
  revert i. induction l as [|o l IH]; intros i; cbn; [by intros ? ?|]. destruct (Z.eqb_spec (pid_ o) 0) as [E|E].
  - exists 0%nat, o. split_and!; [lia|done|done|]. intros ?? ?. lia.
  - specialize (IH (i + 1)). destruct (find_free (i + 1) l) as [k|].
    + destruct IH as (j & o' & -> & Hl & Hz & Hlt). exists (S j), o'. split_and!; [lia|done|done|].
      intros [|j'] o1 Hj; cbn; [by intros [= <-]|]. apply Hlt. lia.
    + intros [|j] o'; cbn; [by intros [= <-]|apply IH].
Qed.

(** The owner of each queue pair, with one changed. *)
Definition set_at (z : Zone) (p q a p' q' : Z) : option Z := if decide ((p', q') = (p, q)) then Some a else owner_at z p' q'.
(** Another process with the same number holds a queue pair of the port. *)
Definition pid_clash (z : Zone) (pid rand p : Z) : Prop :=
  exists l q o, zlookup (owner_ z) p = Some l /\ zlookup l q = Some o /\ pid_ o = pid /\ proc_random_id_ o <> rand.

(** What an operation returns and leaves behind. *)
Definition zone_post (pid : Z) (o : zone_op) (z : Zone) (r : Z) (z' : Zone) : Prop :=
  match o with
  | ZGet p rand =>
      (r = kInvalidQpId /\ owner_ z' = owner_ z /\
        (pid_clash z pid rand p \/ forall q, 0 <= q < kMaxQueuesPerPort -> owner_at z p q <> Some 0)) \/
      (~ pid_clash z pid rand p /\ 0 <= r < kMaxQueuesPerPort /\ owner_at z p r = Some 0 /\
        (forall q, 0 <= q < r -> owner_at z p q <> Some 0) /\ forall p' q', owner_at z' p' q' = set_at z p r pid p' q')
  | ZFree p q => exists a, owner_at z p q = Some a /\
      ((a = pid /\ r = 0 /\ forall p' q', owner_at z' p' q' = set_at z p q 0 p' q') \/
       (a <> pid /\ r = (if a =? 0 then EALREADY else EPERM) /\ owner_ z' = owner_ z))
  | ZReclaim p => forall p' q', owner_at z' p' q' =
      (a ← owner_at z p' q'; Some (if bool_decide (p' = p) && negb (kill_ok a) then 0 else a))
  end.

Lemma zone_inv_epoch z e : zone_inv z -> zone_inv (z <| epoch_ := e |>).
Proof. by intros []. Qed.

Lemma set_owner_wp E p q o l (Q : unit -> Zone -> Prop) z :
  zlookup (owner_ z) p = Some l -> Q tt (z <| owner_ ::= zinsert p (zinsert q o l) |>) -> wpe E (set_owner p q o) Q z.
Proof. intros Hl HQ. unfold set_owner, get_owners. do 3 wp_step. eapply wp_deref; [exact Hl|]. by wp_step. Qed.
Lemma owner_at_epoch z e p q : owner_at (z <| epoch_ := e |>) p q = owner_at z p q.
Proof. done. Qed.
Lemma lookup_zlookup {A} (l : list A) j o : l !! j = Some o -> zlookup l (Z.of_nat j) = Some o.
Proof. intros H. unfold zlookup. by rewrite (proj2 (Z.leb_le 0 _)), Nat2Z.id by lia. Qed.
(** What [set_at] says of the state after an assignment. *)
Lemma set_at_of z z' p q a :
  owner_at z' p q = Some a -> (forall p' q', (p', q') <> (p, q) -> owner_at z' p' q' = owner_at z p' q') ->
  forall p' q', owner_at z' p' q' = set_at z p q a p' q'.
Proof. intros H1 H2 p' q'. unfold set_at. case_decide as Hd; [by injection Hd as -> ->|by apply H2]. Qed.

Lemma get_qp_wp pid p rand z :
  zone_inv z -> 0 <= p < kMaxPhyPorts -> 0 < pid ->
  wp (get_qp pid p rand) (fun r z' => zone_inv z' /\ zone_post pid (ZGet p rand) z r z') z.
Proof.
  intros Hi Hp Hpid. unfold get_qp. do 3 wp_step. set (z1 := update epoch_ _ z).
  assert (Hi1 : zone_inv z1) by by apply (zone_inv_epoch z).
  apply get_owners_wp; [done..|]. intros l Hl Hlen. change (zlookup (owner_ z) p = Some l) in Hl.
  assert (Hat : forall q, owner_at z p q = (pid_ <$> zlookup l q)) by (intros q; unfold owner_at; by rewrite Hl).
  wp_step; [wp_step; split; [done|]; left|].
  - split; [done|]. split; [done|]. left. apply existsb_exists in H as (o & Ho & [H1 H2]%andb_true_iff).
    apply list_elem_of_In, list_elem_of_lookup in Ho as [k Hk]. exists l, (Z.of_nat k), o. split; [done|].
    unfold zlookup. rewrite (proj2 (Z.leb_le 0 _)), Nat2Z.id by lia. split; [done|]. lia.
  - pose proof (find_free_spec l 0) as Hf. destruct (find_free 0 l) as [k|].
    + destruct Hf as (j & o & -> & Hj & Hz & Hlt). change (0 + Z.of_nat j) with (Z.of_nat j). apply lookup_zlookup in Hj.
      destruct (set_owner_inv z1 p (Z.of_nat j) l o (mkOwner pid rand) (-1) Hi1 Hl Hj) as (Hi' & Hset & Hoth).
      { unfold used_of. cbn. rewrite Hz, (proj2 (Z.eqb_neq pid 0)) by lia. done. }
      wp_step. eapply set_owner_wp; [exact Hl|]. do 3 wp_step. split; [exact Hi'|]. right.
      split; [|split; [apply zlookup_lt in Hj; lia|split; [by rewrite Hat, Hj; cbn; rewrite Hz|split]]].
      * intros (l' & q & o' & Hl' & Hq & E1 & E2). rewrite Hl in Hl'. injection Hl' as <-.
        apply not_true_iff_false in H. apply H, existsb_exists. exists o'. split; [|lia].
        apply list_elem_of_In. unfold zlookup in Hq. case_match; [|done]. by eapply list_elem_of_lookup_2.
      * intros q Hq. rewrite Hat. unfold zlookup. rewrite (proj2 (Z.leb_le 0 q)) by lia.
        destruct (l !! Z.to_nat q) as [o'|] eqn:Ho'; [|done]. intros [= E]. by apply (Hlt (Z.to_nat q) o'); [lia| |].
      * by apply set_at_of.
    + wp_step. split; [done|]. left. split; [done|]. split; [done|]. right. intros q Hq. rewrite Hat. unfold zlookup.
      rewrite (proj2 (Z.leb_le 0 q)) by lia. destruct (l !! Z.to_nat q) as [o'|] eqn:Ho'; [|done]. intros [= E]. by apply (Hf _ _ Ho').
Qed.

Lemma free_qp_wp pid p q z :
  zone_inv z -> 0 <= p < kMaxPhyPorts -> 0 <= q < kMaxQueuesPerPort -> 0 < pid ->
  wp (free_qp pid p q) (fun r z' => zone_inv z' /\ zone_post pid (ZFree p q) z r z') z.
Proof.
  intros Hi Hp Hq Hpid. unfold free_qp. do 3 wp_step. set (z1 := update epoch_ _ z).
  assert (Hi1 : zone_inv z1) by by apply (zone_inv_epoch z).
  apply get_owners_wp; [done..|]. intros l Hl Hlen. change (zlookup (owner_ z) p = Some l) in Hl. rewrite <- Hlen in Hq.
  destruct (zlookup_is_Some _ _ Hq) as [o Ho]. wp_step. eapply wp_deref; [exact Ho|].
  assert (Hat : owner_at z p q = Some (pid_ o)) by (unfold owner_at; by rewrite Hl; cbn; rewrite Ho).
  wp_step; [wp_step|wp_step; [wp_step|]].
  - split; [done|]. exists (pid_ o). split; [done|]. right. split; [lia|]. by rewrite H.
  - split; [done|]. exists (pid_ o). split; [done|]. right. split; [lia|]. by rewrite H.
  - destruct (set_owner_inv z1 p q l o (o <| pid_ := 0 |>) 1 Hi1 Hl Ho) as (Hi' & Hset & Hoth).
    { unfold used_of. by rewrite H. }
    do 3 wp_step. eapply set_owner_wp; [exact Hl|]. wp_step. split; [exact Hi'|]. exists (pid_ o). split; [done|]. left.
    split; [lia|]. split; [done|]. by apply set_at_of.
Qed.

(** [kill(0, 0)] signals the caller's own process group: it succeeds, so free
    queue pairs are passed over. *)
Hypothesis kill_self : kill_ok 0 = true.
Definition reclaimed (z : Zone) (p : Z) (done_ : list Z) (z' : Zone) : Prop :=
  zone_inv z' /\ forall p' q', owner_at z' p' q' =
    (a ← owner_at z p' q'; Some (if bool_decide (p' = p) && bool_decide (q' ∈ done_) && negb (kill_ok a) then 0 else a)).
Lemma reclaim_one_wp z p done_ i z' :
  reclaimed z p done_ z' -> i ∉ done_ -> 0 <= p < kMaxPhyPorts -> 0 <= i < kMaxQueuesPerPort ->
  wp (reclaim_one p i) (fun _ => reclaimed z p (done_ ++ [i])) z'.
Proof.
  intros [Hi Hat] Hni Hp Hq. unfold reclaim_one. wp_step. apply get_owners_wp; [done..|]. intros l Hl Hlen.
  rewrite <- Hlen in Hq. destruct (zlookup_is_Some _ _ Hq) as [o Ho]. wp_step. eapply wp_deref; [exact Ho|].
  assert (Hpi : owner_at z' p i = Some (pid_ o)) by (unfold owner_at; by rewrite Hl; cbn; rewrite Ho).
  assert (Hzi : owner_at z p i = Some (pid_ o)).
  { rewrite Hat in Hpi. destruct (owner_at z p i) as [a|]; [|done]. cbn in Hpi.
    by rewrite (bool_decide_false (i ∈ done_)), andb_false_r in Hpi. }
  assert (Hother : forall p' q', (p', q') <> (p, i) ->
    bool_decide (p' = p) && bool_decide (q' ∈ done_ ++ [i]) = bool_decide (p' = p) && bool_decide (q' ∈ done_)).
  { intros p' q' Hne. case_bool_decide as E1; [|done]. subst. apply bool_decide_ext. rewrite elem_of_app, list_elem_of_singleton. naive_solver. }
  apply wp_when; intros Hk.
  - destruct (set_owner_inv z' p i l o (o <| pid_ := 0 |>) 1 Hi Hl Ho) as (Hi' & Hset & Hoth).
    { unfold used_of. cbn. destruct (Z.eqb_spec (pid_ o) 0) as [E|E]; [|done]. by rewrite E, kill_self in Hk. }
    do 2 wp_step. eapply set_owner_wp; [exact Hl|]. split; [exact Hi'|]. intros p' q'.
    rewrite (set_at_of z' _ p i 0 Hset Hoth). unfold set_at. case_decide as Hd.
    + injection Hd as -> ->. rewrite Hzi. cbn. by rewrite !bool_decide_true, Hk by (done || (apply elem_of_app; right; by left)).
    + rewrite Hat. destruct (owner_at z p' q') as [a|]; [|done]. cbn. by rewrite Hother.
  - split; [done|]. intros p' q'. rewrite Hat. destruct (decide ((p', q') = (p, i))) as [Hd|Hd].
    + injection Hd as -> ->. rewrite Hzi. cbn. by rewrite Hk, !andb_false_r.
    + destruct (owner_at z p' q') as [a|]; [|done]. cbn. by rewrite Hother.
Qed.
Lemma reclaim_wp pid p z :
  zone_inv z -> 0 <= p < kMaxPhyPorts ->
  wp (daemon_reclaim_qps_from_crashed p) (fun _ z' => zone_inv z' /\ forall r, zone_post pid (ZReclaim p) z r z') z.
Proof.
  intros Hi Hp. unfold daemon_reclaim_qps_from_crashed. eapply wp_mono; [apply (wp_miter _ (fun l => reclaimed z p l))|].
  - split; [done|]. intros p' q'. rewrite (bool_decide_false (q' ∈ [])) by apply not_elem_of_nil. rewrite andb_false_r.
    by destruct (owner_at z p' q').
  - intros l i l' z' Hl Hr.
    assert (Hnd : NoDup (Z.of_nat <$> seq 0 (Z.to_nat kMaxQueuesPerPort))) by (apply NoDup_fmap; [exact Nat2Z.inj|apply NoDup_seq]).
    assert (Hi' : i ∈ Z.of_nat <$> seq 0 (Z.to_nat kMaxQueuesPerPort)) by (rewrite Hl; set_solver).
    apply list_elem_of_fmap in Hi' as (j & -> & Hj%elem_of_seq). apply reclaim_one_wp; [done| |done|unfold kMaxQueuesPerPort in *; lia].
    rewrite Hl in Hnd. apply NoDup_app in Hnd as (_ & Hd & _). intros Hin. apply (Hd _ Hin). by left.
  - intros a z' [Hi' Hat]. split; [done|]. intros _ p' q'. rewrite Hat. destruct (owner_at z p' q') as [b|] eqn:Hb; [|done]. cbn.
    rewrite (bool_decide_true (q' ∈ _)); [by rewrite andb_true_r|]. apply list_elem_of_fmap. exists (Z.to_nat q').
    unfold owner_at in Hb. destruct (zlookup (owner_ z) p') as [l|] eqn:Hl; [|done]. cbn in Hb.
    destruct (zlookup l q') as [o|] eqn:Ho; [|done]. apply zlookup_lt in Ho. rewrite (zi_qps _ Hi _ _ Hl) in Ho.
    split; [lia|]. apply elem_of_seq. lia.
Qed.

(** C33 (functional): what each operation on the shared zone does, for every
    caller. [get_qp] takes the lowest free queue pair of the port, unless a
    process with the caller's number but another random number holds one, or none
    is free; [free_qp] frees the caller's own queue pairs only, and says why not
    otherwise; the daemon frees exactly those whose owner is dead. Nobody's queue
    pair changes hands any other way. The zone's one counter is 16 minus the queue
    pairs in use over all ports, modulo 2^64: the number of available ones only
    while at most 16 are in use, since it starts at one port's number. *)
Theorem qp_ownership pid o z :
  zone_inv z -> zone_args o -> 0 < pid -> wp (run_zone pid o) (fun r z' => zone_inv z' /\ zone_post pid o z r z') z.
Proof.
  intros Hi Ha Hpid. destruct o as [p rand|p q|p]; cbn [run_zone zone_args] in *.
  - by apply get_qp_wp.
  - destruct Ha. by apply free_qp_wp.
  - wp_step. eapply wp_mono; [by apply (reclaim_wp pid)|]. intros a z' (? & H). wp_step. split; [done|apply H].
Qed.
End Reclaim.

Lemma zone_init_inv z : wp zone_init (fun _ => zone_inv) z.
Proof.
  unfold zone_init. wp_step. split; [done| |done]. rsimp. intros p l. unfold zlookup. case_match; [|done].
  intros Hl%lookup_replicate. by destruct Hl as [-> _].
Qed.

(** Two processes take queue pairs; the first one has died. *)
Definition ex_zone : Zone :=
  match (zone_init;; get_qp 7 0 33;; get_qp 8 0 33) (mkZone 0 0 []) with Ok _ z => z | Fail _ => mkZone 0 0 [] end.
Definition ex_kill_ok (pid : Z) : bool := negb (pid =? 7).
Lemma ex_zone_inv : zone_inv ex_zone.
Proof.
  assert (H : wp (zone_init;; get_qp 7 0 33;; get_qp 8 0 33) (fun _ => zone_inv) (mkZone 0 0 [])).
  { wp_step. eapply wp_mono; [apply zone_init_inv|]. intros a z Hz. wp_step.
    eapply wp_mono; [by apply (get_qp_wp ex_kill_ok)|]. intros r z1 [Hz1 _].
    eapply wp_mono; [by apply (get_qp_wp ex_kill_ok)|]. by intros r' z2 [Hz2 _]. }
  apply wp_run in H as (a & z & Hr & Hz). unfold ex_zone. rewrite Hr. exact Hz.
Qed.
Lemma qp_ownership_witness :
  owner_at ex_zone 0 0 = Some 7 /\ num_qps_available_ ex_zone = 14 /\
  wp (run_zone ex_kill_ok 1 (ZReclaim 0)) (fun r z' => zone_inv z' /\ zone_post ex_kill_ok 1 (ZReclaim 0) ex_zone r z') ex_zone.
Proof.
  split; [vm_compute; reflexivity|]. split; [vm_compute; reflexivity|].
  apply (qp_ownership ex_kill_ok eq_refl 1 (ZReclaim 0) ex_zone); [exact ex_zone_inv|split; [discriminate|reflexivity]|reflexivity].
Defined.
