(* ===== verification/Dpdk.v ===== *)
(** * The DPDK transport: [transport_impl/dpdk/dpdk_transport_datapath.cc], and
    the routing information of [dpdk_transport.cc]

    Frames are built in mbufs of a memory pool, sent in bursts; received mbufs
    are put in the Rpc's RX ring, and freed from there. The DPDK library is the
    class [Rte]; [RteOk] says what the code relies on. [kTesting] and [DEBUG] are
    off. *)
From S2P Require Import Prelude Config HugeAlloc PktHdr Msg SmTypes EthCommon DpdkOwner.

(** ** The library *)

(** An mbuf, with the bytes at its data pointer. *)
Record mbuf := mkMbuf { mb_ptr : Z; mb_nb_segs : Z; mb_pkt_len : Z; mb_data_len : Z; mb_data : list Z }.

Definition kNumTxRingDesc : Z := 128.
Definition kRxBatchSize : Z := 32.

(** The pool and the queue pair of this transport. [rte_softrss] is applied to
    source and destination address and port. *)
Class Rte := {
  Rn : Type;
  rte_pktmbuf_alloc : Rn -> option Z * Rn;
  rte_pktmbuf_free : Z -> Rn -> Rn;
  rte_eth_tx_burst : list mbuf -> Rn -> nat * Rn;
  rte_eth_rx_burst : nat -> Rn -> list Z * Rn;
  rte_mbuf_header : Z;                     (* sizeof(rte_mbuf) + RTE_PKTMBUF_HEADROOM *)
  rte_pktmbuf_mtod : Z -> Z;
  rte_softrss : Z -> Z -> Z -> Z -> Z;
}.
(** The frames on the wire, the received mbufs that are not freed yet, and a
    bound on the polls before the NIC takes a packet. *)
Class RteOk (R : Rte) := {
  rn_wire : Rn -> list mbuf;
  rn_held : Rn -> list Z;
  rn_wait : Rn -> nat;
  rn_patience : nat;
  rk_wait n : (rn_wait n <= rn_patience)%nat;
  rk_alloc n : let (_, n') := rte_pktmbuf_alloc n in rn_wire n' = rn_wire n /\ rn_held n' = rn_held n;
  rk_free m h1 h2 n : rn_held n = h1 ++ m :: h2 -> m ∉ h1 ->
    rn_held (rte_pktmbuf_free m n) = h1 ++ h2 /\ rn_wire (rte_pktmbuf_free m n) = rn_wire n;
  rk_tx l n : let (k, n') := rte_eth_tx_burst l n in
    (k <= length l)%nat /\ rn_wire n' = rn_wire n ++ take k l /\ rn_held n' = rn_held n /\
    (k = 0%nat -> l <> [] -> (rn_wait n' < rn_wait n)%nat);
  rk_rx k n : let (l, n') := rte_eth_rx_burst k n in
    (length l <= k)%nat /\ rn_held n' = rn_held n ++ l /\ rn_wire n' = rn_wire n;
  rk_mtod m : rte_pktmbuf_mtod m = m + rte_mbuf_header;
}.

(** ** State *)
Record dpdk_resolve := mkDpdkResolve { dr_ipv4_addr : Z; dr_mac_addr : list Z; dr_bandwidth : Z; dr_reta_size : Z }.

Record dpdk_item := mkDpdkItem {
  di_routing_info : routing_info_t; di_msg_buffer : MsgBuffer; di_pkt_idx : Z; di_drop : bool;
}.

Section Dpdk.
Context {R : Rte} {T : TTr}.

Record Dpdk := mkDpdk {
  dp_rx_ring : list Z;                     (* the Rpc's array *)
  dp_rx_ring_head : Z;
  dp_rx_ring_tail : Z;
  dp_rx_flow_udp_port : Z;
  dp_qp_id : Z;
  dp_resolve : dpdk_resolve;
  dp_tx_flush_count : Z;
  dp_mem : Mem;
  dp_rte : Rn;
}.
#[export] Instance eta_Dpdk : Eta Dpdk := fun d =>
  mkDpdk (dp_rx_ring d) (dp_rx_ring_head d) (dp_rx_ring_tail d) (dp_rx_flow_udp_port d) (dp_qp_id d)
    (dp_resolve d) (dp_tx_flush_count d) (dp_mem d) (dp_rte d).
Abbreviation MD := (M Dpdk).
Definition rte {A} (f : Rn -> A * Rn) : MD A := fun d => let (a, n) := f (dp_rte d) in Ok a (d <| dp_rte := n |>).

(** ** Transmission *)

(** [memcpy] or an assignment at [offset]. *)
Definition splice (offset : nat) (v bs : list Z) : list Z := take offset bs ++ v ++ drop (offset + length v) bs.

(** [format_pkthdr] on the headroom of the header at [pkthdr]; nothing that it
    writes before the assertion overlaps the checksum that is asserted. *)
Definition format_headroom (item : dpdk_item) (pkt_size : Z) (hr : list Z) : list Z :=
  let hr := splice 0 (take 40 (di_routing_info item)) hr in
  let hr := if kTesting && di_drop item then splice 0 (replicate 6 0) hr else hr in
  let hr := splice 16 (le_bytes 2 (htons (u16 (pkt_size - sizeof_eth)))) hr in
  let hr := splice 24 (le_bytes 2 (get_ipv4_checksum (ipv4_of (drop 14 hr)))) hr in
  splice 38 (le_bytes 2 (htons (u16 (pkt_size - sizeof_eth - sizeof_ipv4)))) hr.
Definition format_pkthdr (pkthdr : Z) (item : dpdk_item) (pkt_size : Z) : MD unit :=
  m ← gets dp_mem;
  assert_ (udp_check_ (udp_of (drop 34 (headroom_ (m_hdr m pkthdr)))) =? 0) "format_pkthdr: udp check";;
  modify (fun d => d <| dp_mem ::= upd_hdr pkthdr (fun h => h <| headroom_ ::= format_headroom item pkt_size |>) |>).

(** One turn of the loop; [tx_mbufs] has room for [kPostlist] pointers. *)
Definition dpdk_tx_item (i : Z) (item : dpdk_item) : MD mbuf :=
  let msg_buffer := di_msg_buffer item in
  tx_mbuf ← rte rte_pktmbuf_alloc;
  when (kPostlist <=? i) (fail (ENull "tx_mbufs"));;
  tx_mbuf ← match tx_mbuf with Some p => mret p | None => fail (EAssert "tx_burst: mbuf") end;
  if di_pkt_idx item =? 0 then
    let pkthdr := get_pkthdr_0 msg_buffer in
    let pkt_size := get_pkt_size msg_buffer 0 in
    format_pkthdr pkthdr item pkt_size;;
    m ← gets dp_mem;
    mret (mkMbuf tx_mbuf 1 pkt_size pkt_size
      (encode (m_hdr m pkthdr) ++ read_bytes m (pkthdr + sizeof_pkthdr) (pkt_size - sizeof_pkthdr)))
  else
    let pkthdr := get_pkthdr_n msg_buffer (di_pkt_idx item) in
    let pkt_size := get_pkt_size msg_buffer (di_pkt_idx item) in
    format_pkthdr pkthdr item pkt_size;;
    m ← gets dp_mem;
    mret (mkMbuf tx_mbuf 1 pkt_size pkt_size
      (encode (m_hdr m pkthdr)
       ++ read_bytes m (buf_ msg_buffer + u64 (di_pkt_idx item * kMaxDataPerPkt)) (pkt_size - sizeof_pkthdr))).
Fixpoint dpdk_tx_items (i : Z) (items : list dpdk_item) : MD (list mbuf) :=
  match items with
  | [] => mret []
  | item :: items => mb ← dpdk_tx_item i item; l ← dpdk_tx_items (i + 1) items; mret (mb :: l)
  end.
(** [rte_eth_tx_burst] until all are sent. *)
Fixpoint dpdk_tx_loop (fuel : nat) (tx_mbufs : list mbuf) : MD unit :=
  nb_tx_new ← rte (rte_eth_tx_burst tx_mbufs);
  if decide (nb_tx_new = length tx_mbufs) then mret tt
  else match fuel with O => fail EFuel | S fuel => dpdk_tx_loop fuel (drop nb_tx_new tx_mbufs) end.
Definition dpdk_tx_burst (fuel : nat) (tx_burst_arr : list dpdk_item) : MD unit :=
  tx_mbufs ← dpdk_tx_items 0 tx_burst_arr; dpdk_tx_loop fuel tx_mbufs.

Definition dpdk_tx_flush : MD unit := modify (fun d => d <| dp_tx_flush_count ::= fun c => u64 (c + 1) |>).

(** ** Reception *)
Definition dpdk_dtom (data : Z) : Z := data - rte_mbuf_header.
Definition pkt_free (mbuf : Z) : MD unit := rte (fun n => (tt, rte_pktmbuf_free mbuf n)).

Fixpoint drain_rx_queue (fuel : nat) : MD unit :=
  match fuel with
  | O => fail EFuel
  | S fuel =>
      rx_pkts ← rte (rte_eth_rx_burst (Z.to_nat kRxBatchSize));
      match rx_pkts with [] => mret tt | _ => miter pkt_free rx_pkts;; drain_rx_queue fuel end
  end.

Definition rx_one (rx_pkt : Z) : MD unit :=
  head ← gets dp_rx_ring_head;
  assert_ (dpdk_dtom (rte_pktmbuf_mtod rx_pkt) =? rx_pkt) "rx_burst: mbuf";;
  modify (fun d => d <| dp_rx_ring ::= zinsert head (rte_pktmbuf_mtod rx_pkt) |>
                     <| dp_rx_ring_head := (head + 1) mod kNumRxRingEntries |>).
Definition dpdk_rx_burst : MD Z :=
  rx_pkts ← rte (rte_eth_rx_burst (Z.to_nat kRxBatchSize));
  miter rx_one rx_pkts;;
  mret (zlength rx_pkts).

Definition post_one : MD unit :=
  d ← get;
  data ← deref (zlookup (dp_rx_ring d) (dp_rx_ring_tail d)) "rx_ring_";
  pkt_free (dpdk_dtom data);;
  modify (fun d => d <| dp_rx_ring_tail ::= fun t => (t + 1) mod kNumRxRingEntries |>).
Definition dpdk_post_recvs (num_recvs : nat) : MD unit := mrepeat num_recvs post_one.

(** ** Routing information *)
Definition dpdk_fill_local_routing_info : MD routing_info_t :=
  d ← get;
  let r := dp_resolve d in
  mret (eth_rinfo_bytes (mkEthRinfo (dr_mac_addr r) (dr_ipv4_addr r) (dp_rx_flow_udp_port d)
          (u16 (dp_qp_id d)) (u16 (dr_reta_size r)))
        ++ replicate 30 0).

(** The loop over UDP source ports; [None] when it ends without one. *)
Fixpoint scan_sport (n : nat) (i src_addr : Z) (ri : eth_routing_info_t) : option Z :=
  match n with
  | O => None
  | S n =>
      let rss_l3l4 := rte_softrss src_addr (er_ipv4_addr ri) i (er_udp_port ri) in
      if (rss_l3l4 mod er_reta_size ri) mod kMaxQueuesPerPort =? er_rxq_id ri then Some i
      else scan_sport n (i + 1) src_addr ri
  end.
Definition dpdk_resolve_remote_routing_info (routing_info : routing_info_t) : MD (bool * routing_info_t) :=
  d ← get;
  let r := dp_resolve d in
  let ri := eth_rinfo_of routing_info in
  assert_ (negb (er_reta_size ri =? 0)) "resolve_remote_routing_info: division by zero";;
  match scan_sport (Z.to_nat (65535 - kBaseEthUDPPort)) kBaseEthUDPPort (dr_ipv4_addr r) ri with
  | None => fail (EThrow "Scan error")
  | Some i =>
      mret (true,
        eth_bytes (gen_eth_header (dr_mac_addr r) (er_mac ri))
        ++ ipv4_bytes (gen_ipv4_header (dr_ipv4_addr r) (er_ipv4_addr ri) 0)
        ++ udp_bytes (gen_udp_header i (er_udp_port ri) 0)
        ++ drop 42 routing_info)
  end.
End Dpdk.
