(* ===== verification/DpdkProps.v ===== *)
(** * The DPDK transport is correct

    The frames that [tx_burst] puts on the wire, the RX ring as a queue of
    mbufs, and the routing information of the two ends of a session. *)
From S2P Require Import Prelude Config HugeAlloc PktHdr Msg SmTypes EthCommon DpdkOwner Dpdk.

#[local] Existing Instance Transports.DpdkTransport.

(** ** Headers *)

(** The bytes of a list of known length. *)
Tactic Notation "explode" integer(n) ident(l) := do n (destruct l as [|? l]; [done|]); destruct l; [|done].

(** The headroom that [format_pkthdr] leaves, from a route [ri] and the size of
    the packet. *)
Record headroom_ok (ri : list Z) (size : Z) (hr : list Z) : Prop := {
  ho_len : length hr = 42%nat;
  ho_bytes : Forall is_byte hr;
  ho_eth : eth_of hr = eth_of ri;
  ho_ipv4 : exists c, ipv4_of (drop 14 hr) = (ipv4_of (drop 14 ri)) <| tot_len_ := htons (size - 14) |> <| check_ := c |>;
  ho_check : oc_sum (be_words16 (take 20 (drop 14 hr))) = 65535;
  ho_udp : udp_of (drop 34 hr) = mkUdpHdr (src_port_ (udp_of (drop 34 ri))) (dst_port_ (udp_of (drop 34 ri))) (htons (size - 34)) 0;
}.

Lemma format_headroom_explicit item size hr :
  format_headroom item size hr =
  let r := splice 0 (take 40 (di_routing_info item)) hr in
  let r := splice 16 (le_bytes 2 (htons (u16 (size - 14)))) r in
  let r := splice 24 (le_bytes 2 (get_ipv4_checksum (ipv4_of (drop 14 r)))) r in
  splice 38 (le_bytes 2 (htons (u16 (size - 14 - 20)))) r.
Proof. reflexivity. Qed.

Lemma splice_length o v bs : (o + length v <= length bs)%nat -> length (splice o v bs) = length bs.
Proof. intros H. unfold splice. rewrite !length_app, length_take, length_drop. lia. Qed.
Lemma splice_bytes o v bs : Forall is_byte bs -> Forall is_byte v -> Forall is_byte (splice o v bs).
Proof. intros H1 H2. unfold splice. repeat apply Forall_app_2; auto using Forall_take, Forall_drop. Qed.

Lemma format_headroom_ok item size hr :
  length (di_routing_info item) = 48%nat -> Forall is_byte (di_routing_info item) ->
  length hr = 42%nat -> Forall is_byte hr -> drop 40 hr = [0; 0] -> 34 <= size < 2 ^ 16 ->
  headroom_ok (di_routing_info item) size (format_headroom item size hr) /\ drop 40 (format_headroom item size hr) = [0; 0].
Proof.
  intros Hl Hb Hlh Hbh Hz Hs. rewrite format_headroom_explicit. cbn zeta. rewrite !wrap_small by (unfold in_u; lia).
  replace (size - 14 - 20) with (size - 34) by lia.
  set (t := htons (size - 14)). set (u := htons (size - 34)). assert (Ht : in_u 16 t) by apply bswap_range. assert (Hu : in_u 16 u) by apply bswap_range.
  assert (Dt : htons (size - 14) = t) by reflexivity. assert (Du : htons (size - 34) = u) by reflexivity.
  assert (Htb : Forall is_byte (le_bytes 2 t)) by apply le_bytes_are_bytes.
  assert (Hub : Forall is_byte (le_bytes 2 u)) by apply le_bytes_are_bytes.
  rewrite <- (take_drop 40 (di_routing_info item)) in Hb |- *. apply Forall_app in Hb as [Hq Htl].
  rewrite <- (take_drop 40 hr) in Hbh |- *. rewrite Hz in Hbh |- *. apply Forall_app in Hbh as [Hp Hzb].
  assert (Hlq : length (take 40 (di_routing_info item)) = 40%nat) by (rewrite length_take; lia).
  assert (Hlp : length (take 40 hr) = 40%nat) by (rewrite length_take; lia).
  revert Hq Hlq Hp Hlp. generalize (take 40 (di_routing_info item)) as q, (take 40 hr) as p, (drop 40 (di_routing_info item)) as tl.
  intros q p tl Hq Hlq Hp Hlp. clear - Hq Hlq Hp Hlp Htb Hub Hzb Ht Hu Dt Du.
  explode 40 q. explode 40 p. clear Hlq Hlp.
  set (r1 := splice 0 _ _). set (r2 := splice 16 _ r1). set (c := get_ipv4_checksum (ipv4_of (drop 14 r2))).
  set (r3 := splice 24 _ r2). set (r4 := splice 38 _ r3).
  clearbody t u.
  assert (Hb2 : Forall is_byte r2).
  { unfold r2. apply splice_bytes; [|done]. unfold r1. apply splice_bytes; [by apply Forall_app|exact Hq]. }
  assert (Hw : ipv4_wf (ipv4_of (drop 14 r2))) by (by apply ipv4_of_wf, Forall_drop).
  pose proof (get_ipv4_checksum_range _ Hw : in_u 16 c) as Hc.
  pose proof (ipv4_checksum_ok _ Hw : oc_sum (be_words16 (ipv4_bytes ((ipv4_of (drop 14 r2)) <| check_ := c |>))) = 65535) as Hck.
  assert (Hb4 : Forall is_byte r4) by (apply splice_bytes; [apply splice_bytes; [exact Hb2|apply le_bytes_are_bytes]|done]).
  clearbody c.
  assert (Ec : le_val (le_bytes 2 c) = c) by (by apply le_val_bytes).
  assert (Et : le_val (le_bytes 2 t) = t) by (by apply le_val_bytes).
  assert (Eu : le_val (le_bytes 2 u) = u) by (by apply le_val_bytes).
  assert (F1 : ipv4_of (take 20 (drop 14 r4)) = (ipv4_of (drop 14 r2)) <| check_ := le_val (le_bytes 2 c) |>) by reflexivity.
  split; [|reflexivity]. split; [reflexivity|exact Hb4|reflexivity| | |].
  - exists c. rewrite Dt. set (ri := _ ++ tl).
    transitivity ((ipv4_of (drop 14 ri)) <| tot_len_ := le_val (le_bytes 2 t) |> <| check_ := le_val (le_bytes 2 c) |>);
      [reflexivity|by rewrite Et, Ec].
  - rewrite <- (ipv4_bytes_of (take 20 (drop 14 r4))), F1, Ec; [exact Hck|reflexivity|by apply Forall_take, Forall_drop].
  - rewrite Du. set (ri := _ ++ tl).
    transitivity (mkUdpHdr (src_port_ (udp_of (drop 34 ri))) (dst_port_ (udp_of (drop 34 ri))) (le_val (le_bytes 2 u)) 0);
      [reflexivity|by rewrite Eu].
Qed.

(** ** Transmission *)
Section Props.
Context {R : Rte} {ROk : RteOk R}.

(** A header that a message buffer got when it was allocated. *)
Definition hdr_ready (m : Mem) (a : Z) : Prop := pkthdr_wf (m_hdr m a) /\ drop 40 (headroom_ (m_hdr m a)) = [0; 0].
Definition item_addr (it : dpdk_item) : Z := get_pkthdr_n (di_msg_buffer it) (di_pkt_idx it).
Definition item_size (it : dpdk_item) : Z := get_pkt_size (di_msg_buffer it) (di_pkt_idx it).
Record item_ready (m : Mem) (it : dpdk_item) : Prop := {
  ir_route : length (di_routing_info it) = 48%nat;
  ir_bytes : Forall is_byte (di_routing_info it);
  ir_hdr : hdr_ready m (item_addr it);
  ir_size : sizeof_pkthdr <= item_size it <= kMTU;
  ir_idx : 0 <= di_pkt_idx it * kMaxDataPerPkt < 2 ^ 64;
}.
(** The mbuf of an item, by the memory before the call. *)
Record frame_ok (m : Mem) (it : dpdk_item) (b : mbuf) : Prop := {
  fo_segs : mb_nb_segs b = 1;
  fo_pkt_len : mb_pkt_len b = item_size it;
  fo_data_len : mb_data_len b = item_size it;
  fo_len : zlength (mb_data b) = item_size it;
  fo_hdr : exists hr, headroom_ok (di_routing_info it) (item_size it) hr /\
    decode (take 56 (mb_data b)) = (m_hdr m (item_addr it)) <| headroom_ := hr |>;
  fo_payload : drop 56 (mb_data b) = pkt_payload m (di_msg_buffer it) (di_pkt_idx it);
}.
(** Only headrooms change. *)
Definition reformatted (m m' : Mem) : Prop :=
  m_byte m' = m_byte m /\
  forall a, (exists hr, m_hdr m' a = (m_hdr m a) <| headroom_ := hr |>) /\ (hdr_ready m a -> hdr_ready m' a).
Lemma reformatted_refl m : reformatted m m.
Proof. split; [done|]. intros a. split; [|done]. exists (headroom_ (m_hdr m a)). by destruct (m_hdr m a). Qed.
Lemma reformatted_trans m1 m2 m3 : reformatted m1 m2 -> reformatted m2 m3 -> reformatted m1 m3.
Proof.
  intros [B1 H1] [B2 H2]. split; [congruence|]. intros a. destruct (H1 a) as [[h1 E1] R1], (H2 a) as [[h2 E2] R2].
  split; [exists h2; by rewrite E2, E1|auto].
Qed.
Lemma pkthdr_wf_headroom (h : pkthdr_t) hr :
  pkthdr_wf h -> length hr = 42%nat -> Forall is_byte hr -> pkthdr_wf (h <| headroom_ := hr |>).
Proof. intros [] Hl Hb. constructor; rsimp; try done. unfold zlength. by rewrite Hl. Qed.

Lemma reformat_one m it :
  item_ready m it ->
  let m' := upd_hdr (item_addr it) (fun h => h <| headroom_ ::= format_headroom it (item_size it) |>) m in
  reformatted m m' /\ exists hr, m_hdr m' (item_addr it) = (m_hdr m (item_addr it)) <| headroom_ := hr |> /\
    headroom_ok (di_routing_info it) (item_size it) hr.
Proof.
  intros [Hl Hb [Hw Hz] Hs _] m'. set (a := item_addr it) in *. set (h := m_hdr m a) in *.
  assert (Hl42 : length (headroom_ h) = 42%nat).
  { pose proof (hw_headroom h Hw) as H. unfold zlength in H. change (kHeadroom + 2) with 42 in H. lia. }
  destruct (format_headroom_ok it (item_size it) (headroom_ h)) as [Hok Hz']; [done..|apply Hw|done| |].
  { change sizeof_pkthdr with 56 in Hs. change kMTU with 1024 in Hs. lia. }
  assert (Hat : forall x, m_hdr m' x = if x =? a then h <| headroom_ ::= format_headroom it (item_size it) |> else m_hdr m x).
  { intros x. unfold m', upd_hdr, write_hdr. done. }
  split.
  - split; [done|]. intros x. rewrite Hat. unfold hdr_ready. rewrite !Hat. destruct (Z.eqb_spec x a) as [->|Hx].
    + split; [by eexists|]. intros _. split; [|done]. apply pkthdr_wf_headroom; [done|apply Hok..].
    + split; [|done]. exists (headroom_ (m_hdr m x)). by destruct (m_hdr m x).
  - eexists. rewrite Hat, Z.eqb_refl. split; [reflexivity|done].
Qed.
Lemma item_ready_reformat m m' it : reformatted m m' -> item_ready m it -> item_ready m' it.
Proof. intros [_ H] []. split; try done. by apply H. Qed.
Lemma pkt_payload_reformat m m' mb i : reformatted m m' -> pkt_payload m' mb i = pkt_payload m mb i.
Proof. intros [Hb _]. unfold pkt_payload. apply read_bytes_ext. intros. by rewrite Hb. Qed.
Lemma frame_ok_reformat m m' it b : reformatted m m' -> frame_ok m' it b -> frame_ok m it b.
Proof.
  intros Hr [H1 H2 H3 H4 (hr & H5 & H6) H7]. split; try done.
  - exists hr. split; [done|]. rewrite H6. destruct Hr as [_ Hr]. destruct (Hr (item_addr it)) as [[hr' ->] _]. done.
  - rewrite H7. by apply pkt_payload_reformat.
Qed.

(** The bytes that are copied into an mbuf make up the frame. *)
Lemma frame_data m it p :
  item_ready m it ->
  let m' := upd_hdr (item_addr it) (fun h => h <| headroom_ ::= format_headroom it (item_size it) |>) m in
  frame_ok m it (mkMbuf p 1 (item_size it) (item_size it)
    (encode (m_hdr m' (item_addr it)) ++ pkt_payload m' (di_msg_buffer it) (di_pkt_idx it))).
Proof.
  intros Hit m'. destruct (reformat_one m it Hit) as (Hr & hr & Eh & Hok). fold m' in Hr, Eh.
  destruct Hit as [_ _ [Hw _] Hs _]. rewrite Eh. set (h := (m_hdr m (item_addr it)) <| headroom_ := hr |>).
  assert (Hwh : pkthdr_wf h) by (apply pkthdr_wf_headroom; [done|apply Hok..]).
  pose proof (length_encode h Hwh) as Hle. change sizeof_pkthdr with 56 in *. unfold zlength in Hle.
  assert (Hlp : zlength (pkt_payload m' (di_msg_buffer it) (di_pkt_idx it)) = item_size it - 56) by (apply length_read_bytes; lia).
  split; try done; rsimp; cbn [mb_data].
  - rewrite zlength_app, Hlp. unfold zlength. lia.
  - exists hr. split; [done|]. rewrite (take_app_length' (encode h)) by lia. by apply decode_encode.
  - rewrite (drop_app_length' (encode h)) by lia. by apply pkt_payload_reformat.
Qed.

(** The only failure is an exhausted pool. *)
Definition no_mbuf (e : err) : Prop := e = EAssert "tx_burst: mbuf".
(** The library's state as the frames and the held mbufs tell it. *)
Definition rn_same (n n' : Rn) : Prop := rn_wire n' = rn_wire n /\ rn_held n' = rn_held n.
Record tx_same (d d' : Dpdk) : Prop := {
  xs_mem : reformatted (dp_mem d) (dp_mem d');
  xs_rest : d' = d <| dp_mem := dp_mem d' |> <| dp_rte := dp_rte d' |>;
  xs_rte : rn_same (dp_rte d) (dp_rte d');
}.
Lemma udp_check_zero hr : drop 40 hr = [0; 0] -> udp_check_ (udp_of (drop 34 hr)) = 0.
Proof. intros H. cbn [udp_of udp_check_]. unfold field. rewrite drop_drop. change (34 + 6)%nat with 40%nat. by rewrite H. Qed.

Lemma dpdk_tx_item_wp i it d :
  item_ready (dp_mem d) it -> i < kPostlist ->
  wpe no_mbuf (dpdk_tx_item i it) (fun b d' => tx_same d d' /\ frame_ok (dp_mem d) it b) d.
Proof.
  intros Hit Hi. unfold dpdk_tx_item. wp_step. unfold rte, wpe at 1. pose proof (rk_alloc (dp_rte d)) as Ha.
  destruct (rte_pktmbuf_alloc (dp_rte d)) as [o n]. wp_step. rewrite (proj2 (Z.leb_gt _ _)) by lia. apply wp_ret. wp_step. destruct o as [p|]; [|by apply wp_fail]. wp_step.
  set (d1 := update dp_rte _ d). set (m' := upd_hdr (item_addr it) (fun h => h <| headroom_ ::= format_headroom it (item_size it) |>) (dp_mem d)).
  assert (Hf : forall (k : M Dpdk mbuf) Q, wpe no_mbuf k Q (d1 <| dp_mem := m' |>) ->
    wpe no_mbuf (format_pkthdr (item_addr it) it (item_size it);; k) Q d1).
  { intros k Q HQ. unfold format_pkthdr. do 5 wp_step.
    - destruct (ir_hdr _ _ Hit) as [_ Hz]. apply Z.eqb_eq. by apply udp_check_zero.
    - wp_step. exact HQ. }
  assert (Hpost : tx_same d (d1 <| dp_mem := m' |>)).
  { split; [apply (reformat_one (dp_mem d) it Hit)|reflexivity|done]. }
  pose proof (frame_data (dp_mem d) it p Hit) as Hfr. cbv zeta in Hfr. fold m' in Hfr.
  wp_step.
  - apply Z.eqb_eq in H.
    assert (Ea : get_pkthdr_0 (di_msg_buffer it) = item_addr it) by (unfold item_addr, get_pkthdr_n; by rewrite H).
    assert (Es : get_pkt_size (di_msg_buffer it) 0 = item_size it) by (unfold item_size; by rewrite H).
    rewrite Ea, Es. apply Hf. do 3 wp_step. split; [done|].
    replace (read_bytes _ _ _) with (pkt_payload m' (di_msg_buffer it) (di_pkt_idx it)); [exact Hfr|].
    unfold pkt_payload. rewrite H. fold (item_size it). rewrite Es. f_equal. rewrite <- Ea. unfold get_pkthdr_0. lia.
  - apply Hf. do 3 wp_step. split; [done|].
    replace (read_bytes _ _ _) with (pkt_payload m' (di_msg_buffer it) (di_pkt_idx it)); [exact Hfr|].
    unfold pkt_payload. rewrite wrap_small by apply Hit. done.
Qed.
Lemma tx_same_trans d1 d2 d3 : tx_same d1 d2 -> tx_same d2 d3 -> tx_same d1 d3.
Proof.
  intros [M1 E1 [R1 H1]] [M2 E2 [R2 H2]]. split; [by eapply reformatted_trans| |split; congruence].
  rewrite E2, E1. reflexivity.
Qed.
Lemma dpdk_tx_items_wp i items d :
  Forall (item_ready (dp_mem d)) items -> i + zlength items <= kPostlist ->
  wpe no_mbuf (dpdk_tx_items i items) (fun l d' => tx_same d d' /\ Forall2 (frame_ok (dp_mem d)) items l) d.
Proof.
  revert i d. induction items as [|it items IH]; intros i d Hit Hlen; cbn [dpdk_tx_items].
  - wp_step. split; [|constructor]. split; [apply reformatted_refl| |done]. by destruct d.
  - apply Forall_cons in Hit as [H1 H2]. unfold zlength in *. cbn [length] in Hlen. wp_step.
    eapply wp_mono; [apply dpdk_tx_item_wp; [done|lia]|]. intros b d1 [Hs Hf]. wp_step.
    eapply wp_mono; [apply IH|].
    { eapply Forall_impl; [exact H2|]. intros it' ?. by eapply item_ready_reformat; [apply Hs|]. }
    { lia. }
    intros l d2 [Hs2 Hl]. wp_step. split; [by eapply tx_same_trans|]. constructor; [done|].
    eapply Forall2_impl; [exact Hl|]. intros it' b' ?. by eapply frame_ok_reformat; [apply Hs|].
Qed.
(** Every poll sends a packet or shortens the wait for one. *)
Lemma dpdk_tx_loop_wp E fuel l d :
  (length l * S rn_patience + rn_wait (dp_rte d) <= fuel)%nat ->
  wpe E (dpdk_tx_loop fuel l) (fun _ d' => d' = d <| dp_rte := dp_rte d' |> /\
    rn_wire (dp_rte d') = rn_wire (dp_rte d) ++ l /\ rn_held (dp_rte d') = rn_held (dp_rte d)) d.
Proof.
  revert l d. induction fuel as [|fuel IH]; intros l d Hf; cbn [dpdk_tx_loop]; wp_step; unfold rte, wpe at 1;
    pose proof (rk_tx l (dp_rte d)) as Ht; destruct (rte_eth_tx_burst l (dp_rte d)) as [k n]; destruct Ht as (Hk & Hw & Hh & Hz).
  - destruct l as [|b l]; [|cbn in Hf; lia]. cbn in Hk. replace k with 0%nat by lia. rewrite decide_True by done. wp_step.
    split; [done|]. split; [|exact Hh]. rsimp. rewrite Hw. by destruct k.
  - case_decide as E1; [wp_step; subst k; rewrite firstn_all in Hw; by split_and!|].
    pose proof (rk_wait n) as Hwt. eapply wp_mono; [apply IH|].
    + rsimp. rewrite length_drop. destruct (decide (k = 0%nat)) as [->|Hk0]; [|nia].
      destruct l as [|b l]; [done|]. specialize (Hz eq_refl ltac:(done)). cbn [length] in *. nia.
    + intros a d' (H1 & H2 & H3). rewrite H1. rsimp. rsimp in H2. rsimp in H3. rewrite H2, H3, Hw, Hh, <- app_assoc, take_drop. done.
Qed.

(** C34 (functional): [tx_burst] sends one mbuf for each item, in order, retrying
    until the NIC has taken all of them: the frame is exactly as long as the mbuf
    says and the UDP and IP lengths say; its Ethernet, IP and UDP addresses are
    those of the session's route; the IP checksum is valid; the eRPC header and
    the payload are the message buffer's. Nothing else of the memory changes but
    headrooms. It fails only when the mbuf pool is exhausted. The burst has at most
    [kPostlist] items, the size of the array [tx_mbufs]: the Rpc's batch never
    has more. The fuel of the retry loop is one that the NIC's patience bounds. *)
Theorem dpdk_tx_burst_correct fuel items d :
  Forall (item_ready (dp_mem d)) items -> zlength items <= kPostlist ->
  (length items * S rn_patience + rn_patience <= fuel)%nat ->
  wpe no_mbuf (dpdk_tx_burst fuel items) (fun _ d' => exists frames,
    Forall2 (frame_ok (dp_mem d)) items frames /\
    rn_wire (dp_rte d') = rn_wire (dp_rte d) ++ frames /\ rn_held (dp_rte d') = rn_held (dp_rte d) /\
    reformatted (dp_mem d) (dp_mem d') /\ d' = d <| dp_mem := dp_mem d' |> <| dp_rte := dp_rte d' |>) d.
Proof.
  intros Hit Hn Hf. unfold dpdk_tx_burst. wp_step. eapply wp_mono; [by apply dpdk_tx_items_wp|].
  intros l d1 [[Hm Hr [Hw Hh]] Hl]. pose proof (Forall2_length _ _ _ Hl) as Hlen. pose proof (rk_wait (dp_rte d1)).
  eapply wp_mono; [apply dpdk_tx_loop_wp; rewrite <- Hlen; lia|].
  intros a d' (H1 & H2 & H3). exists l. split; [done|]. rewrite H2, H3, Hw, Hh. split; [done|]. split; [done|].
  rewrite H1. rsimp. split; [done|]. by rewrite Hr.
Qed.

(** ** The RX ring *)

(** The mbufs that were received and not posted again lie in the ring from the
    tail to the head. *)
Record ring_ptrs (q : list Z) (d : Dpdk) : Prop := {
  rh_len : zlength (dp_rx_ring d) = kNumRxRingEntries;
  rh_tail : 0 <= dp_rx_ring_tail d < kNumRxRingEntries;
  rh_head : dp_rx_ring_head d = (dp_rx_ring_tail d + zlength q) mod kNumRxRingEntries;
  rh_fit : zlength q <= kNumRxRingEntries;
  rh_at i m : q !! i = Some m ->
    zlookup (dp_rx_ring d) ((dp_rx_ring_tail d + Z.of_nat i) mod kNumRxRingEntries) = Some (rte_pktmbuf_mtod m);
}.
Definition ring_holds (q : list Z) (d : Dpdk) : Prop := ring_ptrs q d /\ rn_held (dp_rte d) = q.
Lemma dtom_mtod m : dpdk_dtom (rte_pktmbuf_mtod m) = m.
Proof. unfold dpdk_dtom. rewrite rk_mtod. lia. Qed.

Lemma rx_one_wp E q m d :
  ring_ptrs q d -> zlength q < kNumRxRingEntries ->
  wpe E (rx_one m) (fun _ d' => dp_rte d' = dp_rte d /\ ring_ptrs (q ++ [m]) d') d.
Proof.
  intros [Hl Ht Hh Hf Hat] Hlt. unfold rx_one. do 4 wp_step.
  { apply Z.eqb_eq, dtom_mtod. }
  wp_step. split; [done|]. assert (Hp : 0 < kNumRxRingEntries) by done. pose proof (zlength_nonneg q) as Hq0.
  split; rsimp; try done.
  - by rewrite zlength_zinsert.
  - rewrite Hh, zlength_app, Z.add_mod_idemp_l by lia. f_equal. change (zlength [m]) with 1. lia.
  - rewrite zlength_app. change (zlength [m]) with 1. lia.
  - intros i x Hx. destruct (decide (i < length q)%nat) as [Hi|Hi].
    + rewrite lookup_app_l in Hx by done. rewrite zlookup_zinsert_ne; [by apply Hat|]. rewrite Hh. unfold zlength in *.
      set (t := dp_rx_ring_tail d) in *. intros E1. change kNumRxRingEntries with 4096 in *.
      Z.to_euclidean_division_equations; lia.
    + rewrite lookup_app_r in Hx by lia. destruct (i - length q)%nat as [|j] eqn:Hj; [|done]. injection Hx as <-.
      replace (Z.of_nat i) with (zlength q) by (unfold zlength; lia). rewrite <- Hh. apply zlookup_zinsert_eq.
      rewrite Hl, Hh. by apply Z.mod_pos_bound.
Qed.
Lemma ring_ptrs_rte q d n : ring_ptrs q d -> ring_ptrs q (d <| dp_rte := n |>).
Proof. by intros []. Qed.
Lemma dpdk_rx_burst_wp E q d :
  ring_holds q d -> zlength q + kRxBatchSize <= kNumRxRingEntries ->
  wpe E dpdk_rx_burst (fun k d' => exists new, k = zlength new /\ k <= kRxBatchSize /\ ring_holds (q ++ new) d' /\
    rn_wire (dp_rte d') = rn_wire (dp_rte d)) d.
Proof.
  intros [Hp Hq] Hfit. unfold dpdk_rx_burst. wp_step. unfold rte, wpe at 1.
  pose proof (rk_rx (Z.to_nat kRxBatchSize) (dp_rte d)) as Hr. destruct (rte_eth_rx_burst _ _) as [new n]. destruct Hr as (Hl & Hh & Hw).
  change (Z.to_nat kRxBatchSize) with 32%nat in Hl. change kRxBatchSize with 32 in *. wp_step.
  eapply wp_mono; [apply (wp_miter _ (fun done_ d' => dp_rte d' = n /\ ring_ptrs (q ++ done_) d'))|].
  - split; [done|]. rewrite app_nil_r. by apply ring_ptrs_rte.
  - intros done_ m todo d' Hnew [Hn Hpt]. eapply wp_mono; [apply (rx_one_wp E (q ++ done_)); [done|]|].
    + rewrite Hnew, length_app in Hl. cbn in Hl. rewrite zlength_app. unfold zlength at 2. lia.
    + intros a d2 [E1 H2]. split; [congruence|]. by rewrite app_assoc.
  - intros a d' [E1 Hpt]. wp_step. exists new. split; [done|]. split; [unfold zlength; lia|].
    unfold ring_holds. rewrite E1, Hh, Hq, Hw. by split_and!.
Qed.
Lemma post_one_wp E m q d :
  ring_holds (m :: q) d ->
  wpe E post_one (fun _ d' => ring_holds q d' /\ rn_wire (dp_rte d') = rn_wire (dp_rte d)) d.
Proof.
  intros [[Hl Ht Hh Hf Hat] Hq]. unfold post_one. do 3 wp_step.
  pose proof (Hat 0%nat m eq_refl) as Hm. rewrite Z.add_0_r, Z.mod_small in Hm by done. eapply wp_deref; [exact Hm|].
  rewrite dtom_mtod. wp_step. unfold pkt_free, rte, wpe at 1. wp_step. rsimp.
  destruct (rk_free m [] q (dp_rte d) Hq ltac:(set_solver)) as [Hh' Hw']. split; [split; [|done]|done]. assert (Hp : 0 < kNumRxRingEntries) by done.
  unfold zlength in Hf, Hh. cbn [length] in Hf, Hh. split; rsimp; try done.
  - by apply Z.mod_pos_bound.
  - rewrite Hh, Z.add_mod_idemp_l by lia. f_equal. unfold zlength. lia.
  - unfold zlength. lia.
  - intros i x Hx. rewrite Z.add_mod_idemp_l by lia.
    replace (dp_rx_ring_tail d + 1 + Z.of_nat i) with (dp_rx_ring_tail d + Z.of_nat (S i)) by lia. by apply (Hat (S i)).
Qed.
Lemma dpdk_post_recvs_wp E k q d :
  ring_holds q d -> (k <= length q)%nat ->
  wpe E (dpdk_post_recvs k) (fun _ d' => ring_holds (drop k q) d' /\ rn_wire (dp_rte d') = rn_wire (dp_rte d)) d.
Proof.
  intros Hq Hk. unfold dpdk_post_recvs.
  apply (wp_mrepeat _ (fun i d' => ring_holds (drop i q) d' /\ rn_wire (dp_rte d') = rn_wire (dp_rte d))); [by rewrite drop_0|].
  intros i d' Hi [Hr Hw]. destruct (drop i q) as [|m q'] eqn:Hd; [by apply (f_equal length) in Hd; rewrite length_drop in Hd; cbn in Hd; lia|].
  eapply wp_mono; [by apply (post_one_wp E m q')|]. intros a d2 [H1 H2].
  replace (drop (S i) q) with q'; [split; [done|congruence]|].
  change (S i) with (1 + i)%nat. rewrite Nat.add_comm, <- drop_drop, Hd. done.
Qed.

(** C35 (invariant): the RX ring is a queue of the mbufs that the Rpc still
    reads: [rx_burst] appends what the NIC received, at most 32, [post_recvs]
    frees the oldest ones, each once, and the indices wrap around the 4096
    entries without one entry being overwritten. *)
Theorem dpdk_rx_ring_fifo q d :
  ring_holds q d ->
  (zlength q + kRxBatchSize <= kNumRxRingEntries ->
    wp dpdk_rx_burst (fun k d' => exists new, k = zlength new /\ k <= kRxBatchSize /\ ring_holds (q ++ new) d' /\
      rn_wire (dp_rte d') = rn_wire (dp_rte d)) d) /\
  (forall k, (k <= length q)%nat ->
    wp (dpdk_post_recvs k) (fun _ d' => ring_holds (drop k q) d' /\ rn_wire (dp_rte d') = rn_wire (dp_rte d)) d).
Proof. intros Hq. split; [by apply dpdk_rx_burst_wp|]. intros k Hk. by apply dpdk_post_recvs_wp. Qed.

(** ** Routing information *)
Lemma scan_sport_spec n i src ri :
  match scan_sport n i src ri with
  | Some j => i <= j < i + Z.of_nat n /\ (rte_softrss src (er_ipv4_addr ri) j (er_udp_port ri) mod er_reta_size ri) mod kMaxQueuesPerPort = er_rxq_id ri
  | None => forall j, i <= j < i + Z.of_nat n ->
      (rte_softrss src (er_ipv4_addr ri) j (er_udp_port ri) mod er_reta_size ri) mod kMaxQueuesPerPort <> er_rxq_id ri
  end.
Proof.
  revert i. induction n as [|n IH]; intros i; cbn [scan_sport]; [intros j; lia|].
  destruct (Z.eqb_spec ((rte_softrss src (er_ipv4_addr ri) i (er_udp_port ri) mod er_reta_size ri) mod kMaxQueuesPerPort) (er_rxq_id ri)) as [E|E].
  - split; [lia|done].
  - specialize (IH (i + 1)). destruct (scan_sport n (i + 1) src ri).
    + destruct IH. split; [lia|done].
    + intros j Hj. destruct (decide (j = i)) as [->|]; [done|]. apply IH. lia.
Qed.
(** A resolved port. *)
Record local_ok (d : Dpdk) : Prop := {
  lo_mac : length (dr_mac_addr (dp_resolve d)) = 6%nat;
  lo_mac_bytes : Forall is_byte (dr_mac_addr (dp_resolve d));
  lo_ipv4 : in_u 32 (dr_ipv4_addr (dp_resolve d));
  lo_port : in_u 16 (dp_rx_flow_udp_port d);
  lo_qp : 0 <= dp_qp_id d < kMaxQueuesPerPort;
  lo_reta : 0 < dr_reta_size (dp_resolve d) < 2 ^ 16;
}.
Definition local_rinfo (d : Dpdk) : eth_routing_info_t :=
  mkEthRinfo (dr_mac_addr (dp_resolve d)) (dr_ipv4_addr (dp_resolve d)) (dp_rx_flow_udp_port d) (dp_qp_id d) (dr_reta_size (dp_resolve d)).
Lemma eth_rinfo_of_bytes r rest :
  length (er_mac r) = 6%nat -> in_u 32 (er_ipv4_addr r) -> in_u 16 (er_udp_port r) -> in_u 16 (er_rxq_id r) ->
  in_u 16 (er_reta_size r) -> eth_rinfo_of (eth_rinfo_bytes r ++ rest) = r.
Proof.
  intros Hm H1 H2 H3 H4. destruct r as [mac ip port rxq reta]; cbn [er_mac er_ipv4_addr er_udp_port er_rxq_id er_reta_size] in *.
  explode 6 mac. unfold eth_rinfo_of. set (bs := eth_rinfo_bytes _ ++ rest).
  change (field bs 8 4) with (le_val (le_bytes 4 ip)). change (field bs 12 2) with (le_val (le_bytes 2 port)).
  change (field bs 14 2) with (le_val (le_bytes 2 rxq)). change (field bs 16 2) with (le_val (le_bytes 2 reta)).
  rewrite !le_val_bytes by done. reflexivity.
Qed.
Lemma fill_local_ok d :
  local_ok d -> dpdk_fill_local_routing_info d = Ok (eth_rinfo_bytes (local_rinfo d) ++ replicate 30 0) d.
Proof.
  intros []. unfold dpdk_fill_local_routing_info, local_rinfo. unfold kMaxQueuesPerPort in *.
  assert (E1 : u16 (dp_qp_id d) = dp_qp_id d) by (apply wrap_small; unfold in_u; lia).
  assert (E2 : u16 (dr_reta_size (dp_resolve d)) = dr_reta_size (dp_resolve d)) by (apply wrap_small; unfold in_u; lia).
  transitivity (Ok (eth_rinfo_bytes (mkEthRinfo (dr_mac_addr (dp_resolve d)) (dr_ipv4_addr (dp_resolve d)) (dp_rx_flow_udp_port d)
    (u16 (dp_qp_id d)) (u16 (dr_reta_size (dp_resolve d)))) ++ replicate 30 0) d); [reflexivity|by rewrite E1, E2].
Qed.

(** A's view of the way to B, through the UDP source port [sport]. *)
Definition lands (a b : Dpdk) (sport : Z) : Prop :=
  (rte_softrss (dr_ipv4_addr (dp_resolve a)) (dr_ipv4_addr (dp_resolve b)) sport (dp_rx_flow_udp_port b)
     mod dr_reta_size (dp_resolve b)) mod kMaxQueuesPerPort = dp_qp_id b.
Record route (a b : Dpdk) (ri : list Z) : Prop := {
  rt_len : length ri = 48%nat;
  rt_bytes : Forall is_byte ri;
  rt_eth : eth_of ri = gen_eth_header (dr_mac_addr (dp_resolve a)) (dr_mac_addr (dp_resolve b));
  rt_ipv4 : ipv4_of (drop 14 ri) = gen_ipv4_header (dr_ipv4_addr (dp_resolve a)) (dr_ipv4_addr (dp_resolve b)) 0;
  rt_udp : exists sport, kBaseEthUDPPort <= sport < 65535 /\ lands a b sport /\
    udp_of (drop 34 ri) = gen_udp_header sport (dp_rx_flow_udp_port b) 0;
}.
Lemma gen_ipv4_wf src dst : ipv4_wf (gen_ipv4_header src dst 0).
Proof.
  constructor; cbn [gen_ipv4_header ihl_ version_ ecn_ dscp_ tot_len_ id_ frag_off_ ttl_ protocol_ check_ src_ip_ dst_ip_];
    try exact (bswap_range 2 _); try exact (bswap_range 4 _); done.
Qed.
Lemma route_ok a b sport tl :
  local_ok a -> local_ok b -> kBaseEthUDPPort <= sport < 65535 -> lands a b sport -> length tl = 6%nat -> Forall is_byte tl ->
  route a b (eth_bytes (gen_eth_header (dr_mac_addr (dp_resolve a)) (dr_mac_addr (dp_resolve b)))
    ++ ipv4_bytes (gen_ipv4_header (dr_ipv4_addr (dp_resolve a)) (dr_ipv4_addr (dp_resolve b)) 0)
    ++ udp_bytes (gen_udp_header sport (dp_rx_flow_udp_port b) 0) ++ tl).
Proof.
  intros Ha Hb Hs Hl Htl Htb. set (e := eth_bytes _). set (p := ipv4_bytes _). set (u := udp_bytes _).
  pose proof (gen_ipv4_wf (dr_ipv4_addr (dp_resolve a)) (dr_ipv4_addr (dp_resolve b))) as Hw.
  assert (He : length e = 14%nat).
  { unfold e, eth_bytes. rewrite !length_app, length_le_bytes. cbn [dst_mac_ src_mac_ gen_eth_header]. by rewrite (lo_mac _ Ha), (lo_mac _ Hb). }
  assert (Hp : length p = 20%nat) by reflexivity. assert (Hu : length u = 8%nat) by reflexivity.
  split.
  - rewrite !length_app. lia.
  - apply Forall_app_2; [|apply Forall_app_2; [by apply ipv4_bytes_are_bytes|apply Forall_app_2; [|exact Htb]]].
    + apply Forall_app_2; [apply Hb|apply Forall_app_2; [apply Ha|apply le_bytes_are_bytes]].
    + repeat apply Forall_app_2; apply le_bytes_are_bytes.
  - apply eth_of_bytes; [apply Hb|apply Ha|exact (bswap_range 2 _)].
  - rewrite (drop_app_length' e) by done. by apply ipv4_of_bytes.
  - exists sport. split; [done|]. split; [done|]. change 34%nat with (14 + 20)%nat.
    rewrite <- drop_drop, (drop_app_length' e), (drop_app_length' p) by done.
    apply udp_of_bytes; try exact (bswap_range 2 _). done.
Qed.

(** C36 (roundtrip): the routing information that B sends of itself during the
    handshake is turned by A, in place, into the headers of a frame from A's to
    B's addresses and to B's UDP port, with a source port for which B's NIC
    hashes the frame to B's own receive queue; resolution throws only if there is
    no such port. *)
Theorem dpdk_route_resolved a b :
  local_ok a -> local_ok b -> exists ri, dpdk_fill_local_routing_info b = Ok ri b /\ length ri = 48%nat /\
    match dpdk_resolve_remote_routing_info ri a with
    | Ok (ok, ri') a' => ok = true /\ a' = a /\ route a b ri'
    | Fail e => e = EThrow "Scan error" /\ forall sport, kBaseEthUDPPort <= sport < 65535 -> ~ lands a b sport
    end.
Proof.
  intros Ha Hb. exists (eth_rinfo_bytes (local_rinfo b) ++ replicate 30 0). split; [by apply fill_local_ok|].
  assert (Hri : eth_rinfo_of (eth_rinfo_bytes (local_rinfo b) ++ replicate 30 0) = local_rinfo b).
  { destruct Hb. apply eth_rinfo_of_bytes; try done; cbn; unfold in_u, kMaxQueuesPerPort in *; lia. }
  set (ri := eth_rinfo_bytes _ ++ _) in *. assert (Hlen : length ri = 48%nat).
  { unfold ri, eth_rinfo_bytes. rewrite !length_app. cbn [local_rinfo er_mac]. by rewrite (lo_mac _ Hb). }
  assert (Htl : Forall is_byte (drop 42 ri)).
  { apply Forall_drop. unfold ri. apply Forall_app_2; [|by apply Forall_replicate].
    unfold eth_rinfo_bytes. repeat apply Forall_app_2; [apply (lo_mac_bytes _ Hb)|by repeat constructor|apply le_bytes_are_bytes..]. }
  split; [exact Hlen|]. apply wp_match. unfold dpdk_resolve_remote_routing_info. do 2 wp_step. rewrite Hri.
  do 2 wp_step. { destruct Hb. apply negb_true_iff, Z.eqb_neq. cbn. lia. }
  pose proof (scan_sport_spec (Z.to_nat (65535 - kBaseEthUDPPort)) kBaseEthUDPPort (dr_ipv4_addr (dp_resolve a)) (local_rinfo b)) as Hsc.
  assert (Hto : Z.of_nat (Z.to_nat (65535 - kBaseEthUDPPort)) = 55535) by reflexivity. rewrite Hto in Hsc.
  clear Hto Hri. clearbody ri. revert Hsc.
  generalize (scan_sport (Z.to_nat (65535 - kBaseEthUDPPort)) kBaseEthUDPPort (dr_ipv4_addr (dp_resolve a)) (local_rinfo b)).
  intros [sport|] Hsc.
  - destruct Hsc as [Hr Hh]. wp_step. split; [reflexivity|]. split; [reflexivity|].
    apply (route_ok a b sport (drop 42 ri)); [exact Ha|exact Hb| |exact Hh| |exact Htl].
    + unfold kBaseEthUDPPort in *. lia.
    + rewrite length_drop, Hlen. reflexivity.
  - apply wp_fail. split; [reflexivity|]. intros sport Hs. apply Hsc. unfold kBaseEthUDPPort in *. lia.
Qed.
End Props.
