(* ===== verification/DpdkNew.v ===== *)
(** * The DPDK transport's construction and destruction: [dpdk_transport.cc],
    [dpdk_init.cc], [dpdk_externs.cc]

    The globals that the transports of a process share, the queue pair that a
    transport owns while it lives, the set-up of a port with its queues and
    memory pools, and the resolution of the port's addresses. [Eal] is the DPDK
    library beyond the datapath. Log messages are left out. *)
From S2P Require Import Prelude Config HugeAlloc PktHdr Msg Uri SmTypes Timer EthCommon DpdkOwner Dpdk.

(** ** The library *)
Record dev_info_t := mkDevInfo { dv_driver_name : string; dv_reta_size : Z; dv_rx_nb_max : Z; dv_tx_nb_max : Z }.
(** [link_status == ETH_LINK_UP], and [link_speed] in Mbps, 0 when unknown. *)
Record eth_link_t := mkEthLink { lk_up : bool; lk_speed : Z }.

Class Eal (R : Rte) := {
  rte_eal_init : Rn -> Z * Rn;
  rte_eal_is_primary : Rn -> bool;
  rte_memzone_lookup : Rn -> option (Zone * list eth_link_t);    (* the daemon's [link_] *)
  rte_mempool_lookup : string -> Rn -> option Z;
  rte_pktmbuf_pool_create : string -> Z -> Z -> Z -> Rn -> option Z * Rn;
  rte_eth_dev_count_avail : Rn -> Z;
  rte_eth_macaddr_get : Z -> Rn -> list Z;
  rte_eth_dev_info_get : Z -> Rn -> dev_info_t;
  rte_eth_link_get : Z -> Rn -> eth_link_t;
  rte_eth_dev_configure : Z -> Z -> Z -> Rn -> Z * Rn;
  rte_eth_rx_queue_setup : Z -> Z -> Z -> Z -> Z -> Rn -> Z * Rn;
  rte_eth_tx_queue_setup : Z -> Z -> Z -> Z -> Rn -> Z * Rn;
  rte_eth_dev_start : Z -> Rn -> Rn;
  ioctl_eth1_addr : Rn -> option Z * Rn;
  RTE_MEMPOOL_NAMESIZE : Z;
  RTE_MAX_ETHPORTS : Z;
}.

(** ** State *)

(** The globals of [dpdk_externs.cc]; a lock that is held is never released by
    another thread of the model. *)
Record DpdkGlobals := mkGlobals {
  g_dpdk_lock : bool;
  g_dpdk_initialized : bool;
  g_port_initialized : list bool;
  g_memzone : option (Zone * list eth_link_t);
}.
#[export] Instance eta_Globals : Eta DpdkGlobals := fun g =>
  mkGlobals (g_dpdk_lock g) (g_dpdk_initialized g) (g_port_initialized g) (g_memzone g).

Section New.
Context {R : Rte} {E : Eal R} {T : TTr}.
Variable kIsAzure : bool.
Variable my_pid : Z.                       (* getpid() *)

Record DN := mkDN {
  dn_globals : DpdkGlobals;
  dn_primary : bool;                       (* dpdk_proc_type_ == kPrimary *)
  dn_mempool : option Z;
  dn_t : Dpdk;
}.
#[export] Instance eta_DN : Eta DN := fun d => mkDN (dn_globals d) (dn_primary d) (dn_mempool d) (dn_t d).
Abbreviation MN := (M DN).
Definition nic (d : DN) : Rn := dp_rte (dn_t d).
Definition eal {A} (f : Rn -> A * Rn) : MN A := zoom dn_t (fun t d => d <| dn_t := t |>) (rte f).
Definition globals (f : DpdkGlobals -> DpdkGlobals) : MN unit := modify (fun d => d <| dn_globals ::= f |>).
Definition in_zone {A} (m : M Zone A) : MN A := fun d =>
  match g_memzone (dn_globals d) with
  | None => Fail (ENull "g_memzone")
  | Some (z, links) =>
      match m z with
      | Ok a z' => Ok a (d <| dn_globals ::= fun g => g <| g_memzone := Some (z', links) |> |>)
      | Fail e => Fail e
      end
  end.

(** ** dpdk_init.cc *)
Definition kNumMbufs : Z := kNumRxRingEntries * 2 - 1.
Definition kMbufSize : Z := rte_mbuf_header + 2048.
Definition get_mempool_name (phy_port qp_id : Z) : MN string :=
  let ret := "erpc-mp-" +:+ to_string phy_port +:+ "-" +:+ to_string qp_id in
  rt_assert (Z.of_nat (String.length ret) <? RTE_MEMPOOL_NAMESIZE) "Mempool name too long";;
  mret ret.

Definition setup_queue (phy_port numa_node i : Z) : MN unit :=
  pname ← get_mempool_name phy_port i;
  mempool ← eal (rte_pktmbuf_pool_create pname kNumMbufs kMbufSize numa_node);
  mempool ← match mempool with Some p => mret p | None => fail (EThrow "Mempool create failed") end;
  ret ← eal (rte_eth_rx_queue_setup phy_port i kNumRxRingEntries numa_node mempool);
  rt_assert (ret =? 0) "Failed to setup RX queue";;
  ret ← eal (rte_eth_tx_queue_setup phy_port i kNumTxRingDesc numa_node);
  rt_assert (ret =? 0) "Failed to setup TX queue".
Definition setup_phy_port (phy_port numa_node : Z) : MN unit :=
  num_ports ← gets (fun d => rte_eth_dev_count_avail (nic d));
  when (num_ports <=? phy_port) (rt_assert false "");;
  dev_info ← gets (fun d => rte_eth_dev_info_get phy_port (nic d));
  rt_assert (kNumRxRingEntries <=? dv_rx_nb_max dev_info) "Device RX ring too small";;
  rt_assert (kNumTxRingDesc <=? dv_tx_nb_max dev_info) "Device TX ring too small";;
  ret ← eal (rte_eth_dev_configure phy_port kMaxQueuesPerPort kMaxQueuesPerPort);
  rt_assert (ret =? 0) "Ethdev configuration error";;
  miter (setup_queue phy_port numa_node) (Z.of_nat <$> seq 0 (Z.to_nat kMaxQueuesPerPort));;
  eal (fun n => (tt, rte_eth_dev_start phy_port n)).

(** ** Port resolution *)
Definition get_port_ipv4_addr (phy_port : Z) : MN Z :=
  if kIsAzure then
    o ← eal ioctl_eth1_addr;
    match o with Some a => mret (htonl a) | None => fail (EThrow "DPDK: Failed to get IPv4 address of eth1") end
  else
    mac ← gets (fun d => rte_eth_macaddr_get phy_port (nic d));
    mret (le_val (take 4 (drop 2 mac))).

Definition resolve_reta_size (dev_info : dev_info_t) : MN Z :=
  let drv_name := dv_driver_name dev_info in
  rt_assert (bool_decide (drv_name = "net_mlx4") || bool_decide (drv_name = "net_mlx5") || bool_decide (drv_name = "mlx5_pci"))
    "eRPC supports only mlx4 or mlx5 devices with DPDK";;
  if bool_decide (drv_name = "net_mlx4") then
    rt_assert (dv_reta_size dev_info =? 0) "Unexpected RETA size for MLX4 NIC (expected zero)";;
    mret 128
  else
    rt_assert (kMaxQueuesPerPort <=? dv_reta_size dev_info) "Too few entries in NIC RSS indirection table";;
    mret (dv_reta_size dev_info).
(** In bytes per second. *)
Definition link_bandwidth (speed : Z) : option Z :=
  if negb (speed =? 0) then to_size (fdiv (of_size (u64 (u64 (speed * 1000) * 1000))) (of_size 8))
  else to_size (fdiv (fmul (of_size 10) (of_size (1000 * 1000 * 1000))) (of_size 8)).
(** In a secondary process, what the daemon has stored. *)
Definition resolve_link (phy_port : Z) : MN eth_link_t :=
  primary ← gets dn_primary;
  if (primary : bool) then
    link ← gets (fun d => rte_eth_link_get phy_port (nic d));
    rt_assert (lk_up link) "Port is down.";;
    mret link
  else
    z ← gets (fun d => g_memzone (dn_globals d));
    z ← deref z "g_memzone";
    deref (zlookup z.2 phy_port) "link_".
Definition resolve_phy_port (phy_port : Z) : MN unit :=
  mac ← gets (fun d => rte_eth_macaddr_get phy_port (nic d));
  ipv4_addr ← get_port_ipv4_addr phy_port;
  dev_info ← gets (fun d => rte_eth_dev_info_get phy_port (nic d));
  reta_size ← resolve_reta_size dev_info;
  link ← resolve_link phy_port;
  when (negb (lk_speed link =? 0)) (rt_assert (10000 <=? lk_speed link) "Link too slow");;
  bandwidth ← deref (link_bandwidth (lk_speed link)) "double to size_t";
  modify (fun d => d <| dn_t ::= fun t => t <| dp_resolve := mkDpdkResolve ipv4_addr mac bandwidth reta_size |> |>).

(** ** Construction *)
Definition lock : MN unit :=
  g ← gets dn_globals;
  if g_dpdk_lock g then fail EFuel else globals (fun g => g <| g_dpdk_lock := true |>).
Definition unlock : MN unit := globals (fun g => g <| g_dpdk_lock := false |>).

(** The first transport of the process initializes the library, and finds the
    zone of the daemon or makes one for this process. *)
Definition init_eal (phy_port : Z) : MN unit :=
  ret ← eal rte_eal_init;
  rt_assert (0 <=? ret) "Failed to initialize DPDK";;
  modify (fun d => d <| dn_primary := rte_eal_is_primary (nic d) |>);;
  primary ← gets dn_primary;
  (if (primary : bool) then
     globals (fun g => g <| g_memzone := Some (mkZone 0 0 [], replicate (Z.to_nat kMaxPhyPorts) (mkEthLink false 0)) |>);;
     in_zone zone_init
   else
     o ← gets (fun d => rte_memzone_lookup (nic d));
     match o with
     | None => fail (EThrow "exit")
     | Some z =>
         globals (fun g => g <| g_memzone := Some z |>);;
         globals (fun g => g <| g_port_initialized ::= zinsert phy_port true |>)
     end);;
  globals (fun g => g <| g_dpdk_initialized := true |>).
Definition find_mempool (pname what : string) : MN unit :=
  o ← gets (fun d => rte_mempool_lookup pname (nic d));
  rt_assert (bool_decide (o <> None)) what;;
  modify (fun d => d <| dn_mempool := o |>).

(** The memory pool of the queue pair: the daemon's, with the packets of its last
    owner dropped, or one of this process, which first sets the port up. *)
Definition acquire_mempool (fuel : nat) (phy_port numa_node : Z) (mempool_name : string) : MN unit :=
  primary ← gets dn_primary;
  if negb primary then
    find_mempool mempool_name "Failed to find eRPC DPDK daemon's mempool";;
    zoom dn_t (fun t d => d <| dn_t := t |>) (drain_rx_queue fuel)
  else
    g ← gets dn_globals;
    initialized ← deref (zlookup (g_port_initialized g) phy_port) "g_port_initialized";
    when (negb initialized) (
      globals (fun g => g <| g_port_initialized ::= zinsert phy_port true |>);;
      setup_phy_port phy_port numa_node);;
    find_mempool mempool_name "Failed to find self's mempool".

Definition DpdkTransport_new (fuel : nat) (phy_port numa_node : Z) : MN unit :=
  lock;;
  g ← gets dn_globals;
  (if g_dpdk_initialized g then modify (fun d => d <| dn_primary := rte_eal_is_primary (nic d) |>)
   else init_eal phy_port);;
  qp_id ← in_zone (get_qp my_pid phy_port 33);
  modify (fun d => d <| dn_t ::= fun t => t <| dp_qp_id := qp_id |> |>);;
  rt_assert (negb (qp_id =? kInvalidQpId)) "Failed to get DPDK QP";;
  modify (fun d => d <| dn_t ::= fun t => t <| dp_rx_flow_udp_port := u16 (kBaseEthUDPPort + qp_id) |> |>);;
  mempool_name ← get_mempool_name phy_port qp_id;
  acquire_mempool fuel phy_port numa_node mempool_name;;
  unlock;;
  resolve_phy_port phy_port.

(** ** Destruction *)
Definition DpdkTransport_delete (fuel : nat) (phy_port : Z) : MN unit :=
  zoom dn_t (fun t d => d <| dn_t := t |>) (drain_rx_queue fuel);;
  qp_id ← gets (fun d => dp_qp_id (dn_t d));
  ret ← in_zone (free_qp my_pid phy_port qp_id);
  rt_assert (ret =? 0) "Failed to free QP".
End New.
