(* ===== verification/DpdkNewProps.v ===== *)
(** * DPDK transports own their queue pairs

    Construction takes a free queue pair of the shared zone and resolves the
    port, destruction gives the queue pair back. *)
From S2P Require Import Prelude Config HugeAlloc PktHdr Msg Uri SmTypes Timer EthCommon DpdkOwner Dpdk DpdkProps DpdkNew.

(** The speeds that DPDK defines, 0 for an unknown one. *)
Definition eth_speeds : list Z := [0; 10; 100; 1000; 2500; 5000; 10000; 20000; 25000; 40000; 50000; 56000; 100000; 200000].
Definition links_ok (links : list eth_link_t) : Prop :=
  zlength links = kMaxPhyPorts /\ Forall (fun k => lk_speed k ∈ eth_speeds) links.
(** What the code relies on: addresses and sizes have the widths of their types,
    a receive queue is empty after [eo_backlog] polls. *)
Class EalOk {R : Rte} (E : Eal R) := {
  eo_backlog : Rn -> nat;
  eo_max : nat;
  eo_bound n : (eo_backlog n <= eo_max)%nat;
  eo_rx k n : (0 < k)%nat -> let (l, n') := rte_eth_rx_burst k n in l = [] \/ (eo_backlog n' < eo_backlog n)%nat;
  eo_free m n : eo_backlog (rte_pktmbuf_free m n) = eo_backlog n;
  eo_mac p n : length (rte_eth_macaddr_get p n) = 6%nat /\ Forall is_byte (rte_eth_macaddr_get p n);
  eo_reta p n : in_u 16 (dv_reta_size (rte_eth_dev_info_get p n));
  eo_speed p n : lk_speed (rte_eth_link_get p n) ∈ eth_speeds;
  eo_memzone z links n : rte_memzone_lookup n = Some (z, links) -> zone_inv z /\ links_ok links;
  eo_ports : kMaxPhyPorts <= RTE_MAX_ETHPORTS;
}.

Section Props.
Context {R : Rte} {E : Eal R} {EOk : EalOk E} {T : TTr}.
Variable kIsAzure : bool.
Variable my_pid : Z.
Hypothesis pid_pos : 0 < my_pid.
Implicit Types d : DN.

(** ** Frames *)

(** Only the NIC changes. *)
Definition nic_only d d' : Prop := d' = d <| dn_t := (dn_t d) <| dp_rte := nic d' |> |>.
#[local] Instance nic_only_preorder : PreOrder nic_only.
Proof. split; [by intros [? ? ? []]|]. intros [? ? ? []] [? ? ? []] [? ? ? []]; unfold nic_only, nic, update; cbn. intros [=] [=]. by subst. Qed.

Lemma eal_wp {A} (ER : err -> Prop) (f : Rn -> A * Rn) (Q : A -> DN -> Prop) d :
  (forall d', nic_only d d' -> nic d' = (f (nic d)).2 -> Q (f (nic d)).1 d') -> wpe ER (eal f) Q d.
Proof.
  intros HQ. unfold eal, zoom, rte, wpe. specialize (HQ (d <| dn_t := (dn_t d) <| dp_rte := (f (nic d)).2 |> |>)).
  unfold nic in *. destruct (f (dp_rte (dn_t d))) as [a n]. by apply HQ.
Qed.
Lemma dpdk_drain_wp ER fuel (t : Dpdk) :
  (eo_max < fuel)%nat -> wpe ER (drain_rx_queue fuel) (fun _ t' => t' = t <| dp_rte := dp_rte t' |>) t.
Proof.
  intros Hf. assert (Hb : (eo_backlog (dp_rte t) < fuel)%nat) by (pose proof (eo_bound (dp_rte t)); lia). clear Hf.
  revert t Hb. induction fuel as [|fuel IH]; intros t Hb; [lia|]. cbn [drain_rx_queue]. wp_step. unfold rte at 1, wpe at 1.
  pose proof (eo_rx (Z.to_nat kRxBatchSize) (dp_rte t) ltac:(unfold kRxBatchSize; lia)) as Hrx.
  destruct (rte_eth_rx_burst _ _) as [[|m l] n]; [by wp_step|]. cbv beta iota in Hrx. destruct Hrx as [Hrx|Hrx]; [discriminate Hrx|].
  assert (Hfree : forall ms t1, wpe ER (miter pkt_free ms) (fun _ t' => t' = t1 <| dp_rte := dp_rte t' |> /\
    eo_backlog (dp_rte t') = eo_backlog (dp_rte t1)) t1).
  { induction ms as [|m' ms IHm]; intros t1; cbn [miter]; [wp_step; split; [by destruct t1|done]|].
    wp_step. unfold pkt_free, rte, wpe at 1. eapply wp_mono; [apply IHm|]. intros ? t' [Ht Hl]. rsimp in Hl. rewrite eo_free in Hl.
    split; [|done]. rewrite Ht. by destruct t1. }
  wp_step. eapply wp_mono; [apply Hfree|]. intros ? t1 [Ht Hl]. rsimp in Hl. eapply wp_mono; [apply IH; lia|]. intros ? t' Ht'.
  rewrite Ht', Ht. by destruct t.
Qed.
Lemma zoom_drain_wp ER fuel d :
  (eo_max < fuel)%nat -> wpe ER (zoom dn_t (fun t d => d <| dn_t := t |>) (drain_rx_queue fuel)) (fun _ => nic_only d) d.
Proof.
  intros Hf. apply wp_zoom. eapply wp_mono; [by apply dpdk_drain_wp|]. intros ? t' Ht. unfold nic_only, nic. rewrite Ht. by destruct d as [? ? ? []].
Qed.

(** What the NIC's calls leave alone. *)
Record kept d d' : Prop := {
  kp_globals : dn_globals d' = dn_globals d;
  kp_primary : dn_primary d' = dn_primary d;
  kp_qp : dp_qp_id (dn_t d') = dp_qp_id (dn_t d);
  kp_port : dp_rx_flow_udp_port (dn_t d') = dp_rx_flow_udp_port (dn_t d);
}.
Lemma nic_only_kept d d' : nic_only d d' -> kept d d' /\ dn_mempool d' = dn_mempool d.
Proof. intros ->. by split. Qed.

Lemma get_mempool_name_wp p q (Q : string -> DN -> Prop) d :
  (forall s, Q s d) -> wpt (get_mempool_name p q) Q d.
Proof. intros HQ. unfold get_mempool_name. wp_step. wp_step; [done|]. by wp_step. Qed.
Lemma setup_queue_wp p numa i d : wpt (setup_queue p numa i) (fun _ => nic_only d) d.
Proof.
  unfold setup_queue. wp_step. apply get_mempool_name_wp. intros pname. wp_step. apply eal_wp. intros d1 N1 _. wp_step.
  destruct (rte_pktmbuf_pool_create _ _ _ _ _) as [[pool|] ?]; cbn [fst]; [wp_step|by apply wp_fail].
  wp_step. apply eal_wp. intros d2 N2 _. wp_step. wp_step; [done|]. wp_step. apply eal_wp. intros d3 N3 _. wp_step; [done|].
  by rewrite N1, N2.
Qed.
Lemma setup_phy_port_wp p numa d : wpt (setup_phy_port p numa) (fun _ => nic_only d) d.
Proof.
  unfold setup_phy_port. wp_step. wp_step. wp_step. wp_step; [by apply wp_fail|]. wp_step. wp_step. wp_step. wp_step; [done|].
  wp_step. wp_step; [done|]. wp_step. apply eal_wp. intros d1 N1 _. wp_step. wp_step; [done|]. wp_step.
  eapply wp_mono; [apply (wp_miter _ (fun _ => nic_only d)); [exact N1|]|].
  - intros ? i ? d2 _ N2. eapply wp_mono; [apply setup_queue_wp|]. intros ? d3 N3. by rewrite N2.
  - intros ? d2 N2. apply eal_wp. intros d3 N3 _. by rewrite N2.
Qed.

(** ** Port resolution *)
Record resolved (r : dpdk_resolve) : Prop := {
  rv_mac : length (dr_mac_addr r) = 6%nat;
  rv_mac_bytes : Forall is_byte (dr_mac_addr r);
  rv_ipv4 : in_u 32 (dr_ipv4_addr r);
  rv_reta : 0 < dr_reta_size r < 2 ^ 16;
  rv_bandwidth : 0 <= dr_bandwidth r < 2 ^ 64;
}.
Lemma get_port_ipv4_addr_wp p (Q : Z -> DN -> Prop) d :
  (forall a d', nic_only d d' -> in_u 32 a -> Q a d') -> wpt (get_port_ipv4_addr kIsAzure p) Q d.
Proof.
  intros HQ. unfold get_port_ipv4_addr. wp_step.
  - wp_step. apply eal_wp. intros d1 N1 _. destruct (ioctl_eth1_addr (nic d)).1 as [a|] eqn:Ea; [|by apply wp_fail].
    wp_step. apply HQ; [done|]. exact (bswap_range 4 a).
  - wp_step. wp_step. wp_step. apply HQ; [done|]. destruct (eo_mac p (nic d)) as [Hl Hb].
    set (m := take 4 _). assert (Hm : length m = 4%nat) by (unfold m; rewrite length_take, length_drop; lia).
    assert (Hbm : Forall is_byte m) by (by apply Forall_take, Forall_drop). pose proof (le_val_range m Hbm) as Hr.
    by rewrite Hm in Hr.
Qed.
Lemma resolve_reta_size_wp i (Q : Z -> DN -> Prop) d :
  in_u 16 (dv_reta_size i) -> (forall n, 0 < n < 2 ^ 16 -> Q n d) -> wpt (resolve_reta_size i) Q d.
Proof.
  intros Hi HQ. unfold resolve_reta_size. wp_step. wp_step; [done|]. wp_step; wp_step; (wp_step; [done|]); wp_step; apply HQ; [lia|].
  unfold in_u, kMaxQueuesPerPort in *. lia.
Qed.
Lemma link_bandwidth_ok s : s ∈ eth_speeds -> exists b, link_bandwidth s = Some b /\ 0 <= b < 2 ^ 64.
Proof.
  intros Hs. assert (Hall : Forall (fun s => match link_bandwidth s with Some b => (0 <=? b) && (b <? 2 ^ 64) = true | None => False end) eth_speeds).
  { repeat (apply Forall_cons; split; [vm_compute; reflexivity|]). by apply Forall_nil. }
  rewrite Forall_forall in Hall. specialize (Hall s Hs). destruct (link_bandwidth s) as [b|]; [|done]. exists b. split; [done|lia].
Qed.
(** The zone that the globals point to. *)
Definition zone_at d (z : Zone) (links : list eth_link_t) : Prop := g_memzone (dn_globals d) = Some (z, links) /\ links_ok links.
Lemma resolve_link_wp p z links (Q : eth_link_t -> DN -> Prop) d :
  zone_at d z links -> 0 <= p < kMaxPhyPorts -> (forall k, lk_speed k ∈ eth_speeds -> Q k d) -> wpt (resolve_link p) Q d.
Proof.
  intros [Hz [Hl Hk]] Hp HQ. unfold resolve_link. wp_step. wp_step. wp_step.
  - wp_step. wp_step. wp_step. wp_step; [done|]. wp_step. apply HQ, eo_speed.
  - wp_step. wp_step. wp_step. eapply wp_deref; [exact Hz|]. rewrite <- Hl in Hp. destruct (zlookup_is_Some _ _ Hp) as [k Hx].
    eapply wp_deref; [exact Hx|]. apply HQ. rewrite Forall_forall in Hk. apply Hk. unfold zlookup in Hx. case_match; [|done].
    by eapply list_elem_of_lookup_2.
Qed.
Lemma resolve_phy_port_wp p z links d :
  zone_at d z links -> 0 <= p < kMaxPhyPorts ->
  wpt (resolve_phy_port kIsAzure p) (fun _ d' => kept d d' /\ dn_mempool d' = dn_mempool d /\ resolved (dp_resolve (dn_t d'))) d.
Proof.
  intros Hz Hp. unfold resolve_phy_port. wp_step. wp_step. wp_step. apply get_port_ipv4_addr_wp. intros a d1 N1 Ha.
  destruct (eo_mac p (nic d)) as [Hm Hmb]. apply nic_only_kept in N1 as [K1 M1].
  assert (Hz1 : zone_at d1 z links) by (unfold zone_at; by rewrite (kp_globals _ _ K1)).
  wp_step. wp_step. wp_step. apply resolve_reta_size_wp; [apply eo_reta|]. intros reta Hreta.
  wp_step. eapply resolve_link_wp; [exact Hz1|done|]. intros k Hk. wp_step.
  destruct (link_bandwidth_ok _ Hk) as (b & Eb & Hb).
  wp_step; [wp_step; [done|]|]; wp_step; (eapply wp_deref; [exact Eb|]); wp_step;
    (split; [by destruct K1|split; [done|]]); by constructor.
Qed.

(** ** Construction *)

(** The globals between constructions. *)
Record globals_ok d : Prop := {
  go_lock : g_dpdk_lock (dn_globals d) = false;
  go_zone : g_dpdk_initialized (dn_globals d) = true -> exists z links, zone_at d z links /\ zone_inv z;
  go_ports : zlength (g_port_initialized (dn_globals d)) = RTE_MAX_ETHPORTS;
}.
Lemma globals_wp ER f (Q : unit -> DN -> Prop) d : Q tt (d <| dn_globals ::= f |>) -> wpe ER (globals f) Q d.
Proof. intros H. unfold globals. by wp_step. Qed.
Lemma in_zone_wp {A} ER (m : M Zone A) z links (Q : A -> DN -> Prop) d :
  g_memzone (dn_globals d) = Some (z, links) ->
  wpe ER m (fun a z' => Q a (d <| dn_globals ::= fun g => g <| g_memzone := Some (z', links) |> |>)) z ->
  wpe ER (in_zone m) Q d.
Proof. intros Hz Hm. unfold in_zone, wpe in *. rewrite Hz. by destruct (m z). Qed.

Lemma new_links_ok : links_ok (replicate (Z.to_nat kMaxPhyPorts) (mkEthLink false 0)).
Proof. split; [done|]. apply Forall_replicate. by left. Qed.
Lemma init_eal_wp p d :
  zlength (g_port_initialized (dn_globals d)) = RTE_MAX_ETHPORTS ->
  wpt (init_eal p) (fun _ d' => exists z links, zone_at d' z links /\ zone_inv z /\
    g_dpdk_lock (dn_globals d') = g_dpdk_lock (dn_globals d) /\ g_dpdk_initialized (dn_globals d') = true /\
    zlength (g_port_initialized (dn_globals d')) = RTE_MAX_ETHPORTS) d.
Proof.
  intros Hp. unfold init_eal. wp_step. apply eal_wp. intros d1 N1 _. apply nic_only_kept in N1 as [[Kg _ _ _] _].
  wp_step. wp_step; [done|]. wp_step. wp_step. wp_step. wp_step. rsimp. wp_step. wp_step.
  - wp_step. apply globals_wp. eapply in_zone_wp; [reflexivity|]. pose proof (zone_init_inv (mkZone 0 0 [])) as Hi.
    unfold wpe in *. destruct (zone_init _) as [u z|]; [|done]. eapply globals_wp. exists z, (replicate (Z.to_nat kMaxPhyPorts) (mkEthLink false 0)).
    split; [split; [done|apply new_links_ok]|]. split; [done|]. rsimp. by rewrite Kg.
  - wp_step. wp_step. rsimp. destruct (rte_memzone_lookup _) as [[z links]|] eqn:Em; [|by apply wp_fail].
    destruct (eo_memzone z links _ Em) as [Hz Hl]. wp_step. apply globals_wp. apply globals_wp. apply globals_wp.
    exists z, links. split; [done|]. split; [done|]. rsimp. by rewrite zlength_zinsert, Kg.
Qed.
Lemma find_mempool_wp pname what (Q : unit -> DN -> Prop) d :
  (forall m, rte_mempool_lookup pname (nic d) = Some m -> Q tt (d <| dn_mempool := Some m |>)) -> wpt (find_mempool pname what) Q d.
Proof.
  intros HQ. unfold find_mempool. wp_step. wp_step. wp_step. wp_step; [done|]. apply bool_decide_eq_true in H.
  wp_step. destruct (rte_mempool_lookup pname (nic d)) as [m|]; [by apply HQ|done].
Qed.

(** What the constructor has acquired on port [p], from the zone [z0]. *)
Record acquired (p : Z) (z0 : Zone) d' : Prop := {
  ac_globals : globals_ok d';
  ac_init : g_dpdk_initialized (dn_globals d') = true;
  ac_qp : 0 <= dp_qp_id (dn_t d') < kMaxQueuesPerPort;
  ac_free : owner_at z0 p (dp_qp_id (dn_t d')) = Some 0;
  ac_zone : exists z' links, zone_at d' z' links /\ zone_inv z' /\
    forall p' q', owner_at z' p' q' = set_at z0 p (dp_qp_id (dn_t d')) my_pid p' q';
  ac_port : dp_rx_flow_udp_port (dn_t d') = kBaseEthUDPPort + dp_qp_id (dn_t d');
  ac_mempool : dn_mempool d' <> None;
  ac_local : local_ok (dn_t d');
}.
(** The state after [get_qp] has returned [q]. *)
Record reserved (p q : Z) (z0 : Zone) d' : Prop := {
  rd_init : g_dpdk_initialized (dn_globals d') = true;
  rd_ports : zlength (g_port_initialized (dn_globals d')) = RTE_MAX_ETHPORTS;
  rd_range : 0 <= q < kMaxQueuesPerPort;
  rd_free : owner_at z0 p q = Some 0;
  rd_zone : exists z' links, zone_at d' z' links /\ zone_inv z' /\ forall p' q', owner_at z' p' q' = set_at z0 p q my_pid p' q';
  rd_qp : dp_qp_id (dn_t d') = q;
  rd_port : dp_rx_flow_udp_port (dn_t d') = kBaseEthUDPPort + q;
}.
Lemma reserved_kept p q z0 d d' : reserved p q z0 d -> kept d d' -> reserved p q z0 d'.
Proof. intros [] [Kg _ Kq Kp]. split; rewrite ?Kg, ?Kq, ?Kp; try done. by unfold zone_at; rewrite Kg. Qed.

Lemma acquire_mempool_wp fuel p numa q z0 pname d :
  (eo_max < fuel)%nat -> 0 <= p < kMaxPhyPorts -> reserved p q z0 d ->
  wpt (acquire_mempool fuel p numa pname)
    (fun _ d' => reserved p q z0 d' /\ dn_mempool d' <> None) d.
Proof.
  intros Hf Hp Hr. unfold acquire_mempool. wp_step. wp_step. wp_step.
  - wp_step. apply find_mempool_wp. intros m _. eapply wp_mono; [by apply zoom_drain_wp|]. intros ? d' [K M]%nic_only_kept.
    rsimp in M. split; [|by rewrite M]. eapply reserved_kept; [|exact K]. by destruct Hr.
  - wp_step. wp_step. wp_step. destruct (zlookup_is_Some (g_port_initialized (dn_globals d)) p) as [b Hb].
    { rewrite (rd_ports _ _ _ _ Hr). pose proof eo_ports. lia. }
    eapply wp_deref; [exact Hb|]. wp_step.
    assert (Hfind : forall d', reserved p q z0 d' -> wpt (find_mempool pname "Failed to find self's mempool")
      (fun _ d' => reserved p q z0 d' /\ dn_mempool d' <> None) d').
    { intros d' Hr'. apply find_mempool_wp. intros m _. split; [by destruct Hr'|done]. }
    wp_step; [|by apply Hfind]. wp_step. apply globals_wp. eapply wp_mono; [apply setup_phy_port_wp|].
    intros ? d' [K M]%nic_only_kept. apply Hfind. eapply reserved_kept; [|exact K].
    destruct Hr. split; rsimp; try done. by rewrite zlength_zinsert.
Qed.
Lemma get_qp_phase_wp p z links (Q : unit -> DN -> Prop) d k :
  zone_at d z links -> zone_inv z -> 0 <= p < kMaxPhyPorts ->
  g_dpdk_initialized (dn_globals d) = true -> zlength (g_port_initialized (dn_globals d)) = RTE_MAX_ETHPORTS ->
  (forall q d', reserved p q z d' -> wpt (k q) Q d') ->
  wpt (qp_id ← in_zone (get_qp my_pid p 33);
       modify (fun d => d <| dn_t ::= fun t => t <| dp_qp_id := qp_id |> |>);;
       rt_assert (negb (qp_id =? kInvalidQpId)) "Failed to get DPDK QP";;
       modify (fun d => d <| dn_t ::= fun t => t <| dp_rx_flow_udp_port := u16 (kBaseEthUDPPort + qp_id) |> |>);;
       k qp_id) Q d.
Proof.
  intros [Hz Hl] Hi Hp Hd Hg HQ. wp_step. eapply in_zone_wp; [exact Hz|]. pose proof (get_qp_wp (fun _ => true) my_pid p 33 z Hi Hp pid_pos) as Hw.
  unfold wpe in Hw. unfold wpe at 1. destruct (get_qp my_pid p 33 z) as [q z'|]; [|done]. destruct Hw as [Hi' Hpost].
  wp_step. wp_step. wp_step. wp_step; [done|]. apply negb_true_iff, Z.eqb_neq in H. destruct Hpost as [[-> _]|(_ & Hq & Hfree & _ & Hown)]; [done|].
  wp_step. wp_step. apply HQ. assert (Hu : u16 (kBaseEthUDPPort + q) = kBaseEthUDPPort + q).
  { apply wrap_small. unfold in_u, kBaseEthUDPPort, kMaxQueuesPerPort in *. lia. }
  split; rsimp; try done. by exists z', links.
Qed.
Lemma DpdkTransport_new_wp fuel p numa d :
  (eo_max < fuel)%nat -> globals_ok d -> 0 <= p < kMaxPhyPorts ->
  wpt (DpdkTransport_new kIsAzure my_pid fuel p numa) (fun _ d' => exists z0, acquired p z0 d' /\
    (g_dpdk_initialized (dn_globals d) = true -> exists links, zone_at d z0 links)) d.
Proof.
  intros Hf [Gl Gz Gp] Hp. unfold DpdkTransport_new, lock. wp_step. wp_step. wp_step. rewrite Gl. apply globals_wp. rsimp.
  wp_step. wp_step. wp_step.
  set (d1 := update dn_globals _ d). apply (wp_mono _ (fun _ d2 => exists z links, zone_at d2 z links /\ zone_inv z /\
    g_dpdk_initialized (dn_globals d2) = true /\ zlength (g_port_initialized (dn_globals d2)) = RTE_MAX_ETHPORTS /\
    (g_dpdk_initialized (dn_globals d) = true -> exists links, zone_at d z links))).
  { wp_step.
    - wp_step. destruct (Gz H) as (z & links & Hz & Hi). exists z, links. split_and!; try done. by exists links.
    - eapply wp_mono; [by apply init_eal_wp|]. intros ? d2 (z & links & H1 & H2 & _ & H4 & H5). exists z, links. split_and!; try done.
      change (g_dpdk_initialized (dn_globals d) = false) in H. congruence. }
  intros ? d2 (z & links & H1 & H2 & H3 & H4 & H5). eapply get_qp_phase_wp; [done..|]. intros q d3 Hr.
  wp_step. apply get_mempool_name_wp. intros pname.
  wp_step. eapply wp_mono; [by apply acquire_mempool_wp|]. intros ? d4 [Hr4 Hm4].
  destruct (rd_zone _ _ _ _ Hr4) as (z' & links' & Hz' & Hi' & Hown). wp_step. unfold unlock. apply globals_wp.
  eapply wp_mono; [by eapply (resolve_phy_port_wp p z' links')|]. intros ? d5 ([Kg Kp Kq Ku] & Km & Hres). rsimp in Kg. rsimp in Kq. rsimp in Ku. rsimp in Km.
  exists z. split; [|exact H5]. destruct Hr4.
  assert (Hzat : zone_at d5 z' links') by (unfold zone_at; rewrite Kg; exact Hz').
  assert (Hgo : globals_ok d5) by (split; rewrite ?Kg; try done; intros _; by exists z', links').
  destruct Hres. split; rewrite ?Kq, ?Ku, ?Km, ?rd_qp0; try done.
  - by rewrite Kg.
  - by exists z', links'.
  - split; rewrite ?Kq, ?Ku, ?rd_qp0, ?rd_port0; try done. unfold in_u, kBaseEthUDPPort, kMaxQueuesPerPort in *. lia.
Qed.

(** Everybody's queue pairs are those of [z0] again. *)
Definition released (z0 : Zone) d' : Prop := exists z links, zone_at d' z links /\ zone_inv z /\
  (forall p' q', owner_at z p' q' = owner_at z0 p' q') /\ globals_ok d'.
Lemma DpdkTransport_delete_wp fuel p z0 d :
  (eo_max < fuel)%nat -> 0 <= p < kMaxPhyPorts -> acquired p z0 d ->
  wp (DpdkTransport_delete my_pid fuel p) (fun _ => released z0) d.
Proof.
  intros Hf Hp [Hg Hi Hq Hfree (z & links & [Hz Hl] & Hinv & Hown) _ _ _]. unfold DpdkTransport_delete.
  wp_step. eapply wp_mono; [by apply zoom_drain_wp|]. intros ? d1 [[Kg _ Kq _] _]%nic_only_kept.
  wp_step. wp_step. rewrite Kq. set (q := dp_qp_id (dn_t d)) in *. wp_step. eapply in_zone_wp; [by rewrite Kg|].
  pose proof (free_qp_wp (fun _ => true) my_pid p q z Hinv Hp Hq pid_pos) as Hw. unfold wpe in Hw. unfold wpe at 1.
  destruct (free_qp my_pid p q z) as [r z'|]; [|done]. destruct Hw as [Hi' (o & Ha & Hpost)].
  rewrite Hown in Ha. unfold set_at in Ha. rewrite decide_True in Ha by done. injection Ha as <-.
  destruct Hpost as [(_ & -> & Hset)|[? _]]; [|done]. apply wp_rt_assert; [intros; discriminate|]. intros _.
  exists z', links. split; [by split; [rsimp|]|]. split; [done|]. split.
  - intros p' q'. rewrite Hset. unfold set_at at 1. case_decide as Hd; [by injection Hd as -> ->|].
    rewrite Hown. unfold set_at. by rewrite decide_False.
  - destruct Hg as [G1 G2 G3]. split; rsimp; rewrite ?Kg; try done. intros _. exists z', links. split; [by split; [rsimp|]|done].
Qed.

(** C37 (safety): a transport owns its queue pair from construction to destruction.
    The constructor, which sets the library and the port up when it is the first,
    either throws or leaves a transport with a queue pair that nobody had, that
    the zone now records for this process and for nobody else, with the queue's
    memory pool, the port's addresses resolved and the lock free; the destructor
    then succeeds and every queue pair has the owner it had before. *)
Theorem dpdk_owns_queue fuel p numa d :
  (eo_max < fuel)%nat -> globals_ok d -> 0 <= p < kMaxPhyPorts ->
  wpt (DpdkTransport_new kIsAzure my_pid fuel p numa) (fun _ d' => exists z0, acquired p z0 d' /\
    (g_dpdk_initialized (dn_globals d) = true -> exists links, zone_at d z0 links) /\
    wp (DpdkTransport_delete my_pid fuel p) (fun _ => released z0) d') d.
Proof.
  intros Hf Hg Hp. eapply wp_mono; [by apply DpdkTransport_new_wp|]. intros ? d' (z0 & Ha & Hz). exists z0.
  split; [done|]. split; [done|]. by apply DpdkTransport_delete_wp.
Qed.
End Props.
