(* ===== verification/DpdkExamples.v ===== *)
(** * Concrete DPDK libraries

    One for the datapath, one for the control path. Mbufs are numbered; the NIC takes one frame of a burst, and none in every
    other poll; packets wait in [tn_in] to be received. It shows that the
    assumptions on the DPDK library can hold, and carries the examples. *)
From S2P Require Import Prelude Config HugeAlloc PktHdr Msg Uri SmTypes Timer EthCommon DpdkOwner Dpdk DpdkProps DpdkNew DpdkNewProps.

Module Datapath.
#[local] Existing Instance Transports.DpdkTransport.

Record tnic := mkTnic { tn_wire : list mbuf; tn_held : list Z; tn_in : list Z; tn_busy : bool; tn_next : Z }.
Fixpoint free_first (m : Z) (l : list Z) : list Z :=
  match l with [] => [] | x :: l => if decide (x = m) then l else x :: free_first m l end.
#[local] Instance ToyRte : Rte := {|
  Rn := tnic;
  rte_pktmbuf_alloc n := (Some (tn_next n), mkTnic (tn_wire n) (tn_held n) (tn_in n) (tn_busy n) (tn_next n + 1));
  rte_pktmbuf_free m n := mkTnic (tn_wire n) (free_first m (tn_held n)) (tn_in n) (tn_busy n) (tn_next n);
  rte_eth_tx_burst l n :=
    if tn_busy n then (O, mkTnic (tn_wire n) (tn_held n) (tn_in n) false (tn_next n))
    else (length (take 1 l), mkTnic (tn_wire n ++ take 1 l) (tn_held n) (tn_in n) true (tn_next n));
  rte_eth_rx_burst k n := (take k (tn_in n), mkTnic (tn_wire n) (tn_held n ++ take k (tn_in n)) (drop k (tn_in n)) (tn_busy n) (tn_next n));
  rte_mbuf_header := 256;
  rte_pktmbuf_mtod m := m + 256;
  rte_softrss src dst sport dport := src + dst + sport + dport;
|}.

Lemma free_first_app m h1 h2 : m ∉ h1 -> free_first m (h1 ++ m :: h2) = h1 ++ h2.
Proof.
  induction h1 as [|x l IH]; intros H; cbn; [by rewrite decide_True|].
  rewrite decide_False by set_solver. f_equal. apply IH. set_solver.
Qed.
#[local] Instance ToyRte_ok : RteOk ToyRte.
Proof.
  refine {| rn_wire := tn_wire : @Rn ToyRte -> _; rn_held := tn_held : @Rn ToyRte -> _;
            rn_wait := (fun n => if tn_busy n then 1%nat else 0%nat) : @Rn ToyRte -> _; rn_patience := 1 |}.
  - intros []; cbn. destruct tn_busy0; lia.
  - done.
  - intros m h1 h2 n H Hm. cbn in *. by rewrite H, free_first_app.
  - intros l [w h i [] x]; cbn; [rewrite app_nil_r; split_and!; try done; lia|].
    destruct l as [|b l]; [split_and!; try done; by intros _ []|].
    change (take 1 (b :: l)) with [b]. cbn. split_and!; try done; lia.
  - intros k [w h i b x]. cbn. split_and!; try done. rewrite length_take. lia.
  - done.
Defined.

Definition res_a : dpdk_resolve := mkDpdkResolve 167772161 [2; 0; 0; 0; 0; 1] 10 128.
Definition res_b : dpdk_resolve := mkDpdkResolve 167772162 [2; 0; 0; 0; 0; 2] 10 128.
Definition nic0 : tnic := mkTnic [] [] [4096; 8192; 12288] true 100.

(** Two 1000-byte messages, one of two packets of which the second is sent. *)
Definition dmem : Mem := mkMem (fun a => (a * 7) mod 251) (fun _ => mkPkthdr (replicate 42 0) 3 1000 0 0 0 8 kPktHdrMagic).
Definition dbuf1 : MsgBuffer := mkMsgBuffer (mkBuffer 65536 4096 7) 1000 1000 2 2 65592.
Definition a_route : list Z :=
  eth_bytes (gen_eth_header (dr_mac_addr res_a) (dr_mac_addr res_b))
  ++ ipv4_bytes (gen_ipv4_header (dr_ipv4_addr res_a) (dr_ipv4_addr res_b) 0)
  ++ udp_bytes (gen_udp_header 10000 31850 0) ++ [0; 0; 0; 0; 0; 0].
Definition items : list dpdk_item := [mkDpdkItem a_route dbuf1 0 false; mkDpdkItem a_route dbuf1 1 false].
Definition dp_a : Dpdk := mkDpdk (replicate 4096 0) 0 0 31850 3 res_a 0 dmem nic0.
Definition dp_b : Dpdk := mkDpdk (replicate 4096 0) 0 0 31851 5 res_b 0 dmem nic0.

Lemma hdr0_ready a : hdr_ready dmem a.
Proof. split; [|reflexivity]. constructor; vm_compute; try done; try (split; congruence). repeat constructor; done. Qed.
Lemma a_route_bytes : Forall is_byte a_route.
Proof. apply (bool_decide_unpack _). vm_compute. done. Qed.
Lemma items_ready : Forall (item_ready dmem) items.
Proof.
  repeat constructor; try exact a_route_bytes; try (exact (proj1 (hdr0_ready _))); vm_compute; done.
Qed.

Lemma dpdk_tx_burst_correct_witness :
  Forall (item_ready (dp_mem dp_a)) items /\ zlength items <= kPostlist /\
  wpe no_mbuf (dpdk_tx_burst 5 items) (fun _ d' => exists frames,
    Forall2 (frame_ok (dp_mem dp_a)) items frames /\
    rn_wire (dp_rte d') = rn_wire (dp_rte dp_a) ++ frames /\ rn_held (dp_rte d') = rn_held (dp_rte dp_a) /\
    reformatted (dp_mem dp_a) (dp_mem d') /\ d' = dp_a <| dp_mem := dp_mem d' |> <| dp_rte := dp_rte d' |>) dp_a.
Proof.
  split; [exact items_ready|]. split; [by vm_compute|].
  apply (dpdk_tx_burst_correct 5 items dp_a); [exact items_ready|by vm_compute|cbn; lia].
Defined.

(** The ring near its end, holding two mbufs. *)
Definition dp_ring : Dpdk :=
  mkDpdk (zinsert 4095 4352 (zinsert 0 8448 (replicate 4096 0))) 1 4095 31850 3 res_a 0 dmem (mkTnic [] [4096; 8192] [12288; 16384] false 0).
Lemma dp_ring_holds : ring_holds [4096; 8192] dp_ring.
Proof.
  split; [|reflexivity]. split; [reflexivity|vm_compute; split; congruence|reflexivity|vm_compute; congruence|].
  intros [|[|i]] m H; [injection H as <-; vm_compute; reflexivity..|discriminate H].
Qed.
Lemma dpdk_rx_ring_fifo_witness :
  ring_holds [4096; 8192] dp_ring /\
  wp dpdk_rx_burst (fun k d' => exists new, k = zlength new /\ k <= kRxBatchSize /\ ring_holds ([4096; 8192] ++ new) d' /\
    rn_wire (dp_rte d') = rn_wire (dp_rte dp_ring)) dp_ring /\
  wp (dpdk_post_recvs 1) (fun _ d' => ring_holds [8192] d' /\ rn_wire (dp_rte d') = rn_wire (dp_rte dp_ring)) dp_ring.
Proof.
  split; [exact dp_ring_holds|].
  split; [apply (dpdk_rx_ring_fifo [4096; 8192] dp_ring dp_ring_holds); vm_compute; congruence|].
  apply (proj2 (dpdk_rx_ring_fifo [4096; 8192] dp_ring dp_ring_holds) 1%nat). cbn. lia.
Defined.

Lemma local_ok_a : local_ok dp_a.
Proof. constructor; [reflexivity|by repeat constructor|vm_compute; split; congruence..]. Qed.
Lemma local_ok_b : local_ok dp_b.
Proof. constructor; [reflexivity|by repeat constructor|vm_compute; split; congruence..]. Qed.
(** The first port that reaches queue 5 of B. *)
Example b_lands : lands dp_a dp_b 10007 /\ ~ lands dp_a dp_b 10006.
Proof. split; vm_compute; congruence. Qed.
Lemma dpdk_route_resolved_witness :
  local_ok dp_a /\ local_ok dp_b /\ exists ri, dpdk_fill_local_routing_info dp_b = Ok ri dp_b /\ length ri = 48%nat /\
    match dpdk_resolve_remote_routing_info ri dp_a with
    | Ok (ok, ri') a' => ok = true /\ a' = dp_a /\ route dp_a dp_b ri'
    | Fail e => e = EThrow "Scan error" /\ forall sport, kBaseEthUDPPort <= sport < 65535 -> ~ lands dp_a dp_b sport
    end.
Proof.
  split; [exact local_ok_a|]. split; [exact local_ok_b|].
  exact (dpdk_route_resolved dp_a dp_b local_ok_a local_ok_b).
Defined.
End Datapath.

(** ** A concrete DPDK library for the control path

    A machine with two ports whose memory pools are a list of names, and with one
    packet left in the receive queue. It shows that the assumptions on the library
    can hold, and carries the examples. *)
Module Control.
Record dpdk_machine := mkMachine { mc_stale : bool; mc_pools : list string }.
#[local] Instance ToyPort : Rte := {|
  Rn := dpdk_machine;
  rte_pktmbuf_alloc n := (Some 4096, n);
  rte_pktmbuf_free m n := n;
  rte_eth_tx_burst l n := (length l, n);
  rte_eth_rx_burst k n := (if mc_stale n then [8192] else [], mkMachine false (mc_pools n));
  rte_mbuf_header := 256;
  rte_pktmbuf_mtod m := m + 256;
  rte_softrss src dst sport dport := src + dst + sport + dport;
|}.
#[local] Instance ToyEal : Eal ToyPort := {|
  rte_eal_init n := (0, n);
  rte_eal_is_primary n := true;
  rte_memzone_lookup n := None;
  rte_mempool_lookup name n := if bool_decide (name ∈ mc_pools n) then Some 65536 else None;
  rte_pktmbuf_pool_create name num size numa n := (Some 65536, mkMachine (mc_stale n) (name :: mc_pools n));
  rte_eth_dev_count_avail n := 2;
  rte_eth_macaddr_get p n := [2; 0; 10; 0; 0; p mod 256];
  rte_eth_dev_info_get p n := mkDevInfo "net_mlx5" 512 65535 65535;
  rte_eth_link_get p n := mkEthLink true 100000;
  rte_eth_dev_configure p rx tx n := (0, n);
  rte_eth_rx_queue_setup p i nb numa pool n := (0, n);
  rte_eth_tx_queue_setup p i nb numa n := (0, n);
  rte_eth_dev_start p n := n;
  ioctl_eth1_addr n := (None, n);
  RTE_MEMPOOL_NAMESIZE := 26;
  RTE_MAX_ETHPORTS := 32;
|}.
#[local] Instance ToyEal_ok : EalOk ToyEal.
Proof.
  refine {| eo_backlog := (fun n => if mc_stale n then 1%nat else 0%nat) : @Rn ToyPort -> nat; eo_max := 1 |}; cbn.
  - intros []; cbn. destruct mc_stale0; lia.
  - intros k []; cbn. destruct mc_stale0; cbn; [intros _; right; lia|by left].
  - done.
  - intros p n. split; [done|]. pose proof (Z.mod_pos_bound p 256). repeat constructor; unfold is_byte; lia.
  - intros p n. unfold in_u. lia.
  - intros p n. set_solver.
  - done.
  - done.
Defined.
#[local] Existing Instance Transports.DpdkTransport.

Definition dn0 : DN :=
  mkDN (mkGlobals false false (replicate 32 false) None) false None
    (mkDpdk (replicate 4096 0) 0 0 0 kInvalidQpId (mkDpdkResolve 0 [] 0 0) 0 (mkMem (fun _ => 0) (fun _ => mkPkthdr [] 0 0 0 0 0 0 0))
       (mkMachine true [])).
Lemma dn0_ok : globals_ok dn0.
Proof. split; [done|done|reflexivity]. Qed.

Lemma dpdk_owns_queue_witness :
  globals_ok dn0 /\
  wpt (DpdkTransport_new false 77 2 1 0) (fun _ d' => exists z0, acquired 77 1 z0 d' /\
    (g_dpdk_initialized (dn_globals dn0) = true -> exists links, zone_at dn0 z0 links) /\
    wp (DpdkTransport_delete 77 2 1) (fun _ => released z0) d') dn0.
Proof.
  split; [exact dn0_ok|].
  apply (dpdk_owns_queue (EOk := ToyEal_ok) false 77 eq_refl 2 1 0 dn0); [cbn; lia|exact dn0_ok|].
  unfold kMaxPhyPorts. lia.
Defined.

(** It does return: two transports on port 1 get the queues 0 and 1, and the
    ports 10000 and 10001. *)
Definition qp_and_port (r : res DN unit) : option (Z * Z) :=
  match r with Ok _ d => Some (dp_qp_id (dn_t d), dp_rx_flow_udp_port (dn_t d)) | Fail _ => None end.
Example two_transports :
  qp_and_port (DpdkTransport_new false 77 2 1 0 dn0) = Some (0, 10000) /\
  qp_and_port ((DpdkTransport_new false 77 2 1 0;; DpdkTransport_new false 77 2 1 0) dn0) = Some (1, 10001).
Proof. split; vm_compute; reflexivity. Qed.
End Control.
