(* ===== verification/IbTransport.v ===== *)
(** * The InfiniBand transport: [ib_transport.h], [ib_transport.cc],
    [ib_transport_datapath.cc], and [poll_cq_one_helper] of [verbs_common.h]

    The verbs library is the class [Verbs]: the state of the queue pair with its
    completion queues, and the five calls the datapath makes. What the datapath
    relies on is [VerbsOk]: the send queue retires entries when a later signaled
    completion is polled, and receives are consumed in the order of posting. *)
From S2P Require Import Prelude Config HugeAlloc PktHdr Msg.

Definition kSQDepth : Z := 128.
Definition kRQDepth : Z := kNumRxRingEntries.
Definition kMaxInline : Z := 60.
Definition kRecvSlack : Z := 32.
Definition kQKey : Z := 517.
Definition kGRHBytes : Z := 40.

(** ** Work requests *)
Record sge := mkSge { sge_addr : Z; sge_length : Z; sge_lkey : Z }.

(** [ibv_send_wr]; [sw_sg_list] is a row of [send_sgl]. *)
Record send_wr_t := mkSendWr {
  sw_next : option Z; sw_sg_list : option Z; sw_num_sge : Z; sw_is_send_with_imm : bool;
  sw_signaled : bool; sw_inline : bool; sw_ah : Z; sw_remote_qpn : Z; sw_remote_qkey : Z;
}.
#[export] Instance eta_send_wr : Eta send_wr_t := fun w =>
  mkSendWr (sw_next w) (sw_sg_list w) (sw_num_sge w) (sw_is_send_with_imm w) (sw_signaled w)
    (sw_inline w) (sw_ah w) (sw_remote_qpn w) (sw_remote_qkey w).
Definition send_wr_blank : send_wr_t := mkSendWr None None 0 false false false 0 0 0.

(** [ibv_recv_wr]; its only scatter entry is [recv_sgl] of the same index. *)
Record recv_wr_t := mkRecvWr { rw_wr_id : Z; rw_sge : sge; rw_next : option Z }.
#[export] Instance eta_recv_wr : Eta recv_wr_t := fun w =>
  mkRecvWr (rw_wr_id w) (rw_sge w) (rw_next w).

(** What the device reads when a request is posted. *)
Record wqe := mkWqe {
  wq_signaled : bool; wq_inline : bool; wq_sges : list sge; wq_ah : Z; wq_qpn : Z; wq_qkey : Z;
}.
Record recv_wqe := mkRecvWqe { rq_wr_id : Z; rq_sge : sge }.

(** ** The verbs library *)
Inductive poll_res := PollEmpty | PollDone (status : Z) | PollError.

Class Verbs := {
  Nic : Type;
  ibv_post_send : list wqe -> Nic -> Z * Nic;
  ibv_poll_send_cq : Nic -> poll_res * Nic;       (* ibv_poll_cq(send_cq, 1, &wc) *)
  ibv_post_recv : list recv_wqe -> Nic -> Z * Nic;
  ibv_post_recv_fast : Z -> Nic -> Z * Nic;       (* the modified driver *)
  ibv_poll_recv_cq : Z -> Nic -> Z * Nic;         (* ibv_poll_cq(recv_cq, n, recv_wc) *)
  ibv_poll_fuel : nat;                            (* bounds the polls of one completion *)
  flush_inline_buf : Z;                           (* a stack address *)
}.

(** What can be observed of the queue pair: the unretired sends (are they
    signaled?), everything ever sent, the posted receives, and how many polls a
    completion still takes. *)
Class VerbsOk (V : Verbs) := {
  nic_sq : Nic -> list bool;
  nic_sent : Nic -> list wqe;
  nic_rq : Nic -> list recv_wqe;
  nic_wait : Nic -> nat;
  vo_post_send ws n :
    zlength (nic_sq n) + zlength ws <= kSQDepth ->
    let (ret, n') := ibv_post_send ws n in
    ret = 0 /\ nic_sq n' = nic_sq n ++ (wq_signaled <$> ws) /\
    nic_sent n' = nic_sent n ++ ws /\ nic_rq n' = nic_rq n;
  vo_poll_send n :
    let (o, n') := ibv_poll_send_cq n in
    nic_sent n' = nic_sent n /\ nic_rq n' = nic_rq n /\
    match o with
    | PollEmpty => nic_sq n' = nic_sq n /\ (true ∈ nic_sq n -> (nic_wait n' < nic_wait n)%nat)
    | PollDone st => st = 0 /\ exists k, nic_sq n = replicate k false ++ true :: nic_sq n'
    | PollError => False
    end;
  vo_wait n : (nic_wait n < ibv_poll_fuel)%nat;
  vo_post_recv ws n :
    zlength (nic_rq n) + zlength ws <= kRQDepth ->
    let (ret, n') := ibv_post_recv ws n in
    ret = 0 /\ nic_rq n' = nic_rq n ++ ws /\ nic_sq n' = nic_sq n /\ nic_sent n' = nic_sent n;
  vo_poll_recv k n :
    0 <= k ->
    let (m, n') := ibv_poll_recv_cq k n in
    0 <= m <= k /\ m <= zlength (nic_rq n) /\ nic_rq n' = drop (Z.to_nat m) (nic_rq n) /\
    nic_sq n' = nic_sq n /\ nic_sent n' = nic_sent n;
}.

(** ** State *)

(** [ib_routing_info_t]'s members that the datapath reads, and a batch item. *)
Record ib_rinfo := mkIbRinfo { ri_ah : Z; ri_qpn : Z }.
Record ib_item := mkIbItem {
  ii_rinfo : ib_rinfo; ii_msg_buffer : MsgBuffer; ii_pkt_idx : Z; ii_drop : bool;
}.

Section Ib.
Context {V : Verbs}.

Record IB := mkIB {
  ib_nb_tx : Z;
  ib_send_wr : list send_wr_t;        (* kPostlist + 1 *)
  ib_send_sgl : list (sge * sge);     (* kPostlist *)
  ib_recv_head : Z;
  ib_recvs_to_post : Z;
  ib_recv_wr : list recv_wr_t;        (* kRQDepth *)
  ib_ring_extent : Buffer;
  ib_use_fast_recv : bool;
  ib_fast_recv_used : bool;
  ib_self_ah : Z;
  ib_tx_flush_count : Z;
  ib_nic : Nic;
}.
#[export] Instance eta_IB : Eta IB := fun t =>
  mkIB (ib_nb_tx t) (ib_send_wr t) (ib_send_sgl t) (ib_recv_head t) (ib_recvs_to_post t)
    (ib_recv_wr t) (ib_ring_extent t) (ib_use_fast_recv t) (ib_fast_recv_used t) (ib_self_ah t)
    (ib_tx_flush_count t) (ib_nic t).

Abbreviation MI := (M IB).

(** A call into the library. *)
Definition nic_call {A} (f : Nic -> A * Nic) : MI A := fun t =>
  let (a, n) := f (ib_nic t) in Ok a (t <| ib_nic := n |>).

(** ** Polling and signaling *)
Fixpoint poll_loop (n : nat) : MI Z :=
  match n with
  | O => fail EFuel
  | S n =>
      o ← nic_call ibv_poll_send_cq;
      match o with
      | PollEmpty => poll_loop n
      | PollDone status => mret status
      | PollError => fail (ENull "poll_cq: completion not written")
      end
  end.
Definition poll_cq_one_helper : MI unit :=
  status ← poll_loop ibv_poll_fuel;
  assert_ (status =? 0) "poll_cq_one_helper: status".

Context {T : TTr}.

Definition get_signaled_flag : MI bool :=
  nb_tx ← gets ib_nb_tx;
  signaled ← (if nb_tx mod kUnsigBatch =? 0 then
                when (negb (nb_tx =? 0)) poll_cq_one_helper;; mret true
              else mret false);
  modify (fun t => t <| ib_nb_tx ::= fun n => add64 n 1 |>);;
  mret signaled.

(** ** Transmission *)

(** The scatter-gather entries of a packet. *)
Definition item_sges (item : ib_item) (old : sge * sge) : (sge * sge) * Z :=
  let mb := ii_msg_buffer item in
  let lkey := b_lkey (buffer_ mb) in
  if ii_pkt_idx item =? 0 then
    ((mkSge (get_pkthdr_0 mb) (u32 (get_pkt_size mb 0)) lkey, old.2), 1)
  else
    let offset := u64 (ii_pkt_idx item * kMaxDataPerPkt) in
    ((mkSge (get_pkthdr_n mb (ii_pkt_idx item)) sizeof_pkthdr lkey,
      mkSge (buf_ mb + offset) (u32 (Z.min kMaxDataPerPkt (sub64 (data_size_ mb) offset))) lkey), 2).

Definition tx_item (i : Z) (item : ib_item) : MI unit :=
  t ← get;
  wr ← deref (zlookup (ib_send_wr t) i) "send_wr";
  sgl ← deref (zlookup (ib_send_sgl t) i) "send_sgl";
  assert_ (bool_decide (sw_next wr = Some (i + 1))) "tx_burst: next";;
  assert_ (sw_remote_qkey wr =? kQKey) "tx_burst: qkey";;
  assert_ (sw_is_send_with_imm wr) "tx_burst: opcode";;
  assert_ (bool_decide (sw_sg_list wr = Some i)) "tx_burst: sg_list";;
  signaled ← get_signaled_flag;
  let p := item_sges item sgl in
  let inline := (ii_pkt_idx item =? 0) && (sge_length p.1.1 <=? kMaxInline) in
  modify (fun t => t <| ib_send_sgl ::= zinsert i p.1 |>
    <| ib_send_wr ::= zinsert i (wr <| sw_signaled := signaled |> <| sw_inline := inline |>
         <| sw_num_sge := p.2 |> <| sw_ah := ri_ah (ii_rinfo item) |>
         <| sw_remote_qpn := if kTesting && ii_drop item then 0 else ri_qpn (ii_rinfo item) |>) |>).

Fixpoint tx_items (i : Z) (items : list ib_item) : MI unit :=
  match items with
  | [] => mret tt
  | it :: items => tx_item i it;; tx_items (i + 1) items
  end.

Definition set_send_next (i : Z) (next : option Z) : MI unit :=
  t ← get;
  wr ← deref (zlookup (ib_send_wr t) i) "send_wr";
  modify (fun t => t <| ib_send_wr ::= zinsert i (wr <| sw_next := next |>) |>).

(** The device follows the [next] pointers. *)
Definition wqe_of (t : IB) (wr : send_wr_t) : option wqe :=
  i ← sw_sg_list wr; row ← zlookup (ib_send_sgl t) i;
  Some (mkWqe (sw_signaled wr) (sw_inline wr) (take (Z.to_nat (sw_num_sge wr)) [row.1; row.2])
          (sw_ah wr) (sw_remote_qpn wr) (sw_remote_qkey wr)).
Fixpoint send_chain (n : nat) (t : IB) (i : Z) : option (list wqe) :=
  match n with
  | O => None
  | S n =>
      wr ← zlookup (ib_send_wr t) i; w ← wqe_of t wr;
      match sw_next wr with
      | None => Some [w]
      | Some j => ws ← send_chain n t j; Some (w :: ws)
      end
  end.
Definition post_send : MI unit :=
  t ← get;
  ws ← deref (send_chain (length (ib_send_wr t)) t 0) "send_wr chain";
  ret ← nic_call (ibv_post_send ws);
  assert_ (ret =? 0) "ibv_post_send".

Definition tx_burst (items : list ib_item) : MI unit :=
  let num_pkts := zlength items in
  tx_items 0 items;;
  set_send_next (num_pkts - 1) None;;
  post_send;;
  set_send_next (num_pkts - 1) (Some num_pkts).

Definition tx_flush : MI unit :=
  nb_tx ← gets ib_nb_tx;
  if nb_tx =? 0 then mret tt
  else
    poll_cq_one_helper;;
    t ← get;
    wr ← deref (zlookup (ib_send_wr t) 0) "send_wr";
    sgl ← deref (zlookup (ib_send_sgl t) 0) "send_sgl";
    assert_ (bool_decide (sw_next wr = Some 1)) "tx_flush: next";;
    assert_ (sw_remote_qkey wr =? kQKey) "tx_flush: qkey";;
    assert_ (sw_is_send_with_imm wr) "tx_flush: opcode";;
    assert_ (bool_decide (sw_sg_list wr = Some 0)) "tx_flush: sg_list";;
    modify (fun t =>
      t <| ib_send_sgl ::= zinsert 0 (mkSge flush_inline_buf 1 (sge_lkey sgl.1), sgl.2) |>
        <| ib_send_wr ::= zinsert 0 (wr <| sw_next := None |> <| sw_signaled := true |>
             <| sw_inline := true |> <| sw_num_sge := 1 |> <| sw_remote_qpn := 0 |>
             <| sw_ah := ib_self_ah t |>) |>);;
    post_send;;
    set_send_next 0 (Some 1);;
    poll_cq_one_helper;;
    modify (fun t => t <| ib_nb_tx := 0 |> <| ib_tx_flush_count ::= fun n => add64 n 1 |>).

Definition init_sends : MI unit :=
  miter (fun i =>
    t ← get;
    wr ← deref (zlookup (ib_send_wr t) i) "send_wr";
    modify (fun t => t <| ib_send_wr ::= zinsert i (wr <| sw_next := Some (i + 1) |>
      <| sw_remote_qkey := kQKey |> <| sw_is_send_with_imm := true |> <| sw_sg_list := Some i |>) |>))
    (Z.of_nat <$> seq 0 (Z.to_nat kPostlist)).

(** ** Reception *)
Definition rx_burst_ib : MI Z :=
  ret ← nic_call (ibv_poll_recv_cq kPostlist);
  assert_ (0 <=? ret) "rx_burst";;
  mret ret.

Definition set_recv_next (i : Z) (next : option Z) : MI unit :=
  t ← get;
  wr ← deref (zlookup (ib_recv_wr t) i) "recv_wr";
  modify (fun t => t <| ib_recv_wr ::= zinsert i (wr <| rw_next := next |>) |>).
Fixpoint recv_chain (n : nat) (t : IB) (i : Z) : option (list recv_wqe) :=
  match n with
  | O => None
  | S n =>
      wr ← zlookup (ib_recv_wr t) i;
      match rw_next wr with
      | None => Some [mkRecvWqe (rw_wr_id wr) (rw_sge wr)]
      | Some j => ws ← recv_chain n t j; Some (mkRecvWqe (rw_wr_id wr) (rw_sge wr) :: ws)
      end
  end.
Definition post_recv (first : Z) : MI Z :=
  t ← get;
  ws ← deref (recv_chain (length (ib_recv_wr t)) t first) "recv_wr chain";
  nic_call (ibv_post_recv ws).

Definition post_recvs (num_recvs : Z) : MI unit :=
  t ← get;
  assert_ (negb (ib_fast_recv_used t)) "post_recvs: fast_recv_used";;
  assert_ (num_recvs <=? kRQDepth) "post_recvs: num_recvs";;
  assert_ (ib_recvs_to_post t <? kRecvSlack) "post_recvs: recvs_to_post";;
  modify (fun t => t <| ib_recvs_to_post ::= fun n => add64 n num_recvs |>);;
  recvs_to_post ← gets ib_recvs_to_post;
  if recvs_to_post <? kRecvSlack then mret tt
  else if ib_use_fast_recv t then
    ret ← nic_call (ibv_post_recv_fast recvs_to_post);
    rt_assert (ret =? 0) "Post RECV (fast) error";;
    modify (fun t => t <| ib_recvs_to_post := 0 |>)
  else
    first_wr_i ← gets ib_recv_head;
    let last_wr_i := first_wr_i + (recvs_to_post - 1) in
    let last_wr_i := if kRQDepth <=? last_wr_i then last_wr_i - kRQDepth else last_wr_i in
    t ← get;
    last_wr ← deref (zlookup (ib_recv_wr t) last_wr_i) "recv_wr";
    let temp_wr := rw_next last_wr in
    set_recv_next last_wr_i None;;
    ret ← post_recv first_wr_i;
    rt_assert (ret =? 0) "Post RECV (normal) error";;
    set_recv_next last_wr_i temp_wr;;
    modify (fun t => t <| ib_recv_head := (last_wr_i + 1) mod kRQDepth |>
                      <| ib_recvs_to_post := 0 |>).

(** ** Initialization *)
Definition kRecvSize : Z := kMTU + 64.
Definition recv_offset (i : Z) : Z := i * kRecvSize + (64 - kGRHBytes).
Definition recv_desc (ring : Buffer) (i : Z) : recv_wr_t :=
  let addr := b_buf ring + recv_offset i in
  mkRecvWr (addr + kGRHBytes) (mkSge addr kRecvSize (b_lkey ring))
    (Some (if i <? kRQDepth - 1 then i + 1 else 0)).

(** [init_recvs], which also fills the Rpc's [rx_ring_]. *)
Definition init_recvs {Os : ShmOs} (fuel : nat) : M (IB * HugeAlloc) (list Z) :=
  let ring_extent_size := kNumRxRingEntries * kRecvSize in
  ring ← zoom snd (fun h p => (p.1, h)) (alloc_raw fuel ring_extent_size DoRegister_kTrue);
  rt_assert (negb (b_buf ring =? 0)) "Failed to allocate ring buffers";;
  let is_ := Z.of_nat <$> seq 0 (Z.to_nat kRQDepth) in
  miter (fun i => assert_ (recv_offset i + (kGRHBytes + kMTU) <=? ring_extent_size) "init_recvs") is_;;
  zoom fst (fun t p => (t, p.2)) (
    modify (fun t => t <| ib_ring_extent := ring |> <| ib_recv_wr := recv_desc ring <$> is_ |>);;
    set_recv_next (kRQDepth - 1) None;;
    ret ← post_recv 0;
    rt_assert (ret =? 0) "Failed to fill RECV queue.";;
    set_recv_next (kRQDepth - 1) (Some 0));;
  mret ((fun i => b_buf ring + recv_offset i + kGRHBytes) <$> is_).
End Ib.
