(* ===== verification/IbProps.v ===== *)
(** * The InfiniBand transport is sound

    Transmission: the send queue never overflows, every poll for a completion
    finds a signaled request that was posted before, the posted requests are
    exactly the batch, and a flush leaves no send outstanding. Reception: the
    receive ring is posted in order, without gaps. *)
From S2P Require Import Prelude Config HugeAlloc PktHdr Msg IbTransport.

(** The static assertion on the queue's capacity. *)
Class IbOk (T : TTr) : Prop := ib_sq_depth : 2 * kUnsigBatch <= kSQDepth.
#[export] Instance IBTransport_IbOk roce : IbOk (Transports.IBTransport roce).
Proof. unfold IbOk. by destruct roce. Qed.

Lemma first_true_unique (l1 l2 : list bool) j k :
  replicate j false ++ true :: l1 = replicate k false ++ true :: l2 -> l1 = l2.
Proof. revert k. induction j as [|j IH]; intros [|k]; cbn; intros [= H]; try done. by apply IH in H. Qed.

Lemma seq_at (n : Z) (l d todo : list Z) i :
  l = Z.of_nat <$> seq 0 (Z.to_nat n) -> l = d ++ i :: todo -> i = zlength d /\ i < n.
Proof.
  intros E Hl. assert (Hx : l !! length d = Some i) by (rewrite Hl; by apply list_lookup_middle).
  rewrite E in Hx. apply list_lookup_fmap_Some in Hx as (y & -> & [-> Hy]%lookup_seq).
  unfold zlength. lia.
Qed.

Section IbProps.
Context {V : Verbs} {VOk : VerbsOk V} {T : TTr} {TOk : TTrOk T} {IOk : IbOk T}.
Implicit Types t : IB.

(** ** The send queue *)

(** The unretired requests after [n] sends: one signaled request, at most
    [kUnsigBatch - 1] before it and after it. *)
Definition sq_shape (n : Z) : list bool :=
  if n =? 0 then []
  else (if n <=? kUnsigBatch then [] else replicate (Z.to_nat (kUnsigBatch - 1)) false)
       ++ true :: replicate (Z.to_nat ((n - 1) mod kUnsigBatch)) false.

Lemma unsig_pos : 0 < kUnsigBatch.
Proof. pose proof ttr_postlist_pos. pose proof ttr_postlist_unsig. lia. Qed.

Lemma sq_shape_length n : 0 <= n -> zlength (sq_shape n) < 2 * kUnsigBatch.
Proof.
  intros Hn. pose proof unsig_pos as Hu. unfold sq_shape.
  pose proof (Z.mod_pos_bound (n - 1) kUnsigBatch Hu).
  repeat case_match; unfold zlength; cbn [length app];
    rewrite ?length_app; cbn [length]; rewrite ?length_replicate; lia.
Qed.

Lemma sq_shape_1 : sq_shape 1 = [true].
Proof.
  pose proof unsig_pos. unfold sq_shape. cbn [Z.eqb].
  rewrite (proj2 (Z.leb_le 1 _)) by lia. by rewrite Z.sub_diag, Zmod_0_l.
Qed.
Lemma sq_shape_unsignaled n :
  0 < n -> n mod kUnsigBatch <> 0 -> sq_shape (n + 1) = sq_shape n ++ [false].
Proof.
  intros Hn Hm. pose proof unsig_pos as Hu. unfold sq_shape.
  rewrite !(proj2 (Z.eqb_neq _ _)) by lia.
  assert (Hle : (n + 1 <=? kUnsigBatch) = (n <=? kUnsigBatch)).
  { destruct (Z.leb_spec n kUnsigBatch), (Z.leb_spec (n + 1) kUnsigBatch); try done; [|lia].
    exfalso. apply Hm. replace n with kUnsigBatch by lia. by rewrite Z.mod_same by lia. }
  rewrite Hle, <- app_assoc. f_equal. cbn. f_equal.
  replace (n + 1 - 1) with (n - 1 + 1) by lia.
  assert (E : (n - 1 + 1) mod kUnsigBatch = (n - 1) mod kUnsigBatch + 1).
  { assert (Hu0 : kUnsigBatch <> 0) by lia. pose proof (Z.div_mod n kUnsigBatch Hu0). pose proof (Z.mod_pos_bound n kUnsigBatch Hu).
    replace (n - 1 + 1) with n by lia.
    rewrite <- (Z.mod_unique_pos (n - 1) kUnsigBatch (n / kUnsigBatch) (n mod kUnsigBatch - 1)); lia. }
  rewrite E. pose proof (Z.mod_pos_bound (n - 1) kUnsigBatch Hu).
  rewrite Z2Nat.inj_add, replicate_add by lia. done.
Qed.

(** Before a signaled send the queue holds the previous signaled request. *)
Lemma sq_shape_signal n :
  0 < n -> n mod kUnsigBatch = 0 ->
  sq_shape n = (if n <=? kUnsigBatch then [] else replicate (Z.to_nat (kUnsigBatch - 1)) false)
               ++ true :: replicate (Z.to_nat (kUnsigBatch - 1)) false /\
  sq_shape (n + 1) = replicate (Z.to_nat (kUnsigBatch - 1)) false ++ [true].
Proof.
  intros Hn Hm. pose proof unsig_pos as Hu.
  apply Z.mod_divide in Hm as [q ->]; [|lia]. unfold sq_shape.
  assert (0 < q) by nia.
  rewrite !(proj2 (Z.eqb_neq _ _)) by nia. split.
  - do 4 f_equal.
    rewrite <- (Z.mod_unique_pos (q * kUnsigBatch - 1) kUnsigBatch (q - 1) (kUnsigBatch - 1)); lia.
  - rewrite (proj2 (Z.leb_gt _ _)) by nia. do 2 f_equal.
    replace (q * kUnsigBatch + 1 - 1) with (q * kUnsigBatch) by lia. by rewrite Z.mod_mul by lia.
Qed.

(** ** Polling *)

(** Everything but the send queue and what was taken from it. *)
Record nic_same (n n' : Nic) : Prop := {
  ns_sent : nic_sent n' = nic_sent n;
  ns_rq : nic_rq n' = nic_rq n;
}.
Lemma poll_loop_wp (E : err -> Prop) fuel t k l (Q : Z -> IB -> Prop) :
  (nic_wait (ib_nic t) < fuel)%nat -> nic_sq (ib_nic t) = replicate k false ++ true :: l ->
  (forall n', nic_same (ib_nic t) n' -> nic_sq n' = l -> Q 0 (t <| ib_nic := n' |>)) ->
  wpe E (poll_loop fuel) Q t.
Proof.
  revert t. induction fuel as [|fuel IH]; intros t Hw Hs HQ; [lia|]. cbn [poll_loop].
  wp_step. unfold nic_call, wpe at 1. pose proof (vo_poll_send (ib_nic t)) as H.
  destruct (ibv_poll_send_cq (ib_nic t)) as [[|st|] n']; destruct H as (H1 & H2 & H); [| |done].
  - destruct H as [Hq Hlt]. apply IH.
    + assert (Hin : true ∈ nic_sq (ib_nic t)) by (rewrite Hs; set_solver).
      specialize (Hlt Hin). change (ib_nic (update _ _ t)) with n'. lia.
    + by rewrite <- Hs, <- Hq.
    + intros n2 [S1 S2] Hn2. apply HQ; [|done].
      split; [exact (eq_trans S1 H1)|exact (eq_trans S2 H2)].
  - destruct H as [-> [j Hj]]. rewrite Hs in Hj. apply first_true_unique in Hj.
    wp_step. apply HQ; [by split|done].
Qed.

Lemma poll_one_wp (E : err -> Prop) t k l (Q : unit -> IB -> Prop) :
  nic_sq (ib_nic t) = replicate k false ++ true :: l ->
  (forall n', nic_same (ib_nic t) n' -> nic_sq n' = l -> Q tt (t <| ib_nic := n' |>)) ->
  wpe E poll_cq_one_helper Q t.
Proof.
  intros Hs HQ. unfold poll_cq_one_helper. wp_step. eapply poll_loop_wp; [apply vo_wait|exact Hs|].
  intros n' S Hn. wp_step; [done|]. by apply HQ.
Qed.

(** ** Building the batch *)

(** The constant fields of the work requests. *)
Record send_ok t : Prop := {
  so_len : zlength (ib_send_wr t) = kPostlist + 1;
  so_sgl : zlength (ib_send_sgl t) = kPostlist;
  so_wr i : 0 <= i < kPostlist -> exists wr, zlookup (ib_send_wr t) i = Some wr /\
    sw_next wr = Some (i + 1) /\ sw_remote_qkey wr = kQKey /\
    sw_is_send_with_imm wr = true /\ sw_sg_list wr = Some i;
  so_nb : 0 <= ib_nb_tx t;
}.

(** What a packet's request must say: the header and the payload, where they are
    in the message buffer. *)
Definition pkt_sges (mb : MsgBuffer) (idx : Z) : list sge :=
  let payload := get_pkt_size mb idx - sizeof_pkthdr in
  let lkey := b_lkey (buffer_ mb) in
  if idx =? 0 then [mkSge (get_pkthdr_0 mb) (sizeof_pkthdr + payload) lkey]
  else [mkSge (get_pkthdr_n mb idx) sizeof_pkthdr lkey;
        mkSge (buf_ mb + idx * kMaxDataPerPkt) payload lkey].
Definition item_wqe (signaled : bool) (it : ib_item) : wqe :=
  let mb := ii_msg_buffer it in
  mkWqe signaled ((ii_pkt_idx it =? 0) && (get_pkt_size mb 0 <=? kMaxInline))
    (pkt_sges mb (ii_pkt_idx it)) (ri_ah (ii_rinfo it)) (ri_qpn (ii_rinfo it)) kQKey.
(** The packet exists in its message buffer. *)
Definition item_ok (it : ib_item) : Prop :=
  0 <= ii_pkt_idx it /\
  ii_pkt_idx it * kMaxDataPerPkt <= data_size_ (ii_msg_buffer it) < 2 ^ 32.

Lemma item_sges_ok it old :
  item_ok it ->
  let p := item_sges it old in
  take (Z.to_nat p.2) [p.1.1; p.1.2] = pkt_sges (ii_msg_buffer it) (ii_pkt_idx it) /\
  (ii_pkt_idx it =? 0) && (sge_length p.1.1 <=? kMaxInline)
  = (ii_pkt_idx it =? 0) && (get_pkt_size (ii_msg_buffer it) 0 <=? kMaxInline).
Proof.
  intros [H1 H2]. pose proof ttr_data_pos. pose proof ttr_data_lt.
  assert (Hs : 0 <= sizeof_pkthdr <= 56).
  { unfold sizeof_pkthdr. destruct ttr_headroom as [-> | ->]; lia. }
  unfold item_sges, pkt_sges, get_pkt_size. set (d := data_size_ _) in *.
  clearbody d. destruct (Z.eqb_spec (ii_pkt_idx it) 0) as [E|E]; cbn [fst snd].
  - rewrite E in *. change (u64 (0 * kMaxDataPerPkt)) with 0 in *.
    rewrite (sub64_small d 0) by lia. rewrite wrap_small by (unfold in_u; lia).
    split; [|done]. change (take (Z.to_nat 1) [?a; ?b]) with [a]. do 2 f_equal. lia.
  - split; [|done]. assert (0 <= ii_pkt_idx it * kMaxDataPerPkt) by lia.
    rewrite (wrap_small 64) by (unfold in_u; lia). rewrite (sub64_small d) by lia.
    rewrite wrap_small by (unfold in_u; lia).
    change (take (Z.to_nat 2) [?a; ?b]) with [a; b]. do 3 f_equal. lia.
Qed.

(** The signaling of the packets of a batch that starts at count [n]. *)
Definition flags (n : Z) (k : nat) : list bool :=
  (fun j => (n + Z.of_nat j) mod kUnsigBatch =? 0) <$> seq 0 k.
Lemma flags_S n k : flags n (S k) = flags n k ++ [(n + Z.of_nat k) mod kUnsigBatch =? 0].
Proof. unfold flags. by rewrite seq_S, fmap_app. Qed.

(** Everything that sending leaves alone. *)
Record rx_same t t' : Prop := {
  rs_head : ib_recv_head t' = ib_recv_head t;
  rs_post : ib_recvs_to_post t' = ib_recvs_to_post t;
  rs_wr : ib_recv_wr t' = ib_recv_wr t;
  rs_ring : ib_ring_extent t' = ib_ring_extent t;
  rs_fast : ib_use_fast_recv t' = ib_use_fast_recv t;
  rs_used : ib_fast_recv_used t' = ib_fast_recv_used t;
  rs_ah : ib_self_ah t' = ib_self_ah t;
  rs_rq : nic_rq (ib_nic t') = nic_rq (ib_nic t);
}.
#[export] Instance rx_same_preorder : PreOrder rx_same.
Proof. split; [by split|]. intros t1 t2 t3 [] []. split; congruence. Qed.

(** [k] packets of a batch that started in [t0] are built, none is posted. *)
Record building t0 (n : Z) (ws : list wqe) t : Prop := {
  bd_ok : send_ok t;
  bd_nb : ib_nb_tx t = n + zlength ws;
  bd_sq : nic_sq (ib_nic t) ++ flags n (length ws) = sq_shape (n + zlength ws);
  bd_rx : rx_same t0 t;
  bd_sent : nic_sent (ib_nic t) = nic_sent (ib_nic t0);
  bd_flush : ib_tx_flush_count t = ib_tx_flush_count t0;
  bd_ws j w : ws !! j = Some w -> exists wr, zlookup (ib_send_wr t) (Z.of_nat j) = Some wr /\
    wqe_of t wr = Some w;
}.

Lemma flags_unsignaled n k :
  0 <= n -> Z.of_nat k < kUnsigBatch -> (n + Z.of_nat k) mod kUnsigBatch = 0 ->
  flags n k = replicate k false.
Proof.
  intros Hn Hk Hm. pose proof unsig_pos as Hu. apply list_eq. intros j.
  destruct (decide (j < k)%nat) as [Hj|Hj].
  - unfold flags. rewrite list_lookup_fmap, lookup_seq_lt by done. cbn.
    rewrite lookup_replicate_2 by done. f_equal. apply Z.eqb_neq. intros E.
    apply Z.mod_divide in Hm as [a Ha]; [|lia]. apply Z.mod_divide in E as [b Hb]; [|lia].
    assert ((a - b) * kUnsigBatch = Z.of_nat k - Z.of_nat j) by lia.
    assert (0 < a - b) by nia. nia.
  - rewrite !lookup_ge_None_2; [done| |]; rewrite ?length_replicate;
      unfold flags; rewrite ?length_fmap, ?length_seq; lia.
Qed.

Lemma signaled_flag_wp (E : err -> Prop) t n k (Q : bool -> IB -> Prop) :
  0 <= n -> ib_nb_tx t = n + Z.of_nat k -> Z.of_nat k < kPostlist -> n + Z.of_nat k + 1 < 2 ^ 64 ->
  nic_sq (ib_nic t) ++ flags n k = sq_shape (n + Z.of_nat k) ->
  (forall n', nic_same (ib_nic t) n' -> nic_sq n' ++ flags n (S k) = sq_shape (n + Z.of_nat k + 1) ->
     Q ((n + Z.of_nat k) mod kUnsigBatch =? 0)
       (t <| ib_nic := n' |> <| ib_nb_tx := n + Z.of_nat k + 1 |>)) ->
  wpe E get_signaled_flag Q t.
Proof.
  intros Hn Hnb Hk Hw Hsq HQ. pose proof ttr_postlist_unsig. pose proof unsig_pos as Hu.
  unfold get_signaled_flag. wp_step. wp_step. rewrite Hnb. set (c := n + Z.of_nat k) in *.
  assert (Hinc : add64 c 1 = c + 1) by (apply add64_small; lia).
  assert (Hend : forall n' b, b = (c mod kUnsigBatch =? 0) -> nic_same (ib_nic t) n' ->
            nic_sq n' ++ flags n (S k) = sq_shape (c + 1) ->
            wpe E (modify (fun t => t <| ib_nb_tx ::= fun n => add64 n 1 |>);; mret b) Q
              (t <| ib_nic := n' |>)).
  { intros n' b -> S Hs. wp_step. wp_step. wp_step.
    assert (Es : (t <| ib_nic := n' |>) <| ib_nb_tx ::= fun n => add64 n 1 |>
               = (t <| ib_nic := n' |>) <| ib_nb_tx := c + 1 |>)
      by (rewrite <- Hinc, <- Hnb; by destruct t).
    rewrite Es. by apply HQ. }
  assert (Hid : t = t <| ib_nic := ib_nic t |>) by (by destruct t).
  wp_step. destruct (Z.eqb_spec (c mod kUnsigBatch) 0) as [Hm|Hm].
  - wp_step. wp_step.
    + apply negb_true_iff, Z.eqb_neq in H0. assert (Hc : 0 < c) by lia.
      destruct (sq_shape_signal c Hc Hm) as [E1 E2].
      rewrite (flags_unsignaled n k) in Hsq by (done || lia). rewrite E1 in Hsq.
      set (pre := if c <=? kUnsigBatch then _ else _) in Hsq.
      assert (Hl : nic_sq (ib_nic t) = pre ++ true :: replicate (Z.to_nat (kUnsigBatch - 1) - k) false).
      { apply (app_inj_2 _ _ (replicate k false) (replicate k false)); [done|].
        rewrite Hsq, <- app_assoc. cbn. f_equal. f_equal. rewrite <- replicate_add. f_equal. lia. }
      assert (Hpre : exists j, pre = replicate j false).
      { unfold pre. case_match; [by exists O|by eexists]. }
      destruct Hpre as (j & ->).
      eapply poll_one_wp; [exact Hl|]. intros n' S Hn'. wp_step. apply Hend; [done|done|].
      rewrite Hn', flags_S, (flags_unsignaled n k) by (done || lia). fold c. rewrite Hm, E2.
      rewrite app_assoc, <- replicate_add. f_equal. f_equal. lia.
    + wp_step. apply negb_false_iff, Z.eqb_eq in H0. rewrite Hid. apply Hend; [done|by split|].
      assert (k = O) as -> by lia. assert (Hn0 : n = 0) by lia. subst c. rewrite Hn0 in *.
      rewrite flags_S. fold (flags 0 0). rewrite app_assoc, Hsq.
      change (0 + Z.of_nat 0) with 0. by rewrite Zmod_0_l, (sq_shape_1 : sq_shape (0 + 1) = _).
  - wp_step. rewrite Hid. apply Hend; [done|by split|].
    assert (Hc : 0 < c). { destruct (decide (c = 0)) as [E0|]; [|lia]. by rewrite E0, Zmod_0_l in Hm. }
    rewrite flags_S, app_assoc, Hsq, (sq_shape_unsignaled c Hc Hm). fold c.
    by rewrite (proj2 (Z.eqb_neq _ _) Hm).
Qed.

Lemma tx_item_wp (E : err -> Prop) t0 n ws it t (Q : unit -> IB -> Prop) :
  building t0 n ws t -> item_ok it -> 0 <= n -> zlength ws < kPostlist -> n + zlength ws + 1 < 2 ^ 64 ->
  (forall t', building t0 n (ws ++ [item_wqe ((n + zlength ws) mod kUnsigBatch =? 0) it]) t' -> Q tt t') ->
  wpe E (tx_item (zlength ws) it) Q t.
Proof.
  intros B Hit Hn Hk Hw HQ. destruct B as [[L1 L2 L3 L4] B2 B3 B4 B5 B6 B7].
  set (i := zlength ws) in *. assert (Hi : 0 <= i) by (unfold i; apply zlength_nonneg).
  destruct (L3 i) as (wr & Hwr & W1 & W2 & W3 & W4); [lia|].
  destruct (zlookup_is_Some (ib_send_sgl t) i) as [sgl Hsgl]; [lia|].
  unfold tx_item. wp_step. wp_step. wp_step. eapply wp_deref; [exact Hwr|].
  wp_step. eapply wp_deref; [exact Hsgl|].
  wp_step. wp_step; [by apply bool_decide_eq_true|]. wp_step. wp_step; [by rewrite W2|].
  wp_step. wp_step; [done|]. wp_step. wp_step; [by apply bool_decide_eq_true|].
  wp_step. eapply (signaled_flag_wp _ t n (length ws)); [done..|].
  intros n' [S1 S2] Hs. wp_step. apply HQ. fold (zlength ws). fold i.
  destruct (item_sges_ok it sgl Hit) as [Es Ei]. rewrite Ei.
  assert (Hdrop : kTesting && ii_drop it = false) by done. rewrite Hdrop.
  set (b := (n + i) mod kUnsigBatch =? 0) in *. split.
  - split; rsimp.
    + by rewrite zlength_zinsert.
    + by rewrite zlength_zinsert.
    + intros j Hj. destruct (decide (i = j)) as [<-|Hne].
      * rewrite zlookup_zinsert_eq by lia. by eexists.
      * rewrite zlookup_zinsert_ne by done. by apply L3.
    + lia.
  - rsimp. rewrite zlength_app. change (zlength [_]) with 1. fold i. lia.
  - rsimp. rewrite length_app, Nat.add_1_r, zlength_app. change (zlength [_]) with 1. fold i.
    rewrite Hs. f_equal. unfold i, zlength. lia.
  - etrans; [exact B4|]. by split.
  - etrans; [exact S1|exact B5].
  - exact B6.
  - intros j w Hj. destruct (decide (j = length ws)) as [->|Hne].
    + rewrite list_lookup_middle in Hj by done. injection Hj as <-.
      fold (zlength ws). fold i. rsimp. rewrite zlookup_zinsert_eq by lia. eexists. split; [done|].
      unfold wqe_of. rsimp. rewrite W4. cbn. rewrite zlookup_zinsert_eq by lia. cbn.
      unfold item_wqe. rewrite <- Es, W2. done.
    + assert (Hlt : (j < length ws)%nat).
      { apply lookup_lt_Some in Hj. rewrite length_app in Hj. cbn in Hj. lia. }
      rewrite lookup_app_l in Hj by done. destruct (B7 j w Hj) as (wr' & E1 & E2).
      assert (Hij : i <> Z.of_nat j) by (unfold i, zlength; lia).
      exists wr'. rsimp. rewrite zlookup_zinsert_ne by done. split; [done|].
      destruct (L3 (Z.of_nat j)) as (wr2 & F1 & _ & _ & _ & F4); [unfold i, zlength in *; lia|].
      rewrite E1 in F1. injection F1 as <-.
      revert E2. unfold wqe_of. rsimp. rewrite F4. cbn. by rewrite zlookup_zinsert_ne.
Qed.

(** The requests of a batch that starts at count [n]. *)
Fixpoint batch_wqes (n : Z) (items : list ib_item) : list wqe :=
  match items with
  | [] => []
  | it :: items => item_wqe (n mod kUnsigBatch =? 0) it :: batch_wqes (n + 1) items
  end.
Lemma batch_wqes_length n items : length (batch_wqes n items) = length items.
Proof. revert n. induction items as [|it items IH]; intros n; cbn; [done|]. by rewrite IH. Qed.
Lemma batch_wqes_flags n items : wq_signaled <$> batch_wqes n items = flags n (length items).
Proof.
  revert n. induction items as [|it items IH]; intros n; [done|]. cbn [batch_wqes length].
  rewrite fmap_cons, IH. unfold flags. cbn [seq]. rewrite fmap_cons. f_equal.
  - cbn. by rewrite Z.add_0_r.
  - rewrite <- fmap_S_seq, <- list_fmap_compose. apply list_fmap_ext. intros j x _. cbn.
    f_equal. f_equal. lia.
Qed.

Lemma tx_items_wp (E : err -> Prop) t0 n ws items t (Q : unit -> IB -> Prop) :
  building t0 n ws t -> Forall item_ok items -> 0 <= n ->
  zlength ws + zlength items <= kPostlist -> n + zlength ws + zlength items < 2 ^ 64 ->
  (forall t', building t0 n (ws ++ batch_wqes (n + zlength ws) items) t' -> Q tt t') ->
  wpe E (tx_items (zlength ws) items) Q t.
Proof.
  revert ws t. induction items as [|it items IH]; intros ws t B Hit Hn Hk Hw HQ; cbn [tx_items].
  - wp_step. apply HQ. by rewrite app_nil_r.
  - apply Forall_cons in Hit as [Hi Hit].
    assert (Hz : zlength (it :: items) = 1 + zlength items) by (unfold zlength; cbn; lia).
    rewrite Hz in *. pose proof (zlength_nonneg items).
    wp_step. eapply tx_item_wp; [exact B|done|done|lia|lia|]. intros t' B'.
    set (w := item_wqe _ it) in *.
    assert (Hl : zlength ws + 1 = zlength (ws ++ [w])) by (by rewrite zlength_app).
    rewrite Hl. apply IH; [done|done|done|lia|lia|]. intros t2 B2. apply HQ.
    rewrite <- Hl, <- app_assoc, Z.add_assoc in B2. exact B2.
Qed.

(** ** Posting *)
Lemma send_chain_ok t ws fuel :
  ws <> [] -> (length ws <= fuel)%nat ->
  (forall j w, ws !! j = Some w -> exists wr, zlookup (ib_send_wr t) (Z.of_nat j) = Some wr /\
     wqe_of t wr = Some w /\
     sw_next wr = if decide (j = length ws - 1)%nat then None else Some (Z.of_nat j + 1)) ->
  send_chain fuel t 0 = Some ws.
Proof.
  intros Hne Hf H.
  cut (forall k fuel, (k < length ws)%nat -> (length ws - k <= fuel)%nat ->
         send_chain fuel t (Z.of_nat k) = Some (drop k ws)).
  { intros Hc. apply (Hc O fuel); [|lia]. destruct ws; [done|cbn; lia]. }
  intros k f Hk. remember (length ws - k)%nat as m eqn:Hm. revert k f Hk Hm.
  induction m as [|m IH]; intros k f Hk Hm Hf'; [lia|]. destruct f as [|f]; [lia|]. cbn [send_chain].
  destruct (lookup_lt_is_Some_2 ws k Hk) as [w Hw]. destruct (H k w Hw) as (wr & E1 & E2 & E3).
  rewrite E1. cbn. rewrite E2. cbn. rewrite E3. rewrite (drop_S ws w k Hw). case_decide as D.
  - rewrite drop_ge by lia. done.
  - replace (Z.of_nat k + 1) with (Z.of_nat (S k)) by lia. rewrite IH by lia. done.
Qed.

Lemma set_send_next_wp (E : err -> Prop) i v wr t (Q : unit -> IB -> Prop) :
  zlookup (ib_send_wr t) i = Some wr ->
  Q tt (t <| ib_send_wr := zinsert i (wr <| sw_next := v |>) (ib_send_wr t) |>) ->
  wpe E (set_send_next i v) Q t.
Proof.
  intros H HQ. unfold set_send_next. do 2 wp_step. wp_step. eapply wp_deref; [exact H|].
  wp_step. by destruct t.
Qed.

Lemma post_send_wp (E : err -> Prop) t ws (Q : unit -> IB -> Prop) :
  send_chain (length (ib_send_wr t)) t 0 = Some ws ->
  zlength (nic_sq (ib_nic t)) + zlength ws <= kSQDepth ->
  (forall n', nic_sq n' = nic_sq (ib_nic t) ++ (wq_signaled <$> ws) ->
     nic_sent n' = nic_sent (ib_nic t) ++ ws -> nic_rq n' = nic_rq (ib_nic t) ->
     Q tt (t <| ib_nic := n' |>)) ->
  wpe E post_send Q t.
Proof.
  intros H Hl HQ. unfold post_send. do 2 wp_step. wp_step. eapply wp_deref; [exact H|].
  wp_step. unfold nic_call, wpe at 1. pose proof (vo_post_send ws (ib_nic t) Hl) as Hp.
  destruct (ibv_post_send ws (ib_nic t)) as [ret n']. destruct Hp as (-> & H1 & H2 & H3).
  wp_step; [done|]. by apply HQ.
Qed.

(** ** The theorems of transmission *)
Record tx_inv t : Prop := {
  ti_ok : send_ok t;
  ti_sq : nic_sq (ib_nic t) = sq_shape (ib_nb_tx t);
}.

(** The chain of a built batch, once it is broken after its last request. *)
Lemma built_chain t0 n ws t wr :
  building t0 n ws t -> 1 <= zlength ws <= kPostlist ->
  zlookup (ib_send_wr t) (zlength ws - 1) = Some wr ->
  let t' := t <| ib_send_wr := zinsert (zlength ws - 1) (wr <| sw_next := None |>) (ib_send_wr t) |> in
  send_chain (length (ib_send_wr t')) t' 0 = Some ws.
Proof.
  intros B Hk Hwr t'. apply send_chain_ok.
  - intros ->. unfold zlength in Hk. cbn in Hk. lia.
  - pose proof (so_len t (bd_ok _ _ _ _ B)). unfold t'. rsimp.
    pose proof (zlength_zinsert (zlength ws - 1) (wr <| sw_next := None |>) (ib_send_wr t)) as E.
    unfold zlength in *. lia.
  - intros j w Hj. pose proof (lookup_lt_Some _ _ _ Hj) as Hlt.
    destruct (bd_ws _ _ _ _ B j w Hj) as (wr' & E1 & E2). unfold t'. rsimp.
    destruct (decide (j = length ws - 1)%nat) as [->|D].
    + assert (Ej : zlength ws - 1 = Z.of_nat (length ws - 1)) by (unfold zlength; lia).
      rewrite <- Ej in *. rewrite E1 in Hwr. injection Hwr as ->.
      rewrite zlookup_zinsert_eq by (by eapply zlookup_lt). by eexists.
    + rewrite zlookup_zinsert_ne by (unfold zlength; lia).
      destruct (so_wr t (bd_ok _ _ _ _ B) (Z.of_nat j)) as (wr2 & F1 & F2 & _); [unfold zlength in *; lia|].
      rewrite E1 in F1. injection F1 as <-. by exists wr'.
Qed.

(** C13 tx_burst of at most a postlist of packets passes every assertion, never
    waits for a completion that is not coming, and never overflows the send
    queue; it posts exactly one request per packet, in order, whose entries
    cover the packet's header and payload in its message buffer. *)
Theorem tx_burst_correct t items :
  tx_inv t -> Forall item_ok items -> 1 <= zlength items <= kPostlist ->
  ib_nb_tx t + zlength items < 2 ^ 64 ->
  exists t', tx_burst items t = Ok tt t' /\ tx_inv t' /\ rx_same t t' /\
    ib_nb_tx t' = ib_nb_tx t + zlength items /\
    nic_sent (ib_nic t') = nic_sent (ib_nic t) ++ batch_wqes (ib_nb_tx t) items.
Proof.
  intros [Hok Hsq] Hit [Hk1 Hk2] Hw. set (n := ib_nb_tx t) in *.
  cut (wp (tx_burst items) (fun _ t' => tx_inv t' /\ rx_same t t' /\
         ib_nb_tx t' = n + zlength items /\
         nic_sent (ib_nic t') = nic_sent (ib_nic t) ++ batch_wqes n items) t).
  { rewrite wp_run. intros ([] & t' & E & H). by exists t'. }
  assert (B0 : building t n [] t).
  { split; try done; change (n + zlength []) with (n + 0); rewrite Z.add_0_r; [done|].
    by rewrite <- Hsq, app_nil_r. }
  unfold tx_burst. wp_step. change 0 with (zlength ([] : list wqe)) at 1.
  eapply tx_items_wp; [exact B0|done|apply Hok|exact Hk2|change (n + 0 + zlength items < 2 ^ 64); lia|]. cbn [app]. intros t1 B1.
  change (n + zlength []) with (n + 0) in B1. rewrite Z.add_0_r in B1.
  set (ws := batch_wqes n items) in *.
  assert (Hlw : zlength ws = zlength items) by (unfold ws, zlength; by rewrite batch_wqes_length).
  rewrite <- Hlw in *. destruct B1 as [Hok1 Hnb1 Hsq1 Hrx1 Hsent1 Hfl1 Hws1].
  destruct (so_wr t1 Hok1 (zlength ws - 1)) as (wr & Hwr & W1 & _); [lia|].
  wp_step. eapply set_send_next_wp; [exact Hwr|].
  wp_step. eapply post_send_wp.
  - by eapply built_chain.
  - rsimp. pose proof (f_equal zlength Hsq1) as El. rewrite zlength_app in El.
    pose proof (sq_shape_length (n + zlength ws)) as Hb. pose proof (so_nb t Hok).
    unfold flags in El. unfold zlength in El at 2. rewrite length_fmap, length_seq in El.
    pose proof ib_sq_depth. unfold zlength in *. lia.
  - intros n' H1 H2 H3. rsimp in H1. rsimp in H2. rsimp in H3.
    eapply set_send_next_wp; [rsimp; apply zlookup_zinsert_eq; by eapply zlookup_lt|].
    rsimp. rewrite zinsert_zinsert.
    assert (Er : wr <| sw_next := Some (zlength ws) |> = wr).
    { destruct wr. unfold update. cbn in *. f_equal. rewrite W1. f_equal. lia. }
    rewrite Er, zinsert_id by done. split_and!.
    + split; [by destruct Hok1|]. rsimp. rewrite H1, Hnb1, <- Hsq1.
      unfold ws. by rewrite batch_wqes_flags, batch_wqes_length.
    + etrans; [exact Hrx1|]. by split.
    + exact Hnb1.
    + rsimp. by rewrite H2, Hsent1.
Qed.

Lemma sq_shape_poll n : 0 <= n -> n <> 0 ->
  exists k m, sq_shape n = replicate k false ++ true :: replicate m false /\ Z.of_nat m < kUnsigBatch.
Proof.
  intros Hn H0. pose proof unsig_pos as Hu. unfold sq_shape. rewrite (proj2 (Z.eqb_neq _ _)) by done.
  pose proof (Z.mod_pos_bound (n - 1) kUnsigBatch Hu).
  case_match; [exists O|eexists]; (eexists; split; [reflexivity|lia]).
Qed.

(** The flush request's slot: everything constant about it survives. *)
Lemma send_ok_flush t wr sgl :
  send_ok t -> sw_next wr = Some 1 ->
  sw_remote_qkey wr = kQKey -> sw_is_send_with_imm wr = true -> sw_sg_list wr = Some 0 ->
  send_ok (t <| ib_send_sgl ::= zinsert 0 sgl |> <| ib_send_wr ::= zinsert 0 wr |>).
Proof.
  intros [L1 L2 L3 L4] W1 W2 W3 W4. split; rsimp; rewrite ?zlength_zinsert; try done.
  intros i Hi. destruct (decide (0 = i)) as [<-|Hne].
  - pose proof ttr_postlist_pos. rewrite zlookup_zinsert_eq by lia. by exists wr.
  - rewrite zlookup_zinsert_ne by done. by apply L3.
Qed.

Lemma send_ok_fields t t' :
  ib_send_wr t' = ib_send_wr t -> ib_send_sgl t' = ib_send_sgl t -> 0 <= ib_nb_tx t' ->
  send_ok t -> send_ok t'.
Proof. intros E1 E2 E3 []. split; rewrite ?E1, ?E2; done. Qed.

Lemma single_chain t wr row :
  zlookup (ib_send_wr t) 0 = Some wr -> sw_next wr = None -> sw_num_sge wr = 1 ->
  sw_sg_list wr = Some 0 -> zlookup (ib_send_sgl t) 0 = Some row ->
  send_chain (length (ib_send_wr t)) t 0
  = Some [mkWqe (sw_signaled wr) (sw_inline wr) [row.1] (sw_ah wr) (sw_remote_qpn wr) (sw_remote_qkey wr)].
Proof.
  intros H Hn Hs Hl Hr. apply send_chain_ok; [done| |].
  - pose proof (zlookup_lt _ _ _ H) as Hz. unfold zlength in Hz. cbn. lia.
  - intros [|j] w; [|done]. intros [= <-]. exists wr. split; [done|]. split; [|done].
    unfold wqe_of, base.mbind, option_bind. by rewrite Hl, Hr, Hs.
Qed.

(** C14 After tx_flush no send is outstanding: the device has finished with every
    buffer that was handed to tx_burst, so that the caller owns them again. No
    poll waits for a completion that is not coming. *)
Theorem tx_flush_drains t :
  tx_inv t ->
  exists t', tx_flush t = Ok tt t' /\ tx_inv t' /\ rx_same t t' /\
    ib_nb_tx t' = 0 /\ nic_sq (ib_nic t') = [].
Proof.
  intros Ht. pose proof Ht as [Hok Hsq].
  cut (wp tx_flush (fun _ t' => tx_inv t' /\ rx_same t t' /\ ib_nb_tx t' = 0 /\
         nic_sq (ib_nic t') = []) t).
  { rewrite wp_run. intros ([] & t' & E & H). by exists t'. }
  unfold tx_flush. wp_step. wp_step. wp_step.
  { wp_step. apply Z.eqb_eq in H. rewrite H in Hsq. by split_and!. }
  apply Z.eqb_neq in H.
  destruct (sq_shape_poll (ib_nb_tx t) (so_nb t Hok) H) as (k & m & Hs & Hm). rewrite Hs in Hsq.
  wp_step. eapply poll_one_wp; [exact Hsq|]. intros n1 [S1 S2] Hn1.
  pose proof ttr_postlist_pos as Hp. destruct (so_wr t Hok 0) as (wr & Hwr & W1 & W2 & W3 & W4); [lia|].
  destruct (zlookup_is_Some (ib_send_sgl t) 0) as [sgl Hsgl]; [rewrite (so_sgl t Hok); lia|].
  do 3 wp_step. eapply wp_deref; [exact Hwr|]. wp_step. eapply wp_deref; [exact Hsgl|].
  wp_step. wp_step; [by apply bool_decide_eq_true|]. wp_step. wp_step; [by rewrite W2|].
  wp_step. wp_step; [done|]. wp_step. wp_step; [by apply bool_decide_eq_true|]. do 2 wp_step.
  set (t1 := update ib_send_wr _ _).
  assert (Hz : 0 <= 0 < zlength (ib_send_wr t)) by (rewrite (so_len t Hok); lia).
  assert (Hz2 : 0 <= 0 < zlength (ib_send_sgl t)) by (rewrite (so_sgl t Hok); lia).
  set (w := mkWqe true true [mkSge flush_inline_buf 1 (sge_lkey sgl.1)] (ib_self_ah t) 0 kQKey).
  wp_step. apply (post_send_wp _ _ [w]).
  { erewrite single_chain; [|unfold t1; rsimp; apply zlookup_zinsert_eq; exact Hz|done|done|exact W4
      |unfold t1; rsimp; apply zlookup_zinsert_eq; exact Hz2].
    unfold w. rewrite <- W2. reflexivity. }
  { unfold t1. rsimp. rewrite Hn1. unfold zlength. rewrite length_replicate. cbn.
    pose proof ib_sq_depth. lia. }
  intros n2 R1 R2 R3. wp_step.
  eapply set_send_next_wp; [unfold t1; rsimp; apply zlookup_zinsert_eq; rsimp; exact Hz|].
  wp_step. unfold t1 in R1, R3. rsimp in R1. rsimp in R3. rewrite Hn1 in R1. cbn in R1.
  eapply poll_one_wp; [rsimp; exact R1|]. intros n3 [P1 P2] Hn3. wp_step. split_and!.
  - split; [|exact Hn3]. unfold t1.
    apply (send_ok_fields (t <| ib_send_sgl ::= zinsert 0 (mkSge flush_inline_buf 1 (sge_lkey sgl.1), sgl.2) |>
      <| ib_send_wr ::= zinsert 0 (wr <| sw_next := Some 1 |> <| sw_signaled := true |>
           <| sw_inline := true |> <| sw_num_sge := 1 |> <| sw_remote_qpn := 0 |>
           <| sw_ah := ib_self_ah t |>) |>)); [|reflexivity|done|
      apply send_ok_flush; [exact Hok|reflexivity|exact W2|exact W3|exact W4]].
    rsimp. by rewrite zinsert_zinsert.
  - split; try done. rsimp in P2. exact (eq_trans P2 (eq_trans R3 S2)).
  - done.
  - exact Hn3.
Qed.

(** [init_sends] fills in the constant fields. *)
Lemma init_sends_ok t :
  zlength (ib_send_wr t) = kPostlist + 1 -> zlength (ib_send_sgl t) = kPostlist -> 0 <= ib_nb_tx t ->
  exists t', init_sends t = Ok tt t' /\ send_ok t' /\ ib_nb_tx t' = ib_nb_tx t /\ ib_nic t' = ib_nic t.
Proof.
  intros H1 H2 H3. pose proof ttr_postlist_pos as Hp.
  cut (wp init_sends (fun _ t' => send_ok t' /\ ib_nb_tx t' = ib_nb_tx t /\ ib_nic t' = ib_nic t) t).
  { rewrite wp_run. intros ([] & t' & E & H). by exists t'. }
  unfold init_sends. remember (Z.of_nat <$> seq 0 (Z.to_nat kPostlist)) as l eqn:Dl.
  eapply wp_mono.
  { apply (wp_miter _ (fun d t' => zlength (ib_send_wr t') = kPostlist + 1 /\
      ib_send_sgl t' = ib_send_sgl t /\ ib_nb_tx t' = ib_nb_tx t /\ ib_nic t' = ib_nic t /\
      forall i, 0 <= i < zlength d -> exists wr, zlookup (ib_send_wr t') i = Some wr /\
        sw_next wr = Some (i + 1) /\ sw_remote_qkey wr = kQKey /\
        sw_is_send_with_imm wr = true /\ sw_sg_list wr = Some i)).
    { split_and!; try done. intros i Hi. unfold zlength in Hi. cbn in Hi. lia. }
    intros d i todo t' Hl (L1 & L2 & L3 & L4 & L5).
    assert (Hi : i = zlength d /\ i < kPostlist) by (by eapply seq_at).
    destruct Hi as [-> Hi]. pose proof (zlength_nonneg d).
    destruct (zlookup_is_Some (ib_send_wr t') (zlength d)) as [wr Hwr]; [lia|].
    wp_step. wp_step. wp_step. eapply wp_deref; [exact Hwr|]. wp_step. rsimp.
    split_and!; [by rewrite zlength_zinsert|done..|].
    intros i Hi2. rewrite zlength_app in Hi2. change (zlength [_]) with 1 in Hi2.
    destruct (decide (zlength d = i)) as [<-|Hne].
    - rewrite zlookup_zinsert_eq by lia. by eexists.
    - rewrite zlookup_zinsert_ne by done. apply L5. lia. }
  cbn beta. intros [] t' (L1 & L2 & L3 & L4 & L5). split; [|done].
  split; [done|by rewrite L2| |by rewrite L3]. intros i Hi. apply L5.
  rewrite Dl. unfold zlength. rewrite length_fmap, length_seq. lia.
Qed.

(** ** Reception *)
Lemma rq_big : 96 < kRQDepth.
Proof. done. Qed.
#[local] Opaque kRQDepth.

Definition ring_idxs : list Z := Z.of_nat <$> seq 0 (Z.to_nat kRQDepth).
Definition desc_wqe (ring : Buffer) (i : Z) : recv_wqe :=
  mkRecvWqe (rw_wr_id (recv_desc ring i)) (rw_sge (recv_desc ring i)).
(** The receives number [c] to [p - 1] since the start, in ring order. *)
Definition ring_wqes (ring : Buffer) (c p : Z) : list recv_wqe :=
  (fun j => desc_wqe ring ((c + Z.of_nat j) mod kRQDepth)) <$> seq 0 (Z.to_nat (p - c)).

(** [c] completions were polled; the Rpc still owns [owned] of their entries. *)
Record rx_inv (ring : Buffer) (c owned : Z) t : Prop := {
  ri_wr : ib_recv_wr t = recv_desc ring <$> ring_idxs;
  ri_slack : 0 <= ib_recvs_to_post t < kRecvSlack;
  ri_slow : ib_use_fast_recv t = false;
  ri_unused : ib_fast_recv_used t = false;
  ri_c : 0 <= c;
  ri_owned : 0 <= owned;
  ri_head : ib_recv_head t = (c - owned - ib_recvs_to_post t) mod kRQDepth;
  ri_rq : nic_rq (ib_nic t) = ring_wqes ring c (kRQDepth + c - owned - ib_recvs_to_post t);
}.

Lemma ring_wqes_length ring c p : c <= p -> zlength (ring_wqes ring c p) = p - c.
Proof. intros H. unfold ring_wqes, zlength. rewrite length_fmap, length_seq. lia. Qed.
Lemma ring_wqes_app ring a b c : a <= b <= c -> ring_wqes ring a c = ring_wqes ring a b ++ ring_wqes ring b c.
Proof.
  intros H. unfold ring_wqes. replace (Z.to_nat (c - a)) with (Z.to_nat (b - a) + Z.to_nat (c - b))%nat by lia.
  rewrite seq_app, fmap_app. f_equal. rewrite Nat.add_comm.
  rewrite <- (fmap_add_seq (Z.to_nat (b - a)) 0), <- list_fmap_compose.
  apply list_fmap_ext. intros j x _. cbn. f_equal. f_equal. lia.
Qed.
Lemma ring_wqes_take ring a b c n :
  a <= b <= c -> n = Z.to_nat (b - a) ->
  take n (ring_wqes ring a c) = ring_wqes ring a b /\ drop n (ring_wqes ring a c) = ring_wqes ring b c.
Proof.
  intros H ->. rewrite (ring_wqes_app ring a b c H).
  assert (El : Z.to_nat (b - a) = length (ring_wqes ring a b)).
  { pose proof (ring_wqes_length ring a b). unfold zlength in *. lia. }
  by rewrite El, take_app_length, drop_app_length.
Qed.
(** Whole turns of the ring change nothing. *)
Lemma ring_wqes_turn ring k c p :
  ring_wqes ring (k * kRQDepth + c) (k * kRQDepth + p) = ring_wqes ring c p.
Proof.
  unfold ring_wqes. replace (k * kRQDepth + p - (k * kRQDepth + c)) with (p - c) by lia.
  apply list_fmap_ext. intros j x _. cbn. f_equal.
  replace (k * kRQDepth + c + Z.of_nat x) with (c + Z.of_nat x + k * kRQDepth) by lia.
  by rewrite Z.mod_add by (pose proof rq_big; lia).
Qed.
Lemma ring_wqes_cons ring a b :
  a < b -> ring_wqes ring a b = desc_wqe ring (a mod kRQDepth) :: ring_wqes ring (a + 1) b.
Proof.
  intros H. rewrite (ring_wqes_app ring a (a + 1) b) by lia.
  assert (E : ring_wqes ring a (a + 1) = [desc_wqe ring (a mod kRQDepth)]); [|by rewrite E].
  unfold ring_wqes. replace (Z.to_nat (a + 1 - a)) with 1%nat by lia. cbn. by rewrite Z.add_0_r.
Qed.

Lemma ring_desc_lookup ring i : 0 <= i < kRQDepth -> zlookup (recv_desc ring <$> ring_idxs) i = Some (recv_desc ring i).
Proof.
  intros Hi. unfold zlookup, ring_idxs. rewrite (proj2 (Z.leb_le 0 i)) by lia.
  rewrite !list_lookup_fmap, lookup_seq_lt by lia. cbn. do 2 f_equal. lia.
Qed.
Lemma recv_desc_next ring i : 0 <= i < kRQDepth -> rw_next (recv_desc ring i) = Some ((i + 1) mod kRQDepth).
Proof.
  intros Hi. cbn. f_equal. destruct (Z.ltb_spec i (kRQDepth - 1)).
  - by rewrite Z.mod_small by lia.
  - replace (i + 1) with kRQDepth by lia. by rewrite Z.mod_same by lia.
Qed.

Lemma recv_chain_ok ring t first r :
  let last := (first + r - 1) mod kRQDepth in
  1 <= r <= kRQDepth ->
  ib_recv_wr t = zinsert last ((recv_desc ring last) <| rw_next := None |>) (recv_desc ring <$> ring_idxs) ->
  recv_chain (length (ib_recv_wr t)) t (first mod kRQDepth) = Some (ring_wqes ring first (first + r)).
Proof.
  intros last Hr Ht. pose proof rq_big as Hq.
  assert (Hlast : 0 <= last < kRQDepth) by (apply Z.mod_pos_bound; lia).
  assert (Hlen : length (ib_recv_wr t) = Z.to_nat kRQDepth).
  { pose proof (zlength_zinsert last ((recv_desc ring last) <| rw_next := None |>)
      (recv_desc ring <$> ring_idxs)) as Hz. rewrite Ht. unfold zlength in Hz.
    rewrite length_fmap in Hz. unfold ring_idxs in *. rewrite length_fmap, length_seq in Hz. lia. }
  rewrite Hlen.
  cut (forall m fuel k, Z.of_nat m = r - k -> 0 <= k < r -> (m <= fuel)%nat ->
         recv_chain fuel t ((first + k) mod kRQDepth) = Some (ring_wqes ring (first + k) (first + r))).
  { intros Hc. specialize (Hc (Z.to_nat r) (Z.to_nat kRQDepth) 0). rewrite Z.add_0_r in Hc.
    apply Hc; lia. }
  clear Hlen. induction m as [|m IH]; intros fuel k Hm Hk Hf; [lia|]. destruct fuel as [|fuel]; [lia|].
  cbn [recv_chain]. set (i := (first + k) mod kRQDepth).
  assert (Hi : 0 <= i < kRQDepth) by (apply Z.mod_pos_bound; lia).
  rewrite (ring_wqes_cons ring (first + k)) by lia. fold i. rewrite Ht.
  destruct (decide (k = r - 1)) as [->|Hne].
  - assert (i = last) as -> by (unfold i, last; f_equal; lia).
    erewrite zlookup_zinsert_eq by (eapply zlookup_lt, ring_desc_lookup; lia).
    replace (first + (r - 1) + 1) with (first + r) by lia.
    unfold ring_wqes at 1. by rewrite Z.sub_diag.
  - assert (Hil : last <> i).
    { unfold last, i. intros E. assert (H0 : kRQDepth <> 0) by lia.
      pose proof (Z.div_mod (first + r - 1) _ H0). pose proof (Z.div_mod (first + k) _ H0).
      rewrite E in *. set (q1 := (first + r - 1) / _) in *. set (q2 := (first + k) / _) in *.
      assert (kRQDepth * (q1 - q2) = r - 1 - k) by lia. assert (0 < q1 - q2) by nia. nia. }
    rewrite zlookup_zinsert_ne, ring_desc_lookup by done.
    unfold base.mbind, option_bind. rewrite recv_desc_next by done.
    assert (Ei : (i + 1) mod kRQDepth = (first + (k + 1)) mod kRQDepth).
    { unfold i. rewrite Zplus_mod_idemp_l. f_equal. lia. }
    rewrite Ei, (IH fuel (k + 1)) by lia. by rewrite Z.add_assoc.
Qed.

(** What receiving leaves alone. *)
Record tx_same t t' : Prop := {
  ts_nb : ib_nb_tx t' = ib_nb_tx t;
  ts_wr : ib_send_wr t' = ib_send_wr t;
  ts_sgl : ib_send_sgl t' = ib_send_sgl t;
  ts_sq : nic_sq (ib_nic t') = nic_sq (ib_nic t);
  ts_sent : nic_sent (ib_nic t') = nic_sent (ib_nic t);
}.
#[export] Instance tx_same_preorder : PreOrder tx_same.
Proof. split; [by split|]. intros t1 t2 t3 [] []. split; congruence. Qed.

Lemma set_recv_next_wp (E : err -> Prop) i v wr t (Q : unit -> IB -> Prop) :
  zlookup (ib_recv_wr t) i = Some wr ->
  Q tt (t <| ib_recv_wr := zinsert i (wr <| rw_next := v |>) (ib_recv_wr t) |>) ->
  wpe E (set_recv_next i v) Q t.
Proof.
  intros H HQ. unfold set_recv_next. do 2 wp_step. wp_step. eapply wp_deref; [exact H|].
  wp_step. by destruct t.
Qed.

Lemma post_recv_wp (E : err -> Prop) t first ws (Q : Z -> IB -> Prop) :
  recv_chain (length (ib_recv_wr t)) t first = Some ws ->
  zlength (nic_rq (ib_nic t)) + zlength ws <= kRQDepth ->
  (forall n', nic_rq n' = nic_rq (ib_nic t) ++ ws -> nic_sq n' = nic_sq (ib_nic t) ->
     nic_sent n' = nic_sent (ib_nic t) -> Q 0 (t <| ib_nic := n' |>)) ->
  wpe E (post_recv first) Q t.
Proof.
  intros H Hl HQ. unfold post_recv. do 2 wp_step. wp_step. eapply wp_deref; [exact H|].
  unfold nic_call, wpe. pose proof (vo_post_recv ws (ib_nic t) Hl) as Hp.
  destruct (ibv_post_recv ws (ib_nic t)) as [ret n']. destruct Hp as (-> & H1 & H2 & H3).
  by apply HQ.
Qed.

(** Posting [r] receives from [first] on, the chain being broken after the last,
    and mending the chain. *)
Definition broken (ring : Buffer) (last : Z) : list recv_wr_t :=
  zinsert last ((recv_desc ring last) <| rw_next := None |>) (recv_desc ring <$> ring_idxs).
Lemma post_ring_wp (E : err -> Prop) ring t first r what (k : M IB unit) (Q : unit -> IB -> Prop) :
  let last := (first + r - 1) mod kRQDepth in
  ib_recv_wr t = recv_desc ring <$> ring_idxs -> 1 <= r <= kRQDepth ->
  zlength (nic_rq (ib_nic t)) + r <= kRQDepth ->
  (forall n', nic_rq n' = nic_rq (ib_nic t) ++ ring_wqes ring first (first + r) ->
     nic_sq n' = nic_sq (ib_nic t) -> nic_sent n' = nic_sent (ib_nic t) ->
     wpe E k Q (t <| ib_recv_wr := broken ring last |> <| ib_nic := n' |>)) ->
  wpe E (set_recv_next last None;; ret ← post_recv (first mod kRQDepth);
         rt_assert (ret =? 0) what;; k) Q t.
Proof.
  intros last Ht Hr Hl HQ. pose proof rq_big.
  assert (Hlast : 0 <= last < kRQDepth) by (apply Z.mod_pos_bound; lia).
  pose proof (ring_desc_lookup ring last Hlast) as Hd. rewrite <- Ht in Hd.
  wp_step. eapply set_recv_next_wp; [exact Hd|]. rewrite Ht. fold (broken ring last).
  wp_step. eapply post_recv_wp.
  { by apply (recv_chain_ok ring _ first r Hr). }
  { rewrite ring_wqes_length by lia. rsimp. lia. }
  intros n' R1 R2 R3. wp_step. wp_step; [done|]. by apply HQ.
Qed.
Lemma mend_wp (E : err -> Prop) ring last t (Q : unit -> IB -> Prop) :
  0 <= last < kRQDepth -> ib_recv_wr t = broken ring last ->
  Q tt (t <| ib_recv_wr := recv_desc ring <$> ring_idxs |>) ->
  wpe E (set_recv_next last (rw_next (recv_desc ring last))) Q t.
Proof.
  intros Hl Ht HQ. pose proof (ring_desc_lookup ring last Hl) as Hd.
  eapply set_recv_next_wp.
  - rewrite Ht. apply zlookup_zinsert_eq. by eapply zlookup_lt.
  - rewrite Ht. unfold broken. rewrite zinsert_zinsert.
    assert (Er : ((recv_desc ring last) <| rw_next := None |>) <| rw_next := rw_next (recv_desc ring last) |>
      = recv_desc ring last) by done.
    by rewrite Er, zinsert_id.
Qed.

Lemma rx_inv_posted ring c t h :
  ib_recv_wr t = recv_desc ring <$> ring_idxs -> ib_use_fast_recv t = false ->
  ib_fast_recv_used t = false -> 0 <= c -> h = c mod kRQDepth ->
  nic_rq (ib_nic t) = ring_wqes ring c (kRQDepth + c) ->
  rx_inv ring c 0 (t <| ib_recv_head := h |> <| ib_recvs_to_post := 0 |>).
Proof.
  intros H1 H2 H3 H4 H5 H6. split; rsimp; [done|done|done|done|done|done| |].
  - rewrite H5. f_equal. lia.
  - rewrite H6. f_equal. lia.
Qed.

Lemma ring_step f r :
  1 <= r <= kRQDepth ->
  (if kRQDepth <=? f mod kRQDepth + (r - 1) then f mod kRQDepth + (r - 1) - kRQDepth
   else f mod kRQDepth + (r - 1)) = (f + r - 1) mod kRQDepth.
Proof.
  intros Hr. pose proof rq_big. assert (H0 : kRQDepth <> 0) by lia.
  pose proof (Z.div_mod f _ H0) as Hd. assert (Hb : 0 <= f mod kRQDepth < kRQDepth) by (apply Z.mod_pos_bound; lia).
  case_match.
  - apply (Z.mod_unique_pos _ _ (f / kRQDepth + 1)); lia.
  - apply (Z.mod_unique_pos _ _ (f / kRQDepth)); lia.
Qed.

(** [post_recvs] by the Rpc, which returns the entries it owns. *)
Lemma post_recvs_wp (E : err -> Prop) ring c owned t (Q : unit -> IB -> Prop) :
  rx_inv ring c owned t -> owned <= kPostlist ->
  (forall t', rx_inv ring c 0 t' -> tx_same t t' -> Q tt t') ->
  wpe E (post_recvs owned) Q t.
Proof.
  intros [I1 I2 I3 I4 I5 I6 I7 I8] Ho HQ. pose proof rq_big as Hq.
  assert (Hp : kPostlist <= 64).
  { pose proof ttr_postlist_unsig. pose proof ib_sq_depth. unfold kSQDepth in *. lia. }
  assert (Hs : kRecvSlack = 32) by done. set (p := ib_recvs_to_post t) in *.
  unfold post_recvs. wp_step. wp_step. wp_step. wp_step; [by rewrite I4|].
  wp_step. wp_step; [apply Z.leb_le; lia|]. wp_step. wp_step; [apply Z.ltb_lt; fold p; lia|].
  wp_step. wp_step. wp_step. wp_step. rsimp. fold p. rewrite add64_small by lia.
  set (r := p + owned) in *. wp_step.
  - wp_step. apply HQ; [|by split]. apply Z.ltb_lt in H.
    split; rsimp; fold p; [exact I1| |exact I3|exact I4|exact I5|lia| |].
    + rewrite add64_small; unfold r in *; lia.
    + rewrite add64_small by lia. rewrite I7. f_equal. lia.
    + rewrite add64_small by lia. rewrite I8. f_equal. lia.
  - apply Z.ltb_ge in H. rewrite I3. wp_step. wp_step. rsimp. rewrite I7.
    set (f := c - owned - p) in *. assert (Hf : f + r = c) by (unfold f, r; lia).
    assert (El : (if kRQDepth <=? f mod kRQDepth + (r - 1) then f mod kRQDepth + (r - 1) - kRQDepth
                  else f mod kRQDepth + (r - 1)) = (f + r - 1) mod kRQDepth).
    { apply ring_step; unfold r in *; lia. }
    rewrite El. do 3 wp_step. eapply wp_deref.
    { rsimp. rewrite I1. apply ring_desc_lookup, Z.mod_pos_bound. lia. }
    eapply post_ring_wp; [exact I1|unfold r in *; lia| |].
    { rsimp. rewrite I8, ring_wqes_length by lia. unfold r, f in *. lia. }
    intros n' R1 R2 R3. rsimp in R1. wp_step. eapply mend_wp; [apply Z.mod_pos_bound; lia|reflexivity|].
    wp_step. apply HQ; [|split; [reflexivity..|exact R2|exact R3]].
    apply rx_inv_posted; [reflexivity|exact I3|exact I4|exact I5| |].
    + rewrite Zplus_mod_idemp_l. f_equal. lia.
    + rsimp. rewrite R1, I8. replace (kRQDepth + c - owned - p) with (kRQDepth + f) by (unfold f; lia).
      rewrite <- (ring_wqes_turn ring 1 f (f + r)), Z.mul_1_l, <- ring_wqes_app by (unfold f, r in *; lia).
      f_equal. lia.
Qed.

(** C15 One round of reception: the completions that rx_burst reports are those of
    the next entries of the ring, in order; post_recvs gives exactly these
    entries back, without gaps, and the receive queue never overflows. *)
Theorem rx_round_in_order ring c t :
  rx_inv ring c 0 t ->
  exists n t1 t', rx_burst_ib t = Ok n t1 /\ 0 <= n <= kPostlist /\
    take (Z.to_nat n) (nic_rq (ib_nic t)) = ring_wqes ring c (c + n) /\
    post_recvs n t1 = Ok tt t' /\ rx_inv ring (c + n) 0 t' /\ tx_same t t'.
Proof.
  intros [I1 I2 I3 I4 I5 I6 I7 I8]. pose proof rq_big as Hq. pose proof ttr_postlist_pos.
  assert (Hp : 0 <= kPostlist) by lia. pose proof (vo_poll_recv kPostlist (ib_nic t) Hp) as H1.
  unfold rx_burst_ib, nic_call. destruct (ibv_poll_recv_cq kPostlist (ib_nic t)) as [n n'] eqn:E.
  destruct H1 as (Hn & Hl & H2 & H3 & H4). rewrite I8 in *.
  assert (Hs : kRecvSlack = 32) by done. rewrite ring_wqes_length in Hl by lia.
  destruct (ring_wqes_take ring c (c + n) (kRQDepth + c - 0 - ib_recvs_to_post t) (Z.to_nat n)) as [F1 F2];
    [lia|f_equal; lia|].
  set (t1 := t <| ib_nic := n' |>).
  assert (R1 : rx_inv ring (c + n) n t1).
  { unfold t1. split; rsimp; [exact I1|exact I2|exact I3|exact I4|lia|lia| |].
    - rewrite I7. f_equal. lia.
    - rewrite H2, F2. f_equal. lia. }
  assert (H5 : wp (post_recvs n) (fun _ t' => rx_inv ring (c + n) 0 t' /\ tx_same t1 t') t1).
  { eapply post_recvs_wp; [exact R1|lia|]. done. }
  apply wp_run in H5 as ([] & t' & E2 & R2 & S2). exists n, t1, t'. split_and!; try done; try lia.
  - unfold base.mbind, M_bind. rewrite E. fold t1. unfold assert_.
    by rewrite (proj2 (Z.leb_le 0 n)) by lia.
  - etrans; [|exact S2]. by split.
Qed.

(** ** The ring is set up *)
Record rx_blank t : Prop := {
  rb_head : ib_recv_head t = 0;
  rb_post : ib_recvs_to_post t = 0;
  rb_slow : ib_use_fast_recv t = false;
  rb_unused : ib_fast_recv_used t = false;
  rb_rq : nic_rq (ib_nic t) = [];
}.

(** Ring entry [i], where the Rpc finds the [i]-th packet of a turn. *)
Definition ring_entry (ring : Buffer) (i : Z) : Z := b_buf ring + i * kRecvSize + 64.

Lemma recv_size_pos : 64 <= kRecvSize.
Proof.
  unfold kRecvSize. pose proof ttr_data_pos as H. unfold kMaxDataPerPkt, sizeof_pkthdr in H.
  destruct ttr_headroom as [E|E]; rewrite E in H; lia.
Qed.

Lemma ring_entries_apart ring i j :
  0 <= i < j -> j < kRQDepth ->
  ring_entry ring i + kMTU <= ring_entry ring j - kGRHBytes /\
  b_buf ring <= ring_entry ring i - kGRHBytes /\
  ring_entry ring j + kMTU <= b_buf ring + kRQDepth * kRecvSize.
Proof.
  intros Hi Hj. pose proof recv_size_pos. unfold ring_entry, kGRHBytes.
  assert (i * kRecvSize + kRecvSize <= j * kRecvSize) by nia.
  assert (j * kRecvSize + kRecvSize <= kRQDepth * kRecvSize) by nia.
  assert (kRecvSize = kMTU + 64) by done. nia.
Qed.

Lemma rx_inv_start ring t :
  ib_recv_wr t = recv_desc ring <$> ring_idxs -> ib_recv_head t = 0 -> ib_recvs_to_post t = 0 ->
  ib_use_fast_recv t = false -> ib_fast_recv_used t = false ->
  nic_rq (ib_nic t) = ring_wqes ring 0 (0 + kRQDepth) -> rx_inv ring 0 0 t.
Proof.
  intros H1 H2 H3 H4 H5 H6. split; rewrite ?H3; done.
Qed.

(** The ring after initialization: every entry is posted, in order; the packet
    and the routing header of an entry lie apart from those of the others, and
    inside the ring's memory. *)
Definition ring_ready t (rx_ring : list Z) t' : Prop :=
  exists ring, rx_inv ring 0 0 t' /\ tx_same t t' /\
    rx_ring = ring_entry ring <$> ring_idxs /\
    (forall i, 0 <= i < kRQDepth -> rq_wr_id (desc_wqe ring i) = ring_entry ring i) /\
    (forall i j, 0 <= i < j -> j < kRQDepth ->
       ring_entry ring i + kMTU <= ring_entry ring j - kGRHBytes /\
       b_buf ring <= ring_entry ring i - kGRHBytes /\
       ring_entry ring j + kMTU <= b_buf ring + kRQDepth * kRecvSize).

Lemma ring_ready_start t rx_ring t' ring :
  rx_inv ring 0 0 t' -> tx_same t t' -> rx_ring = ring_entry ring <$> ring_idxs -> ring_ready t rx_ring t'.
Proof.
  intros H1 H2 H3. exists ring. split_and!; try done.
  - intros i Hi. unfold desc_wqe, recv_desc, ring_entry, recv_offset. cbn. unfold kGRHBytes. lia.
  - intros i j. apply ring_entries_apart.
Qed.

(** Once the ring's memory is there, its entries are posted. *)
Lemma fill_ring_wp ring t h (Q : list Z -> IB * HugeAlloc -> Prop) :
  nic_rq (ib_nic t) = [] -> kMTU <= 4096 ->
  (forall l t', tx_same t t' -> (rx_blank t -> ring_ready t l t') -> Q l (t', h)) ->
  wpt (miter (fun i => assert_ (recv_offset i + (kGRHBytes + kMTU) <=? kNumRxRingEntries * kRecvSize) "init_recvs")
         (Z.of_nat <$> seq 0 (Z.to_nat kRQDepth));;
    zoom fst (fun t p => (t, p.2)) (
      modify (fun t => t <| ib_ring_extent := ring |>
        <| ib_recv_wr := recv_desc ring <$> (Z.of_nat <$> seq 0 (Z.to_nat kRQDepth)) |>);;
      set_recv_next (kRQDepth - 1) None;;
      ret ← post_recv 0;
      rt_assert (ret =? 0) "Failed to fill RECV queue.";;
      set_recv_next (kRQDepth - 1) (Some 0));;
    mret ((fun i => b_buf ring + recv_offset i + kGRHBytes) <$> (Z.of_nat <$> seq 0 (Z.to_nat kRQDepth)))) Q (t, h).
Proof.
  intros B5 Hm HQ. pose proof rq_big as Hq. pose proof recv_size_pos as Hr.
  assert (Hsz : kNumRxRingEntries = kRQDepth) by done.
  assert (Hbig : kRQDepth = 4096) by done.
  wp_step. eapply wp_mono; [apply (wp_miter _ (fun _ p => p = (t, h)))|].
  { done. }
  { intros d i todo p Hl Ep. apply wp_assert; [|exact Ep]. apply Z.leb_le.
    assert (Hi : i < kRQDepth).
    { assert (Hin : i ∈ ring_idxs) by (unfold ring_idxs; rewrite Hl; set_solver).
      unfold ring_idxs in Hin. apply list_elem_of_fmap in Hin as (j & -> & Hj%elem_of_seq). lia. }
    unfold recv_offset, kGRHBytes. rewrite Hsz. assert (kRecvSize = kMTU + 64) by done. nia. }
  cbn beta. intros _ p ->. wp_step. apply wp_zoom. cbn [fst]. wp_step. wp_step.
  fold ring_idxs. set (t1 := update ib_recv_wr _ _).
  assert (Ht1 : ib_recv_wr t1 = recv_desc ring <$> ring_idxs) by done.
  assert (Hlast : (0 + kRQDepth - 1) mod kRQDepth = kRQDepth - 1) by (apply Z.mod_small; lia).
  pose proof (post_ring_wp is_throw ring t1 0 kRQDepth) as Hp. cbv zeta in Hp.
  rewrite Hlast, Z.mod_0_l in Hp by lia. eapply Hp; [exact Ht1|lia| |].
  { change (ib_nic t1) with (ib_nic t). rewrite B5. unfold zlength. cbn. lia. }
  intros n' R1 R2 R3. change (ib_nic t1) with (ib_nic t) in R1, R2, R3. rewrite B5 in R1. cbn [app] in R1.
  pose proof (recv_desc_next ring (kRQDepth - 1)) as Hn. rewrite Z.sub_add, Z.mod_same in Hn by lia.
  rewrite <- Hn by lia. eapply mend_wp; [lia|reflexivity|]. wp_step.
  match goal with |- Q _ (?t', _) =>
    assert (Htx : tx_same t t') by (split; [reflexivity..|exact R2|exact R3]) end.
  apply HQ; [exact Htx|]. intros [B1 B2 B3 B4 _]. apply (ring_ready_start _ _ _ ring).
  - apply rx_inv_start; [reflexivity|exact B1|exact B2|exact B3|exact B4|exact R1].
  - exact Htx.
  - apply list_fmap_ext. intros j x _. unfold ring_entry, recv_offset, kGRHBytes. lia.
Qed.

Lemma recvs_size : 0 <= kNumRxRingEntries * kRecvSize < 2 ^ 60 \/ 4096 < kMTU.
Proof.
  pose proof recv_size_pos. assert (kRecvSize = kMTU + 64) by done.
  change kNumRxRingEntries with 4096. lia.
Qed.
Lemma init_recvs_wp {Os : ShmOs} fuel {OsOk : ShmOsOk Os fuel} live t h :
  nic_rq (ib_nic t) = [] -> kMTU <= 4096 -> alloc_inv live h ->
  wpt (init_recvs fuel) (fun l p => tx_same t p.1 /\ (rx_blank t -> ring_ready t l p.1) /\ alloc_inv live p.2) (t, h).
Proof.
  intros Hb Hm Ha. unfold init_recvs. wp_step. apply wp_zoom.
  apply (alloc_raw_inv fuel live); [exact Ha|destruct recvs_size; lia|]. intros ring h' Hh' _.
  wp_step. wp_step; [done|]. by apply fill_ring_wp.
Qed.

(** After init_recvs (which throws if there are no hugepages) every entry of the
    Rpc's RX ring is posted once, in order; the entries and the routing headers
    before them lie apart, inside the ring's memory. *)
Theorem init_recvs_ready {Os : ShmOs} fuel {OsOk : ShmOsOk Os fuel} t h :
  rx_blank t -> kMTU <= 4096 ->
  match init_recvs fuel (t, h) with
  | Ok rx_ring (t', _) => ring_ready t rx_ring t'
  | Fail e => is_throw e
  end.
Proof.
  intros Hb Hm. cut (wpt (init_recvs fuel) (fun l p => ring_ready t l p.1) (t, h)).
  { intros H. apply wp_match in H. by destruct (init_recvs fuel (t, h)) as [l [t' h']|e]. }
  unfold init_recvs. wp_step. apply wp_zoom.
  apply alloc_raw_wp; [exact OsOk|destruct recvs_size; lia|..].
  { intros m Hm'. wp_step. wp_step; [done|]. done. }
  intros m id key sz res lkey _ _ _. wp_step. wp_step; [done|].
  cbn [fst snd]. apply fill_ring_wp; [exact (rb_rq _ Hb)|exact Hm|]. intros l t' _ Hx. exact (Hx Hb).
Qed.
End IbProps.
