(* ===== verification/IbExamples.v ===== *)
(** * A concrete queue pair

    The simplest device: it completes a signaled request as soon as it is polled
    for, and has received one packet whenever it is asked. It shows that the
    assumptions on the verbs library can hold, and carries the examples. *)
From S2P Require Import Prelude Config HugeAlloc PktHdr Msg IbTransport IbProps.

Record qnic := mkQ { q_sq : list bool; q_sent : list wqe; q_rq : list recv_wqe }.
Fixpoint after_true (l : list bool) : option (list bool) :=
  match l with [] => None | true :: l => Some l | false :: l => after_true l end.
#[local] Instance QueueVerbs : Verbs := {|
  Nic := qnic;
  ibv_post_send ws n := (0, mkQ (q_sq n ++ (wq_signaled <$> ws)) (q_sent n ++ ws) (q_rq n));
  ibv_poll_send_cq n :=
    match after_true (q_sq n) with
    | Some l => (PollDone 0, mkQ l (q_sent n) (q_rq n))
    | None => (PollEmpty, n)
    end;
  ibv_post_recv ws n := (0, mkQ (q_sq n) (q_sent n) (q_rq n ++ ws));
  ibv_post_recv_fast _ n := (0, n);
  ibv_poll_recv_cq k n :=
    let m := Z.min k (Z.min 1 (zlength (q_rq n))) in
    (m, mkQ (q_sq n) (q_sent n) (drop (Z.to_nat m) (q_rq n)));
  ibv_poll_fuel := 1;
  flush_inline_buf := 8
|}.

Lemma after_true_spec l :
  match after_true l with
  | Some l' => exists k, l = replicate k false ++ true :: l'
  | None => true ∉ l
  end.
Proof.
  induction l as [|[] l IH]; cbn; [set_solver|by exists O|]. destruct (after_true l).
  - destruct IH as (k & ->). by exists (S k).
  - set_solver.
Qed.

#[local] Instance QueueVerbs_ok : VerbsOk QueueVerbs.
Proof.
  refine {| nic_sq := q_sq; nic_sent := q_sent; nic_rq := q_rq; nic_wait _ := O |}; cbn -[Z.min].
  - done.
  - intros n. pose proof (after_true_spec (q_sq n)) as H. destruct (after_true (q_sq n)) as [l|];
      by split_and!.
  - lia.
  - done.
  - intros k n Hk. pose proof (zlength_nonneg (q_rq n)). split_and!; try done; lia.
Defined.

#[local] Instance XT : TTr := Transports.IBTransport false.
#[local] Instance XT_ok : TTrOk XT := Transports.IBTransport_ok false.
#[local] Instance XI_ok : IbOk XT := IBTransport_IbOk false.

Definition ib_blank : IB :=
  mkIB 0 (replicate 17 send_wr_blank) (replicate 16 (mkSge 0 0 0, mkSge 0 0 0)) 0 0 []
    nullBuffer false false 77 0 (mkQ [] [] []).
Lemma ib_ready : exists t, tx_inv t /\ ib_nb_tx t = 0.
Proof.
  destruct (init_sends_ok ib_blank) as (t & _ & H1 & H2 & H3); [done..|].
  exists t. split; [|exact H2]. split; [done|]. by rewrite H2, H3.
Qed.

(** The two packets of a 5000-byte message. *)
Definition xmb : MsgBuffer := mkMsgBuffer (mkBuffer 1048576 8192 7) 5000 5000 2 2 1048592.
Definition xitems : list ib_item :=
  [mkIbItem (mkIbRinfo 1 2) xmb 0 false; mkIbItem (mkIbRinfo 1 2) xmb 1 false].
Lemma xitems_ok : Forall item_ok xitems.
Proof. by repeat constructor. Qed.

Lemma tx_burst_correct_witness :
  exists t t', tx_burst xitems t = Ok tt t' /\ tx_inv t' /\ rx_same t t' /\
    ib_nb_tx t' = ib_nb_tx t + 2 /\
    nic_sent (ib_nic t') = nic_sent (ib_nic t) ++ batch_wqes (ib_nb_tx t) xitems.
Proof.
  destruct ib_ready as (t & Ht & Hn). exists t.
  apply (tx_burst_correct t xitems Ht xitems_ok); [by split|rewrite Hn; by vm_compute].
Defined.

Lemma tx_flush_drains_witness :
  exists t t', tx_flush t = Ok tt t' /\ tx_inv t' /\ rx_same t t' /\
    ib_nb_tx t' = 0 /\ nic_sq (ib_nic t') = [].
Proof. destruct ib_ready as (t & Ht & _). exists t. exact (tx_flush_drains t Ht). Defined.

Definition xring : Buffer := mkBuffer 2097152 (2 ^ 64 - 1) 9.
Definition ib_ring : IB :=
  ib_blank <| ib_recv_wr := recv_desc xring <$> ring_idxs |>
           <| ib_nic := mkQ [] [] (ring_wqes xring 0 (0 + kRQDepth)) |>.
Lemma ib_ring_inv : rx_inv xring 0 0 ib_ring.
Proof. by apply rx_inv_start. Qed.
Lemma rx_round_in_order_witness :
  exists n t1 t', rx_burst_ib ib_ring = Ok n t1 /\ 0 <= n <= kPostlist /\
    take (Z.to_nat n) (nic_rq (ib_nic ib_ring)) = ring_wqes xring 0 (0 + n) /\
    post_recvs n t1 = Ok tt t' /\ rx_inv xring (0 + n) 0 t' /\ tx_same ib_ring t'.
Proof. exact (rx_round_in_order xring 0 ib_ring ib_ring_inv). Defined.

#[local] Existing Instance BumpOs.
Lemma init_recvs_ready_witness :
  match init_recvs 1 (ib_blank, HugeAlloc_new (MB 8)) with
  | Ok rx_ring (t', _) => ring_ready ib_blank rx_ring t'
  | Fail e => is_throw e
  end.
Proof.
  assert (H : rx_blank ib_blank) by (by split).
  assert (Hm : kMTU <= 4096) by (by vm_compute).
  pose proof (init_recvs_ready 1 ib_blank (HugeAlloc_new (MB 8)) H Hm) as R. exact R.
Defined.
