(* ===== verification/Raw.v ===== *)
(** * The Raw Ethernet transport's receive path: [transport_impl/raw]

    In the dumbpipe mode, for which the transport is built, the NIC writes packets
    one after the other into the strides of eight multi-packet receives, and
    announces each by overwriting one of eight completion entries, whether the
    previous one has been read or not. The CPU learns how many packets there are
    from the position that the next entry names. [RawNic] is the mlx5 driver: it
    may receive packets whenever it is called, and between any two reads of an
    entry. *)
From S2P Require Import Prelude Config HugeAlloc PktHdr Msg SmTypes EthCommon IbTransport.

Module RawTransport.
Definition kLogNumStrides : Z := 9.
Definition kLogStrideBytes : Z := 10.
Definition kStridesPerWQE : Z := Z.shiftl 1 kLogNumStrides.
Definition kCQESnapshotCycle : Z := 65536 * kStridesPerWQE.
Definition kRecvSize : Z := Z.shiftl 1 kLogStrideBytes.
Definition kRingSize : Z := kNumRxRingEntries * kRecvSize.
Definition kRQDepth : Z := kNumRxRingEntries / kStridesPerWQE.
Definition kRecvCQDepth : Z := 8.

(** ** The driver *)
Class RawNic := {
  Nic : Type;
  (* volatile reads and writes of [mlx5_cqe64], in network byte order *)
  cqe_wqe_id : Z -> Nic -> Z * Nic;
  cqe_wqe_counter : Z -> Nic -> Z * Nic;
  set_cqe_wqe_id : Z -> Z -> Nic -> Nic;
  set_cqe_wqe_counter : Z -> Z -> Nic -> Nic;
  recv_burst : sge -> Nic -> Z * Nic;        (* wq_family->recv_burst(wq, sge, 1) *)
  cq_log_size : Nic -> Z;
  cq_buf_null : Nic -> bool;                 (* buf_a.buf == nullptr *)
}.

(** ** State *)
Record cqe_snapshot_t := mkSnapshot { wqe_id : Z; wqe_counter : Z }.
Definition get_cqe_snapshot_cycle_idx (s : cqe_snapshot_t) : Z := wqe_id s * kStridesPerWQE + wqe_counter s.
Record raw_resolve := mkRawResolve { rr_ipv4_addr : Z; rr_mac_addr : list Z }.

Section Raw.
Context {N : RawNic}.

Record Raw := mkRaw {
  raw_resolve_ : raw_resolve;
  raw_ring_extent : Buffer;
  raw_prev_snapshot : cqe_snapshot_t;
  raw_cqe_idx : Z;
  raw_rx_flow_udp_port : Z;
  raw_recvs_to_post : Z;
  raw_recv_head : Z;
  raw_mp_recv_sge : list sge;                (* kRQDepth *)
  raw_mp_sge_idx : Z;
  raw_nic : Nic;
}.
#[export] Instance eta_Raw : Eta Raw := fun t =>
  mkRaw (raw_resolve_ t) (raw_ring_extent t) (raw_prev_snapshot t) (raw_cqe_idx t) (raw_rx_flow_udp_port t)
    (raw_recvs_to_post t) (raw_recv_head t) (raw_mp_recv_sge t) (raw_mp_sge_idx t) (raw_nic t).
Abbreviation MR := (M Raw).
Definition raw_call {A} (f : Nic -> A * Nic) : MR A := fun t =>
  let (a, n) := f (raw_nic t) in Ok a (t <| raw_nic := n |>).

(** ** Completion entries *)
Fixpoint snapshot_cqe (fuel : nat) (i : Z) : MR cqe_snapshot_t :=
  match fuel with
  | O => fail EFuel
  | S fuel =>
      wqe_id_0 ← raw_call (cqe_wqe_id i);
      wqe_counter_0 ← raw_call (cqe_wqe_counter i);
      wqe_id_1 ← raw_call (cqe_wqe_id i);
      if wqe_id_0 =? wqe_id_1 then mret (mkSnapshot (ntohs wqe_id_0) (ntohs wqe_counter_0))
      else snapshot_cqe fuel i
  end.
Definition get_cqe_cycle_delta (prev cur : cqe_snapshot_t) : MR Z :=
  let prev_idx := get_cqe_snapshot_cycle_idx prev in
  let cur_idx := get_cqe_snapshot_cycle_idx cur in
  assert_ ((prev_idx <? kCQESnapshotCycle) && (cur_idx <? kCQESnapshotCycle)) "get_cqe_cycle_delta";;
  mret (sub64 (cur_idx + kCQESnapshotCycle) prev_idx mod kCQESnapshotCycle).

(** ** The datapath *)
Definition rx_burst (fuel : nat) : MR Z :=
  t ← get;
  cur_snapshot ← snapshot_cqe fuel (raw_cqe_idx t);
  delta ← get_cqe_cycle_delta (raw_prev_snapshot t) cur_snapshot;
  if (delta =? 0) || (kNumRxRingEntries <=? delta) then mret 0
  else
    mrepeat (Z.to_nat delta) (modify (fun t => t <| raw_recv_head ::= fun h => (h + 1) mod kNumRxRingEntries |>));;
    modify (fun t => t <| raw_cqe_idx ::= fun i => (i + 1) mod kRecvCQDepth |> <| raw_prev_snapshot := cur_snapshot |>);;
    mret delta.

Definition post_recvs (num_recvs : Z) : MR unit :=
  assert_ (num_recvs <=? kNumRxRingEntries) "post_recvs: num_recvs";;
  modify (fun t => t <| raw_recvs_to_post ::= fun n => add64 n num_recvs |>);;
  t ← get;
  if raw_recvs_to_post t <? kStridesPerWQE then mret tt
  else
    s ← deref (zlookup (raw_mp_recv_sge t) (raw_mp_sge_idx t)) "mp_recv_sge";
    ret ← raw_call (recv_burst s);
    assert_ (ret =? 0) "post_recvs: recv_burst";;
    modify (fun t => t <| raw_mp_sge_idx ::= fun i => (i + 1) mod kRQDepth |>
                       <| raw_recvs_to_post ::= fun n => sub64 n kStridesPerWQE |>).

(** ** Initialization *)

(** The entries are made to look as if the last packets of a cycle had just been
    received. *)
Definition map_cqe (fuel : nat) (i : Z) : MR unit :=
  modify (fun t => t <| raw_nic ::= set_cqe_wqe_id i (htons 65535) |>);;
  modify (fun t => t <| raw_nic ::= set_cqe_wqe_counter i (htons (u16 (kStridesPerWQE - (kRecvCQDepth - i)))) |>);;
  snapshot ← snapshot_cqe fuel i;
  rt_assert (get_cqe_snapshot_cycle_idx snapshot =? kCQESnapshotCycle - (kRecvCQDepth - i)) "".
Definition map_mlx5_overrunning_recv_cqes (fuel : nat) : MR unit :=
  t ← get;
  rt_assert (kRecvCQDepth =? 2 ^ cq_log_size (raw_nic t)) "mlx5 CQ depth does not match kRecvCQDepth";;
  rt_assert (negb (cq_buf_null (raw_nic t))) "";;
  rt_assert (kRecvCQDepth <=? kStridesPerWQE) "";;
  miter (map_cqe fuel) (Z.of_nat <$> seq 0 (Z.to_nat kRecvCQDepth));;
  s ← snapshot_cqe fuel (kRecvCQDepth - 1);
  modify (fun t => t <| raw_prev_snapshot := s |>).

Definition mp_sge (ring : Buffer) (i : Z) : sge :=
  let mpwqe_offset := i * (kRecvSize * kStridesPerWQE) in
  mkSge (b_buf ring + mpwqe_offset) (kRecvSize * kStridesPerWQE) (b_lkey ring).
Definition init_mp_recv (ring : Buffer) (i : Z) : MR unit :=
  modify (fun t => t <| raw_mp_recv_sge ::= zinsert i (mp_sge ring i) |>);;
  _ ← raw_call (recv_burst (mp_sge ring i));
  mret tt.
(** Also fills the Rpc's [rx_ring]. *)
Definition init_recvs {Os : ShmOs} (fuel : nat) : M (Raw * HugeAlloc) (list Z) :=
  ring ← zoom snd (fun h p => (p.1, h)) (alloc_raw fuel kRingSize DoRegister_kTrue);
  rt_assert (negb (b_buf ring =? 0)) "Failed to allocate ring buffers";;
  zoom fst (fun t p => (t, p.2)) (
    modify (fun t => t <| raw_ring_extent := ring |>);;
    miter (init_mp_recv ring) (Z.of_nat <$> seq 0 (Z.to_nat kRQDepth)));;
  mret ((fun i => b_buf ring + kRecvSize * i) <$> (Z.of_nat <$> seq 0 (Z.to_nat kNumRxRingEntries))).

(** ** Routing information *)
Definition raw_fill_local_routing_info : MR routing_info_t :=
  t ← get;
  let r := raw_resolve_ t in
  mret (eth_rinfo_bytes (mkEthRinfo (rr_mac_addr r) (rr_ipv4_addr r) (raw_rx_flow_udp_port t) 0 0) ++ replicate 30 0).
Definition raw_resolve_remote_routing_info (routing_info : routing_info_t) : MR (bool * routing_info_t) :=
  t ← get;
  let r := raw_resolve_ t in
  let ri := eth_rinfo_of routing_info in
  mret (true,
    eth_bytes (gen_eth_header (rr_mac_addr r) (er_mac ri))
    ++ ipv4_bytes (gen_ipv4_header (rr_ipv4_addr r) (er_ipv4_addr ri) 0)
    ++ udp_bytes (gen_udp_header (raw_rx_flow_udp_port t) (er_udp_port ri) 0)
    ++ drop 42 routing_info).
End Raw.
End RawTransport.
