(* ===== verification/RawProps.v ===== *)
(** * The Raw transport receives every packet once, in order

    However the NIC interleaves its writes to the completion entries with the
    CPU's reads. *)
From S2P Require Import Prelude Config HugeAlloc PktHdr Msg SmTypes EthCommon IbTransport Raw.
Import RawTransport.

(** ** What the NIC does *)

(** Of the packets before [n], the last one that used entry [i]; before the first
    packet the entries stand for the packets -8 to -1. *)
Definition latest (n i : Z) : Z := n - 1 - (n - 1 - i) mod kRecvCQDepth.
(** The position in the cycle that the entry of packet [q] names. *)
Definition snap (q : Z) : cqe_snapshot_t := mkSnapshot ((q / kStridesPerWQE) mod 65536) (q mod kStridesPerWQE).
Definition enc (q : Z) : Z * Z := (htons (wqe_id (snap q)), htons (wqe_counter (snap q))).

Section Progress.
Context {NT : Type} (recvd : NT -> Z) (cqe : NT -> Z -> Z * Z).
(** Packets may arrive: each overwrites its entry. *)
Record progress (n n' : NT) : Prop := {
  pg_recvd : recvd n <= recvd n';
  pg_cqe i : 0 <= i < kRecvCQDepth ->
    cqe n' i = if recvd n <=? latest (recvd n') i then enc (latest (recvd n') i) else cqe n i;
}.
End Progress.

(** The packets received so far, the receives posted so far, the completion
    entries. A packet needs a posted stride, and at most [kRQDepth] receives may
    be posted that are not used up. *)
Class RawNicOk (N : RawNic) := {
  nr_recvd : Nic -> Z;
  nr_posted : Nic -> list sge;
  nr_cqe : Nic -> Z -> Z * Z;
  ro_bound n : 0 <= nr_recvd n <= kStridesPerWQE * zlength (nr_posted n);
  ro_id i n : let (v, n') := cqe_wqe_id i n in
    progress nr_recvd nr_cqe n n' /\ nr_posted n' = nr_posted n /\ v = (nr_cqe n' i).1;
  ro_counter i n : let (v, n') := cqe_wqe_counter i n in
    progress nr_recvd nr_cqe n n' /\ nr_posted n' = nr_posted n /\ v = (nr_cqe n' i).2;
  ro_set_id i v n : nr_posted n = [] -> let n' := set_cqe_wqe_id i v n in
    nr_recvd n' = nr_recvd n /\ nr_posted n' = nr_posted n /\
    forall j, nr_cqe n' j = if decide (j = i) then (v, (nr_cqe n j).2) else nr_cqe n j;
  ro_set_counter i v n : nr_posted n = [] -> let n' := set_cqe_wqe_counter i v n in
    nr_recvd n' = nr_recvd n /\ nr_posted n' = nr_posted n /\
    forall j, nr_cqe n' j = if decide (j = i) then ((nr_cqe n j).1, v) else nr_cqe n j;
  ro_post s n : zlength (nr_posted n) + 1 <= nr_recvd n / kStridesPerWQE + kRQDepth -> let (r, n') := recv_burst s n in
    r = 0 /\ progress nr_recvd nr_cqe n n' /\ nr_posted n' = nr_posted n ++ [s];
}.

Section Props.
Context {N : RawNic} {NOk : RawNicOk N}.
Implicit Types t : Raw.
Definition entry_ok (n : Nic) (i : Z) : Prop := nr_cqe n i = enc (latest (nr_recvd n) i).
Definition cqe_ok (n : Nic) : Prop := forall i, 0 <= i < kRecvCQDepth -> entry_ok n i.
(** Entries stay right. *)
Definition keeps (n n' : Nic) : Prop := forall i, 0 <= i < kRecvCQDepth -> entry_ok n i -> entry_ok n' i.

Lemma latest_range n i : n - 8 <= latest n i < n.
Proof. unfold latest, kRecvCQDepth. pose proof (Z.mod_pos_bound (n - 1 - i) 8). lia. Qed.
Lemma latest_mono n n' i : n <= n' -> latest n i <= latest n' i.
Proof. unfold latest, kRecvCQDepth. intros. Z.to_euclidean_division_equations. lia. Qed.
Lemma latest_old n n' i : n <= n' -> latest n' i < n -> latest n' i = latest n i.
Proof. unfold latest, kRecvCQDepth. intros. Z.to_euclidean_division_equations. lia. Qed.
Lemma progress_keeps (n n' : Nic) : progress nr_recvd nr_cqe n n' -> keeps n n'.
Proof.
  intros [Hr Hc] i Hi Hok. unfold entry_ok in *. rewrite Hc by done.
  destruct (Z.leb_spec (nr_recvd n) (latest (nr_recvd n') i)) as [|Hlt]; [done|]. by rewrite (latest_old _ _ i Hr Hlt).
Qed.
Lemma snap_range q : in_u 16 (wqe_id (snap q)) /\ in_u 16 (wqe_counter (snap q)).
Proof.
  unfold snap, in_u. cbn [wqe_id wqe_counter]. change kStridesPerWQE with 512.
  pose proof (Z.mod_pos_bound (q / 512) 65536). pose proof (Z.mod_pos_bound q 512). lia.
Qed.
Lemma cycle_idx q : get_cqe_snapshot_cycle_idx (snap q) = q mod kCQESnapshotCycle.
Proof.
  unfold get_cqe_snapshot_cycle_idx, snap, kCQESnapshotCycle. cbn [wqe_id wqe_counter]. change kStridesPerWQE with 512.
  change (65536 * 512) with (512 * 65536). rewrite Z.rem_mul_r by lia. lia.
Qed.

(** ** Snapshots are consistent *)
Lemma same_wqe a b c :
  a <= b <= c -> c <= a + 5000 -> wqe_id (snap a) = wqe_id (snap c) -> wqe_id (snap b) = wqe_id (snap a).
Proof.
  unfold snap. cbn [wqe_id]. change kStridesPerWQE with 512. intros Hab Hac He.
  assert (a / 512 <= b / 512 <= c / 512) by (split; apply Z.div_le_mono; lia).
  assert (c / 512 <= a / 512 + 10) by (replace (a / 512 + 10) with ((a + 10 * 512) / 512) by (by rewrite Z.div_add by lia); apply Z.div_le_mono; lia).
  assert (E : a / 512 = c / 512); [|f_equal; lia]. revert He. generalize (a / 512) (c / 512) H H0. intros x y. generalize (b / 512).
  intros z Hz Hy He. Z.to_euclidean_division_equations. lia.
Qed.
Lemma htons_inj x y : in_u 16 x -> in_u 16 y -> htons x = htons y -> x = y.
Proof. intros Hx Hy E. rewrite <- (bswap_bswap 2 x), <- (bswap_bswap 2 y) by done. by rewrite E. Qed.

(** The entry [i] as it was when [m] packets had been received, not before the
    call, not after it. The loop ends: each iteration but the last sees a packet
    arrive, and only posted strides can receive one. *)
Lemma snapshot_wp ER fuel i t (Q : cqe_snapshot_t -> Raw -> Prop) :
  entry_ok (raw_nic t) i -> 0 <= i < kRecvCQDepth ->
  kStridesPerWQE * zlength (nr_posted (raw_nic t)) <= nr_recvd (raw_nic t) + kNumRxRingEntries ->
  kStridesPerWQE * zlength (nr_posted (raw_nic t)) - nr_recvd (raw_nic t) < Z.of_nat fuel ->
  (forall m n', nr_recvd (raw_nic t) <= m <= nr_recvd n' -> keeps (raw_nic t) n' -> nr_posted n' = nr_posted (raw_nic t) ->
     Q (snap (latest m i)) (t <| raw_nic := n' |>)) ->
  wpe ER (snapshot_cqe fuel i) Q t.
Proof.
  revert t. induction fuel as [|fuel IH]; intros t Hok Hi Hp Hf HQ; [pose proof (ro_bound (raw_nic t)); lia|].
  cbn [snapshot_cqe]. wp_step. unfold raw_call at 1, wpe at 1. pose proof (ro_id i (raw_nic t)) as H0.
  destruct (cqe_wqe_id i (raw_nic t)) as [id0 n0]. destruct H0 as (P0 & E0 & V0). pose proof (progress_keeps _ _ P0) as K0.
  wp_step. unfold raw_call at 1, wpe at 1. rsimp. pose proof (ro_counter i n0) as H1.
  destruct (cqe_wqe_counter i n0) as [c n1]. destruct H1 as (P1 & E1 & V1). pose proof (progress_keeps _ _ P1) as K1.
  wp_step. unfold raw_call at 1, wpe at 1. rsimp. pose proof (ro_id i n1) as H2.
  destruct (cqe_wqe_id i n1) as [id2 n2]. destruct H2 as (P2 & E2 & V2). pose proof (progress_keeps _ _ P2) as K2.
  assert (Hok0 : entry_ok n0 i) by auto. assert (Hok1 : entry_ok n1 i) by auto. assert (Hok2 : entry_ok n2 i) by auto.
  assert (K : keeps (raw_nic t) n2) by (intros j Hj Hx; auto).
  set (t2 := _ <| raw_nic := n2 |>). assert (Ht2 : t2 = t <| raw_nic := n2 |>) by (unfold t2; by destruct t).
  rewrite Ht2. clear t2 Ht2. rewrite Hok0 in V0. rewrite Hok1 in V1. rewrite Hok2 in V2.
  pose proof (pg_recvd _ _ _ _ P0) as R0. pose proof (pg_recvd _ _ _ _ P1) as R1. pose proof (pg_recvd _ _ _ _ P2) as R2.
  pose proof (ro_bound n2) as [_ B2]. rewrite E2, E1, E0 in B2. cbn [fst snd enc] in V0, V1, V2.
  set (r0 := nr_recvd n0) in *. set (r1 := nr_recvd n1) in *. set (r2 := nr_recvd n2) in *.
  pose proof (latest_mono r0 r1 i ltac:(lia)). pose proof (latest_mono r1 r2 i ltac:(lia)).
  pose proof (latest_range r0 i). pose proof (latest_range r2 i). change kNumRxRingEntries with 4096 in *.
  wp_step; [wp_step|].
  - apply Z.eqb_eq in H3. rewrite V0, V2 in H3. apply htons_inj in H3; [|apply snap_range..].
    assert (Es : mkSnapshot (ntohs id0) (ntohs c) = snap (latest r1 i)).
    { rewrite V0, V1, !bswap_bswap by apply snap_range. rewrite <- (same_wqe (latest r0 i) (latest r1 i) (latest r2 i)) by (lia || done). done. }
    rewrite Es. apply HQ; [fold r2; lia|exact K|congruence].
  - apply IH; rsimp; try done.
    + rewrite E2, E1, E0. fold r2. lia.
    + rewrite E2, E1, E0. fold r2. apply Z.eqb_neq in H3. assert (r0 <> r2); [|lia]. intros Er. apply H3. by rewrite V0, V2, Er.
    + intros m n' Hm Hn Hpo. rsimp. fold r2 in Hm. rewrite E2, E1, E0 in Hpo.
      replace ((t <| raw_nic := n2 |>) <| raw_nic := n' |>) with (t <| raw_nic := n' |>) by by destruct t.
      apply HQ; [lia|intros j Hj Hx; auto|done].
Qed.

(** ** The invariant *)
Definition wqe_ids : list Z := Z.of_nat <$> seq 0 (Z.to_nat kRQDepth).
(** [d] packets have been handed to the Rpc, which has given [p] entries back. *)
Record raw_inv (ring : Buffer) (d p : Z) t : Prop := {
  ri_prev : raw_prev_snapshot t = snap (d - 1);
  ri_idx : raw_cqe_idx t = d mod kRecvCQDepth;
  ri_head : raw_recv_head t = d mod kNumRxRingEntries;
  ri_order : 0 <= p <= d /\ d <= nr_recvd (raw_nic t);
  ri_posted : kStridesPerWQE * zlength (nr_posted (raw_nic t)) = kNumRxRingEntries + p - raw_recvs_to_post t;
  ri_slack : 0 <= raw_recvs_to_post t;
  ri_sge_idx : raw_mp_sge_idx t = zlength (nr_posted (raw_nic t)) mod kRQDepth;
  ri_sges : raw_mp_recv_sge t = mp_sge ring <$> wqe_ids;
  ri_ring j s : nr_posted (raw_nic t) !! j = Some s -> s = mp_sge ring (Z.of_nat j mod kRQDepth);
  ri_cqe : cqe_ok (raw_nic t);
}.

Lemma delta_ok d m cur (Q : Z -> Raw -> Prop) ER t :
  0 <= d -> d <= m <= d + kNumRxRingEntries -> cur = latest m (d mod kRecvCQDepth) ->
  (forall delta, (m = d /\ kNumRxRingEntries <= delta) \/
     (d < m /\ 0 < delta < kNumRxRingEntries /\ d + delta = cur + 1 /\ (d + 1) mod kRecvCQDepth = (d + delta) mod kRecvCQDepth) -> Q delta t) ->
  wpe ER (get_cqe_cycle_delta (snap (d - 1)) (snap cur)) Q t.
Proof.
  intros Hd Hm Hc HQ. unfold get_cqe_cycle_delta. rewrite !cycle_idx.
  assert (HC : kCQESnapshotCycle = 33554432) by done. rewrite HC in *.
  pose proof (Z.mod_pos_bound (d - 1) 33554432). pose proof (Z.mod_pos_bound cur 33554432).
  wp_step. wp_step; [apply andb_true_intro; lia|]. wp_step. apply HQ.
  rewrite sub64_small by lia. rewrite Zminus_mod_idemp_r, <- Zminus_mod_idemp_l, Zplus_mod_idemp_l, Zminus_mod_idemp_l.
  rewrite Hc. unfold latest. change kRecvCQDepth with 8. change kNumRxRingEntries with 4096 in *.
  destruct (decide (m = d)) as [->|Hne]; [left|right].
  - split; [done|]. Z.to_euclidean_division_equations. lia.
  - split; [lia|]. replace (m - 1 - (m - 1 - d mod 8) mod 8 + 33554432 - (d - 1)) with (m - d - (m - 1 - d mod 8) mod 8 + 1 * 33554432) by lia.
    rewrite Z.mod_add by lia. rewrite Z.mod_small; Z.to_euclidean_division_equations; lia.
Qed.
Lemma advance_head_wp ER k t (Q : unit -> Raw -> Prop) d :
  raw_recv_head t = d mod kNumRxRingEntries ->
  Q tt (t <| raw_recv_head := (d + Z.of_nat k) mod kNumRxRingEntries |>) ->
  wpe ER (mrepeat k (modify (fun t => t <| raw_recv_head ::= fun h => (h + 1) mod kNumRxRingEntries |>))) Q t.
Proof.
  revert t d. induction k as [|k IH]; intros t d Hh HQ; cbn [mrepeat].
  - wp_step. rewrite Z.add_0_r, <- Hh in HQ. by destruct t.
  - wp_step. wp_step. apply (IH _ (d + 1)); rsimp.
    + by rewrite Hh, Z.add_mod_idemp_l.
    + replace (d + 1 + Z.of_nat k) with (d + Z.of_nat (S k)) by lia. by destruct t.
Qed.

Lemma rx_burst_wp ring d p fuel t :
  raw_inv ring d p t -> (Z.to_nat kNumRxRingEntries < fuel)%nat ->
  wp (rx_burst fuel) (fun delta t' => raw_inv ring (d + delta) p t' /\ 0 <= delta < kNumRxRingEntries /\
    (d < nr_recvd (raw_nic t) -> 0 < delta) /\ nr_posted (raw_nic t') = nr_posted (raw_nic t)) t.
Proof.
  intros [Hprev Hidx Hhead Hord Hpost Hsl Hsi Hsg Hring Hok] Hf. unfold rx_burst. wp_step. wp_step. wp_step.
  change kNumRxRingEntries with 4096 in *.
  assert (Hi : 0 <= raw_cqe_idx t < kRecvCQDepth) by (rewrite Hidx; by apply Z.mod_pos_bound).
  apply snapshot_wp; [by apply Hok|done|change kNumRxRingEntries with 4096; lia|lia|].
  intros m n' Hm Hk Hpo. assert (Hok' : cqe_ok n') by (intros j Hj; by apply Hk, Hok). pose proof (ro_bound n') as [_ Hb]. rewrite Hpo in Hb. wp_step. rewrite Hprev.
  apply (delta_ok d m); [lia|change kNumRxRingEntries with 4096; lia|by rewrite Hidx|]. intros delta Hdelta.
  change kNumRxRingEntries with 4096 in Hdelta |- *. wp_step.
  - wp_step. destruct Hdelta as [[-> Hd]|(? & ? & _)]; [|lia]. rewrite Z.add_0_r. split; [|split; [lia|split; [lia|done]]].
    constructor; rsimp; rewrite ?Hpo; try done. lia.
  - destruct Hdelta as [[-> Hd]|(Hlt & Hd & Hcur & Hmod)]; [lia|]. wp_step. eapply (advance_head_wp _ _ _ _ d); [exact Hhead|].
    wp_step. wp_step. wp_step. split; [|split; [lia|split; [lia|done]]]. rewrite Z2Nat.id by lia.
    pose proof (latest_range m (raw_cqe_idx t)). constructor; rsimp; rewrite ?Hpo; try done.
    + f_equal. lia.
    + by rewrite Hidx, Z.add_mod_idemp_l.
    + lia.
Qed.

Lemma wqe_ids_lookup i : 0 <= i < kRQDepth -> zlookup wqe_ids i = Some i.
Proof.
  intros Hi. unfold zlookup. rewrite (proj2 (Z.leb_le 0 i)) by lia. unfold wqe_ids. rewrite list_lookup_fmap, lookup_seq_lt by lia.
  cbn. f_equal. lia.
Qed.
Lemma raw_post_recvs_wp ring d p num t :
  raw_inv ring d p t -> 0 <= num <= d - p -> wp (post_recvs num) (fun _ t' => raw_inv ring d (p + num) t') t.
Proof.
  intros [Hprev Hidx Hhead Hord Hpost Hsl Hsi Hsg Hring Hok] Hn. pose proof (ro_bound (raw_nic t)) as [_ Hb].
  assert (HE : kNumRxRingEntries = 4096) by done. assert (HS : kStridesPerWQE = 512) by done. assert (HD : kRQDepth = 8) by done.
  unfold post_recvs. wp_step. wp_step; [lia|]. wp_step. wp_step. wp_step. wp_step. rsimp.
  rewrite (add64_small (raw_recvs_to_post t) num) by lia. wp_step.
  { wp_step. constructor; rsimp; try done; try lia; rewrite add64_small; lia. }
  wp_step. assert (Hidx8 : 0 <= raw_mp_sge_idx t < kRQDepth) by (rewrite Hsi; by apply Z.mod_pos_bound).
  eapply (wp_deref _ (mp_sge ring (raw_mp_sge_idx t))).
  { rewrite Hsg. pose proof (wqe_ids_lookup _ Hidx8) as Hl. unfold zlookup in *. case_match; [|done]. by rewrite list_lookup_fmap, Hl. }
  wp_step. unfold raw_call, wpe at 1. rsimp. pose proof (ro_post (mp_sge ring (raw_mp_sge_idx t)) (raw_nic t)) as Hp.
  destruct (recv_burst _ _) as [r n']. destruct Hp as (-> & Hpg & Hpo).
  { rewrite HS, HE in *. rewrite HD. pose proof (Z.div_le_mono (512 * (zlength (nr_posted (raw_nic t)) + 1 - 8)) (nr_recvd (raw_nic t)) 512) as Hdiv.
    rewrite Z.mul_comm, Z.div_mul in Hdiv by lia. lia. }
  wp_step. wp_step; [done|]. wp_step. pose proof (pg_recvd _ _ _ _ Hpg).
  assert (Hz : zlength (nr_posted n') = zlength (nr_posted (raw_nic t)) + 1) by (by rewrite Hpo, zlength_app).
  constructor; rsimp; rewrite ?Hz; try done; try lia.
  - rewrite HS, HE in *. rewrite add64_small, sub64_small by lia. lia.
  - rewrite HS, HE in *. rewrite add64_small, sub64_small by lia. lia.
  - by rewrite Hsi, Z.add_mod_idemp_l by (rewrite HD; lia).
  - intros j s. rewrite Hpo. intros [Hj|[Hj [Hj0 <-]%list_lookup_singleton_Some]]%lookup_app_Some; [by apply Hring|].
    rewrite Hsi. unfold zlength. do 2 f_equal. lia.
  - intros i Hi. by apply (progress_keeps _ _ Hpg), Hok.
Qed.

(** ** Initialization *)
Lemma map_cqe_wp ER fuel i t (Q : unit -> Raw -> Prop) :
  nr_posted (raw_nic t) = [] -> 0 <= i < kRecvCQDepth -> (0 < fuel)%nat ->
  (forall n', nr_posted n' = [] -> entry_ok n' i ->
     (forall j, j <> i -> 0 <= j < kRecvCQDepth -> entry_ok (raw_nic t) j -> entry_ok n' j) -> Q tt (t <| raw_nic := n' |>)) ->
  wpe ER (map_cqe fuel i) Q t.
Proof.
  intros Hp Hi Hf HQ. unfold map_cqe. wp_step. wp_step. wp_step. wp_step.
  pose proof (ro_set_id i (htons 65535) (raw_nic t) Hp) as (R1 & P1 & C1). set (n1 := set_cqe_wqe_id i (htons 65535) (raw_nic t)) in *.
  pose proof (ro_set_counter i (htons (u16 (kStridesPerWQE - (kRecvCQDepth - i)))) n1 (eq_trans P1 Hp)) as (R2 & P2 & C2).
  rsimp. fold n1. set (n2 := set_cqe_wqe_counter _ _ n1) in *. assert (Hp2 : nr_posted n2 = []) by congruence.
  assert (Hz : forall n, nr_posted n = [] -> nr_recvd n = 0).
  { intros n Hn. pose proof (ro_bound n) as Hb. rewrite Hn in Hb. change (zlength []) with 0 in Hb. lia. }
  assert (Hl : latest 0 i = i - 8).
  { unfold latest. change kRecvCQDepth with 8 in *. Z.to_euclidean_division_equations. lia. }
  assert (Hok : entry_ok n2 i).
  { unfold entry_ok. rewrite C2, decide_True, C1, decide_True, Hz, Hl by done. unfold enc, snap. cbn [wqe_id wqe_counter fst].
    change kRecvCQDepth with 8 in *. change kStridesPerWQE with 512. unfold u16, wrap. change (2 ^ 16) with 65536.
    do 2 f_equal; Z.to_euclidean_division_equations; lia. }
  wp_step. apply snapshot_wp; rsimp; fold n1; fold n2; rewrite ?Hp2, ?(Hz n2 Hp2); [done|done|done|change (zlength (@nil sge)) with 0; lia|].
  intros m n' Hm Hk Hpo. rewrite (Hz n') in Hm by done. assert (m = 0) as -> by lia. wp_step.
  { exfalso. rewrite cycle_idx, Hl in H. change kRecvCQDepth with 8 in *. change kCQESnapshotCycle with 33554432 in H. apply Z.eqb_neq in H. Z.to_euclidean_division_equations. lia. }
  replace (((_ <| raw_nic := n1 |>) <| raw_nic := n2 |>) <| raw_nic := n' |>) with (t <| raw_nic := n' |>) by (by destruct t).
  apply HQ; [done|by apply Hk|]. intros j Hne Hj Hj2. apply Hk; [done|]. unfold entry_ok in *.
  by rewrite C2, decide_False, C1, decide_False, Hz, <- (Hz (raw_nic t)) by done.
Qed.

Lemma map_cqes_wp fuel t :
  nr_posted (raw_nic t) = [] -> cq_log_size (raw_nic t) = 3 -> cq_buf_null (raw_nic t) = false -> (0 < fuel)%nat ->
  wp (map_mlx5_overrunning_recv_cqes fuel) (fun _ t' => nr_posted (raw_nic t') = [] /\ cqe_ok (raw_nic t') /\
    t' = t <| raw_prev_snapshot := snap (-1) |> <| raw_nic := raw_nic t' |>) t.
Proof.
  intros Hp Hlog Hbuf Hf. unfold map_mlx5_overrunning_recv_cqes. wp_step. wp_step. wp_step. wp_step; [by rewrite Hlog in *|].
  wp_step. wp_step; [by rewrite Hbuf in *|]. wp_step. wp_step; [done|]. wp_step.
  eapply wp_mono; [apply (wp_miter _ (fun (l : list Z) t' => exists n', nr_posted n' = [] /\ (forall i, i ∈ l -> entry_ok n' i) /\
    t' = t <| raw_nic := n' |>))|].
  - exists (raw_nic t). split; [done|]. split; [by intros i ?%not_elem_of_nil|by destruct t].
  - intros l x todo ? Hl (n & Hn & Hlok & ->).
    assert (Hr : forall i, i ∈ l ++ x :: todo -> 0 <= i < kRecvCQDepth).
    { rewrite <- Hl. intros i (k & -> & Hk%elem_of_seq)%list_elem_of_fmap. unfold kRecvCQDepth in *. lia. }
    apply map_cqe_wp; rsimp; [done|apply Hr; set_solver|done|]. intros n' Hn' Hx Ho. exists n'. split; [done|]. split; [|by destruct t].
    intros i Hi. destruct (decide (i = x)) as [->|Hne]; [done|]. apply Ho; [done|apply Hr; set_solver|apply Hlok; set_solver].
  - intros [] ? (n & Hn & Hlok & ->). assert (Hok : cqe_ok n).
    { intros i Hi. apply Hlok. apply list_elem_of_fmap. exists (Z.to_nat i). split; [lia|]. apply elem_of_seq. lia. }
    pose proof (ro_bound n) as Hb. rewrite Hn in Hb. change (zlength []) with 0 in Hb. wp_step.
    apply snapshot_wp; rsimp; rewrite ?Hn; change (zlength []) with 0; [by apply Hok|done|change kNumRxRingEntries with 4096; lia|lia|].
    intros m n' Hm Hk Hpo. pose proof (ro_bound n') as Hb'. rewrite Hpo in Hb'. change (zlength []) with 0 in Hb'.
    assert (m = 0) as -> by lia. change (latest 0 (kRecvCQDepth - 1)) with (-1). wp_step. rsimp.
    split; [done|]. split; [|by destruct t]. intros j Hj. by apply Hk, Hok.
Qed.

Lemma post_all_wp ring t :
  nr_posted (raw_nic t) = [] -> cqe_ok (raw_nic t) -> zlength (raw_mp_recv_sge t) = kRQDepth ->
  wp (miter (init_mp_recv ring) wqe_ids) (fun _ t' => nr_posted (raw_nic t') = mp_sge ring <$> wqe_ids /\ cqe_ok (raw_nic t') /\
    t' = t <| raw_mp_recv_sge := mp_sge ring <$> wqe_ids |> <| raw_nic := raw_nic t' |>) t.
Proof.
  intros Hp Hok Hl. set (old := raw_mp_recv_sge t).
  eapply wp_mono; [apply (wp_miter _ (fun (l : list Z) t' => exists n', nr_posted n' = mp_sge ring <$> l /\ cqe_ok n' /\
    t' = t <| raw_mp_recv_sge := (mp_sge ring <$> l) ++ drop (length l) old |> <| raw_nic := n' |>))|].
  - exists (raw_nic t). split; [done|]. split; [done|]. by destruct t.
  - intros l x todo ? Hall (n & Hn & Hc & ->).
    assert (Hx : wqe_ids !! length l = Some x) by (by rewrite Hall, list_lookup_middle).
    unfold wqe_ids in Hx. apply list_lookup_fmap_Some in Hx as (k & Hk & [-> Hlt]%lookup_seq). rewrite Nat.add_0_l in Hk.
    assert (Hold : exists s rest, drop (length l) old = s :: rest /\ rest = drop (length (l ++ [x])) old).
    { destruct (lookup_lt_is_Some_2 old (length l)) as [s Hs]; [unfold zlength, kRQDepth in *; fold old in Hl; lia|].
      exists s, (drop (S (length l)) old). split; [by apply drop_S|]. by rewrite length_app, Nat.add_1_r. }
    destruct Hold as (s & rest & Hs & Hrest). unfold init_mp_recv. wp_step. wp_step. wp_step. unfold raw_call, wpe at 1. rsimp.
    pose proof (ro_post (mp_sge ring x) n) as Hpost. destruct (recv_burst _ _) as [r n']. destruct Hpost as (_ & Hpg & Hpo).
    { rewrite Hn. unfold zlength. rewrite length_fmap. pose proof (ro_bound n). pose proof (Z.div_pos (nr_recvd n) 512). change kStridesPerWQE with 512 in *.
      unfold kRQDepth in *. lia. }
    wp_step. exists n'. split; [by rewrite Hpo, Hn, fmap_app|]. split; [intros i Hi; by apply (progress_keeps _ _ Hpg), Hc|].
    assert (E : zinsert x (mp_sge ring x) ((mp_sge ring <$> l) ++ drop (length l) old) = (mp_sge ring <$> l ++ [x]) ++ drop (length (l ++ [x])) old).
    { rewrite Hs, <- Hrest, fmap_app, <- app_assoc. unfold zinsert. rewrite (proj2 (Z.leb_le 0 x)) by lia.
      rewrite insert_app_r_alt by (rewrite length_fmap; lia). rewrite length_fmap. by replace (Z.to_nat x - length l)%nat with O by lia. }
    rewrite <- E. by destruct t.
  - intros [] ? (n & Hn & Hc & ->). rsimp. split; [done|]. split; [done|].
    rewrite drop_ge by (fold old in Hl; unfold zlength in Hl; change (length wqe_ids) with 8%nat; change kRQDepth with 8 in Hl; lia).
    by rewrite app_nil_r.
Qed.

(** As the constructor leaves the transport. *)
Record raw_fresh t : Prop := {
  rf_posted : nr_posted (raw_nic t) = [];
  rf_cq : cq_log_size (raw_nic t) = 3 /\ cq_buf_null (raw_nic t) = false;
  rf_idx : raw_cqe_idx t = 0;
  rf_head : raw_recv_head t = 0;
  rf_to_post : raw_recvs_to_post t = 0;
  rf_sge_idx : raw_mp_sge_idx t = 0;
  rf_sges : zlength (raw_mp_recv_sge t) = kRQDepth;
}.
Definition raw_init {Os : ShmOs} (fuel : nat) : M (Raw * HugeAlloc) (list Z) :=
  zoom fst (fun t p => (t, p.2)) (map_mlx5_overrunning_recv_cqes fuel);; init_recvs fuel.
Definition rx_ring_of (ring : Buffer) : list Z :=
  (fun i => b_buf ring + kRecvSize * i) <$> (Z.of_nat <$> seq 0 (Z.to_nat kNumRxRingEntries)).

Lemma raw_init_wp {Os : ShmOs} fuel {OsOk : ShmOsOk Os fuel} t h :
  raw_fresh t -> (0 < fuel)%nat ->
  wpt (raw_init fuel) (fun rx_ring s => exists ring, rx_ring = rx_ring_of ring /\ raw_inv ring 0 0 s.1) (t, h).
Proof.
  intros [Hp [Hlog Hbuf] Hidx Hhead Hto Hsi Hlen] Hf. unfold raw_init, init_recvs. wp_step. apply wp_zoom.
  eapply wp_mono; [eapply wp_err_mono; [by apply (map_cqes_wp fuel t)|done]|]. intros [] t1 (Hp1 & Hok1 & Ht1). wp_step. apply wp_zoom. rsimp.
  assert (HQ : forall ring h', wpt (rt_assert (negb (b_buf ring =? 0)) "Failed to allocate ring buffers";;
    zoom fst (fun t (p : Raw * HugeAlloc) => (t, p.2)) (modify (fun t => t <| raw_ring_extent := ring |>);; miter (init_mp_recv ring) wqe_ids);;
    mret (rx_ring_of ring)) (fun rx_ring (s : Raw * HugeAlloc) => exists ring, rx_ring = rx_ring_of ring /\ raw_inv ring 0 0 s.1) (t1, h')).
  { intros ring h'. wp_step. wp_step; [done|]. wp_step. apply wp_zoom. wp_step. wp_step.
    eapply wp_mono; [eapply wp_err_mono; [apply (post_all_wp ring); rsimp; [done|done|by rewrite Ht1]|done]|].
    intros [] t2 (Hp2 & Hok2 & Ht2). wp_step. exists ring. split; [done|]. cbn [fst]. rewrite Ht1 in Ht2.
    pose proof (ro_bound (raw_nic t2)) as Hb. rewrite Ht2, Ht1. constructor; rsimp; try done; rewrite ?Hp2; try done.
    - split; [done|]. lia.
    - cbn [fst]. rsimp. by rewrite Hto.
    - cbn [fst]. rsimp. by rewrite Hto.
    - unfold wqe_ids. intros j s (k & -> & (i & -> & [-> Hj]%lookup_seq)%list_lookup_fmap_Some)%list_lookup_fmap_Some.
      f_equal. rewrite Z.mod_small; [done|]. unfold kRQDepth in *. lia. }
  apply (alloc_raw_wp fuel); [by vm_compute|intros m Hm; exact (HQ nullBuffer _)|intros m id key sz res lkey _ _ _; exact (HQ _ _)].
Qed.

(** ** What the Rpc reads *)

(** Where the NIC wrote packet [q]: in the [q / 512]th receive that was posted. *)
Definition stride_of (n : Nic) (q : Z) : option Z :=
  s ← zlookup (nr_posted n) (q / kStridesPerWQE);
  Some (sge_addr s + q mod kStridesPerWQE * kRecvSize).
Lemma stride_ring ring d p t q :
  raw_inv ring d p t -> 0 <= q < nr_recvd (raw_nic t) ->
  stride_of (raw_nic t) q = zlookup (rx_ring_of ring) (q mod kNumRxRingEntries).
Proof.
  intros Hinv Hq. pose proof (ro_bound (raw_nic t)) as [_ Hb].
  assert (HE : kNumRxRingEntries = 4096) by done. assert (HS : kStridesPerWQE = 512) by done. assert (HD : kRQDepth = 8) by done.
  assert (Hq5 : 0 <= q / kStridesPerWQE < zlength (nr_posted (raw_nic t))) by (rewrite HS in *; Z.to_euclidean_division_equations; lia).
  destruct (zlookup_is_Some _ _ Hq5) as [s Hs]. unfold stride_of. rewrite Hs. cbn.
  unfold zlookup in *. rewrite (proj2 (Z.leb_le 0 _)) in Hs by lia. apply (ri_ring _ _ _ _ Hinv) in Hs. rewrite Hs.
  pose proof (Z.mod_pos_bound q kNumRxRingEntries). rewrite (proj2 (Z.leb_le 0 _)) by lia.
  unfold rx_ring_of. rewrite list_lookup_fmap, list_lookup_fmap, lookup_seq_lt by lia. cbn [fmap option_fmap option_map mp_sge sge_addr].
  f_equal. change kRecvSize with 1024. rewrite Z2Nat.id by lia. rewrite HS, HE, HD in *.
  rewrite Nat.add_0_l, Z2Nat.id by lia. Z.to_euclidean_division_equations. lia.
Qed.
Lemma unread_kept ring d p t :
  raw_inv ring d p t -> nr_recvd (raw_nic t) <= p + kNumRxRingEntries.
Proof. intros Hinv. pose proof (ro_bound (raw_nic t)). pose proof (ri_posted _ _ _ _ Hinv). pose proof (ri_slack _ _ _ _ Hinv). lia. Qed.

(** C40  [d] packets have been handed to the Rpc, which has given [p] ring entries
    back. [rx_burst] hands over the next packets, at least one if any has arrived,
    though the NIC may be receiving meanwhile: each is in the ring entry that the
    Rpc reads next, and no packet whose entry was not given back can be
    overwritten. Giving entries back, which posts a receive once 512 of them are
    pending, keeps all this so. *)
Theorem raw_rx_correct ring d p fuel t :
  raw_inv ring d p t -> (Z.to_nat kNumRxRingEntries < fuel)%nat ->
  exists delta t1, rx_burst fuel t = Ok delta t1 /\ raw_inv ring (d + delta) p t1 /\ 0 <= delta /\
    (d < nr_recvd (raw_nic t) -> 0 < delta) /\
    (forall q, d <= q < d + delta -> is_Some (stride_of (raw_nic t1) q) /\
       stride_of (raw_nic t1) q = zlookup (rx_ring_of ring) (q mod kNumRxRingEntries) /\
       nr_recvd (raw_nic t1) <= p + kNumRxRingEntries) /\
    forall num, 0 <= num <= d + delta - p -> exists t2, post_recvs num t1 = Ok tt t2 /\ raw_inv ring (d + delta) (p + num) t2.
Proof.
  intros Hinv Hf. pose proof (rx_burst_wp ring d p fuel t Hinv Hf) as (delta & t1 & Hrun & Hinv1 & Hd & Hpos & _)%wp_run.
  pose proof (ri_order _ _ _ _ Hinv). pose proof (ri_order _ _ _ _ Hinv1). exists delta, t1. split_and!; try done; [lia| |].
  - intros q Hq. rewrite (stride_ring ring (d + delta) p t1 q) by (done || lia). split; [|split; [done|by eapply unread_kept]].
    apply zlookup_is_Some. unfold rx_ring_of, zlength. rewrite !length_fmap, length_seq, Z2Nat.id by done. by apply Z.mod_pos_bound.
  - intros num Hn. pose proof (raw_post_recvs_wp ring (d + delta) p num t1 Hinv1 Hn) as ([] & t2 & Hr & H2)%wp_run. by exists t2.
Qed.
End Props.

(** ** A concrete NIC

    It receives a packet, if it has a posted stride for it, whenever the CPU reads
    the first or the last half of an entry: every snapshot may be torn. *)

Record tnic := mkT { tn_recvd : Z; tn_posted : list sge; tn_cqe : Z -> Z * Z }.
Definition tn_arrived (n : tnic) : Z := Z.max 0 (Z.min (tn_recvd n) (kStridesPerWQE * zlength (tn_posted n))).
Definition tn_set (i : Z) (v : Z * Z) (n : tnic) : tnic :=
  mkT (tn_arrived n) (tn_posted n) (fun j => if decide (j = i) then v else tn_cqe n j).
Definition tn_arrive (n : tnic) : tnic :=
  let r := tn_arrived n in
  if r <? kStridesPerWQE * zlength (tn_posted n)
  then mkT (r + 1) (tn_posted n) (fun j => if decide (j = r mod kRecvCQDepth) then enc r else tn_cqe n j)
  else n.
#[local] Instance TornNic : RawNic := {|
  Nic := tnic;
  cqe_wqe_id i n := let n := tn_arrive n in ((tn_cqe n i).1, n);
  cqe_wqe_counter i n := ((tn_cqe n i).2, n);
  set_cqe_wqe_id i v n := tn_set i (v, (tn_cqe n i).2) n;
  set_cqe_wqe_counter i v n := tn_set i ((tn_cqe n i).1, v) n;
  recv_burst s n := (0, mkT (tn_arrived n) (tn_posted n ++ [s]) (tn_cqe n));
  cq_log_size _ := 3;
  cq_buf_null _ := false
|}.

Lemma arrived_again n k ps :
  zlength (tn_posted n) <= zlength ps -> 0 <= k <= 1 -> tn_arrived n + k <= kStridesPerWQE * zlength ps ->
  forall c, tn_arrived (mkT (tn_arrived n + k) ps c) = tn_arrived n + k.
Proof. intros H Hk Hb c. unfold tn_arrived at 1. cbn [tn_recvd tn_posted]. unfold tn_arrived in *. lia. Qed.
Lemma nothing_new n (c : Z -> Z * Z) i x : latest n i < n -> c i = if n <=? latest n i then x else c i.
Proof. intros H. destruct (Z.leb_spec n (latest n i)); [lia|done]. Qed.
Lemma arrive_progress n : progress tn_arrived tn_cqe n (tn_arrive n) /\ tn_posted (tn_arrive n) = tn_posted n.
Proof.
  unfold tn_arrive. destruct (Z.ltb_spec (tn_arrived n) (kStridesPerWQE * zlength (tn_posted n))) as [Hlt|].
  - split; [|done]. constructor; rewrite (arrived_again n 1) by (cbn; lia); [lia|]. intros i Hi. cbn [tn_cqe].
    generalize (tn_arrived n) as r. intros r. unfold latest. change kRecvCQDepth with 8 in *.
    replace (r + 1 - 1 - i) with (r - i) by lia. case_decide as Hm.
    + subst i. replace ((r - r mod 8) mod 8) with 0 by (Z.to_euclidean_division_equations; lia).
      rewrite (proj2 (Z.leb_le _ _)) by lia. by replace (r + 1 - 1 - 0) with r by lia.
    + rewrite (proj2 (Z.leb_gt _ _)); [done|]. Z.to_euclidean_division_equations. lia.
  - split; [|done]. constructor; [lia|]. intros i Hi. apply nothing_new. pose proof (latest_range (tn_arrived n) i). lia.
Qed.
Lemma post_progress n s : progress tn_arrived tn_cqe n (mkT (tn_arrived n) (tn_posted n ++ [s]) (tn_cqe n)).
Proof.
  assert (E : tn_arrived (mkT (tn_arrived n) (tn_posted n ++ [s]) (tn_cqe n)) = tn_arrived n).
  { unfold tn_arrived at 1. cbn [tn_recvd tn_posted]. rewrite zlength_app. change (zlength [s]) with 1.
    pose proof (zlength_nonneg (tn_posted n)). unfold tn_arrived. change kStridesPerWQE with 512. lia. }
  constructor; rewrite E; [lia|]. intros j Hj. apply nothing_new. pose proof (latest_range (tn_arrived n) j). lia.
Qed.
Lemma set_arrived i v n : tn_arrived (tn_set i v n) = tn_arrived n.
Proof. unfold tn_set, tn_arrived. cbn [tn_recvd tn_posted]. lia. Qed.

#[local] Instance TornNic_ok : RawNicOk TornNic.
Proof.
  refine {| nr_recvd := tn_arrived : @Nic TornNic -> Z; nr_posted := tn_posted; nr_cqe := tn_cqe |}.
  - intros n. unfold tn_arrived. pose proof (zlength_nonneg (tn_posted n)). change kStridesPerWQE with 512. cbn in *. lia.
  - intros i n. cbn -[tn_arrive]. destruct (arrive_progress n).  by split_and!.
  - intros i n. cbn. split; [|done]. constructor; [lia|]. intros j Hj. apply nothing_new. pose proof (latest_range (tn_arrived n) j). lia.
  - intros i v n _. split; [apply set_arrived|]. split; [done|]. intros j. cbn -[decide]. destruct (decide (j = i)); by subst.
  - intros i v n _. split; [apply set_arrived|]. split; [done|]. intros j. cbn -[decide]. destruct (decide (j = i)); by subst.
  - intros s n _. split; [done|]. by split; [apply post_progress|].
Defined.

Definition raw0 : Raw :=
  mkRaw (mkRawResolve 0 []) nullBuffer (mkSnapshot 0 0) 0 10000 0 0 (replicate 8 (mkSge 0 0 0)) 0 (mkT 0 [] (fun _ => (0, 0))).
Lemma raw0_fresh : raw_fresh raw0.
Proof. by split. Qed.
Definition ready (r : res (Raw * HugeAlloc) (list Z)) : bool :=
  match r with Ok _ (t, _) => raw_cqe_idx t =? 0 | Fail _ => false end.
Lemma raw_ready : exists ring t, raw_inv ring 0 0 t.
Proof.
  destruct (run_checked is_throw (raw_init (Os := BumpOs) 1 (raw0, HugeAlloc_new (MB 32)))
    (fun rx_ring (s : Raw * HugeAlloc) => exists ring, rx_ring = rx_ring_of ring /\ raw_inv ring 0 0 s.1) (fun _ s => raw_cqe_idx s.1 =? 0))
    as (l & [t h] & _ & _ & ring & _ & Hinv).
  - apply wp_match. exact (raw_init_wp (Os := BumpOs) 1 raw0 _ raw0_fresh ltac:(lia)).
  - by vm_compute.
  - by exists ring, t.
Qed.

Lemma raw_rx_correct_witness :
  exists ring t, raw_inv ring 0 0 t /\
  exists delta t1, rx_burst (S (Z.to_nat kNumRxRingEntries)) t = Ok delta t1 /\ raw_inv ring (0 + delta) 0 t1 /\ 0 <= delta /\
    (0 < nr_recvd (raw_nic t) -> 0 < delta) /\
    (forall q, 0 <= q < 0 + delta -> is_Some (stride_of (raw_nic t1) q) /\
       stride_of (raw_nic t1) q = zlookup (rx_ring_of ring) (q mod kNumRxRingEntries) /\
       nr_recvd (raw_nic t1) <= 0 + kNumRxRingEntries) /\
    forall num, 0 <= num <= 0 + delta - 0 -> exists t2, post_recvs num t1 = Ok tt t2 /\ raw_inv ring (0 + delta) (0 + num) t2.
Proof.
  destruct raw_ready as (ring & t & Hinv). exists ring, t. split; [exact Hinv|].
  apply (raw_rx_correct ring 0 0 (S (Z.to_nat kNumRxRingEntries)) t Hinv). lia.
Defined.

(** What twelve rounds of the event loop hand over, packets arriving
    all the time: the ninth finds its entry used again by the packet eight later. *)
Fixpoint rounds (n : nat) : M Raw (list Z) :=
  match n with
  | O => mret []
  | S n => delta ← rx_burst 5; post_recvs delta;; l ← rounds n; mret (delta :: l)
  end.
Example twelve_rounds :
  match (raw_init (Os := BumpOs) 1;; zoom fst (fun t (p : Raw * HugeAlloc) => (t, p.2)) (rounds 12)) (raw0, HugeAlloc_new (MB 32)) with
  | Ok l (t, _) => Some (l, raw_recv_head t, tn_recvd (raw_nic t), zlength (tn_posted (raw_nic t)))
  | Fail _ => None
  end = Some ([1; 1; 1; 1; 1; 1; 1; 1; 9; 1; 1; 1], 20, 24, 8).
Proof. by vm_compute. Qed.
