(* ===== verification/IbControl.v ===== *)
(** * The InfiniBand transport's control path: [ib_transport.cc], and
    [common_resolve_phy_port] of [verbs_common.h]

    Port resolution, the construction of the queue pair with everything it
    needs, address handles and routing information, destruction. The verbs
    library is the class [VerbsCtl]; [VerbsCtlOk] says, in terms of the objects
    that are alive, what the code relies on. Log messages are left out. *)
From S2P Require Import Prelude Config PktHdr SmTypes Timer IbTransport.

(** ** The verbs library *)

(** Values of [verbs.h]. *)
Definition IBV_PORT_ACTIVE : Z := 4.
Definition IBV_PORT_ACTIVE_DEFER : Z := 5.
Definition IBV_LINK_LAYER_UNSPECIFIED : Z := 0.
Definition IBV_LINK_LAYER_INFINIBAND : Z := 1.
Definition IBV_LINK_LAYER_ETHERNET : Z := 2.

Record port_attr_t := mkPortAttr {
  pa_phys_state : Z; pa_link_layer : Z; pa_active_mtu : Z; pa_active_speed : Z;
  pa_active_width : Z; pa_lid : Z;
}.
Record ah_attr_t := mkAhAttr {
  aa_is_global : Z; aa_dlid : Z; aa_sl : Z; aa_src_path_bits : Z; aa_port_num : Z;
  aa_dgid : list Z; aa_sgid_index : Z; aa_hop_limit : Z;
}.
Inductive qp_state := QpsReset | QpsInit | QpsRtr | QpsRts.
(** [ibv_qp_attr]: the fields that [attr_mask] selects. *)
Record qp_attr_t := mkQpAttr {
  qa_state : qp_state; qa_pkey_index : option Z; qa_port_num : option Z; qa_qkey : option Z; qa_sq_psn : option Z;
}.
(** [ibv_qp_init_attr] of a datagram queue pair. *)
Record qp_init_attr_t := mkQpInitAttr {
  qi_send_cq : Z; qi_recv_cq : Z; qi_max_send_wr : Z; qi_max_recv_wr : Z;
  qi_max_send_sge : Z; qi_max_recv_sge : Z; qi_max_inline_data : Z;
}.

(** Pointers to the library's objects are numbers, null is [None]. *)
Class VerbsCtl := {
  Ctl : Type;
  ibv_get_device_list : Ctl -> option Z * Ctl;                (* the number of devices *)
  ibv_open_device : Z -> Ctl -> option Z * Ctl;
  ibv_query_device : Z -> Ctl -> option Z * Ctl;              (* phys_port_cnt *)
  ibv_query_port : Z -> Z -> Ctl -> option port_attr_t * Ctl;
  ibv_query_gid : Z -> Z -> Z -> Ctl -> option (list Z) * Ctl;
  ibv_close_device : Z -> Ctl -> Z * Ctl;
  ibv_alloc_pd : Z -> Ctl -> option Z * Ctl;
  ibv_create_cq : Z -> Z -> Ctl -> option Z * Ctl;
  ibv_create_qp : Z -> qp_init_attr_t -> Ctl -> option Z * Ctl;
  ibv_qp_num : Z -> Z;
  ibv_modify_qp : Z -> qp_attr_t -> Ctl -> Z * Ctl;
  ibv_create_ah : Z -> ah_attr_t -> Ctl -> option Z * Ctl;
  ibv_post_recv_probe : Z -> Z -> Ctl -> Z * Ctl;             (* a null list, bad_wr set *)
  ibv_destroy_qp : Z -> Ctl -> Z * Ctl;
  ibv_destroy_cq : Z -> Ctl -> Z * Ctl;
  ibv_destroy_ah : option Z -> Ctl -> Z * Ctl;
  ibv_dealloc_pd : Z -> Ctl -> Z * Ctl;
}.

(** ** State *)

(** [VerbsResolve] and [IBResolve] *)
Record IBResolve := mkResolve {
  rs_device_id : Z; rs_ib_ctx : option Z; rs_dev_port_id : Z; rs_bandwidth : Z;
  rs_port_lid : Z; rs_gid : list Z;
}.
#[export] Instance eta_IBResolve : Eta IBResolve := fun r =>
  mkResolve (rs_device_id r) (rs_ib_ctx r) (rs_dev_port_id r) (rs_bandwidth r) (rs_port_lid r) (rs_gid r).
Definition IBResolve_new : IBResolve := mkResolve (-1) None 0 0 0 (replicate 16 0).

Section Control.
Context {V : VerbsCtl}.
Variable kIsRoCE : bool.

Record IBC := mkIBC {
  ic_resolve : IBResolve;
  ic_pd : option Z;
  ic_send_cq : option Z;
  ic_recv_cq : option Z;
  ic_qp : option Z;
  ic_self_ah : option Z;
  ic_use_fast_recv : bool;
  ic_ah_to_free_vec : list (option Z);
  ic_ctl : Ctl;
}.
#[export] Instance eta_IBC : Eta IBC := fun t =>
  mkIBC (ic_resolve t) (ic_pd t) (ic_send_cq t) (ic_recv_cq t) (ic_qp t) (ic_self_ah t)
    (ic_use_fast_recv t) (ic_ah_to_free_vec t) (ic_ctl t).
Definition IBC_new (c : Ctl) : IBC := mkIBC IBResolve_new None None None None None false [] c.

Abbreviation MC := (M IBC).
Definition ctl {A} (f : Ctl -> A * Ctl) : MC A := fun t =>
  let (a, c) := f (ic_ctl t) in Ok a (t <| ic_ctl := c |>).
(** [rt_assert(p != nullptr, what)] on the result of a call. *)
Definition ctl_ptr {A} (f : Ctl -> option A * Ctl) (what : string) : MC A :=
  o ← ctl f; match o with Some a => mret a | None => fail (EThrow what) end.

(** ** Port resolution *)
Definition enum_to_mtu (mtu : Z) : Z :=
  if mtu =? 1 then 256 else if mtu =? 2 then 512 else if mtu =? 3 then 1024
  else if mtu =? 4 then 2048 else if mtu =? 5 then 4096 else 0.
Definition gbps_per_lane (active_speed : Z) : option double :=
  if active_speed =? 1 then Some (fconst 25 10)
  else if active_speed =? 2 then Some (of_size 5)
  else if (active_speed =? 4) || (active_speed =? 8) then Some (of_size 10)
  else if active_speed =? 16 then Some (of_size 14)
  else if active_speed =? 32 then Some (of_size 25)
  else if active_speed =? 64 then Some (of_size 50)
  else None.
Definition num_lanes (active_width : Z) : option Z :=
  if active_width =? 1 then Some 1 else if active_width =? 2 then Some 4
  else if active_width =? 4 then Some 8 else if active_width =? 8 then Some 12 else None.
Definition port_bandwidth (gbps : double) (lanes : Z) : option Z :=
  to_size (fdiv (fmul (fmul (of_size lanes) gbps) (of_size 1000000000)) (of_size 8)).

Definition port_is_active (a : port_attr_t) : bool :=
  (pa_phys_state a =? IBV_PORT_ACTIVE) || (pa_phys_state a =? IBV_PORT_ACTIVE_DEFER).
Definition expected_link_layer (ty : TransportType) : Z :=
  if bool_decide (ty = kInfiniBand) && negb kIsRoCE then IBV_LINK_LAYER_INFINIBAND
  else IBV_LINK_LAYER_ETHERNET.

(** The port is the one that was asked for. *)
Definition take_port (mtu : Z) (ty : TransportType) (dev_i ib_ctx port_i : Z) (a : port_attr_t) : MC unit :=
  if negb (pa_link_layer a =? expected_link_layer ty) then fail (EThrow "Invalid link layer.")
  else if enum_to_mtu (pa_active_mtu a) <? mtu then fail (EThrow "Transport's required MTU")
  else
    modify (fun t => t <| ic_resolve ::= fun r => r <| rs_device_id := dev_i |>
      <| rs_ib_ctx := Some ib_ctx |> <| rs_dev_port_id := port_i |> |>);;
    gbps ← match gbps_per_lane (pa_active_speed a) with
           | Some g => mret g | None => fail (EThrow "Invalid active speed") end;
    lanes ← match num_lanes (pa_active_width a) with
            | Some n => mret n | None => fail (EThrow "Invalid active width") end;
    bw ← deref (port_bandwidth gbps lanes) "double to size_t";
    modify (fun t => t <| ic_resolve ::= fun r => r <| rs_bandwidth := bw |> |>).

(** The ports of one device: [None] when the port was found, else the active
    ports still to be passed. *)
Fixpoint scan_ports (mtu : Z) (ty : TransportType) (dev_i ib_ctx : Z) (ports : list Z)
    (ports_to_discover : Z) : MC (option Z) :=
  match ports with
  | [] => mret (Some ports_to_discover)
  | port_i :: ports =>
      a ← ctl_ptr (ibv_query_port ib_ctx port_i) "Failed to query port";
      if negb (port_is_active a) then scan_ports mtu ty dev_i ib_ctx ports ports_to_discover
      else if ports_to_discover =? 0 then take_port mtu ty dev_i ib_ctx port_i a;; mret None
      else scan_ports mtu ty dev_i ib_ctx ports (ports_to_discover - 1)
  end.

(** The port counter is 8 bits wide: a device with 255 ports never ends it. *)
Definition dev_ports (phys_port_cnt : Z) : list Z := Z.of_nat <$> seq 1 (Z.to_nat phys_port_cnt).
Fixpoint scan_devs (mtu : Z) (ty : TransportType) (devs : list Z) (ports_to_discover : Z) : MC (option Z) :=
  match devs with
  | [] => mret (Some ports_to_discover)
  | dev_i :: devs =>
      ib_ctx ← ctl_ptr (ibv_open_device dev_i) "Failed to open dev";
      phys_port_cnt ← ctl_ptr (ibv_query_device ib_ctx) "Failed to query device";
      o ← scan_ports mtu ty dev_i ib_ctx (dev_ports phys_port_cnt) ports_to_discover;
      match o with
      | None => mret None
      | Some n =>
          when (phys_port_cnt =? 255) (fail EFuel);;
          ret ← ctl (ibv_close_device ib_ctx);
          rt_assert (ret =? 0) "Failed to close device";;
          scan_devs mtu ty devs n
      end
  end.
Definition common_resolve_phy_port (phy_port mtu : Z) (ty : TransportType) : MC unit :=
  num_devices ← ctl_ptr ibv_get_device_list "Failed to get device list";
  o ← scan_devs mtu ty (Z.of_nat <$> seq 0 (Z.to_nat num_devices)) phy_port;
  match o with
  | None => mret tt
  | Some _ =>
      r ← gets ic_resolve;
      assert_ (bool_decide (rs_ib_ctx r = None)) "resolve_phy_port: ib_ctx";;
      fail (EThrow "Failed to resolve verbs port index")
  end.

Definition kDefaultGIDIndex : Z := 1.
Definition ib_resolve_phy_port : MC unit :=
  r ← gets ic_resolve;
  ib_ctx ← deref (rs_ib_ctx r) "ib_ctx";
  a ← ctl_ptr (ibv_query_port ib_ctx (rs_dev_port_id r)) "Failed to query port";
  modify (fun t => t <| ic_resolve ::= fun r => r <| rs_port_lid := pa_lid a |> |>);;
  when kIsRoCE (
    gid ← ctl_ptr (ibv_query_gid ib_ctx (rs_dev_port_id r) kDefaultGIDIndex) "Failed to query GID";
    modify (fun t => t <| ic_resolve ::= fun r => r <| rs_gid := gid |> |>)).

(** ** Address handles and routing information *)

(** [ib_routing_info_t] as it lies in [routing_info_t]: the LID at 0, the queue
    pair number at 4, the GID at 8, the address handle at 24. *)
Definition ri_port_lid (ri : routing_info_t) : Z := le_val (take 2 ri).
Definition ri_qp_num (ri : routing_info_t) : Z := le_val (take 4 (drop 4 ri)).
Definition ri_gid (ri : routing_info_t) : list Z := take 16 (drop 8 ri).
Definition ri_ah_ptr (ri : routing_info_t) : Z := le_val (take 8 (drop 24 ri)).
Definition ri_set_ah (ah : Z) (ri : routing_info_t) : routing_info_t :=
  take 24 ri ++ le_bytes 8 ah ++ drop 32 ri.

Definition ah_attr_of (port_num : Z) (ri : routing_info_t) : ah_attr_t :=
  if kIsRoCE then mkAhAttr 1 0 0 0 port_num (ri_gid ri) kDefaultGIDIndex 1
  else mkAhAttr 0 (ri_port_lid ri) 0 0 port_num (replicate 16 0) 0 0.
Definition create_ah (ri : routing_info_t) : MC (option Z) :=
  t ← get;
  pd ← deref (ic_pd t) "pd";
  ctl (ibv_create_ah pd (ah_attr_of (rs_dev_port_id (ic_resolve t)) ri)).

Definition fill_local_routing_info : MC routing_info_t :=
  t ← get;
  qp ← deref (ic_qp t) "qp";
  mret (le_bytes 2 (rs_port_lid (ic_resolve t)) ++ [0; 0] ++ le_bytes 4 (ibv_qp_num qp)
        ++ (if kIsRoCE then rs_gid (ic_resolve t) else replicate 16 0) ++ replicate 24 0).

(** Whether it could be resolved, and the resolved information. *)
Definition resolve_remote_routing_info (ri : routing_info_t) : MC (bool * routing_info_t) :=
  ah ← create_ah ri;
  modify (fun t => t <| ic_ah_to_free_vec ::= fun v => v ++ [ah] |>);;
  mret (bool_decide (ah <> None), ri_set_ah (default 0 ah) ri).

(** ** Construction *)
Definition kModdedProbeWrID : Z := 3186.
Definition kModdedProbeRet : Z := 3187.

Definition qp_create_attr (send_cq recv_cq : Z) : qp_init_attr_t :=
  mkQpInitAttr send_cq recv_cq kSQDepth kRQDepth 2 1 kMaxInline.
Definition init_attr (port_num : Z) : qp_attr_t := mkQpAttr QpsInit (Some 0) (Some port_num) (Some kQKey) None.
Definition rtr_attr : qp_attr_t := mkQpAttr QpsRtr None None None None.
Definition rts_attr : qp_attr_t := mkQpAttr QpsRts None None None (Some 0).
Definition modify_qp (qp : Z) (attr : qp_attr_t) (what : string) : MC unit :=
  ret ← ctl (ibv_modify_qp qp attr); rt_assert (ret =? 0) what.

Definition init_verbs_structs : MC unit :=
  r ← gets ic_resolve;
  assert_ (bool_decide (rs_ib_ctx r <> None) && negb (rs_device_id r =? -1)) "init_verbs_structs";;
  ib_ctx ← deref (rs_ib_ctx r) "ib_ctx";
  pd ← ctl_ptr (ibv_alloc_pd ib_ctx) "Failed to allocate PD";
  modify (fun t => t <| ic_pd := Some pd |>);;
  send_cq ← ctl_ptr (ibv_create_cq ib_ctx kSQDepth) "Failed to create SEND CQ. Forgot hugepages?";
  modify (fun t => t <| ic_send_cq := Some send_cq |>);;
  recv_cq ← ctl_ptr (ibv_create_cq ib_ctx kRQDepth) "Failed to create SEND CQ";
  modify (fun t => t <| ic_recv_cq := Some recv_cq |>);;
  qp ← ctl_ptr (ibv_create_qp pd (qp_create_attr send_cq recv_cq)) "Failed to create QP";
  modify (fun t => t <| ic_qp := Some qp |>);;
  modify_qp qp (init_attr (rs_dev_port_id r)) "Failed to modify QP to init";;
  modify_qp qp rtr_attr "Failed to modify QP to RTR";;
  self_routing_info ← fill_local_routing_info;
  self_ah ← create_ah self_routing_info;
  rt_assert (bool_decide (self_ah <> None)) "Failed to create self AH.";;
  modify (fun t => t <| ic_self_ah := self_ah |>);;
  modify_qp qp rts_attr "Failed to modify QP to RTS";;
  probe_ret ← ctl (ibv_post_recv_probe qp kModdedProbeWrID);
  modify (fun t => t <| ic_use_fast_recv := (probe_ret =? kModdedProbeRet) |>).

Context {T : TTr}.
(** [init_mem_reg_funcs] binds the protection domain to [reg_mr], a parameter
    of the allocator. *)
Definition init_mem_reg_funcs : MC unit :=
  pd ← gets ic_pd; assert_ (bool_decide (pd <> None)) "init_mem_reg_funcs".

Definition IBTransport_new (phy_port : Z) : MC unit :=
  rt_assert (if kIsRoCE then kHeadroom =? 40 else kHeadroom =? 0) "Invalid packet header headroom";;
  common_resolve_phy_port phy_port kMTU kInfiniBand;;
  ib_resolve_phy_port;;
  init_verbs_structs;;
  init_mem_reg_funcs.

(** ** Destruction *)
Definition exit_call (f : Ctl -> Z * Ctl) (what : string) : MC unit :=
  ret ← ctl f; if ret =? 0 then mret tt else fail (EThrow what).
Definition IBTransport_delete : MC unit :=
  t ← get;
  qp ← deref (ic_qp t) "qp";
  exit_call (ibv_destroy_qp qp) "Failed to destroy send QP";;
  send_cq ← deref (ic_send_cq t) "send_cq";
  exit_call (ibv_destroy_cq send_cq) "Failed to destroy send CQ";;
  recv_cq ← deref (ic_recv_cq t) "recv_cq";
  exit_call (ibv_destroy_cq recv_cq) "Failed to destroy recv CQ";;
  exit_call (ibv_destroy_ah (ic_self_ah t)) "Failed to destroy self AH";;
  miter (fun ah => exit_call (ibv_destroy_ah ah) "Failed to destroy AH") (ic_ah_to_free_vec t);;
  pd ← deref (ic_pd t) "pd";
  exit_call (ibv_dealloc_pd pd) "Failed to destroy PD. Leaked MRs?";;
  ib_ctx ← deref (rs_ib_ctx (ic_resolve t)) "ib_ctx";
  exit_call (ibv_close_device ib_ctx) "Failed to close device".
End Control.
