(* ===== verification/IbControlProps.v ===== *)
(** * The control path of the InfiniBand transport is correct

    Ports are numbered as documented, the library's objects are released, and
    routing information survives the wire. *)
From S2P Require Import Prelude Config PktHdr SmTypes Timer IbTransport IbControl.

(** ** What the code relies on *)

(** The library's objects: contexts (of a device), protection domains, completion
    queues, queue pairs, address handles. *)
Inductive vobj :=
  | RDev (ctx dev : Z) | RPd (pd ctx : Z) | RCq (cq ctx : Z)
  | RQp (qp pd send_cq recv_cq : Z) (st : qp_state) | RAh (ah pd : Z).
Definition refers_ctx (c : Z) (o : vobj) : Prop :=
  match o with RDev c' _ | RPd _ c' | RCq _ c' => c = c' | _ => False end.
Definition refers_pd (p : Z) (o : vobj) : Prop :=
  match o with RPd p' _ | RQp _ p' _ _ _ | RAh _ p' => p = p' | _ => False end.
Definition refers_cq (q : Z) (o : vobj) : Prop :=
  match o with RCq q' _ => q = q' | RQp _ _ s r _ => q = s \/ q = r | _ => False end.
Definition refers_qp (q : Z) (o : vobj) : Prop :=
  match o with RQp q' _ _ _ _ => q = q' | _ => False end.
Abbreviation none P l := (Forall (fun o => ~ P o) l).

Class VerbsCtlOk (V : VerbsCtl) := {
  vc_live : Ctl -> list vobj;
  vc_num_devs : Z;
  vc_num_ports : Z -> Z;
  vc_port : Z -> Z -> port_attr_t;
  vc_ports_lt d : vc_num_ports d < 255;
  (* queries *)
  vl_devices n :
    let (o, n') := ibv_get_device_list n in
    vc_live n' = vc_live n /\ forall k, o = Some k -> k = vc_num_devs;
  vl_query_device c d n :
    RDev c d ∈ vc_live n ->
    let (o, n') := ibv_query_device c n in
    vc_live n' = vc_live n /\ forall k, o = Some k -> k = vc_num_ports d;
  vl_query_port c d i n :
    RDev c d ∈ vc_live n ->
    let (o, n') := ibv_query_port c i n in
    vc_live n' = vc_live n /\ forall a, o = Some a -> a = vc_port d i;
  vl_query_gid c i k n : vc_live (ibv_query_gid c i k n).2 = vc_live n;
  vl_probe q w n : vc_live (ibv_post_recv_probe q w n).2 = vc_live n;
  (* creation: a new object that no live one refers to *)
  vl_open d n :
    let (o, n') := ibv_open_device d n in
    match o with
    | Some c => vc_live n' ≡ₚ RDev c d :: vc_live n /\ none (refers_ctx c) (vc_live n)
    | None => vc_live n' ≡ₚ vc_live n
    end;
  vl_alloc_pd c n :
    let (o, n') := ibv_alloc_pd c n in
    match o with
    | Some p => vc_live n' ≡ₚ RPd p c :: vc_live n /\ none (refers_pd p) (vc_live n)
    | None => vc_live n' ≡ₚ vc_live n
    end;
  vl_create_cq c k n :
    let (o, n') := ibv_create_cq c k n in
    match o with
    | Some q => vc_live n' ≡ₚ RCq q c :: vc_live n /\ none (refers_cq q) (vc_live n)
    | None => vc_live n' ≡ₚ vc_live n
    end;
  vl_create_qp p a n :
    let (o, n') := ibv_create_qp p a n in
    match o with
    | Some q => vc_live n' ≡ₚ RQp q p (qi_send_cq a) (qi_recv_cq a) QpsReset :: vc_live n /\
                none (refers_qp q) (vc_live n)
    | None => vc_live n' ≡ₚ vc_live n
    end;
  vl_create_ah p a n :
    let (o, n') := ibv_create_ah p a n in
    match o with
    | Some h => vc_live n' ≡ₚ RAh h p :: vc_live n /\ 0 < h < 2 ^ 64
    | None => vc_live n' ≡ₚ vc_live n
    end;
  vl_modify_qp q p s r st attr l n :
    vc_live n ≡ₚ RQp q p s r st :: l ->
    let (ret, n') := ibv_modify_qp q attr n in
    vc_live n' ≡ₚ RQp q p s r (if ret =? 0 then qa_state attr else st) :: l;
  (* destruction: of an object that no live one refers to *)
  vl_destroy_qp q p s r st l n :
    vc_live n ≡ₚ RQp q p s r st :: l ->
    let (ret, n') := ibv_destroy_qp q n in ret = 0 /\ vc_live n' ≡ₚ l;
  vl_destroy_cq q c l n :
    vc_live n ≡ₚ RCq q c :: l -> none (refers_cq q) l ->
    let (ret, n') := ibv_destroy_cq q n in ret = 0 /\ vc_live n' ≡ₚ l;
  vl_destroy_ah h p l n :
    vc_live n ≡ₚ RAh h p :: l ->
    let (ret, n') := ibv_destroy_ah (Some h) n in ret = 0 /\ vc_live n' ≡ₚ l;
  vl_dealloc_pd p c l n :
    vc_live n ≡ₚ RPd p c :: l -> none (refers_pd p) l ->
    let (ret, n') := ibv_dealloc_pd p n in ret = 0 /\ vc_live n' ≡ₚ l;
  vl_close c d l n :
    vc_live n ≡ₚ RDev c d :: l -> none (refers_ctx c) l ->
    let (ret, n') := ibv_close_device c n in ret = 0 /\ vc_live n' ≡ₚ l;
}.

Section Props.
Context {V : VerbsCtl} {VOk : VerbsCtlOk V}.
Variable kIsRoCE : bool.
Abbreviation live t := (vc_live (ic_ctl t)).

Lemma wp_ctl {E A} (f : Ctl -> A * Ctl) (Q : A -> IBC -> Prop) t :
  (let (a, n) := f (ic_ctl t) in Q a (t <| ic_ctl := n |>)) -> wpe E (ctl f) Q t.
Proof. unfold wpe, ctl. by destruct (f (ic_ctl t)). Qed.
Lemma wp_ctl_ptr_e {A} (E : err -> Prop) (f : Ctl -> option A * Ctl) what (Q : A -> IBC -> Prop) t :
  E (EThrow what) ->
  (let (o, n) := f (ic_ctl t) in forall a, o = Some a -> Q a (t <| ic_ctl := n |>)) ->
  wpe E (ctl_ptr f what) Q t.
Proof.
  intros HE H. unfold ctl_ptr. wp_step. apply wp_ctl. destruct (f (ic_ctl t)) as [[a|] n]; wp_step; eauto.
Qed.
Lemma wp_ctl_ptr {A} (f : Ctl -> option A * Ctl) what (Q : A -> IBC -> Prop) t :
  (let (o, n) := f (ic_ctl t) in forall a, o = Some a -> Q a (t <| ic_ctl := n |>)) ->
  wpt (ctl_ptr f what) Q t.
Proof. by apply wp_ctl_ptr_e. Qed.
(** A query. *)
Lemma wp_ctl_same {E A} (f : Ctl -> A * Ctl) (Q : A -> IBC -> Prop) t :
  (forall n, vc_live (f n).2 = vc_live n) ->
  (forall a n, vc_live n = live t -> Q a (t <| ic_ctl := n |>)) -> wpe E (ctl f) Q t.
Proof.
  intros H HQ. apply wp_ctl. specialize (H (ic_ctl t)). destruct (f (ic_ctl t)) as [a n]. by apply HQ.
Qed.
Lemma wp_ptr_same {A} (f : Ctl -> option A * Ctl) what (Q : A -> IBC -> Prop) t :
  (forall n, vc_live (f n).2 = vc_live n) ->
  (forall a n, vc_live n = live t -> Q a (t <| ic_ctl := n |>)) -> wpt (ctl_ptr f what) Q t.
Proof.
  intros H HQ. apply wp_ctl_ptr. specialize (H (ic_ctl t)). destruct (f (ic_ctl t)) as [o n]. intros a _. by apply HQ.
Qed.
(** A call that frees an object. *)
Lemma wp_ctl_ok {E} (f : Ctl -> Z * Ctl) l (Q : Z -> IBC -> Prop) t :
  (let (ret, n) := f (ic_ctl t) in ret = 0 /\ vc_live n ≡ₚ l) ->
  (forall n, vc_live n ≡ₚ l -> Q 0 (t <| ic_ctl := n |>)) -> wpe E (ctl f) Q t.
Proof. intros H HQ. apply wp_ctl. destruct (f (ic_ctl t)) as [ret n]. destruct H as [-> H]. by apply HQ. Qed.

(** ** Port resolution *)

(** The active ports of all devices, in the library's order. *)
Definition active_among (d : Z) (is_ : list Z) : list (Z * Z) :=
  (fun i => (d, i)) <$> filter (fun i => port_is_active (vc_port d i) = true) is_.
Definition active_of (d : Z) : list (Z * Z) := active_among d (dev_ports (vc_num_ports d)).
Definition active_in (ds : list Z) : list (Z * Z) := concat (active_of <$> ds).
Definition active_ports : list (Z * Z) := active_in (Z.of_nat <$> seq 0 (Z.to_nat vc_num_devs)).

(** The bandwidth of a link, in bytes per second, from the codes of the verbs
    interface: the rate of a lane in units of 100 Mbit/s, and the lanes. *)
Definition lane_rate (active_speed : Z) : option Z :=
  list_to_map (M := gmap Z Z) [(1, 25); (2, 50); (4, 100); (8, 100); (16, 140); (32, 250); (64, 500)] !! active_speed.
Definition lane_count (active_width : Z) : option Z :=
  list_to_map (M := gmap Z Z) [(1, 1); (2, 4); (4, 8); (8, 12)] !! active_width.
Definition bandwidth_of (a : port_attr_t) : option Z :=
  rate ← lane_rate (pa_active_speed a); lanes ← lane_count (pa_active_width a);
  Some (rate * 100000000 * lanes / 8).

(** The port taken: the [k]-th of [l], with the right link layer and MTU, and the
    bandwidth of its link. *)
Definition port_taken (mtu : Z) (ty : TransportType) (l : list (Z * Z)) (k : Z) (lv : list vobj) (t t' : IBC) : Prop :=
  exists d i c bw, zlookup l k = Some (d, i) /\ live t' ≡ₚ RDev c d :: lv /\ none (refers_ctx c) lv /\
    pa_link_layer (vc_port d i) = expected_link_layer kIsRoCE ty /\ mtu <= enum_to_mtu (pa_active_mtu (vc_port d i)) /\
    bandwidth_of (vc_port d i) = Some bw /\
    t' = t <| ic_resolve ::= fun r => r <| rs_device_id := d |> <| rs_ib_ctx := Some c |>
                <| rs_dev_port_id := i |> <| rs_bandwidth := bw |> |> <| ic_ctl := ic_ctl t' |>.

(** What the code throws: a call of the library failed, there is no such port, or
    the port is not fit for the transport. *)
Definition lib_failed (what : string) : Prop :=
  what ∈ ["Failed to get device list"; "Failed to open dev"; "Failed to query device"; "Failed to query port"].
Definition port_unfit (mtu : Z) (ty : TransportType) (a : port_attr_t) (what : string) : Prop :=
  what = "Invalid link layer." /\ pa_link_layer a <> expected_link_layer kIsRoCE ty \/
  what = "Transport's required MTU" /\ enum_to_mtu (pa_active_mtu a) < mtu \/
  what = "Invalid active speed" /\ lane_rate (pa_active_speed a) = None \/
  what = "Invalid active width" /\ lane_count (pa_active_width a) = None.
Definition unfit_at (mtu : Z) (ty : TransportType) (l : list (Z * Z)) (k : Z) (what : string) : Prop :=
  exists d i, zlookup l k = Some (d, i) /\ port_unfit mtu ty (vc_port d i) what.
Definition resolve_err (mtu : Z) (ty : TransportType) (l : list (Z * Z)) (k : Z) (e : err) : Prop :=
  exists what, e = EThrow what /\
    (lib_failed what \/ unfit_at mtu ty l k what \/
     zlookup l k = None /\ what = "Failed to resolve verbs port index").

Lemma port_taken_ctl mtu ty l k lv t n t' :
  port_taken mtu ty l k lv (t <| ic_ctl := n |>) t' -> port_taken mtu ty l k lv t t'.
Proof.
  intros (d & i & c & bw & H1 & H2 & H3 & H4 & H5 & H6 & E). exists d, i, c, bw. split_and!; try done.
Qed.
Lemma port_taken_later mtu ty p l k lv t t' :
  0 <= k -> port_taken mtu ty l k lv t t' -> port_taken mtu ty (p :: l) (k + 1) lv t t'.
Proof.
  intros Hk (d & i & c & bw & H1 & H). exists d, i, c, bw. split; [|done].
  unfold zlookup in *. rewrite (proj2 (Z.leb_le 0 (k + 1))) by lia.
  rewrite (proj2 (Z.leb_le 0 k)) in H1 by lia.
  by replace (Z.to_nat (k + 1)) with (S (Z.to_nat k)) by lia.
Qed.

Lemma unfit_later mtu ty p l k w : 0 <= k -> unfit_at mtu ty l k w -> unfit_at mtu ty (p :: l) (k + 1) w.
Proof.
  intros Hk (d & i & H1 & H). exists d, i. split; [|done].
  unfold zlookup in *. rewrite (proj2 (Z.leb_le 0 (k + 1))) by lia.
  rewrite (proj2 (Z.leb_le 0 k)) in H1 by lia.
  by replace (Z.to_nat (k + 1)) with (S (Z.to_nat k)) by lia.
Qed.

(** The floating-point bandwidth is exact, for every speed and width. *)
Lemma gbps_none s : gbps_per_lane s = None -> lane_rate s = None.
Proof.
  unfold gbps_per_lane, lane_rate. intros H. apply not_elem_of_list_to_map_1. cbn.
  repeat case_match; try done; rewrite ?orb_false_iff, ?Z.eqb_neq in *; set_solver by lia.
Qed.
Lemma lanes_none w : num_lanes w = None -> lane_count w = None.
Proof.
  unfold num_lanes, lane_count. intros H. apply not_elem_of_list_to_map_1. cbn.
  repeat case_match; try done; rewrite ?Z.eqb_neq in *; set_solver by lia.
Qed.
Lemma port_bandwidth_exact a g n :
  gbps_per_lane (pa_active_speed a) = Some g -> num_lanes (pa_active_width a) = Some n ->
  exists bw, port_bandwidth g n = Some bw /\ bandwidth_of a = Some bw.
Proof.
  unfold gbps_per_lane, num_lanes, bandwidth_of. intros Hg Hn.
  repeat case_match; try done; injection Hg as <-; injection Hn as <-;
    rewrite ?orb_true_iff, ?Z.eqb_eq in *; destruct_or?; simplify_eq;
    repeat match goal with H : _ = _ |- _ => rewrite H; clear H end;
    eexists; split; vm_compute; reflexivity.
Qed.

Lemma take_port_wp E mtu ty d c i lv l (Q : unit -> IBC -> Prop) t :
  (forall w, port_unfit mtu ty (vc_port d i) w -> E (EThrow w)) ->
  live t ≡ₚ RDev c d :: lv -> none (refers_ctx c) lv ->
  (forall t', port_taken mtu ty ((d, i) :: l) 0 lv t t' -> Q tt t') ->
  wpe E (take_port kIsRoCE mtu ty d c i (vc_port d i)) Q t.
Proof.
  intros HE Hl Hc HQ. unfold take_port, port_unfit in *.
  destruct (Z.eqb_spec (pa_link_layer (vc_port d i)) (expected_link_layer kIsRoCE ty)) as [He|];
    [|cbn [negb]; apply HE; tauto].
  cbn [negb]. destruct (Z.ltb_spec (enum_to_mtu (pa_active_mtu (vc_port d i))) mtu); [apply HE; tauto|].
  do 2 wp_step. wp_step. destruct (gbps_per_lane _) as [g|] eqn:Eg; [|apply HE; apply gbps_none in Eg; tauto].
  do 2 wp_step. destruct (num_lanes _) as [n|] eqn:En; [|apply HE; apply lanes_none in En; tauto]. do 2 wp_step.
  destruct (port_bandwidth_exact _ _ _ Eg En) as (bw & Eb & Eb').
  eapply wp_deref; [exact Eb|]. wp_step. apply HQ. exists d, i, c, bw. by split_and!.
Qed.

Lemma wp_query_port E c d i lv what (Q : port_attr_t -> IBC -> Prop) t :
  E (EThrow what) ->
  live t ≡ₚ RDev c d :: lv ->
  (forall n, vc_live n ≡ₚ RDev c d :: lv -> Q (vc_port d i) (t <| ic_ctl := n |>)) ->
  wpe E (ctl_ptr (ibv_query_port c i) what) Q t.
Proof.
  intros HE Hl HQ. apply wp_ctl_ptr_e; [done|]. pose proof (vl_query_port c d i (ic_ctl t)) as H.
  destruct (ibv_query_port c i (ic_ctl t)) as [o n]. intros a ->.
  destruct H as [E1 H]; [rewrite Hl; by left|]. rewrite (H a eq_refl). apply HQ. by rewrite E1.
Qed.

Lemma zlength_cons {A} (x : A) l : zlength (x :: l) = 1 + zlength l.
Proof. unfold zlength. cbn [length]. lia. Qed.

Lemma scan_ports_wp (E : err -> Prop) mtu ty d c ports lv l2 k (Q : option Z -> IBC -> Prop) t :
  (forall w, lib_failed w -> E (EThrow w)) ->
  (forall w, unfit_at mtu ty (active_among d ports ++ l2) k w -> E (EThrow w)) ->
  live t ≡ₚ RDev c d :: lv -> none (refers_ctx c) lv -> 0 <= k ->
  (forall t', port_taken mtu ty (active_among d ports ++ l2) k lv t t' -> Q None t') ->
  (forall n, let len := zlength (active_among d ports) in
     len <= k -> vc_live n ≡ₚ RDev c d :: lv -> Q (Some (k - len)) (t <| ic_ctl := n |>)) ->
  wpe E (scan_ports kIsRoCE mtu ty d c ports k) Q t.
Proof.
  intros HL. revert k t Q. induction ports as [|i ports IH]; intros k t Q HE Hl Hc Hk HT HN; cbn [scan_ports].
  - wp_step. specialize (HN (ic_ctl t)). change (zlength (active_among d [])) with 0 in HN.
    cbv zeta in HN. rewrite Z.sub_0_r in HN. destruct t. by apply HN.
  - wp_step. eapply wp_query_port; [apply HL; unfold lib_failed; set_solver|exact Hl|]. intros n Hn.
    unfold active_among in *. destruct (port_is_active (vc_port d i)) eqn:Ea; cbn [negb].
    + rewrite filter_cons_True in HE, HT, HN by done. rewrite fmap_cons in HE, HT, HN.
      destruct (Z.eqb_spec k 0) as [->|].
      * wp_step. apply (take_port_wp E mtu ty d c i lv (((fun i => (d, i)) <$> filter (fun i => port_is_active (vc_port d i) = true) ports) ++ l2));
          [intros w Hw; apply HE; by exists d, i|exact Hn|exact Hc|].
        intros t' Ht. wp_step. apply HT. by apply port_taken_ctl in Ht.
      * apply IH; [|exact Hn|exact Hc|lia| |].
        -- intros w Hw. apply HE. rewrite <- (Z.sub_add 1 k). apply unfit_later; [lia|exact Hw].
        -- intros t' Ht%port_taken_ctl. apply HT. rewrite <- (Z.sub_add 1 k). apply port_taken_later; [lia|exact Ht].
        -- intros n2 Hle H2. specialize (HN n2). cbv zeta in HN. rewrite zlength_cons in HN.
           rewrite <- Z.sub_add_distr. apply HN; [lia|exact H2].
    + rewrite filter_cons_False in HE, HT, HN by congruence. apply IH; [exact HE|exact Hn|exact Hc|lia| |].
      * intros t' Ht. apply HT. by apply port_taken_ctl in Ht.
      * intros n2 Hle H2. exact (HN n2 Hle H2).
Qed.

Lemma zlookup_past {A} (l l2 : list A) k :
  zlength l <= k -> zlookup (l ++ l2) k = zlookup l2 (k - zlength l).
Proof.
  intros Hk. pose proof (zlength_nonneg l). unfold zlookup.
  rewrite (proj2 (Z.leb_le 0 k)), (proj2 (Z.leb_le 0 (k - zlength l))) by lia.
  rewrite lookup_app_r by (unfold zlength in Hk; lia). f_equal. unfold zlength. lia.
Qed.
Lemma port_taken_past mtu ty l l2 k lv t t' :
  zlength l <= k -> port_taken mtu ty l2 (k - zlength l) lv t t' -> port_taken mtu ty (l ++ l2) k lv t t'.
Proof.
  intros Hk (d & i & c & bw & H1 & H). exists d, i, c, bw. by rewrite zlookup_past.
Qed.

Lemma unfit_past mtu ty l l2 k w :
  zlength l <= k -> unfit_at mtu ty l2 (k - zlength l) w -> unfit_at mtu ty (l ++ l2) k w.
Proof. intros Hk (d & i & H1 & H). exists d, i. by rewrite zlookup_past. Qed.

Lemma scan_devs_wp (E : err -> Prop) mtu ty devs lv k (Q : option Z -> IBC -> Prop) t :
  (forall w, lib_failed w -> E (EThrow w)) ->
  (forall w, unfit_at mtu ty (active_in devs) k w -> E (EThrow w)) ->
  live t ≡ₚ lv -> 0 <= k ->
  (forall t', port_taken mtu ty (active_in devs) k lv t t' -> Q None t') ->
  (forall n m, zlookup (active_in devs) k = None -> vc_live n ≡ₚ lv -> Q (Some m) (t <| ic_ctl := n |>)) ->
  wpe E (scan_devs kIsRoCE mtu ty devs k) Q t.
Proof.
  intros HL. revert k t Q. induction devs as [|d devs IH]; intros k t Q HE Hl Hk HT HN; cbn [scan_devs].
  - wp_step. specialize (HN (ic_ctl t) k). destruct t. apply HN; [|done].
    unfold active_in, zlookup. by case_match.
  - change (active_in (d :: devs)) with (active_of d ++ active_in devs) in HE, HT, HN.
    wp_step. apply wp_ctl_ptr_e; [apply HL; unfold lib_failed; set_solver|]. pose proof (vl_open d (ic_ctl t)) as Ho.
    destruct (ibv_open_device d (ic_ctl t)) as [o n1]. intros c ->. destruct Ho as [H1 Hc]. rewrite Hl in H1, Hc.
    wp_step. apply wp_ctl_ptr_e; [apply HL; unfold lib_failed; set_solver|]. pose proof (vl_query_device c d n1) as Hq.
    change (ic_ctl (t <| ic_ctl := n1 |>)) with n1. destruct (ibv_query_device c n1) as [o n2]. intros cnt ->.
    destruct Hq as [E2 Hcnt]; [rewrite H1; by left|]. rewrite (Hcnt cnt eq_refl).
    wp_step. apply (scan_ports_wp E mtu ty d c _ lv (active_in devs) k); [exact HL|exact HE|change (vc_live n2 ≡ₚ RDev c d :: lv); by rewrite E2|exact Hc|exact Hk| |].
    + intros t' Ht. wp_step. apply HT. by do 2 apply port_taken_ctl in Ht.
    + intros n3 len Hle H3. wp_step. rewrite (proj2 (Z.eqb_neq _ _)) by (pose proof (vc_ports_lt d); lia).
      apply wp_ret. wp_step. apply (wp_ctl_ok _ lv); [exact (vl_close c d lv n3 H3 Hc)|]. intros n4 H4.
      wp_step. wp_step; [done|]. fold (active_of d) in *. apply IH; [|exact H4|lia| |].
      * intros w Hw. by apply HE, unfit_past.
      * intros t' Ht. apply HT, port_taken_past; [exact Hle|]. by do 4 apply port_taken_ctl in Ht.
      * intros n5 m Hz H5. apply (HN n5 m); [|exact H5]. by rewrite zlookup_past.
Qed.

Lemma resolve_phy_port_ok (E : err -> Prop) phy_port mtu ty (Q : unit -> IBC -> Prop) t :
  (forall e, resolve_err mtu ty active_ports phy_port e -> E e) ->
  0 <= phy_port -> rs_ib_ctx (ic_resolve t) = None ->
  (forall t', port_taken mtu ty active_ports phy_port (live t) t t' -> Q tt t') ->
  wpe E (common_resolve_phy_port kIsRoCE phy_port mtu ty) Q t.
Proof.
  intros HE Hk Hctx HQ.
  assert (HL : forall w, lib_failed w -> E (EThrow w)) by (intros w Hw; apply HE; exists w; tauto).
  unfold common_resolve_phy_port. wp_step. apply wp_ctl_ptr_e; [apply HL; unfold lib_failed; set_solver|].
  pose proof (vl_devices (ic_ctl t)) as H. destruct (ibv_get_device_list (ic_ctl t)) as [o n]. intros cnt ->.
  destruct H as [E1 H]. rewrite (H cnt eq_refl). wp_step.
  apply (scan_devs_wp E mtu ty _ (live t)); [exact HL| |change (vc_live n ≡ₚ live t); by rewrite E1|done| |].
  - intros w Hw. apply HE. exists w. tauto.
  - intros t' Ht. wp_step. apply HQ. by apply port_taken_ctl in Ht.
  - intros n' m Hz _. do 3 wp_step. wp_step; [by apply bool_decide_eq_true|].
    apply HE. eexists. tauto.
Qed.

(** C28 A physical port number counts the active ports of all verbs devices in
    order. [common_resolve_phy_port] ends (for devices of at most 254 ports), no
    assertion fails, and it either has found the port of that number, checked its
    link layer and MTU, and computed its bandwidth in bytes per second, exactly;
    or it throws, and then a call of the library failed, no active port has the
    number, or the port's link layer, MTU, speed or width is not fit. When it
    returns, the contexts of the other devices it opened are closed again. *)
Theorem resolve_phy_port_correct phy_port mtu ty c :
  0 <= phy_port ->
  wpe (resolve_err mtu ty active_ports phy_port) (common_resolve_phy_port kIsRoCE phy_port mtu ty)
    (fun _ t' => port_taken mtu ty active_ports phy_port (vc_live c) (IBC_new c) t') (IBC_new c).
Proof. intros Hk. by apply resolve_phy_port_ok. Qed.

(** ** Ownership of the library's objects *)

(** What a transport has: its context and device, protection domain, completion
    queues, queue pair, own address handle and the handles of remote hosts. *)
Record owned := mkOwned {
  ow_c : Z; ow_d : Z; ow_p : Z; ow_s : Z; ow_r : Z; ow_q : Z; ow_a : Z; ow_ahs : list Z;
}.
Definition objects (o : owned) : list vobj :=
  ((fun h => RAh h (ow_p o)) <$> ow_ahs o) ++
  [RAh (ow_a o) (ow_p o); RQp (ow_q o) (ow_p o) (ow_s o) (ow_r o) QpsRts; RCq (ow_r o) (ow_c o);
   RCq (ow_s o) (ow_c o); RPd (ow_p o) (ow_c o); RDev (ow_c o) (ow_d o)].
Record ib_owns (o : owned) (lv : list vobj) (t : IBC) : Prop := {
  io_ctx : rs_ib_ctx (ic_resolve t) = Some (ow_c o);
  io_pd : ic_pd t = Some (ow_p o);
  io_send_cq : ic_send_cq t = Some (ow_s o);
  io_recv_cq : ic_recv_cq t = Some (ow_r o);
  io_qp : ic_qp t = Some (ow_q o);
  io_self : ic_self_ah t = Some (ow_a o);
  io_ahs : ic_ah_to_free_vec t = Some <$> ow_ahs o;
  io_live : live t ≡ₚ objects o ++ lv;
  io_fresh_ctx : none (refers_ctx (ow_c o)) lv;
  io_fresh_pd : none (refers_pd (ow_p o)) lv;
  io_fresh_s : none (refers_cq (ow_s o)) lv;
  io_fresh_r : none (refers_cq (ow_r o)) lv;
  io_cqs : ow_s o <> ow_r o;
}.

Lemma wp_exit_call E (f : Ctl -> Z * Ctl) what l (Q : unit -> IBC -> Prop) t :
  (let (ret, n) := f (ic_ctl t) in ret = 0 /\ vc_live n ≡ₚ l) ->
  (forall n, vc_live n ≡ₚ l -> Q tt (t <| ic_ctl := n |>)) -> wpe E (exit_call f what) Q t.
Proof.
  intros H HQ. unfold exit_call. wp_step. apply (wp_ctl_ok _ l); [exact H|]. intros n Hn.
  apply wp_ret. by apply HQ.
Qed.

Lemma free_ahs_wp E p hs l (Q : unit -> IBC -> Prop) t :
  live t ≡ₚ ((fun h => RAh h p) <$> hs) ++ l ->
  (forall n, vc_live n ≡ₚ l -> Q tt (t <| ic_ctl := n |>)) ->
  wpe E (miter (fun ah => exit_call (ibv_destroy_ah ah) "Failed to destroy AH") (Some <$> hs)) Q t.
Proof.
  revert t Q. induction hs as [|h hs IH]; intros t Q Hl HQ; cbn [miter fmap list_fmap] in *.
  - wp_step. specialize (HQ (ic_ctl t)). destruct t. by apply HQ.
  - wp_step. eapply wp_exit_call; [eapply vl_destroy_ah; exact Hl|]. intros n Hn.
    apply IH; [exact Hn|]. intros n' Hn'. by apply HQ.
Qed.

Lemma none_cq_ahs x p hs : none (refers_cq x) ((fun h => RAh h p) <$> hs).
Proof. apply Forall_fmap, Forall_true. by intros h []. Qed.

Lemma delete_ok E o lv t (Q : unit -> IBC -> Prop) :
  ib_owns o lv t -> (forall t', live t' ≡ₚ lv -> Q tt t') -> wpe E IBTransport_delete Q t.
Proof.
  intros [] HQ. unfold IBTransport_delete. do 2 wp_step. destruct o as [c d p s r q a ahs].
  cbn [ow_c ow_d ow_p ow_s ow_r ow_q ow_a ow_ahs objects] in *.
  set (A := (fun h => RAh h p) <$> ahs) in *.
  wp_step. eapply wp_deref; [done|]. wp_step.
  apply (wp_exit_call _ _ _ (RCq s c :: A ++ [RAh a p; RCq r c; RPd p c; RDev c d] ++ lv)).
  { eapply (vl_destroy_qp q p s r QpsRts). rewrite io_live0. solve_Permutation. }
  intros n1 H1. wp_step. eapply wp_deref; [done|]. wp_step.
  apply (wp_exit_call _ _ _ (RCq r c :: A ++ [RAh a p; RPd p c; RDev c d] ++ lv)).
  { eapply (vl_destroy_cq s c); [rewrite H1; solve_Permutation|].
    constructor; [done|]. apply Forall_app; split; [apply none_cq_ahs|]. by repeat (constructor; [cbn; by intros ?|]). }
  intros n2 H2. wp_step. eapply wp_deref; [done|]. wp_step.
  apply (wp_exit_call _ _ _ (A ++ [RAh a p; RPd p c; RDev c d] ++ lv)).
  { eapply (vl_destroy_cq r c); [rewrite H2; solve_Permutation|].
    apply Forall_app; split; [apply none_cq_ahs|]. by repeat (constructor; [cbn; by intros ?|]). }
  intros n3 H3. rewrite io_self0. wp_step.
  apply (wp_exit_call _ _ _ (A ++ RPd p c :: RDev c d :: lv)).
  { eapply (vl_destroy_ah a p). rewrite H3. solve_Permutation. }
  intros n4 H4. rewrite io_ahs0. wp_step.
  eapply free_ahs_wp; [exact H4|]. intros n5 H5. wp_step. eapply wp_deref; [done|]. wp_step.
  apply (wp_exit_call _ _ _ (RDev c d :: lv)).
  { eapply (vl_dealloc_pd p c); [exact H5|]. constructor; [by intros []|done]. }
  intros n6 H6. wp_step. eapply wp_deref; [done|].
  apply (wp_exit_call _ _ _ lv); [by eapply (vl_close c d)|]. intros n7 H7. by apply HQ.
Qed.

Lemma wp_make (f : Ctl -> option Z * Ctl) what (mk : Z -> vobj) (fresh : Z -> Prop) (Q : Z -> IBC -> Prop) t :
  (let (o, n) := f (ic_ctl t) in
   match o with Some x => vc_live n ≡ₚ mk x :: live t /\ fresh x | None => vc_live n ≡ₚ live t end) ->
  (forall x n, vc_live n ≡ₚ mk x :: live t -> fresh x -> Q x (t <| ic_ctl := n |>)) ->
  wpt (ctl_ptr f what) Q t.
Proof.
  intros H HQ. apply wp_ctl_ptr. destruct (f (ic_ctl t)) as [o n]. intros x ->. destruct H. by apply HQ.
Qed.

Lemma modify_qp_wp q p s r st attr what l (Q : unit -> IBC -> Prop) t :
  live t ≡ₚ RQp q p s r st :: l ->
  (forall n, vc_live n ≡ₚ RQp q p s r (qa_state attr) :: l -> Q tt (t <| ic_ctl := n |>)) ->
  wpt (modify_qp q attr what) Q t.
Proof.
  intros Hl HQ. unfold modify_qp. wp_step. apply wp_ctl. pose proof (vl_modify_qp q p s r st attr l _ Hl) as H.
  destruct (ibv_modify_qp q attr (ic_ctl t)) as [ret n]. wp_step; [done|]. rewrite H0 in H. by apply HQ.
Qed.

Lemma create_ah_wp E p ri (Q : option Z -> IBC -> Prop) t :
  ic_pd t = Some p ->
  (forall o n, vc_live n ≡ₚ match o with Some h => RAh h p :: live t | None => live t end ->
     (forall h, o = Some h -> 0 < h < 2 ^ 64) -> Q o (t <| ic_ctl := n |>)) ->
  wpe E (create_ah kIsRoCE ri) Q t.
Proof.
  intros Hp HQ. unfold create_ah. do 2 wp_step. wp_step. eapply wp_deref; [exact Hp|]. apply wp_ctl.
  pose proof (vl_create_ah p (ah_attr_of kIsRoCE (rs_dev_port_id (ic_resolve t)) ri) (ic_ctl t)) as H.
  destruct (ibv_create_ah _ _ _) as [o n]. apply HQ; destruct o; [apply H|done| |done].
  intros h' [= <-]. apply H.
Qed.

(** The routing information a transport sends out. *)
Definition local_rinfo (t : IBC) (q : Z) : routing_info_t :=
  le_bytes 2 (rs_port_lid (ic_resolve t)) ++ [0; 0] ++ le_bytes 4 (ibv_qp_num q)
  ++ (if kIsRoCE then rs_gid (ic_resolve t) else replicate 16 0) ++ replicate 24 0.
Lemma fill_local_wp E q (Q : routing_info_t -> IBC -> Prop) t :
  ic_qp t = Some q -> Q (local_rinfo t q) t -> wpe E (fill_local_routing_info kIsRoCE) Q t.
Proof.
  intros Hq HQ. unfold fill_local_routing_info. do 2 wp_step. wp_step. eapply wp_deref; [exact Hq|]. by wp_step.
Qed.

Lemma none_perm P (l1 l2 : list vobj) : l1 ≡ₚ l2 -> none P l1 -> none P l2.
Proof. by intros ->. Qed.
Lemma none_tail P x (l : list vobj) : none P (x :: l) -> none P l.
Proof. by intros [_ ?]%Forall_cons. Qed.

Lemma init_verbs_ok c d lv (Q : unit -> IBC -> Prop) t :
  rs_ib_ctx (ic_resolve t) = Some c -> rs_device_id (ic_resolve t) <> -1 ->
  live t ≡ₚ RDev c d :: lv -> none (refers_ctx c) lv -> ic_ah_to_free_vec t = [] ->
  (forall o t', ib_owns o lv t' -> ow_ahs o = [] -> Q tt t') ->
  wpt (init_verbs_structs kIsRoCE) Q t.
Proof.
  intros Hc Hd Hl Hf Hv HQ. unfold init_verbs_structs. do 2 wp_step. wp_step. wp_step.
  { rewrite Hc. by apply Z.eqb_neq in Hd as ->. }
  wp_step. eapply wp_deref; [exact Hc|]. wp_step.
  apply (wp_make _ _ (fun p => RPd p c) (fun p => none (refers_pd p) (live t))); [apply vl_alloc_pd|].
  intros p n1 H1 Fp. wp_step. wp_step. wp_step.
  apply (wp_make _ _ (fun q => RCq q c) (fun q => none (refers_cq q) (vc_live n1))); [apply vl_create_cq|].
  intros s n2 H2 Fs. wp_step. wp_step. wp_step.
  apply (wp_make _ _ (fun q => RCq q c) (fun q => none (refers_cq q) (vc_live n2))); [apply vl_create_cq|].
  intros r n3 H3 Fr. wp_step. wp_step. wp_step.
  apply (wp_make _ _ (fun q => RQp q p s r QpsReset) (fun q => none (refers_qp q) (vc_live n3)));
    [apply (vl_create_qp p (qp_create_attr s r))|].
  intros q n4 H4 _. wp_step. wp_step. wp_step.
  apply (modify_qp_wp q p s r QpsReset _ _ (vc_live n3)); [exact H4|]. intros n5 H5. wp_step.
  apply (modify_qp_wp q p s r QpsInit rtr_attr _ (vc_live n3)); [exact H5|]. intros n6 H6. wp_step.
  apply (fill_local_wp _ q); [reflexivity|]. wp_step. apply (create_ah_wp _ p); [reflexivity|].
  intros o n7 H7 _. wp_step. wp_step; [done|]. apply bool_decide_eq_true in H. destruct o as [a|]; [|done].
  wp_step. wp_step. wp_step.
  apply (modify_qp_wp q p s r QpsRtr rts_attr _ (RAh a p :: vc_live n3)).
  { change (vc_live n7 ≡ₚ RQp q p s r QpsRtr :: RAh a p :: vc_live n3). rewrite H7. etrans; [|apply perm_swap].
    constructor. exact H6. }
  intros n8 H8. wp_step. apply wp_ctl_same; [apply vl_probe|]. intros ret n9 Hpr. change (vc_live n9 = vc_live n8) in Hpr.
  wp_step. change (vc_live n1 ≡ₚ RPd p c :: live t) in H1. change (vc_live n2 ≡ₚ RCq s c :: vc_live n1) in H2.
  change (vc_live n3 ≡ₚ RCq r c :: vc_live n2) in H3.
  apply (HQ (mkOwned c d p s r q a [])); [|reflexivity].
  split; cbn [ow_c ow_d ow_p ow_s ow_r ow_q ow_a ow_ahs]; try reflexivity; try exact Hc; try exact Hv; try exact Hf.
  - change (vc_live n9 ≡ₚ objects (mkOwned c d p s r q a []) ++ lv). rewrite Hpr, H8, H3, H2, H1, Hl.
    cbn. solve_Permutation.
  - apply (none_perm _ _ _ Hl) in Fp. by apply none_tail in Fp.
  - apply (none_perm _ _ _ H1), none_tail, (none_perm _ _ _ Hl), none_tail in Fs. exact Fs.
  - apply (none_perm _ _ _ H2), none_tail, (none_perm _ _ _ H1), none_tail, (none_perm _ _ _ Hl), none_tail in Fr. exact Fr.
  - apply (none_perm _ _ _ H2) in Fr. apply Forall_cons in Fr as [Fr _]. cbn in Fr. congruence.
Qed.

Lemma active_in_dev d i ds : (d, i) ∈ active_in ds -> d ∈ ds.
Proof.
  induction ds as [|d' ds IH]; [by intros ?%elem_of_nil|].
  change (active_in (d' :: ds)) with (active_of d' ++ active_in ds).
  intros [(j & [= -> ->] & _)%list_elem_of_fmap|H]%elem_of_app; [by left|]. right. by apply IH.
Qed.
Lemma active_ports_dev k d i : zlookup active_ports k = Some (d, i) -> 0 <= d.
Proof.
  unfold zlookup. destruct (0 <=? k); [|done]. intros H%list_elem_of_lookup_2%active_in_dev.
  apply list_elem_of_fmap in H as (n & -> & _). lia.
Qed.

Context {T : TTr}.

(** Resolving the LID and the GID keeps everything else. *)
Record same_dev (t t' : IBC) : Prop := {
  sd_ctx : rs_ib_ctx (ic_resolve t') = rs_ib_ctx (ic_resolve t);
  sd_dev : rs_device_id (ic_resolve t') = rs_device_id (ic_resolve t);
  sd_ahs : ic_ah_to_free_vec t' = ic_ah_to_free_vec t;
}.
Lemma ib_resolve_ok c d lv (Q : unit -> IBC -> Prop) t :
  rs_ib_ctx (ic_resolve t) = Some c -> live t ≡ₚ RDev c d :: lv ->
  (forall t', same_dev t t' -> live t' ≡ₚ RDev c d :: lv -> Q tt t') ->
  wpt (ib_resolve_phy_port kIsRoCE) Q t.
Proof.
  intros Hc Hl HQ. unfold ib_resolve_phy_port. do 2 wp_step. wp_step. eapply wp_deref; [exact Hc|].
  wp_step. eapply wp_query_port; [done|exact Hl|]. intros n Hn. wp_step. wp_step.
  destruct kIsRoCE.
  - apply (wp_when true); [intros _|done]. wp_step. apply wp_ptr_same; [apply vl_query_gid|].
    intros gid n2 H2. wp_step. apply HQ; [by split|].
    change (vc_live n2 ≡ₚ RDev c d :: lv). rewrite H2. exact Hn.
  - apply wp_ret. apply HQ; [by split|exact Hn].
Qed.

Lemma IBTransport_new_ok phy_port c0 (Q : unit -> IBC -> Prop) :
  0 <= phy_port ->
  (forall o t', ib_owns o (vc_live c0) t' -> ow_ahs o = [] -> Q tt t') ->
  wpt (IBTransport_new kIsRoCE phy_port) Q (IBC_new c0).
Proof.
  intros Hk HQ. unfold IBTransport_new. wp_step. wp_step; [done|]. wp_step.
  apply resolve_phy_port_ok; [by intros e (w & -> & _)|done|done|]. intros t' (d & i & c & bw & Hz & Hl & Hf & _ & _ & _ & E).
  assert (Hc : rs_ib_ctx (ic_resolve t') = Some c) by (by rewrite E).
  assert (Hd : rs_device_id (ic_resolve t') = d) by (by rewrite E).
  assert (Hv : ic_ah_to_free_vec t' = []) by (by rewrite E). clear E.
  apply active_ports_dev in Hz. change (live (IBC_new c0)) with (vc_live c0) in *.
  wp_step. eapply ib_resolve_ok; [exact Hc|exact Hl|]. intros t2 [S1 S2 S3] Hl2.
  wp_step. eapply (init_verbs_ok c d); [congruence|lia|exact Hl2|exact Hf|congruence|].
  intros o t3 Ho Ha. unfold init_mem_reg_funcs. do 2 wp_step.
  wp_step; [by rewrite (io_pd _ _ _ Ho)|]. by eapply HQ.
Qed.

(** ** The life of a transport *)

(** A remote host's routing information is resolved. *)
Lemma resolve_remote_wp E p ri (Q : bool * routing_info_t -> IBC -> Prop) t :
  ic_pd t = Some p ->
  (forall o n, vc_live n ≡ₚ match o with Some h => RAh h p :: live t | None => live t end ->
     (forall h, o = Some h -> 0 < h < 2 ^ 64) ->
     Q (bool_decide (o <> None), ri_set_ah (default 0 o) ri)
       (t <| ic_ctl := n |> <| ic_ah_to_free_vec ::= fun v => v ++ [o] |>)) ->
  wpe E (resolve_remote_routing_info kIsRoCE ri) Q t.
Proof.
  intros Hp HQ. unfold resolve_remote_routing_info. wp_step. eapply create_ah_wp; [exact Hp|].
  intros o n Hn Hh. do 3 wp_step. by apply HQ.
Qed.
Definition with_ah (o : owned) (h : Z) : owned :=
  mkOwned (ow_c o) (ow_d o) (ow_p o) (ow_s o) (ow_r o) (ow_q o) (ow_a o) (ow_ahs o ++ [h]).
Lemma owns_ah o lv t n h :
  ib_owns o lv t -> vc_live n ≡ₚ RAh h (ow_p o) :: live t ->
  ib_owns (with_ah o h) lv (t <| ic_ctl := n |> <| ic_ah_to_free_vec ::= fun v => v ++ [Some h] |>).
Proof.
  intros [] Hn. split; try assumption.
  - change (ic_ah_to_free_vec t ++ [Some h] = Some <$> (ow_ahs o ++ [h])). by rewrite fmap_app, io_ahs0.
  - change (vc_live n ≡ₚ objects (with_ah o h) ++ lv). rewrite Hn, io_live0. unfold objects, with_ah.
    cbn [ow_c ow_d ow_p ow_s ow_r ow_q ow_a ow_ahs]. rewrite fmap_app. cbn [fmap list_fmap]. solve_Permutation.
Qed.

Fixpoint resolve_all (ris : list routing_info_t) : M IBC bool :=
  match ris with
  | [] => mret true
  | ri :: ris =>
      '(ok, _) ← resolve_remote_routing_info kIsRoCE ri;
      oks ← resolve_all ris;
      mret (ok && oks)
  end.
Lemma resolve_all_any E p ris t : ic_pd t = Some p -> wpe E (resolve_all ris) (fun _ _ => True) t.
Proof.
  revert t. induction ris as [|ri ris IH]; intros t Hp; cbn [resolve_all]; [by wp_step|].
  wp_step. eapply resolve_remote_wp; [exact Hp|]. intros o n _ _. wp_step.
  eapply wp_mono; [by apply IH|]. intros oks t' _. by wp_step.
Qed.
Lemma resolve_all_wp E o lv ris t :
  ib_owns o lv t ->
  wpe E (resolve_all ris) (fun ok t' => ok = true -> exists o', ib_owns o' lv t') t.
Proof.
  revert o t. induction ris as [|ri ris IH]; intros o t Ho; cbn [resolve_all].
  - wp_step. intros _. by exists o.
  - wp_step. eapply resolve_remote_wp; [apply (io_pd _ _ _ Ho)|]. intros [h|] n Hn _; wp_step.
    + eapply wp_mono; [eapply IH, owns_ah; [exact Ho|exact Hn]|]. intros oks t' H. by wp_step.
    + eapply wp_mono; [eapply resolve_all_any, (io_pd _ _ _ Ho)|]. intros oks t' _. by wp_step.
Qed.

(** C29 A transport releases what it acquires. Its constructor either throws or
    leaves the queue pair ready to send; then any number of remote hosts are
    resolved, which never fails by an error. If their address handles could be
    created, the destructor runs to its end: all of its verbs calls succeed, no
    call fails and it never exits; and exactly the objects of the verbs library
    that there were before are alive: queue pairs go before completion queues,
    address handles before the protection domain, the device's context last. *)
Theorem transport_releases_all phy_port ris c0 :
  0 <= phy_port ->
  wpt (IBTransport_new kIsRoCE phy_port)
    (fun _ t => wp (resolve_all ris)
       (fun ok t1 => ok = true -> wp IBTransport_delete (fun _ t2 => live t2 ≡ₚ vc_live c0) t1) t)
    (IBC_new c0).
Proof.
  intros Hk. apply IBTransport_new_ok; [done|]. intros o t Ho _.
  eapply wp_mono; [by eapply resolve_all_wp|]. intros ok t1 H E.
  destruct (H E) as [o' Ho']. by eapply delete_ok.
Qed.

(** ** Routing information *)
Lemma local_rinfo_fields t q :
  length (rs_gid (ic_resolve t)) = 16%nat ->
  exists gid, length gid = 16%nat /\ (kIsRoCE = true -> gid = rs_gid (ic_resolve t)) /\
    local_rinfo t q = le_bytes 2 (rs_port_lid (ic_resolve t)) ++ [0; 0] ++ le_bytes 4 (ibv_qp_num q) ++ gid ++ replicate 24 0.
Proof.
  intros Hg. exists (if kIsRoCE then rs_gid (ic_resolve t) else replicate 16 0).
  unfold local_rinfo. by destruct kIsRoCE; split_and!.
Qed.

(** The layout: what is written where, before and after the handle is set. *)
Lemma rinfo_layout lid qpn gid h :
  0 <= lid < 2 ^ 16 -> 0 <= qpn < 2 ^ 32 -> length gid = 16%nat -> 0 <= h < 2 ^ 64 ->
  let ri := le_bytes 2 lid ++ [0; 0] ++ le_bytes 4 qpn ++ gid ++ replicate 24 0 in
  let ri' := ri_set_ah h ri in
  length ri = kMaxRoutingInfoSize /\ length ri' = kMaxRoutingInfoSize /\
  ri_port_lid ri = lid /\ ri_gid ri = gid /\
  ri_port_lid ri' = lid /\ ri_qp_num ri' = qpn /\ ri_gid ri' = gid /\ ri_ah_ptr ri' = h.
Proof.
  intros Hl Hq Hg Hh. do 16 (destruct gid as [|? gid]; [done|]). destruct gid; [|done].
  pose proof (le_val_bytes 2 lid Hl) as El. pose proof (le_val_bytes 4 qpn Hq) as Eq.
  pose proof (le_val_bytes 8 h Hh) as Eh. cbn [le_bytes] in *. by split_and!.
Qed.

(** C30 Routing information survives the handshake: what one transport fills in,
    another one with a verbs object for it resolves to the same LID, queue pair
    number and GID, asking for an address handle of exactly that host, and the
    handle stored in it is the one the transport will release. *)
Theorem routing_info_resolved ta q tb p :
  let lid := rs_port_lid (ic_resolve ta) in
  let gid := rs_gid (ic_resolve ta) in
  let port := rs_dev_port_id (ic_resolve tb) in
  0 <= lid < 2 ^ 16 -> 0 <= ibv_qp_num q < 2 ^ 32 -> length gid = 16%nat ->
  ic_qp ta = Some q -> ic_pd tb = Some p ->
  exists ri, fill_local_routing_info kIsRoCE ta = Ok ri ta /\ length ri = kMaxRoutingInfoSize /\
    ah_attr_of kIsRoCE port ri =
      (if kIsRoCE then mkAhAttr 1 0 0 0 port gid kDefaultGIDIndex 1
       else mkAhAttr 0 lid 0 0 port (replicate 16 0) 0 0) /\
    wp (resolve_remote_routing_info kIsRoCE ri) (fun r tb' => r.1 = true ->
      ri_port_lid r.2 = lid /\ ri_qp_num r.2 = ibv_qp_num q /\ (kIsRoCE = true -> ri_gid r.2 = gid) /\
      ic_ah_to_free_vec tb' = ic_ah_to_free_vec tb ++ [Some (ri_ah_ptr r.2)]) tb.
Proof.
  intros lid gid port Hl Hq Hg Hqp Hpd. exists (local_rinfo ta q).
  destruct (local_rinfo_fields ta q Hg) as (g & Hlen & Hgid & E). fold lid in E. fold gid in Hgid.
  destruct (rinfo_layout lid (ibv_qp_num q) g 0 Hl Hq Hlen) as (L1 & _ & L2 & L3 & _); [lia|].
  rewrite <- E in L1, L2, L3. split; [|split; [exact L1|split]].
  - pose proof (fill_local_wp (fun _ => False) q (fun a s => a = local_rinfo ta q /\ s = ta) ta Hqp (conj eq_refl eq_refl)) as H.
    unfold wpe in H. destruct (fill_local_routing_info kIsRoCE ta); [by destruct H as [-> ->]|done].
  - unfold ah_attr_of. destruct kIsRoCE; [by rewrite L3, Hgid|by rewrite L2].
  - eapply resolve_remote_wp; [exact Hpd|]. intros [h|] n _ Hh; [|done]. intros _. cbn [fst snd default].
    destruct (rinfo_layout lid (ibv_qp_num q) g h Hl Hq Hlen) as (_ & _ & _ & _ & K1 & K2 & K3 & K4).
    { specialize (Hh h eq_refl). lia. }
    rewrite <- E in K1, K2, K3, K4. split_and!; [exact K1|exact K2| |].
    + intros Hr. rewrite <- (Hgid Hr). exact K3.
    + change (ic_ah_to_free_vec tb ++ [Some h] = ic_ah_to_free_vec tb ++ [Some (ri_ah_ptr (ri_set_ah h (local_rinfo ta q)))]).
      by rewrite K4.
Qed.
End Props.
