(* ===== verification/IbControlExamples.v ===== *)
(** * A concrete verbs library

    A library with two devices, of which the first has an inactive and an active
    port, that keeps its live objects in a map: the properties of the control
    path are applied to it. *)
From S2P Require Import Prelude Config PktHdr SmTypes Timer IbTransport IbControl IbControlProps.

(** ** Objects by kind and handle *)
Definition key_of (o : vobj) : Z * Z :=
  match o with
  | RDev c _ => (0, c) | RPd p _ => (1, p) | RCq q _ => (2, q) | RQp q _ _ _ _ => (3, q) | RAh h _ => (4, h)
  end.
Definition nums_of (o : vobj) : list Z :=
  match o with
  | RDev c _ => [c] | RPd p c => [p; c] | RCq q c => [q; c] | RQp q p s r _ => [q; p; s; r] | RAh h p => [h; p]
  end.
#[local] Instance key_dec (k : Z * Z) (o : vobj) : Decision (key_of o = k) := decide_rel eq _ _.

Abbreviation objs := (gmap (Z * Z) vobj).
Definition own (p : (Z * Z) * vobj) : option vobj := if decide (key_of p.2 = p.1) then Some p.2 else None.
Definition alive (m : objs) : list vobj := omap own (map_to_list m).

Lemma alive_insert m o : m !! key_of o = None -> alive (<[key_of o := o]> m) ≡ₚ o :: alive m.
Proof.
  intros H. unfold alive. rewrite map_to_list_insert by done. cbn. unfold own at 1. cbn.
  by rewrite decide_True.
Qed.
Lemma alive_elem m o : o ∈ alive m <-> m !! key_of o = Some o.
Proof.
  unfold alive. rewrite list_elem_of_omap. split.
  - intros ([k o'] & H%elem_of_map_to_list & E). unfold own in E. cbn in E. case_decide; [|done].
    injection E as ->. by subst.
  - intros H. exists (key_of o, o). split; [by apply elem_of_map_to_list|].
    unfold own. cbn. by rewrite decide_True.
Qed.
Lemma alive_delete m o : m !! key_of o = Some o -> alive m ≡ₚ o :: alive (delete (key_of o) m).
Proof.
  intros H. rewrite <- (insert_delete_id m (key_of o) o) at 1 by done.
  apply alive_insert, lookup_delete_eq.
Qed.
Lemma alive_cancel m o l : alive m ≡ₚ o :: l -> m !! key_of o = Some o /\ alive (delete (key_of o) m) ≡ₚ l.
Proof.
  intros H. assert (Ho : m !! key_of o = Some o) by (apply alive_elem; rewrite H; by left).
  split; [done|]. apply (Permutation_cons_inv (a := o)). by rewrite <- alive_delete.
Qed.

(** A number that no object mentions. *)
Definition used (m : objs) : list Z := (map_to_list m) ≫= fun p => p.1.2 :: nums_of p.2.
Definition next_num (m : objs) : Z := 1 + foldr Z.max 0 (used m).
Lemma below_max (l : list Z) x : x ∈ l -> x <= foldr Z.max 0 l.
Proof. induction l as [|y l IH]; [by intros ?%elem_of_nil|]. intros [->|H%IH]%elem_of_cons; cbn; lia. Qed.
Lemma next_num_fresh m o : o ∈ alive m -> next_num m ∉ nums_of o.
Proof.
  intros H%alive_elem Hin. assert (Hu : next_num m ∈ used m).
  { unfold used. apply list_elem_of_bind. exists (key_of o, o). split; [by right|by apply elem_of_map_to_list]. }
  apply below_max in Hu. unfold next_num in *. lia.
Qed.
Lemma next_num_new m k : m !! (k, next_num m) = None.
Proof.
  destruct (m !! (k, next_num m)) as [o|] eqn:E; [|done].
  assert (Hu : next_num m ∈ used m).
  { unfold used. apply list_elem_of_bind. exists ((k, next_num m), o). split; [by left|by apply elem_of_map_to_list]. }
  apply below_max in Hu. unfold next_num in *. lia.
Qed.
Lemma next_num_pos m : 0 < next_num m.
Proof.
  unfold next_num. enough (0 <= foldr Z.max 0 (used m)) by lia.
  induction (used m); cbn; lia.
Qed.

(** ** The library *)
Definition make (mk : Z -> vobj) (m : objs) : option Z * objs :=
  let h := next_num m in (Some h, <[key_of (mk h) := mk h]> m).
Definition toy_delete (k : Z * Z) (m : objs) : Z * objs := (0, delete k m).
Definition toy_attr (state lid : Z) : port_attr_t := mkPortAttr state 1 5 32 2 lid.
Definition toy_port (d i : Z) : port_attr_t :=
  if (d =? 0) && (i =? 1) then toy_attr 2 11 else toy_attr 5 (20 + d).
Definition toy_dev (c : Z) (m : objs) : Z := match m !! (0, c) with Some (RDev _ d) => d | _ => 0 end.
Definition toy_ports (d : Z) : Z := if d =? 0 then 2 else 1.

#[export] Instance ToyCtl : VerbsCtl := {|
  Ctl := objs;
  ibv_get_device_list m := (Some 2, m);
  ibv_open_device d m := make (fun c => RDev c d) m;
  ibv_query_device c m := (Some (toy_ports (toy_dev c m)), m);
  ibv_query_port c i m := (Some (toy_port (toy_dev c m) i), m);
  ibv_query_gid _ _ _ m := (Some (replicate 16 0), m);
  ibv_close_device c := toy_delete (0, c);
  ibv_alloc_pd c := make (fun p => RPd p c);
  ibv_create_cq c _ := make (fun q => RCq q c);
  ibv_create_qp p a := make (fun q => RQp q p (qi_send_cq a) (qi_recv_cq a) QpsReset);
  ibv_qp_num q := q mod 2 ^ 32;
  ibv_modify_qp q attr m :=
    match m !! (3, q) with
    | Some (RQp _ p s r _) => (0, <[(3, q) := RQp q p s r (qa_state attr)]> m)
    | _ => (1, m)
    end;
  ibv_create_ah p _ m := if next_num m <? 2 ^ 64 then make (fun h => RAh h p) m else (None, m);
  ibv_post_recv_probe _ _ m := (22, m);
  ibv_destroy_qp q := toy_delete (3, q);
  ibv_destroy_cq q := toy_delete (2, q);
  ibv_destroy_ah h := toy_delete (4, default 0 h);
  ibv_dealloc_pd p := toy_delete (1, p);
|}.

Lemma make_spec m mk (refers : Z -> vobj -> Prop) k :
  (forall h, key_of (mk h) = (k, h)) -> (forall h o, refers h o -> h ∈ nums_of o) ->
  let (o, m') := make mk m in
  match o with
  | Some h => alive m' ≡ₚ mk h :: alive m /\ none (refers h) (alive m)
  | None => alive m' ≡ₚ alive m
  end.
Proof.
  intros Hk Hr. unfold make. split.
  - apply alive_insert. rewrite Hk. apply next_num_new.
  - apply Forall_forall. intros o Ho Href. by apply (next_num_fresh m o Ho), Hr.
Qed.
Lemma toy_delete_ok m o l : alive m ≡ₚ o :: l -> let (ret, m') := toy_delete (key_of o) m in ret = 0 /\ alive m' ≡ₚ l.
Proof. intros H%alive_cancel. split; [done|]. apply H. Qed.
Lemma refers_ctx_num c o : refers_ctx c o -> c ∈ nums_of o.
Proof. destruct o; cbn; set_solver. Qed.
Lemma refers_pd_num c o : refers_pd c o -> c ∈ nums_of o.
Proof. destruct o; cbn; set_solver. Qed.
Lemma refers_cq_num c o : refers_cq c o -> c ∈ nums_of o.
Proof.
  destruct o; cbn; try done; [intros ->; by left|].
  intros [->| ->]; right; right; [by left|right; by left].
Qed.
Lemma refers_qp_num c o : refers_qp c o -> c ∈ nums_of o.
Proof. destruct o; cbn; set_solver. Qed.
Lemma toy_dev_open (c d : Z) (m : objs) : RDev c d ∈ alive m -> toy_dev c m = d.
Proof. intros H%alive_elem. unfold toy_dev. cbn in H. by rewrite H. Qed.

#[export] Instance ToyCtl_ok : VerbsCtlOk ToyCtl.
Proof.
  refine {| vc_live := alive : @Ctl ToyCtl -> list vobj; vc_num_devs := 2; vc_num_ports := toy_ports; vc_port := toy_port |}.
  - intros d. unfold toy_ports. by case_match.
  - intros m. split; [done|]. by intros k [= <-].
  - intros c d m H%toy_dev_open. cbn. split; [done|]. intros k [= <-]. by rewrite H.
  - intros c d i m H%toy_dev_open. cbn. split; [done|]. intros k [= <-]. by rewrite H.
  - done.
  - done.
  - intros d m. apply (make_spec m (fun c => RDev c d) refers_ctx 0); [done|exact refers_ctx_num].
  - intros c m. apply (make_spec m (fun p => RPd p c) refers_pd 1); [done|exact refers_pd_num].
  - intros c k m. apply (make_spec m (fun q => RCq q c) refers_cq 2); [done|exact refers_cq_num].
  - intros p a m. apply (make_spec m (fun q => RQp q p (qi_send_cq a) (qi_recv_cq a) QpsReset) refers_qp 3);
      [done|exact refers_qp_num].
  - intros p a m. cbn. destruct (Z.ltb_spec (next_num m) (2 ^ 64)); [|done]. cbn.
    split; [|split; [apply next_num_pos|done]].
    apply (alive_insert m (RAh (next_num m) p)), next_num_new.
  - intros q p s r st attr l m H. apply alive_cancel in H as [H1 H2]. cbn in H1 |- *. rewrite H1. cbn.
    rewrite <- (insert_delete_eq m). change (3, q) with (key_of (RQp q p s r (qa_state attr))).
    rewrite alive_insert by apply lookup_delete_eq. by constructor.
  - intros q p s r st l m H. exact (toy_delete_ok m (RQp q p s r st) l H).
  - intros q c l m H _. exact (toy_delete_ok m (RCq q c) l H).
  - intros h p l m H. exact (toy_delete_ok m (RAh h p) l H).
  - intros p c l m H _. exact (toy_delete_ok m (RPd p c) l H).
  - intros c d l m H _. exact (toy_delete_ok m (RDev c d) l H).
Defined.

(** ** The properties of the control path *)
Definition toy0 : Ctl := (∅ : objs).
Lemma resolve_phy_port_correct_witness :
  wpe (resolve_err false 3840 kInfiniBand active_ports 1) (common_resolve_phy_port false 1 3840 kInfiniBand)
    (fun _ t' => port_taken false 3840 kInfiniBand active_ports 1 (vc_live toy0) (IBC_new toy0) t')
    (IBC_new toy0).
Proof. apply (resolve_phy_port_correct false 1 3840 kInfiniBand toy0). lia. Defined.
(** It does return: port 1 is the port of the second device. *)
Example toy_port_1 :
  match common_resolve_phy_port false 1 3840 kInfiniBand (IBC_new toy0) with
  | Ok _ t => (rs_device_id (ic_resolve t) =? 1) && (rs_dev_port_id (ic_resolve t) =? 1)
      && (rs_bandwidth (ic_resolve t) =? 12500000000)
  | Fail _ => false
  end = true.
Proof. vm_compute. reflexivity. Qed.

#[local] Instance XcT : TTr := Transports.IBTransport false.
Lemma transport_releases_all_witness :
  wpt (IBTransport_new false 0)
    (fun _ t => wp (resolve_all false [replicate 48 1; replicate 48 2])
       (fun ok t1 => ok = true -> wp IBTransport_delete (fun _ t2 => vc_live (ic_ctl t2) ≡ₚ vc_live toy0) t1) t)
    (IBC_new toy0).
Proof. apply (transport_releases_all false 0 [replicate 48 1; replicate 48 2] toy0). lia. Defined.
(** The whole life runs, and nothing is left. *)
Example toy_life :
  match (IBTransport_new false 0;;
         ok ← resolve_all false [replicate 48 1; replicate 48 2];
         when ok IBTransport_delete;; mret ok) (IBC_new toy0) with
  | Ok ok t => ok && bool_decide (vc_live (ic_ctl t) = [])
  | Fail _ => false
  end = true.
Proof. vm_compute. reflexivity. Qed.

Definition toy_local : IBC := (IBC_new toy0) <| ic_qp := Some 9 |> <| ic_resolve ::= fun r => r <| rs_port_lid := 21 |> |>.
Definition toy_remote : IBC := (IBC_new toy0) <| ic_pd := Some 5 |>.
Lemma routing_info_resolved_witness :
  exists ri, fill_local_routing_info false toy_local = Ok ri toy_local /\ length ri = kMaxRoutingInfoSize /\
    ah_attr_of false 0 ri = mkAhAttr 0 21 0 0 0 (replicate 16 0) 0 0 /\
    wp (resolve_remote_routing_info false ri) (fun r tb' => r.1 = true ->
      ri_port_lid r.2 = 21 /\ ri_qp_num r.2 = 9 /\ (false = true -> ri_gid r.2 = replicate 16 0) /\
      ic_ah_to_free_vec tb' = [Some (ri_ah_ptr r.2)]) toy_remote.
Proof.
  apply (routing_info_resolved false toy_local 9 toy_remote 5); [by split|by split|reflexivity..].
Defined.
