(* ===== verification/Heartbeat.v ===== *)
(** * The heartbeat manager: [heartbeat_mgr.h]

    The priority queue is the list of its events; which of several earliest
    events [std::priority_queue::top] returns is left to the library, so it is a
    parameter ([hb_pick]). The mutex guards whole operations. The log messages
    of the verbose mode are left out, with the clock readings they print. *)
From S2P Require Import Prelude Config Uri SmTypes.

Inductive EventType := kSend | kCheck.
Record Event := mkEvent { ev_type : EventType; ev_rem_uri : string; ev_tsc : Z }.
#[export] Instance EventType_eq_dec : EqDecision EventType.
Proof. solve_decision. Defined.
#[export] Instance Event_eq_dec : EqDecision Event.
Proof. solve_decision. Defined.

Class HbEnv := {
  hb_hostname : string;
  hb_sm_udp_port : Z;
  hb_failure_timeout_tsc : Z;
  hb_clock : nat -> Z;                   (* n-th clock reading *)
  hb_pick : list Event -> nat;           (* the position of top() *)
}.

Record HeartbeatMgr := mkHb {
  hb_event_pqueue : list Event;
  map_last_hb_rx : gmap string Z;
  hb_reads : nat;
  hb_sent : list SmPkt;                  (* hb_udp_client_.send() *)
}.
#[export] Instance eta_HeartbeatMgr : Eta HeartbeatMgr := fun h =>
  mkHb (hb_event_pqueue h) (map_last_hb_rx h) (hb_reads h) (hb_sent h).

Section Heartbeat.
Context {Env : HbEnv}.
Abbreviation MH := (M HeartbeatMgr).

Definition hb_send_delta_tsc : Z := hb_failure_timeout_tsc / 10.
Definition hb_check_delta_tsc : Z := hb_failure_timeout_tsc / 2.

Definition hb_rdtsc : MH Z :=
  n ← gets hb_reads; modify (fun h => h <| hb_reads ::= S |>);; mret (hb_clock n).
Definition in_future (tsc : Z) : MH bool := now ← hb_rdtsc; mret (now <? tsc).

Definition schedule (ty : EventType) (delta : Z) (rem_uri : string) : MH unit :=
  now ← hb_rdtsc;
  modify (fun h => h <| hb_event_pqueue ::= cons (mkEvent ty rem_uri (add64 now delta)) |>).
Definition schedule_hb_send : string -> MH unit := schedule kSend hb_send_delta_tsc.
Definition schedule_hb_check : string -> MH unit := schedule kCheck hb_check_delta_tsc.

(** [unordered_map::emplace]: an existing entry stays as it is. *)
Definition emplace (k : string) (v : Z) (m : gmap string Z) : gmap string Z :=
  match m !! k with Some _ => m | None => <[k := v]> m end.

Definition unlocked_add_remote (remote_uri : string) : MH unit :=
  cur_tsc ← hb_rdtsc;
  modify (fun h => h <| map_last_hb_rx ::= emplace remote_uri cur_tsc |>);;
  schedule_hb_send remote_uri;;
  schedule_hb_check remote_uri.

Definition unlocked_receive_hb (sm_pkt : SmPkt) : MH unit :=
  let uri := endpoint_uri (sm_client_ sm_pkt) in
  m ← gets map_last_hb_rx;
  if bool_decide (m !! uri = None) then mret tt
  else
    now ← hb_rdtsc;
    modify (fun h => h <| map_last_hb_rx ::= emplace uri now |>).

Definition make_heartbeat (remote_uri : string) : MH SmPkt :=
  p ← split_uri remote_uri;
  c ← strcpy_hostname hb_hostname;
  s ← strcpy_hostname p.1;
  mret (mkSmPkt kPingReq kNoError 0
    ((SessionEndpoint_new kInvalid) <| hostname_ := c |> <| sm_udp_port_ := hb_sm_udp_port |>)
    ((SessionEndpoint_new kInvalid) <| hostname_ := s |> <| sm_udp_port_ := p.2 |>)).

(** One event that is due. Its URI is returned if the remote has failed. *)
Definition handle_event (ev : Event) (last_ping_rx : Z) : MH (list string) :=
  match ev_type ev with
  | kSend =>
      heartbeat ← make_heartbeat (ev_rem_uri ev);
      modify (fun h => h <| hb_sent ::= fun l => l ++ [heartbeat] |>);;
      schedule_hb_send (ev_rem_uri ev);;
      mret []
  | kCheck =>
      now ← hb_rdtsc;
      if hb_failure_timeout_tsc <? sub64 now last_ping_rx then
        modify (fun h => h <| map_last_hb_rx ::= delete (ev_rem_uri ev) |>);;
        mret [ev_rem_uri ev]
      else schedule_hb_check (ev_rem_uri ev);; mret []
  end.

(** [do_one]'s loop; [n] bounds it. *)
Fixpoint do_one (n : nat) (failed_uris : list string) : MH (list string) :=
  match n with
  | O => fail EFuel
  | S n =>
      q ← gets hb_event_pqueue;
      if bool_decide (q = []) then mret failed_uris
      else
        next_ev ← deref (q !! hb_pick q) "top()";
        future ← in_future (ev_tsc next_ev);
        if (future : bool) then mret failed_uris
        else
          m ← gets map_last_hb_rx;
          match m !! ev_rem_uri next_ev with
          | None => mret failed_uris
          | Some last_ping_rx =>
              modify (fun h => h <| hb_event_pqueue := delete (hb_pick q) q |>);;
              failed ← handle_event next_ev last_ping_rx;
              do_one n (failed_uris ++ failed)
          end
  end.
End Heartbeat.
