(* ===== verification/HbProps.v ===== *)
(** * What the heartbeat manager guarantees, and what it does not

    Every tracked remote always has a send and a check event queued, and a call
    of [do_one] terminates with nothing due left unless an event of an untracked
    remote is in the way. But heartbeats that arrive never refresh a remote's
    timestamp, and the events of a failed remote block the queue for good. *)
From S2P Require Import Prelude Config Uri SmTypes Heartbeat.

Class HbEnvOk (Env : HbEnv) : Prop := {
  ho_pick q : q <> [] -> exists e, q !! hb_pick q = Some e /\ Forall (fun e' => ev_tsc e <= ev_tsc e') q;
  ho_timeout : 0 <= hb_failure_timeout_tsc < 2 ^ 62;
}.

Section HbProps.
Context {Env : HbEnv} {EnvOk : HbEnvOk Env}.
Implicit Types h : HeartbeatMgr.

(** ** Tracked remotes are scheduled *)
Definition scheduled (q : list Event) (ty : EventType) (u : string) : Prop :=
  exists tsc, mkEvent ty u tsc ∈ q.
Definition hb_inv h : Prop :=
  forall u, is_Some (map_last_hb_rx h !! u) ->
    scheduled (hb_event_pqueue h) kSend u /\ scheduled (hb_event_pqueue h) kCheck u.

Lemma scheduled_cons e q ty u : scheduled q ty u -> scheduled (e :: q) ty u.
Proof. intros (tsc & H). exists tsc. by apply elem_of_cons; right. Qed.
Lemma scheduled_head ty u tsc q : scheduled (mkEvent ty u tsc :: q) ty u.
Proof. exists tsc. by apply elem_of_cons; left. Qed.
(** Consuming an event leaves those of other kinds and other remotes. *)
Lemma scheduled_delete q i e ty u :
  q !! i = Some e -> (ev_type e <> ty \/ ev_rem_uri e <> u) -> scheduled q ty u ->
  scheduled (delete i q) ty u.
Proof.
  intros Hi Hne (tsc & Hin). exists tsc. rewrite (delete_Permutation q i e Hi) in Hin.
  apply elem_of_cons in Hin as [<-|Hin]; [|done]. by destruct Hne.
Qed.

Lemma emplace_is_Some k v m u : is_Some (emplace k v m !! u) <-> u = k \/ is_Some (m !! u).
Proof.
  unfold emplace. destruct (m !! k) as [w|] eqn:E.
  - split; [by right|]. intros [->|H]; [by rewrite E|done].
  - destruct (decide (u = k)) as [->|Hne].
    + rewrite lookup_insert_eq. split; eauto.
    + rewrite lookup_insert_ne by done. split; [by right|]. by intros [?|?].
Qed.

(** The scheduling of an event, as a rule. *)
Lemma schedule_wp (E : err -> Prop) ty delta u h (Q : unit -> HeartbeatMgr -> Prop) :
  Q tt (h <| hb_reads ::= S |> <| hb_event_pqueue ::= cons (mkEvent ty u (add64 (hb_clock (hb_reads h)) delta)) |>) ->
  wpe E (schedule ty delta u) Q h.
Proof. intros HQ. unfold schedule, hb_rdtsc. by repeat wp_step. Qed.

Lemma add_remote_inv u h :
  hb_inv h -> wp (unlocked_add_remote u) (fun _ => hb_inv) h.
Proof.
  intros Hi. unfold unlocked_add_remote, hb_rdtsc, schedule_hb_send, schedule_hb_check.
  repeat first [apply schedule_wp|wp_step]. intros v Hv. rsimp. rsimp in Hv.
  apply emplace_is_Some in Hv as [->|Hv].
  - split; [apply scheduled_cons|]; apply scheduled_head.
  - destruct (Hi v Hv). split; by do 2 apply scheduled_cons.
Qed.

(** Heartbeats that arrive change nothing but the number of clock readings: the
    manager never refreshes the timestamp of a tracked remote, and never starts
    to track one. *)
Theorem heartbeats_do_not_refresh h pkts :
  exists h', miter unlocked_receive_hb pkts h = Ok tt h' /\
    map_last_hb_rx h' = map_last_hb_rx h /\ hb_event_pqueue h' = hb_event_pqueue h /\
    hb_sent h' = hb_sent h.
Proof.
  revert h. induction pkts as [|p pkts IH]; intros h; [by exists h|]. cbn [miter].
  assert (H : exists h1, unlocked_receive_hb p h = Ok tt h1 /\
    map_last_hb_rx h1 = map_last_hb_rx h /\ hb_event_pqueue h1 = hb_event_pqueue h /\
    hb_sent h1 = hb_sent h).
  { cut (wp (unlocked_receive_hb p) (fun _ h1 => map_last_hb_rx h1 = map_last_hb_rx h /\
      hb_event_pqueue h1 = hb_event_pqueue h /\ hb_sent h1 = hb_sent h) h).
    { rewrite wp_run. intros ([] & h1 & E & H). by exists h1. }
    unfold unlocked_receive_hb, hb_rdtsc. do 2 wp_step. wp_step.
    - by wp_step.
    - do 6 wp_step. apply bool_decide_eq_false in H. split_and!; try done. rsimp. unfold emplace.
      by destruct (map_last_hb_rx h !! _). }
  destruct H as (h1 & E & E1 & E2 & E3). destruct (IH h1) as (h2 & F & F1 & F2 & F3). exists h2.
  split; [|split_and!; congruence]. unfold base.mbind, M_bind. by rewrite E.
Qed.

(** ** [do_one] *)
(** A computation that neither reads nor changes the state. *)
Definition stateless {St X} (m : M St X) : Prop :=
  forall a st st1, m st = Ok a st1 -> st1 = st /\ forall st2, m st2 = Ok a st2.
Lemma stateless_bind {St X Y} (m : M St X) (k : X -> M St Y) :
  stateless m -> (forall a, stateless (k a)) -> stateless (m ≫= k).
Proof.
  intros Hm Hk b st st2. unfold base.mbind, M_bind. destruct (m st) as [a st1|] eqn:E; [|done].
  destruct (Hm _ _ _ E) as [-> Hm']. intros [-> Hk']%Hk. split; [done|]. intros st3. by rewrite Hm'.
Qed.
Lemma stateless_ret {St X} (a : X) : stateless (mret a : M St X).
Proof. by intros b st st1 [= <- <-]. Qed.
Lemma stateless_fail {St X} e : stateless (fail e : M St X).
Proof. by intros b st st1. Qed.
Lemma stateless_assert {St} b what : stateless (assert_ b what : M St unit).
Proof. destruct b; [apply stateless_ret|apply stateless_fail]. Qed.
Lemma make_heartbeat_stateless u : stateless (make_heartbeat u).
Proof.
  unfold make_heartbeat, split_uri, extract_hostname_from_uri, extract_udp_port_from_uri, strcpy_hostname.
  repeat first [ apply stateless_bind; [|intros ?] | apply stateless_ret | apply stateless_fail
               | apply stateless_assert | case_match ].
Qed.
Lemma make_heartbeat_ok u h :
  wpe any_err (make_heartbeat u) (fun hb h' => h' = h /\ forall h2, make_heartbeat u h2 = Ok hb h2) h.
Proof.
  unfold wpe. destruct (make_heartbeat u h) as [hb h1|] eqn:E; [|done].
  apply (make_heartbeat_stateless _ _ _ _ E).
Qed.

(** An event that was handled, its remote's timestamp and the clock reading it was
    handled with. *)
Record handled := mkHandled { hd_ev : Event; hd_last : Z; hd_now : Z }.
(** A check that finds its remote silent for longer than the timeout. *)
Definition silent (d : handled) : bool :=
  bool_decide (ev_type (hd_ev d) = kCheck) && (hb_failure_timeout_tsc <? sub64 (hd_now d) (hd_last d)).
(** The remotes it reports, the events it schedules (with readings [lo] to [hi] of
    the clock) and the heartbeats it sends. *)
Definition reported (d : handled) : list string := if silent d then [ev_rem_uri (hd_ev d)] else [].
Definition interval (ty : EventType) : Z :=
  match ty with kSend => hb_send_delta_tsc | kCheck => hb_check_delta_tsc end.
Definition renewal (lo hi : nat) (d : handled) (new : list Event) : Prop :=
  if silent d then new = []
  else exists k, (lo <= k < hi)%nat /\
    new = [mkEvent (ev_type (hd_ev d)) (ev_rem_uri (hd_ev d)) (add64 (hb_clock k) (interval (ev_type (hd_ev d))))].
Definition heartbeats (d : handled) (hbs : list SmPkt) : Prop :=
  match ev_type (hd_ev d) with
  | kSend => exists hb, hbs = [hb] /\ forall h, make_heartbeat (ev_rem_uri (hd_ev d)) h = Ok hb h
  | kCheck => hbs = []
  end.

(** What one event does. *)
Record handles (d : handled) h (failed : list string) h' : Prop := {
  hs_now : exists k, (hb_reads h <= k < hb_reads h')%nat /\ hd_now d = hb_clock k;
  hs_failed : failed = reported d;
  hs_map : map_last_hb_rx h' = if silent d then delete (ev_rem_uri (hd_ev d)) (map_last_hb_rx h) else map_last_hb_rx h;
  hs_queue : exists new, hb_event_pqueue h' = new ++ hb_event_pqueue h /\ renewal (hb_reads h) (hb_reads h') d new;
  hs_sent : exists hbs, hb_sent h' = hb_sent h ++ hbs /\ heartbeats d hbs;
}.
Lemma handle_event_wp (E : err -> Prop) ev last h (Q : list string -> HeartbeatMgr -> Prop) :
  wpe E (make_heartbeat (ev_rem_uri ev)) (fun hb h' => h' = h /\
    forall h2, make_heartbeat (ev_rem_uri ev) h2 = Ok hb h2) h ->
  (forall now failed h', handles (mkHandled ev last now) h failed h' -> (hb_reads h' <= hb_reads h + 2)%nat -> Q failed h') ->
  wpe E (handle_event ev last) Q h.
Proof.
  intros Hm HQ. unfold handle_event. destruct ev as [ty u tsc]; cbn [ev_type ev_rem_uri] in *. destruct ty.
  - wp_step. eapply wp_mono; [exact Hm|]. cbn beta. intros hb h' [-> Hhb]. do 2 wp_step.
    wp_step. apply schedule_wp. wp_step. apply (HQ (hb_clock (hb_reads h))); [|rsimp; lia].
    split; try done; cbn [silent hd_ev ev_type]; rsimp.
    + exists (hb_reads h). split; [lia|done].
    + eexists [_]. split; [reflexivity|]. exists (hb_reads h). split; [lia|done].
    + exists [hb]. split; [done|]. by exists hb.
  - unfold hb_rdtsc. do 7 wp_step.
    + do 3 wp_step. apply (HQ (hb_clock (hb_reads h))); [|rsimp; lia].
      assert (Hs : silent (mkHandled (mkEvent kCheck u tsc) last (hb_clock (hb_reads h))) = true) by (apply H).
      split; unfold reported, renewal; rewrite ?Hs; try done; rsimp.
      * exists (hb_reads h). split; [lia|done].
      * by exists [].
      * exists []. by rewrite app_nil_r.
    + wp_step. apply schedule_wp. wp_step. apply (HQ (hb_clock (hb_reads h))); [|rsimp; lia].
      assert (Hs : silent (mkHandled (mkEvent kCheck u tsc) last (hb_clock (hb_reads h))) = false) by (apply H).
      split; unfold reported, renewal; rewrite ?Hs; try done; rsimp.
      * exists (hb_reads h). split; [lia|done].
      * eexists [_]. split; [reflexivity|]. exists (S (hb_reads h)). split; [lia|done].
      * exists []. by rewrite app_nil_r.
Qed.

Lemma handles_inv i d h h0 failed h' :
  hb_inv h -> hb_event_pqueue h !! i = Some (hd_ev d) ->
  hb_event_pqueue h0 = delete i (hb_event_pqueue h) -> map_last_hb_rx h0 = map_last_hb_rx h ->
  handles d h0 failed h' -> hb_inv h'.
Proof.
  intros Hi Hev E1 E2 [_ _ Em (new & Eq & Hn) _] u Hu. rewrite E1 in Eq. rewrite E2 in Em. rewrite Eq. rewrite Em in Hu.
  unfold renewal in Hn. destruct (silent d).
  - subst new. cbn [app]. rewrite lookup_delete_is_Some in Hu. destruct Hu as [Hne Hu]. destruct (Hi u Hu) as [H1 H2].
    split; (eapply scheduled_delete; [exact Hev|by right|done]).
  - destruct Hn as (k & _ & ->), (Hi u Hu) as [H1 H2]. set (tsc' := add64 _ _).
    destruct d as [[ty v tsc] last now]; cbn [hd_ev ev_type ev_rem_uri app] in *.
    assert (Hk : forall ty', scheduled (hb_event_pqueue h) ty' u ->
      scheduled (mkEvent ty v tsc' :: delete i (hb_event_pqueue h)) ty' u).
    { intros ty' H. destruct (decide (ty = ty' /\ v = u)) as [[-> ->]|Hne]; [apply scheduled_head|].
      apply scheduled_cons. eapply scheduled_delete; [exact Hev| |exact H]. cbn.
      destruct (decide (ty = ty')); [right|left]; naive_solver. }
    split; by apply Hk.
Qed.

Lemma in_future_wp (E : err -> Prop) tsc h (Q : bool -> HeartbeatMgr -> Prop) :
  Q (hb_clock (hb_reads h) <? tsc) (h <| hb_reads ::= S |>) -> wpe E (in_future tsc) Q h.
Proof. intros HQ. unfold in_future, hb_rdtsc. by repeat wp_step. Qed.

Lemma do_one_inv n fs h : hb_inv h -> wpe any_err (do_one n fs) (fun _ => hb_inv) h.
Proof.
  revert fs h. induction n as [|n IH]; intros fs h Hi; cbn [do_one]; [by wp_step|].
  do 2 wp_step. wp_step; [by wp_step|]. wp_step. unfold deref.
  destruct (_ !! _) as [ev|] eqn:Hev; [wp_step|by wp_step].
  wp_step. apply in_future_wp. wp_step; [by wp_step|]. do 2 wp_step. rsimp.
  destruct (map_last_hb_rx h !! ev_rem_uri ev) as [last|] eqn:Hl; [|by wp_step].
  do 3 wp_step. eapply handle_event_wp.
  { apply make_heartbeat_ok. }
  intros now failed h' Hr _. apply IH.
  by eapply (handles_inv (hb_pick (hb_event_pqueue h)) (mkHandled ev last now) h); [..|exact Hr].
Qed.

Inductive hb_op := HbAdd (uri : string) | HbReceive (pkt : SmPkt) | HbDoOne (fuel : nat).
Definition run_hb_op (o : hb_op) : M HeartbeatMgr (list string) :=
  match o with
  | HbAdd uri => unlocked_add_remote uri;; mret []
  | HbReceive pkt => unlocked_receive_hb pkt;; mret []
  | HbDoOne fuel => do_one fuel []
  end.
Definition hb_step h h' : Prop := exists o fs, run_hb_op o h = Ok fs h'.

Lemma receive_inv p h : hb_inv h -> wp (unlocked_receive_hb p) (fun _ => hb_inv) h.
Proof.
  intros Hi. unfold unlocked_receive_hb, hb_rdtsc. do 2 wp_step. wp_step; [by wp_step|].
  repeat wp_step. apply bool_decide_eq_false in H. intros u Hu. rsimp in Hu. rsimp. apply Hi.
  apply emplace_is_Some in Hu as [->|Hu]; [|done]. by apply not_eq_None_Some.
Qed.

(** C19 In every state that a manager without remotes can reach, each tracked remote
    has a heartbeat to be sent and a check to be made in the event queue. *)
Theorem tracked_remotes_scheduled h0 h u :
  map_last_hb_rx h0 = ∅ -> rtc hb_step h0 h -> is_Some (map_last_hb_rx h !! u) ->
  scheduled (hb_event_pqueue h) kSend u /\ scheduled (hb_event_pqueue h) kCheck u.
Proof.
  intros H0 Hs. cut (hb_inv h); [intros Hi; apply Hi|].
  assert (Hi : hb_inv h0) by (intros v Hv; rewrite H0 in Hv; by destruct Hv).
  clear H0. induction Hs as [|h1 h2 h3 [o [fs E]] _ IH]; [done|]. apply IH.
  assert (H : wpe any_err (run_hb_op o) (fun _ => hb_inv) h1); [|unfold wpe in H; by rewrite E in H].
  destruct o as [v|p|n]; cbn [run_hb_op].
  - wp_step. eapply wp_mono; [eapply wp_err_mono; [by apply add_remote_inv|done]|].
    cbn beta. intros _ h' Hi'. by wp_step.
  - wp_step. eapply wp_mono; [eapply wp_err_mono; [by apply receive_inv|done]|].
    cbn beta. intros _ h' Hi'. by wp_step.
  - by apply do_one_inv.
Qed.

(** ** Termination *)
Definition uri_ok (u : string) : Prop := exists hb, forall h, make_heartbeat u h = Ok hb h.
Definition due (w : Z) (q : list Event) : nat := length (filter (fun e => ev_tsc e < w) q).

Lemma due_le w q : (due w q <= length q)%nat.
Proof. apply length_filter. Qed.
Lemma due_delete w q i e : q !! i = Some e -> ev_tsc e < w -> due w q = S (due w (delete i q)).
Proof.
  intros Hi He. unfold due. rewrite (delete_Permutation q i e Hi) at 1. by rewrite filter_cons_True.
Qed.
Lemma due_late w q e : w <= ev_tsc e -> due w (e :: q) = due w q.
Proof. intros He. unfold due. rewrite filter_cons_False; [done|lia]. Qed.

(** What a call of [do_one] achieves. The events of [log] were handled, in this
    order; [left] is the rest of the queue. *)
Record done_log (log : list handled) (left : list Event) h (fs : list string) h' : Prop := {
  dl_reads : (hb_reads h <= hb_reads h')%nat;
  dl_due : Forall (fun d => map_last_hb_rx h !! ev_rem_uri (hd_ev d) = Some (hd_last d) /\
    (exists k, (hb_reads h <= k < hb_reads h')%nat /\ ev_tsc (hd_ev d) <= hb_clock k) /\
    (exists k, (hb_reads h <= k < hb_reads h')%nat /\ hd_now d = hb_clock k)) log;
  dl_queue : hb_event_pqueue h ≡ₚ (hd_ev <$> log) ++ left;
  dl_failed : fs = concat (reported <$> log);
  dl_map u : map_last_hb_rx h' !! u = if decide (u ∈ fs) then None else map_last_hb_rx h !! u;
  dl_renewed : exists news, Forall2 (renewal (hb_reads h) (hb_reads h')) log news /\
    hb_event_pqueue h' ≡ₚ concat news ++ left;
  dl_sent : exists hbs, Forall2 heartbeats log hbs /\ hb_sent h' = hb_sent h ++ concat hbs;
  dl_quiet : Forall (fun e => hb_clock (pred (hb_reads h')) < ev_tsc e) (hb_event_pqueue h') \/
    exists e, e ∈ hb_event_pqueue h' /\ Forall (fun e' => ev_tsc e <= ev_tsc e') (hb_event_pqueue h') /\
      map_last_hb_rx h' !! ev_rem_uri e = None;
}.
Definition all_done h (fs : list string) h' : Prop := exists log left, done_log log left h fs h'.

Lemma all_done_now h h' :
  (hb_reads h <= hb_reads h')%nat -> hb_event_pqueue h' = hb_event_pqueue h ->
  map_last_hb_rx h' = map_last_hb_rx h -> hb_sent h' = hb_sent h ->
  (Forall (fun e => hb_clock (pred (hb_reads h')) < ev_tsc e) (hb_event_pqueue h') \/
    exists e, e ∈ hb_event_pqueue h' /\ Forall (fun e' => ev_tsc e <= ev_tsc e') (hb_event_pqueue h') /\
      map_last_hb_rx h' !! ev_rem_uri e = None) -> all_done h [] h'.
Proof.
  intros Hr Eq Em Es Hq. exists [], (hb_event_pqueue h). split; try done.
  - intros u. by rewrite Em, decide_False by apply not_elem_of_nil.
  - exists []. split; [constructor|by rewrite Eq].
  - exists []. split; [constructor|by rewrite Es, app_nil_r].
Qed.

Lemma renewal_mono lo hi lo' hi' d new :
  (lo' <= lo)%nat -> (hi <= hi')%nat -> renewal lo hi d new -> renewal lo' hi' d new.
Proof. intros H1 H2. unfold renewal. case_match; [done|]. intros (k & Hk & ->). exists k. split; [lia|done]. Qed.

(** Events that were not handled after they were scheduled are still there. *)
Lemma news_left (new q evs left : list Event) :
  (forall e, e ∈ new -> e ∉ evs) -> (length new <= 1)%nat -> new ++ q ≡ₚ evs ++ left ->
  exists left', q ≡ₚ evs ++ left' /\ left ≡ₚ new ++ left'.
Proof.
  intros Hn Hl Hp. destruct new as [|e [|]]; [by exists left| |cbn in Hl; lia]. cbn [app] in *.
  assert (He : e ∈ evs ++ left) by (rewrite <- Hp; by left).
  apply elem_of_app in He as [He|He]; [exfalso; eapply Hn; [by left|exact He]|].
  apply elem_of_Permutation in He as (left' & E). exists left'. split; [|exact E].
  apply (Permutation_cons_inv (a := e)). rewrite Hp, E. by rewrite Permutation_middle.
Qed.

(** One event, then the rest. *)
Lemma all_done_step w i d h h0 h1 failed gs h' :
  hb_event_pqueue h !! i = Some (hd_ev d) -> map_last_hb_rx h !! ev_rem_uri (hd_ev d) = Some (hd_last d) ->
  ev_tsc (hd_ev d) <= hb_clock (hb_reads h) ->
  h0 = h <| hb_reads ::= S |> <| hb_event_pqueue := delete i (hb_event_pqueue h) |> ->
  handles d h0 failed h1 -> (hb_reads h1 <= hb_reads h')%nat ->
  (forall k, (hb_reads h <= k < hb_reads h')%nat -> hb_clock k < w) ->
  (forall new, renewal (hb_reads h0) (hb_reads h1) d new -> Forall (fun e => w <= ev_tsc e) new) ->
  all_done h1 gs h' -> all_done h (failed ++ gs) h'.
Proof.
  intros Hi Hl Hdue E0 [(kn & Hkn & En) -> Em (new & Eq & Hnew) (hb & Es & Hhb)] Hle Hw Hlate (log & left & D).
  assert (R0 : hb_reads h0 = S (hb_reads h)) by (by rewrite E0).
  assert (Q0 : hb_event_pqueue h0 = delete i (hb_event_pqueue h)) by (by rewrite E0).
  assert (M0 : map_last_hb_rx h0 = map_last_hb_rx h) by (by rewrite E0).
  assert (S0 : hb_sent h0 = hb_sent h) by (by rewrite E0). clear E0.
  destruct D as [Dr Dd Dq Df Dm (news & Dn1 & Dn2) (hbs & Ds1 & Ds2) Dz].
  destruct (news_left new (hb_event_pqueue h0) (hd_ev <$> log) left) as (left' & P1 & P2).
  { intros e He (d' & -> & Hd')%list_elem_of_fmap. specialize (Hlate new Hnew).
    rewrite Forall_forall in Hlate. rewrite Forall_forall in Dd. specialize (Hlate _ He). destruct (Dd _ Hd') as (_ & (k & Hk & Hdk) & _).
    specialize (Hw k). lia. }
  { unfold renewal in Hnew. case_match; [subst; cbn; lia|]. destruct Hnew as (k & _ & ->). cbn. lia. }
  { by rewrite <- Eq. }
  exists (d :: log), left'. split.
  - lia.
  - constructor.
    + split; [exact Hl|]. split; [exists (hb_reads h); split; [lia|done]|]. exists kn. split; [lia|done].
    + eapply Forall_impl; [exact Dd|]. intros d' (H1 & (k & Hk & Hdk) & (k' & Hk' & Hn')).
      split; [|split; [exists k; split; [lia|done]|exists k'; split; [lia|done]]].
      rewrite Em, M0 in H1. destruct (silent d); [|done]. by apply lookup_delete_Some in H1 as [_ H1].
  - rewrite (delete_Permutation _ _ _ Hi), <- Q0, P1. done.
  - by rewrite Df.
  - intros u. rewrite Dm, Em, M0. unfold reported. destruct (silent d); [|done]. cbn [app].
    destruct (decide (u = ev_rem_uri (hd_ev d))) as [->|Hne].
    + rewrite lookup_delete_eq, (decide_True (P := _ ∈ _ :: _)) by (by left). by case_decide.
    + rewrite lookup_delete_ne by done. repeat case_decide; set_solver.
  - exists (new :: news). split; [|cbn [concat]; rewrite Dn2, P2; solve_Permutation].
    constructor; [eapply renewal_mono; [..|exact Hnew]; lia|].
    eapply Forall2_impl; [exact Dn1|]. intros d' new'. apply renewal_mono; lia.
  - exists (hb :: hbs). split; [by constructor|]. cbn [concat]. by rewrite Ds2, Es, S0, app_assoc.
  - exact Dz.
Qed.

Lemma renewal_late lo hi d new t0 w :
  (forall k, (lo <= k < hi)%nat -> t0 <= hb_clock k < w) -> 0 <= t0 ->
  w = t0 + hb_send_delta_tsc -> w + hb_failure_timeout_tsc < 2 ^ 64 ->
  renewal lo hi d new -> Forall (fun e => w <= ev_tsc e) new.
Proof.
  intros Hk Ht -> Hw. unfold renewal. case_match; [by intros ->|]. intros (k & Hin & ->). constructor; [|done].
  specialize (Hk k Hin). pose proof ho_timeout. cbn [ev_tsc].
  assert (Hd : hb_send_delta_tsc <= hb_check_delta_tsc <= hb_failure_timeout_tsc /\ 0 <= hb_send_delta_tsc).
  { unfold hb_send_delta_tsc, hb_check_delta_tsc. Z.div_mod_to_equations. lia. }
  unfold interval. destruct (ev_type _); rewrite add64_small; lia.
Qed.
Lemma due_app_late w new q : Forall (fun e => w <= ev_tsc e) new -> due w (new ++ q) = due w q.
Proof. induction 1 as [|e new He _ IH]; [done|]. cbn [app]. by rewrite due_late. Qed.
Lemma renewal_uri lo hi d new e : renewal lo hi d new -> e ∈ new -> ev_rem_uri e = ev_rem_uri (hd_ev d).
Proof.
  unfold renewal. case_match; [by intros -> ?%elem_of_nil|]. intros (k & _ & ->) He%list_elem_of_singleton. by subst.
Qed.

Lemma do_one_wp t0 w : 0 <= t0 -> w = t0 + hb_send_delta_tsc -> w + hb_failure_timeout_tsc < 2 ^ 64 ->
  forall n fs h,
  (due w (hb_event_pqueue h) < n)%nat ->
  (forall k, (hb_reads h <= k < hb_reads h + 3 * n)%nat -> t0 <= hb_clock k < w) ->
  (forall e, e ∈ hb_event_pqueue h -> uri_ok (ev_rem_uri e)) ->
  wp (do_one n fs) (fun fs' h' => exists gs, fs' = fs ++ gs /\ (hb_reads h <= hb_reads h' <= hb_reads h + 3 * n)%nat /\
    all_done h gs h') h.
Proof.
  intros Ht Dw Hw. induction n as [|n IH]; intros fs h Hd Hk Hu; [lia|]. cbn [do_one].
  wp_step. wp_step. wp_step.
  { wp_step. exists []. rewrite app_nil_r. split_and!; [done|lia|lia|].
    apply all_done_now; [done..|]. left. apply bool_decide_eq_true in H. by rewrite H. }
  apply bool_decide_eq_false in H. destruct (ho_pick _ H) as (ev & Hev & Hmin).
  assert (Hin : ev ∈ hb_event_pqueue h) by (by eapply list_elem_of_lookup_2).
  wp_step. eapply wp_deref; [exact Hev|]. wp_step. apply in_future_wp. wp_step.
  { wp_step. exists []. rewrite app_nil_r. split_and!; [done|rsimp; lia|rsimp; lia|].
    apply all_done_now; rsimp; [lia|done..|]. left. eapply Forall_impl; [exact Hmin|]. cbn. lia. }
  apply Z.ltb_ge in H0. wp_step. wp_step. rsimp.
  destruct (map_last_hb_rx h !! ev_rem_uri ev) as [last|] eqn:Hl.
  2:{ wp_step. exists []. rewrite app_nil_r. split_and!; [done|rsimp; lia|rsimp; lia|].
      apply all_done_now; rsimp; [lia|done..|]. right. by exists ev. }
  wp_step. wp_step. wp_step. set (h0 := update hb_event_pqueue _ _). apply handle_event_wp.
  { destruct (Hu ev Hin) as (hb & E). unfold wpe. by rewrite E. }
  intros now failed h1 Hh Hle. set (d := mkHandled ev last now) in *.
  assert (R0 : hb_reads h0 = S (hb_reads h)) by done.
  pose proof Hh as [(kn & Hkn & _) _ _ (new & Eq & Hnew) _].
  assert (Hlate : forall new, renewal (hb_reads h0) (hb_reads h1) d new -> Forall (fun e => w <= ev_tsc e) new).
  { intros new' Hn. apply (renewal_late _ _ _ _ t0 w) in Hn; try done. intros k Hk1. apply Hk. lia. }
  assert (Hdue : due w (hb_event_pqueue h) = S (due w (hb_event_pqueue h1))).
  { rewrite (due_delete w _ _ _ Hev), Eq, due_app_late; [done|by apply Hlate|]. specialize (Hk (hb_reads h)). lia. }
  eapply wp_mono; [apply IH|].
  - lia.
  - intros k Hk1. apply Hk. lia.
  - intros e He. rewrite Eq in He. apply elem_of_app in He as [He|He].
    + rewrite (renewal_uri _ _ _ _ _ Hnew He). by apply Hu.
    + apply Hu. rewrite (delete_Permutation _ _ _ Hev). by right.
  - cbn beta. intros fs' h' (gs & -> & Hle' & Had). exists (failed ++ gs). rewrite app_assoc.
    split_and!; [done|lia|lia|].
    eapply (all_done_step w _ d h h0 h1); [exact Hev|exact Hl|exact H0|reflexivity|exact Hh|lia| |exact Hlate|exact Had].
    intros k Hk1. apply Hk. lia.
Qed.

(** C18 Let the clock advance by less than the sending interval during a call of
    [do_one] that finds well-formed URIs. The call terminates. It handles events
    of its queue, each at most once and each due and of a tracked remote: every
    send sends the remote a heartbeat and is scheduled again, an interval after
    a reading of the clock; every check that finds its remote silent for longer
    than the timeout reports and forgets it, and every other check is scheduled
    again. The remotes it returns are those reported, in order; no other is
    forgotten, nothing else is sent, and the other events stay in the queue. It
    stops only when all the events left are in the future, or when an earliest
    one is of a remote that is not tracked. *)
Theorem do_one_terminates h t0 :
  0 <= t0 -> t0 + hb_send_delta_tsc + hb_failure_timeout_tsc < 2 ^ 64 ->
  (forall k, (hb_reads h <= k < hb_reads h + 3 * S (length (hb_event_pqueue h)))%nat ->
     t0 <= hb_clock k < t0 + hb_send_delta_tsc) ->
  (forall e, e ∈ hb_event_pqueue h -> uri_ok (ev_rem_uri e)) ->
  exists failed_uris h', do_one (S (length (hb_event_pqueue h))) [] h = Ok failed_uris h' /\
    all_done h failed_uris h'.
Proof.
  intros Ht Hw Hk Hu.
  assert (H : wp (do_one (S (length (hb_event_pqueue h))) []) (fun fs' h' => exists gs, fs' = [] ++ gs /\
    (hb_reads h <= hb_reads h' <= hb_reads h + 3 * S (length (hb_event_pqueue h)))%nat /\ all_done h gs h') h).
  { eapply do_one_wp; [exact Ht|reflexivity|done| |done|done]. pose proof (due_le (t0 + hb_send_delta_tsc) (hb_event_pqueue h)). lia. }
  apply wp_run in H as (fs & h' & E & gs & -> & _ & Had). by exists gs, h'.
Qed.

(** An earliest event that is due but whose remote is not tracked blocks the
    manager: do_one stops at it without consuming it, and sends and checks
    nothing. After a failure the failed remote's send event does this. *)
Theorem untracked_event_blocks h e n :
  hb_event_pqueue h !! hb_pick (hb_event_pqueue h) = Some e ->
  ev_tsc e <= hb_clock (hb_reads h) -> map_last_hb_rx h !! ev_rem_uri e = None ->
  do_one (S n) [] h = Ok [] (h <| hb_reads ::= S |>).
Proof.
  intros He Hc Hm.
  assert (H : wp (do_one (S n) []) (fun fs h' => fs = [] /\ h' = h <| hb_reads ::= S |>) h).
  { cbn [do_one]. do 2 wp_step. wp_step; [apply bool_decide_eq_true in H; by rewrite H in He|].
    wp_step. eapply wp_deref; [exact He|]. wp_step. apply in_future_wp.
    rewrite (proj2 (Z.ltb_ge _ _)) by done. do 2 wp_step. rsimp. rewrite Hm. by wp_step. }
  apply wp_run in H as (fs & h' & E & -> & ->). done.
Qed.
End HbProps.

(** ** A concrete heartbeat manager *)

(** The first of the earliest events. *)
Fixpoint min_at (q : list Event) : nat :=
  match q with
  | [] => O
  | e :: q =>
      match q !! min_at q with
      | Some e' => if ev_tsc e <=? ev_tsc e' then O else S (min_at q)
      | None => O
      end
  end.
Lemma min_at_spec q :
  q <> [] -> exists e, q !! min_at q = Some e /\ Forall (fun e' => ev_tsc e <= ev_tsc e') q.
Proof.
  induction q as [|e q IH]; [done|]. intros _. destruct q as [|e1 q].
  - exists e. cbn. split; [done|]. repeat constructor. lia.
  - destruct IH as (e' & He & Hm); [done|].
    change (min_at (e :: e1 :: q)) with
      (match (e1 :: q) !! min_at (e1 :: q) with
       | Some e' => if ev_tsc e <=? ev_tsc e' then O else S (min_at (e1 :: q))
       | None => O end).
    rewrite He. destruct (Z.leb_spec (ev_tsc e) (ev_tsc e')).
    + exists e. split; [done|]. constructor; [lia|]. eapply Forall_impl; [exact Hm|]. cbn. lia.
    + exists e'. split; [done|]. constructor; [lia|done].
Qed.

(** The clock ticks once per reading. *)
#[local] Instance HxEnv : HbEnv := {|
  hb_hostname := "here"; hb_sm_udp_port := 31850; hb_failure_timeout_tsc := 10000;
  hb_clock n := 100000 + Z.of_nat n; hb_pick := min_at
|}.
#[local] Instance HxEnv_ok : HbEnvOk HxEnv.
Proof. split; [exact min_at_spec|cbn; lia]. Qed.

(** One remote, silent for 99000 cycles; both of its events are due. *)
Definition hx : HeartbeatMgr :=
  mkHb [mkEvent kSend "there:31850" 2000; mkEvent kCheck "there:31850" 6000]
    {["there:31850"%string := 1000]} 0 [].
(** The same after the check: the remote is forgotten, a send is still queued. *)
Definition hx_failed : HeartbeatMgr := mkHb [mkEvent kSend "there:31850" 2000] ∅ 0 [].
Definition hx_empty : HeartbeatMgr := mkHb [] ∅ 0 [].

Lemma there_ok : uri_ok "there:31850".
Proof.
  exists (mkSmPkt kPingReq kNoError 0
    ((SessionEndpoint_new kInvalid) <| hostname_ := "here" |> <| sm_udp_port_ := 31850 |>)
    ((SessionEndpoint_new kInvalid) <| hostname_ := "there" |> <| sm_udp_port_ := 31850 |>)).
  intros h. vm_compute. reflexivity.
Qed.

Lemma do_one_terminates_witness :
  exists failed_uris h', do_one 3 [] hx = Ok failed_uris h' /\ all_done hx failed_uris h'.
Proof.
  apply (do_one_terminates hx 100000).
  - lia.
  - vm_compute. reflexivity.
  - intros k Hk. change (hb_reads hx) with O in Hk. change (length (hb_event_pqueue hx)) with 2%nat in Hk.
    change hb_send_delta_tsc with 1000. change (hb_clock k) with (100000 + Z.of_nat k). lia.
  - intros e He. apply elem_of_cons in He as [->|He]; [exact there_ok|].
    apply elem_of_cons in He as [->|He]; [exact there_ok|]. by apply elem_of_nil in He.
Defined.

Lemma untracked_event_blocks_witness :
  do_one 1 [] hx_failed = Ok [] (hx_failed <| hb_reads ::= S |>).
Proof.
  apply (untracked_event_blocks hx_failed (mkEvent kSend "there:31850" 2000) 0); [reflexivity|cbn; lia|reflexivity].
Defined.

Lemma tracked_remotes_scheduled_witness :
  exists h, rtc hb_step hx_empty h /\
    scheduled (hb_event_pqueue h) kSend "there:31850" /\ scheduled (hb_event_pqueue h) kCheck "there:31850".
Proof.
  exists (mkHb [mkEvent kCheck "there:31850" 105002; mkEvent kSend "there:31850" 101001]
    {["there:31850"%string := 100000]} 3 []).
  assert (Hs : rtc hb_step hx_empty (mkHb [mkEvent kCheck "there:31850" 105002;
    mkEvent kSend "there:31850" 101001] {["there:31850"%string := 100000]} 3 [])).
  { apply rtc_once. exists (HbAdd "there:31850"), []. vm_compute. reflexivity. }
  split; [exact Hs|].
  apply (tracked_remotes_scheduled hx_empty _ "there:31850" eq_refl Hs). by eexists.
Defined.
