(* ===== verification/Nexus.v ===== *)
(** * The Nexus: [nexus.h], [nexus.cc], [nexus_sm_thread.cc], [tls_registry.cc]

    The process-wide object: request handlers, the hooks of the process's Rpc
    objects, the session management thread that dispatches packets to them, and
    the eRPC thread IDs. A hook is an object of its own; the Nexus keeps
    pointers. The hook lock guards whole operations, so each operation is one
    step; the background threads' loop is in [RpcRx]. *)
From S2P Require Import Prelude Config HugeAlloc PktHdr Msg Uri SmTypes.

(** ** Thread-local eRPC thread IDs *)

(** [cur_etid_] and, for each thread, its [etid] once initialized. *)
Record TlsRegistry := mkTls { tls_cur_etid : Z; tls_etid : gmap Z Z }.
#[export] Instance eta_Tls : Eta TlsRegistry := fun t => mkTls (tls_cur_etid t) (tls_etid t).
Definition TlsRegistry_new : TlsRegistry := mkTls 0 ∅.

Definition tls_init (thread : Z) : M TlsRegistry unit :=
  t ← get;
  assert_ (bool_decide (tls_etid t !! thread = None)) "tls_initialized";;
  modify (fun t => t <| tls_etid ::= <[thread := tls_cur_etid t]> |>
                     <| tls_cur_etid ::= fun n => add64 n 1 |>).
Definition tls_get_etid (thread : Z) : M TlsRegistry Z :=
  t ← get;
  assert_ (bool_decide (tls_etid t !! thread <> None)) "tls_initialized";;
  mret (default 0 (tls_etid t !! thread)).
(** Only the calling thread's variables are reset. *)
Definition tls_reset (thread : Z) : M TlsRegistry unit :=
  modify (fun t => t <| tls_etid ::= delete thread |> <| tls_cur_etid := 0 |>).

(** ** State *)
Record Hook := mkHook {
  hk_rpc_id : Z;
  hk_bg_req_queue_arr : list (option Z);   (* indices of the Nexus's queues *)
  hk_sm_rx_queue : list SmWorkItem;
}.
#[export] Instance eta_Hook : Eta Hook := fun h =>
  mkHook (hk_rpc_id h) (hk_bg_req_queue_arr h) (hk_sm_rx_queue h).
Definition Hook_new (rpc_id : Z) : Hook := mkHook rpc_id (replicate (Z.to_nat kMaxBgThreads) None) [].

Record Nexus := mkNexus {
  nx_hostname : string;
  nx_sm_udp_port : Z;
  nx_numa_node : Z;
  nx_num_bg_threads : Z;
  nx_tls : TlsRegistry;
  nx_req_func_arr : list ReqFunc;
  nx_req_func_registration_allowed : bool;
  nx_reg_hooks_arr : list (option Z);      (* [kMaxRpcId + 1] hook pointers *)
  nx_kill_switch : bool;
  nx_hooks : gmap Z Hook;                  (* the hook objects, by address *)
  nx_udp_tx : list (string * Z * SmPkt);   (* udp_client.send() *)
}.
#[export] Instance eta_Nexus : Eta Nexus := fun n =>
  mkNexus (nx_hostname n) (nx_sm_udp_port n) (nx_numa_node n) (nx_num_bg_threads n) (nx_tls n)
    (nx_req_func_arr n) (nx_req_func_registration_allowed n) (nx_reg_hooks_arr n)
    (nx_kill_switch n) (nx_hooks n) (nx_udp_tx n).

Abbreviation MN := (M Nexus).
Definition with_tls {A} (m : M TlsRegistry A) : MN A := zoom nx_tls (fun t n => n <| nx_tls := t |>) m.

(** ** Construction and destruction *)

(** Launching background thread [i]: the constructor waits until the thread has
    taken its eRPC thread ID. [threads] names the new threads. *)
Definition launch_bg (threads : list Z) (i : Z) : MN unit :=
  cur ← gets (fun n => tls_cur_etid (nx_tls n));
  assert_ (cur =? i) "Nexus: cur_etid";;
  thread ← deref (zlookup threads i) "thread";
  with_tls (tls_init thread);;
  etid ← with_tls (tls_get_etid thread);
  assert_ (i =? etid) "bg_thread_func: etid".

Definition blank_nexus (hostname : string) (port numa_node num_bg_threads : Z) (hooks : gmap Z Hook) : Nexus :=
  mkNexus hostname port numa_node num_bg_threads TlsRegistry_new
    (replicate (Z.to_nat kReqTypeArraySize) ReqFunc_null) true
    (replicate (Z.to_nat (kMaxRpcId + 1)) None) false hooks [].

Definition Nexus_new (local_uri : string) (numa_node num_bg_threads : Z) (threads : list Z) : MN unit :=
  hostname ← extract_hostname_from_uri local_uri;
  port ← extract_udp_port_from_uri local_uri;
  rt_assert ((kBaseSmUdpPort <=? port) && (port <? kBaseSmUdpPort + kMaxNumERpcProcesses))
    "Invalid management UDP port";;
  rt_assert (num_bg_threads <=? kMaxBgThreads) "Too many background threads";;
  rt_assert (numa_node <? kMaxNumaNodes) "Invalid NUMA node";;
  modify (fun n => blank_nexus hostname port numa_node num_bg_threads (nx_hooks n));;
  miter (launch_bg threads) (Z.of_nat <$> seq 0 (Z.to_nat num_bg_threads)).

(** The threads have been joined; [thread] calls the destructor. *)
Definition Nexus_delete (thread : Z) : MN unit :=
  modify (fun n => n <| nx_kill_switch := true |>);;
  hooks ← gets nx_reg_hooks_arr;
  assert_ (bool_decide (Forall (fun h => h = None) hooks)) "Nexus destroyed while an Rpc is alive";;
  with_tls (tls_reset thread).

(** ** Request handlers *)
Definition EPERM : Z := 1.
Definition EEXIST : Z := 17.
Definition EINVAL : Z := 22.

Definition register_req_func (req_type : Z) (req_func : option Z) (ty : ReqFuncType) : MN Z :=
  allowed ← gets nx_req_func_registration_allowed;
  if negb allowed then mret (- EPERM)
  else
    arr ← gets nx_req_func_arr;
    old ← deref (zlookup arr req_type) "req_func_arr_";
    if is_registered old then mret (- EEXIST)
    else if bool_decide (req_func = None) then mret (- EINVAL)
    else
      bg ← gets nx_num_bg_threads;
      if bool_decide (ty = kBackground) && (bg =? 0) then mret (- EPERM)
      else
        f ← ReqFunc_new req_func ty;
        modify (fun n => n <| nx_req_func_arr ::= zinsert req_type f |>);;
        mret 0.

(** ** Hooks *)
Definition rpc_id_exists (rpc_id : Z) : MN bool :=
  arr ← gets nx_reg_hooks_arr;
  h ← deref (zlookup arr rpc_id) "reg_hooks_arr_";
  mret (bool_decide (h <> None)).

Definition get_hook (p : Z) : MN Hook := hs ← gets nx_hooks; deref (hs !! p) "hook".

Definition register_hook (p : Z) : MN unit :=
  hook ← get_hook p;
  let rpc_id := hk_rpc_id hook in
  assert_ (rpc_id <=? kMaxRpcId) "register_hook: rpc_id";;
  arr ← gets nx_reg_hooks_arr;
  h ← deref (zlookup arr rpc_id) "reg_hooks_arr_";
  assert_ (bool_decide (h = None)) "register_hook: exists";;
  modify (fun n => n <| nx_req_func_registration_allowed := false |>
                     <| nx_reg_hooks_arr ::= zinsert rpc_id (Some p) |>);;
  num ← gets nx_num_bg_threads;
  let is_ := Z.of_nat <$> seq 0 (Z.to_nat num) in
  modify (fun n => n <| nx_hooks ::= <[p := hook <| hk_bg_req_queue_arr ::=
    fun a => foldl (fun a i => zinsert i (Some i) a) a is_ |>]> |>).

Definition unregister_hook (p : Z) : MN unit :=
  hook ← get_hook p;
  let rpc_id := hk_rpc_id hook in
  assert_ (rpc_id <=? kMaxRpcId) "unregister_hook: rpc_id";;
  arr ← gets nx_reg_hooks_arr;
  h ← deref (zlookup arr rpc_id) "reg_hooks_arr_";
  assert_ (bool_decide (h = Some p)) "unregister_hook: hook";;
  modify (fun n => n <| nx_reg_hooks_arr ::= zinsert rpc_id None |>).

(** ** The session management thread: one received packet *)
Definition sm_thread_step (sm_pkt : SmPkt) : MN unit :=
  if bool_decide (sm_pkt_type_ sm_pkt = kUnblock) then mret tt
  else
    let target_rpc_id := if sm_is_req sm_pkt then rpc_id_ (sm_server_ sm_pkt)
                         else rpc_id_ (sm_client_ sm_pkt) in
    arr ← gets nx_reg_hooks_arr;
    target_hook ← deref (zlookup arr target_rpc_id) "reg_hooks_arr_";
    match target_hook with
    | Some p =>
        hook ← get_hook p;
        modify (fun n => n <| nx_hooks ::= <[p := hook <| hk_sm_rx_queue ::=
          fun q => q ++ [WiPkt target_rpc_id sm_pkt] |>]> |>)
    | None =>
        if sm_is_req sm_pkt then
          resp ← sm_construct_resp sm_pkt kInvalidRemoteRpcId;
          modify (fun n => n <| nx_udp_tx ::= fun l =>
            l ++ [(hostname_ (sm_client_ resp), sm_udp_port_ (sm_client_ resp), resp)] |>)
        else mret tt
    end.
