(* ===== verification/RpcNew.v ===== *)
(** * Construction and destruction of an Rpc: [rpc_impl/rpc.cc]

    The transport's constructor and [init_hugepage_structures] are the class
    [TransportNew], what the Rpc needs of them [TransportNewOk]; the InfiniBand
    transport is an instance. *)
From S2P Require Import Prelude Config HugeAlloc PktHdr Msg SmTypes Timer Timely MemPool TimingWheel Session RpcState RpcBase Nexus.

(** A computation on a state of its own. *)
Definition local {S T A} (m : M T A) (t : T) : M S (A * T) := fun s =>
  match m t with Ok a t' => Ok (a, t') s | Fail e => Fail e end.
Lemma wp_local {S T A E} (m : M T A) t (Q : A * T -> S -> Prop) s :
  wpe E m (fun a t' => Q (a, t') s) t -> wpe E (local m t) Q s.
Proof. unfold wpe, local. by destruct (m t). Qed.

(** ** The transport *)
Class TransportNew := {
  Tr : Type;
  tr_type : TransportType;
  tr_new : Z -> Z -> Z -> Z -> option Tr;  (* None: the constructor throws *)
  tr_init_hugepage_structures : M (Tr * HugeAlloc) (list Z);
}.
(** [init_hugepage_structures] keeps what it allocates. *)
Class TransportNewOk {Os : ShmOs} (N : TransportNew) : Prop := {
  tno_init port id phy numa t live h :
    tr_new port id phy numa = Some t -> alloc_inv live h ->
    wpt tr_init_hugepage_structures (fun _ p => alloc_inv live p.2) (t, h);
}.

Section RpcNew.
Context {T : TTr} {Os : ShmOs} {W : World} {N : TransportNew}.

Definition kInitialHugeAllocSize : Z := MB 8.

(** The constructor's arguments, the thread that runs it, the address of the
    hook inside the new object, the seed its [FastRand] takes from the random
    device, and what the memory holds. *)
Record rpc_args := mkRpcArgs {
  ra_rpc_id : Z; ra_phy_port : Z; ra_thread : Z; ra_hook : Z; ra_seed : Z; ra_mem : Mem;
}.

(** The members that stay as they are, from the Nexus. *)
Definition conf_of (n : Nexus) (freq_ghz : double) (a : rpc_args) (etid : Z) : RpcConf := {|
  c_rpc_id := ra_rpc_id a;
  c_transport_type := tr_type;
  c_hostname := nx_hostname n;
  c_sm_udp_port := nx_sm_udp_port n;
  c_num_bg_threads := nx_num_bg_threads n;
  c_freq_ghz := freq_ghz;
  c_creation_tsc := w_tsc 0;
  c_req_func_arr := nx_req_func_arr n;
  c_creator_etid := etid;
|}.

(** The other members, by their default initializers, once the allocator, the RX
    ring and the wheel are there; [bg] are the Nexus' background threads. *)
Definition default_rpc (etid bg seed : Z) (mem : Mem) (h : HugeAlloc) (rx_ring : list Z) (w : TimingWheel) : Rpc := {|
  r_etid := etid;
  r_session_vec := [];
  r_ring_entries_available := kNumRxRingEntries;
  r_tx_batch := [];
  r_rx_ring := rx_ring;
  r_rx_ring_head := 0;
  r_stallq := [];
  r_ev_loop_tsc := 0;
  r_pkt_loss_scan_tsc := 0;
  r_root_next := None;
  r_root_prev := None;
  r_tail_next := None;
  r_tail_prev := None;
  r_huge := h;
  r_ctrl_msgbufs := replicate (Z.to_nat (2 * kUnsigBatch)) zeroMsgBuffer;
  r_ctrl_msgbuf_head := 0;
  r_fast_rand_seed := seed;
  r_wheel := w;
  r_bg_enqueue_request := [];
  r_bg_enqueue_response := [];
  r_slow_rand_reads := 0;
  r_sm_rx_queue := [];
  r_bg_req_queue_arr := replicate (Z.to_nat bg) [];
  r_conn_req_token_map := ∅;
  r_sm_pending_reqs := [];
  r_faults := mkFaults false false (of_size 0) 0;
  r_pkthdr_tx_queue := [];
  r_dpath_stats := mkDpathStats 0 0 0 0 0;
  r_num_re_tx := 0;
  r_still_in_wheel := 0;
  r_pre_resp_msgbuf_size := kMaxDataPerPkt;
  r_retry_connect := false;
  r_user_mb := ∅;
  r_mem := mem;
  r_nic_rx := [];
  r_tsc_reads := 2;
  r_trace := [];
|}.

(** The loop over [ctrl_msgbufs_]. *)
Fixpoint alloc_ctrl_msgbufs (n : nat) (acc : list MsgBuffer) : MR (list MsgBuffer) :=
  match n with
  | O => mret acc
  | S n =>
      ctrl_msgbuf ← alloc_msg_buffer 8;
      rt_assert (negb (buf_ ctrl_msgbuf =? 0)) "Failed to allocate control msgbufs.";;
      alloc_ctrl_msgbufs n (acc ++ [ctrl_msgbuf])
  end.

Definition link_sentinels : MR unit :=
  modify (fun r => r <| r_root_next := Some ATail |> <| r_root_prev := None |>
                     <| r_tail_next := None |> <| r_tail_prev := Some ARoot |>).

(** [wheel_->catchup()], for at most [n] iterations; it skips the readings that
    it does not take. *)
Definition catchup_st (n : nat) : MR unit :=
  k ← gets r_tsc_reads;
  with_wheel (catchup ((fun i => (w_tsc (k + 2 * i), w_tsc (k + 2 * i + 1))) <$> seq 0 n));;
  modify (fun r => r <| r_tsc_reads := (k + 2 * n)%nat |>).

(** With pacing ([kCcPacing]); logging is left out. *)
Definition Rpc_new (freq_ghz : double) (catchup_fuel : nat) (a : rpc_args) : MN (RpcConf * Tr * Rpc) :=
  n ← get;
  let rpc_id := ra_rpc_id a in
  rt_assert (negb (rpc_id =? kInvalidRpcId)) "Invalid Rpc ID";;
  exists_ ← rpc_id_exists rpc_id;
  rt_assert (negb exists_) "Rpc ID already exists";;
  rt_assert (ra_phy_port a <? kMaxPhyPorts) "Invalid physical port";;
  rt_assert (nx_numa_node n <? kMaxNumaNodes) "Invalid NUMA node";;
  with_tls (tls_init (ra_thread a));;
  etid ← with_tls (tls_get_etid (ra_thread a));
  t ← match tr_new (nx_sm_udp_port n) rpc_id (ra_phy_port a) (nx_numa_node n) with
      | Some t => mret t
      | None => fail (EThrow "transport")
      end;
  '(rx_ring, (t, h)) ← local tr_init_hugepage_structures (t, HugeAlloc_new kInitialHugeAllocSize);
  '(w, h) ← local (TimingWheel_new w_fuel freq_ghz (w_tsc 1)) h;
  '(bufs, r) ← local (alloc_ctrl_msgbufs (Z.to_nat (2 * kUnsigBatch)) [])
                 (default_rpc etid (nx_num_bg_threads n) (ra_seed a) (ra_mem a) h rx_ring w);
  modify (fun n => n <| nx_hooks ::= <[ra_hook a := Hook_new rpc_id]> |>);;
  register_hook (ra_hook a);;
  '(_, r) ← local (
    modify (fun r => r <| r_ctrl_msgbufs := bufs |>);;
    link_sentinels;;
    now ← gets (fun r => w_tsc (r_tsc_reads r));
    modify (fun r => r <| r_pkt_loss_scan_tsc := now |> <| r_tsc_reads ::= S |>);;
    catchup_st catchup_fuel) r;
  mret (conf_of n freq_ghz a etid, t, r).

(** [~Rpc()]: the keys of the SHM regions it removes, the memory it deregisters. *)
Definition Rpc_delete {C : RpcConf} (hook : Z) (r : Rpc) : MN (list Z * list Z) :=
  assert_ (r_etid r =? c_creator_etid) "~Rpc: in_dispatch";;
  let freed := HugeAlloc_delete (r_huge r) in
  unregister_hook hook;;
  mret freed.
End RpcNew.
