(* ===== verification/NexusProps.v ===== *)
(** * What the Nexus guarantees

    Packets reach the Rpc they are meant for and no other; the handlers never
    change once an Rpc exists; registering a handler reports exactly what it
    did. *)
From S2P Require Import Prelude Config HugeAlloc PktHdr Msg Uri SmTypes Heartbeat Nexus.

(** What the Rpcs and the threads of a process do with the Nexus. *)
Inductive nexus_op :=
  | NxRegisterReqFunc (req_type : Z) (f : option Z) (ty : ReqFuncType)
  | NxNewHook (p rpc_id : Z)          (* the hook member of a new Rpc *)
  | NxRegisterHook (p : Z)
  | NxUnregisterHook (p : Z)
  | NxRecv (pkt : SmPkt)              (* the session management thread *)
  | NxPop (p : Z).                    (* the Rpc takes a packet from its queue *)
Definition run_nexus_op (o : nexus_op) : M Nexus unit :=
  match o with
  | NxRegisterReqFunc ty f t => _ ← register_req_func ty f t; mret tt
  | NxNewHook p rpc_id => modify (fun n => n <| nx_hooks ::= <[p := Hook_new rpc_id]> |>)
  | NxRegisterHook p => register_hook p
  | NxUnregisterHook p => unregister_hook p
  | NxRecv pkt => sm_thread_step pkt
  | NxPop p => hook ← get_hook p;
      modify (fun n => n <| nx_hooks ::= <[p := hook <| hk_sm_rx_queue ::= tail |>]> |>)
  end.
(** New hooks are at new addresses, and header fields have their widths. *)
Definition nexus_op_ok (n : Nexus) (o : nexus_op) : Prop :=
  match o with
  | NxNewHook p _ => nx_hooks n !! p = None
  | _ => True
  end.
Definition nexus_step (n n' : Nexus) : Prop :=
  exists o, nexus_op_ok n o /\ run_nexus_op o n = Ok tt n'.

(** ** The invariant *)
Definition for_rpc (rpc_id : Z) (w : SmWorkItem) : Prop :=
  match w with
  | WiPkt id pkt => id = rpc_id /\
      rpc_id = if sm_is_req pkt then rpc_id_ (sm_server_ pkt) else rpc_id_ (sm_client_ pkt)
  | WiReset _ => False
  end.
Record nexus_inv (n : Nexus) : Prop := {
  ni_len : zlength (nx_reg_hooks_arr n) = kMaxRpcId + 1;
  ni_ptr i p : zlookup (nx_reg_hooks_arr n) i = Some (Some p) ->
    exists h, nx_hooks n !! p = Some h /\ hk_rpc_id h = i;
  ni_queue p h : nx_hooks n !! p = Some h -> Forall (for_rpc (hk_rpc_id h)) (hk_sm_rx_queue h);
  ni_closed i p : zlookup (nx_reg_hooks_arr n) i = Some (Some p) ->
    nx_req_func_registration_allowed n = false;
}.
(** Replacing a hook by one of the same Rpc with a good queue. *)
Lemma inv_set_hook n p h h' :
  nexus_inv n -> nx_hooks n !! p = Some h -> hk_rpc_id h' = hk_rpc_id h ->
  Forall (for_rpc (hk_rpc_id h)) (hk_sm_rx_queue h') ->
  nexus_inv (n <| nx_hooks ::= <[p := h']> |>).
Proof.
  intros [I1 I2 I3 I4] Hp Hid Hq. split; rsimp; [done| | |done].
  - intros i q Hi. destruct (I2 i q Hi) as (hq & E1 & E2). destruct (decide (p = q)) as [<-|Hne].
    + exists h'. rewrite lookup_insert_eq. split; [done|]. rewrite Hp in E1. injection E1 as <-. congruence.
    + exists hq. by rewrite lookup_insert_ne.
  - intros q hq. destruct (decide (p = q)) as [<-|Hne].
    + rewrite lookup_insert_eq. intros [= <-]. by rewrite Hid.
    + rewrite lookup_insert_ne by done. apply I3.
Qed.

Lemma inv_new_hook n p rpc_id :
  nexus_inv n -> nx_hooks n !! p = None ->
  nexus_inv (n <| nx_hooks ::= <[p := Hook_new rpc_id]> |>).
Proof.
  intros [I1 I2 I3 I4] Hp. split; rsimp; [done| | |done].
  - intros i q Hi. destruct (I2 i q Hi) as (hq & E1 & E2). exists hq.
    rewrite lookup_insert_ne; [done|]. intros ->. congruence.
  - intros q hq. destruct (decide (p = q)) as [<-|Hne].
    + rewrite lookup_insert_eq. intros [= <-]. constructor.
    + rewrite lookup_insert_ne by done. apply I3.
Qed.

Lemma zlookup_zinsert_any {A} (l : list A) i x y : zlookup (zinsert i x l) i = Some y -> x = y.
Proof.
  intros H. pose proof (zlookup_lt _ _ _ H) as Hr. rewrite zlength_zinsert in Hr.
  rewrite zlookup_zinsert_eq in H by done. by injection H.
Qed.

Lemma inv_add_ptr n p h :
  nexus_inv n -> nx_hooks n !! p = Some h ->
  nexus_inv (n <| nx_req_func_registration_allowed := false |>
               <| nx_reg_hooks_arr ::= zinsert (hk_rpc_id h) (Some p) |>).
Proof.
  intros [I1 I2 I3 I4] Hp. split; rsimp; [by rewrite zlength_zinsert| |done|done].
  intros j q Hj. destruct (decide (hk_rpc_id h = j)) as [<-|Hne].
  - apply zlookup_zinsert_any in Hj as [= ->]. by exists h.
  - rewrite zlookup_zinsert_ne in Hj by done. by apply I2.
Qed.

Lemma inv_del_ptr n i : nexus_inv n -> nexus_inv (n <| nx_reg_hooks_arr ::= zinsert i None |>).
Proof.
  intros [I1 I2 I3 I4].
  assert (Hd : forall j q, zlookup (zinsert i None (nx_reg_hooks_arr n)) j = Some (Some q) ->
    zlookup (nx_reg_hooks_arr n) j = Some (Some q)).
  { intros j q Hj. destruct (decide (i = j)) as [<-|Hne].
    - by apply zlookup_zinsert_any in Hj.
    - by rewrite zlookup_zinsert_ne in Hj. }
  split; rsimp; [by rewrite zlength_zinsert|eauto..].
Qed.

Lemma register_req_func_inv ty f t n :
  nexus_inv n -> wpe any_err (register_req_func ty f t) (fun _ => nexus_inv) n.
Proof.
  intros Hi. unfold register_req_func, ReqFunc_new. repeat any_step. by destruct Hi.
Qed.

Lemma register_hook_inv p n : nexus_inv n -> wpe any_err (register_hook p) (fun _ => nexus_inv) n.
Proof.
  intros Hi. unfold register_hook, get_hook. repeat any_step.
  apply (inv_set_hook _ _ a); [by apply inv_add_ptr|done|done|]. exact (ni_queue _ Hi p _ H).
Qed.

Lemma sm_thread_step_inv pkt n :
  nexus_inv n -> wpe any_err (sm_thread_step pkt) (fun _ => nexus_inv) n.
Proof.
  intros Hi. unfold sm_thread_step, get_hook. repeat any_step. destruct a as [p|].
  - repeat any_step. destruct (ni_ptr _ Hi _ _ H0) as (h & Hh & Hid).
    assert (a = h) as -> by congruence. apply (inv_set_hook _ _ h); [done..|].
    apply Forall_app. split; [exact (ni_queue _ Hi p _ Hh)|].
    constructor; [|done]. by split.
  - wp_step; [|by wp_step]. wp_step. apply sm_construct_resp_wp; [done|]. intros r _ _ _ _ _ _.
    wp_step. by destruct Hi.
Qed.

Lemma run_nexus_op_inv o n :
  nexus_inv n -> nexus_op_ok n o -> wpe any_err (run_nexus_op o) (fun _ => nexus_inv) n.
Proof.
  intros Hi Ho. destruct o as [ty f t|p id|p|p|pkt|p]; cbn [run_nexus_op].
  - wp_step. eapply wp_mono; [by apply register_req_func_inv|]. intros ???. by wp_step.
  - wp_step. by apply inv_new_hook.
  - by apply register_hook_inv.
  - unfold unregister_hook, get_hook. repeat any_step. by apply inv_del_ptr.
  - by apply sm_thread_step_inv.
  - unfold get_hook. repeat any_step. apply (inv_set_hook _ _ a); [done..|].
    apply Forall_tail. exact (ni_queue _ Hi p _ H).
Qed.

Lemma nexus_step_inv n n' : nexus_inv n -> rtc nexus_step n n' -> nexus_inv n'.
Proof.
  intros Hi Hr. induction Hr as [n|n n1 n2 (o & Ho & Hrun) _ IH]; [done|]. apply IH.
  exact (wpe_run _ _ _ _ _ _ (run_nexus_op_inv o n Hi Ho) Hrun).
Qed.

(** ** Construction *)
Definition fresh_inv (n : Nexus) : Prop :=
  nexus_inv n /\ nx_req_func_registration_allowed n = true /\
  nx_req_func_arr n = replicate (Z.to_nat kReqTypeArraySize) ReqFunc_null.

Lemma zlookup_replicate_Some {A} k (x y : A) i : zlookup (replicate k x) i = Some y -> y = x.
Proof. unfold zlookup. case_match; [|done]. intros H'. by apply lookup_replicate in H' as [-> _]. Qed.

Lemma blank_nexus_inv host port numa bg : fresh_inv (blank_nexus host port numa bg ∅).
Proof.
  split; [|done]. split; cbn [blank_nexus nx_reg_hooks_arr nx_hooks nx_req_func_registration_allowed].
  - unfold zlength. by rewrite length_replicate.
  - intros i p H. by apply zlookup_replicate_Some in H.
  - intros p h. by rewrite lookup_empty.
  - intros i p H. by apply zlookup_replicate_Some in H.
Qed.

Lemma launch_bg_inv threads i n :
  fresh_inv n -> wpe any_err (launch_bg threads i) (fun _ => fresh_inv) n.
Proof.
  intros Hi. unfold launch_bg, with_tls, tls_init, tls_get_etid.
  repeat first [any_step | apply wp_zoom].
  destruct Hi as ([I1 I2 I3 I4] & H5). done.
Qed.

Lemma Nexus_new_inv uri numa bg threads n :
  nx_hooks n = ∅ -> wpe any_err (Nexus_new uri numa bg threads) (fun _ => fresh_inv) n.
Proof.
  intros Hh. unfold Nexus_new. apply wp_bind, extract_hostname_any. intros host.
  apply wp_bind, extract_udp_port_any. intros port. do 8 any_step. rewrite Hh.
  eapply (wp_miter _ (fun _ : list Z => fresh_inv)); [apply blank_nexus_inv|].
  intros. by apply launch_bg_inv.
Qed.

(** ** Properties *)

(** C16 The invariant, from construction on: every hook of the process only ever
    queues session management packets addressed to its own Rpc; a registered
    pointer is a live hook of the Rpc ID it is filed under; and once an Rpc is
    registered, no request handler can be registered any more. *)
Theorem nexus_invariant uri numa bg threads n0 n1 n2 :
  nx_hooks n0 = ∅ -> Nexus_new uri numa bg threads n0 = Ok tt n1 -> rtc nexus_step n1 n2 ->
  nexus_inv n2.
Proof.
  intros Hh Hn Hr. apply (nexus_step_inv n1); [|done].
  exact (proj1 (wpe_run _ _ _ _ _ _ (Nexus_new_inv uri numa bg threads n0 Hh) Hn)).
Qed.

(** Operations after registration has been closed. *)
Definition same_handlers (n n' : Nexus) : Prop :=
  nx_req_func_registration_allowed n' = false /\ nx_req_func_arr n' = nx_req_func_arr n.

Lemma run_nexus_op_handlers o n :
  nx_req_func_registration_allowed n = false ->
  wpe any_err (run_nexus_op o) (fun _ => same_handlers n) n.
Proof.
  intros Ha.
  destruct o as [ty f t|p id|p|p|pkt|p]; cbn [run_nexus_op];
    unfold register_hook, unregister_hook, get_hook, sm_thread_step.
  - unfold register_req_func. do 3 any_step. rewrite Ha. by repeat any_step.
  - by any_step.
  - by repeat any_step.
  - by repeat any_step.
  - repeat any_step. destruct a; unfold get_hook; repeat any_step.
    apply sm_construct_resp_wp; [done|]. intros r _ _ _ _ _ _. by wp_step.
  - by repeat any_step.
Qed.

(** The request handlers are fixed when the first Rpc registers its hook:
    from then on, whatever the Rpcs, the application and the session management
    thread do, the table of handlers every Rpc copied stays what it was. *)
Theorem handlers_fixed n p n1 n2 :
  register_hook p n = Ok tt n1 -> rtc nexus_step n1 n2 ->
  nx_req_func_arr n2 = nx_req_func_arr n.
Proof.
  intros Hreg Hr.
  assert (H1 : same_handlers n n1).
  { refine (wpe_run any_err (register_hook p) (fun _ => same_handlers n) n tt n1 _ Hreg).
    unfold register_hook, get_hook. by repeat any_step. }
  clear Hreg. induction Hr as [n1|n1 n3 n2 (o & _ & Hrun) _ IH]; [by destruct H1|]. apply IH.
  destruct H1 as [Ha1 He1].
  destruct (wpe_run _ _ _ _ _ _ (run_nexus_op_handlers o n1 Ha1) Hrun) as [Ha3 He3].
  split; [done|congruence].
Qed.

(** Where a packet goes. *)
Definition dest_rpc (pkt : SmPkt) : Z :=
  if sm_is_req pkt then rpc_id_ (sm_server_ pkt) else rpc_id_ (sm_client_ pkt).
Definition error_resp (pkt r : SmPkt) : Prop :=
  sm_is_resp r = true /\ sm_err_type_ r = kInvalidRemoteRpcId /\
  sm_uniq_token_ r = sm_uniq_token_ pkt /\ sm_client_ r = sm_client_ pkt /\
  sm_server_ r = sm_server_ pkt.
Definition dispatched (n : Nexus) (pkt : SmPkt) (n' : Nexus) : Prop :=
  match zlookup (nx_reg_hooks_arr n) (dest_rpc pkt) with
  | Some (Some p) => exists h, nx_hooks n !! p = Some h /\ hk_rpc_id h = dest_rpc pkt /\
      n' = n <| nx_hooks ::= <[p := h <| hk_sm_rx_queue ::=
             fun q => q ++ [WiPkt (dest_rpc pkt) pkt] |>]> |>
  | _ => if sm_is_req pkt
         then exists r, error_resp pkt r /\ n' = n <| nx_udp_tx ::= fun l =>
           l ++ [(hostname_ (sm_client_ pkt), sm_udp_port_ (sm_client_ pkt), r)] |>
         else n' = n
  end.

Lemma dispatch_ok n pkt :
  nexus_inv n -> sm_pkt_type_ pkt <> kUnblock -> 0 <= dest_rpc pkt <= kMaxRpcId ->
  wp (sm_thread_step pkt) (fun _ => dispatched n pkt) n.
Proof.
  intros Hi Ht Hd. destruct (zlookup_is_Some (nx_reg_hooks_arr n) (dest_rpc pkt)) as [o Ho].
  { rewrite (ni_len _ Hi). lia. }
  unfold sm_thread_step, dispatched. rewrite Ho. rewrite bool_decide_false by done.
  do 2 wp_step. change (if sm_is_req pkt then rpc_id_ (sm_server_ pkt) else rpc_id_ (sm_client_ pkt)) with (dest_rpc pkt).
  wp_step. apply (wp_deref _ o); [done|]. destruct o as [p|].
  - destruct (ni_ptr _ Hi _ _ Ho) as (h & Hh & Hid). unfold get_hook.
    wp_step. apply wp_bind, wp_gets, (wp_deref _ h); [done|]. wp_step. by exists h.
  - destruct (sm_is_req pkt) eqn:Hq; [|by wp_step]. wp_step. apply sm_construct_resp_wp; [done|].
    intros r H1 H2 _ H3 H4 H5. wp_step. exists r. split; [done|]. by rewrite H4.
Qed.

Lemma dispatch_past_end n pkt :
  nexus_inv n -> sm_pkt_type_ pkt <> kUnblock -> kMaxRpcId < dest_rpc pkt ->
  sm_thread_step pkt n = Fail (ENull "reg_hooks_arr_").
Proof.
  intros Hi Ht Hd. assert (Hz : zlookup (nx_reg_hooks_arr n) (dest_rpc pkt) = None).
  { destruct (zlookup _ _) eqn:E; [|done]. apply zlookup_lt in E. rewrite (ni_len _ Hi) in E. lia. }
  unfold dest_rpc in Hz. unfold sm_thread_step. rewrite bool_decide_false by done.
  unfold base.mbind, M_bind, gets. by rewrite Hz.
Qed.

(** C17 What the session management thread does with one received packet, for
    every 8-bit Rpc ID. A [kUnblock] packet, which stands for a receive that
    timed out, is ignored. A packet for an ID up to [kMaxRpcId] is dispatched
    without an error: it joins, in order, the queue of the Rpc it is for and
    changes nothing else; with no such Rpc a request is answered with
    [kInvalidRemoteRpcId], echoing its token and endpoints, and a response is
    dropped. A packet for ID 255 ([kInvalidRpcId], the one a heartbeat carries)
    reads [reg_hooks_arr_] past its end. *)
Theorem sm_dispatch n pkt :
  nexus_inv n -> 0 <= dest_rpc pkt < 256 ->
  if decide (sm_pkt_type_ pkt = kUnblock) then sm_thread_step pkt n = Ok tt n
  else if decide (dest_rpc pkt <= kMaxRpcId)
  then wp (sm_thread_step pkt) (fun _ => dispatched n pkt) n
  else sm_thread_step pkt n = Fail (ENull "reg_hooks_arr_").
Proof.
  intros Hi Hd. case_decide as Ht; [unfold sm_thread_step; by rewrite bool_decide_true|].
  case_decide; [apply dispatch_ok|apply dispatch_past_end]; first [done|lia].
Qed.

(** A heartbeat is a request whose server Rpc ID is [kInvalidRpcId]: the session
    management thread indexes the hooks past their end. *)
Lemma ping_out_of_bounds `{HbEnv} n uri h0 pkt h1 :
  zlength (nx_reg_hooks_arr n) = kMaxRpcId + 1 ->
  make_heartbeat uri h0 = Ok pkt h1 ->
  exists e, sm_thread_step pkt n = Fail e /\ ~ is_throw e.
Proof.
  intros Hl Hm.
  assert (Hp : sm_pkt_type_ pkt = kPingReq /\ rpc_id_ (sm_server_ pkt) = kInvalidRpcId).
  { refine (wpe_run any_err (make_heartbeat uri)
      (fun r _ => sm_pkt_type_ r = kPingReq /\ rpc_id_ (sm_server_ r) = kInvalidRpcId)
      h0 pkt h1 _ Hm).
    unfold make_heartbeat, split_uri, extract_hostname_from_uri, extract_udp_port_from_uri,
      strcpy_hostname. repeat any_step.
    all: try (case_match; repeat any_step). }
  destruct Hp as [Ht Hid].
  assert (Ho : zlookup (nx_reg_hooks_arr n) kInvalidRpcId = None).
  { destruct (zlookup (nx_reg_hooks_arr n) kInvalidRpcId) eqn:Ho; [|done].
    apply zlookup_lt in Ho. rewrite Hl in Ho. by destruct Ho. }
  exists (ENull "reg_hooks_arr_"). split; [|by intros []].
  unfold sm_thread_step, sm_is_req. rewrite Ht, Hid, bool_decide_false by done.
  unfold base.mbind, M_bind, gets. cbn [sm_pkt_type_is_req]. by rewrite Ho.
Qed.

(** What a return code of [register_req_func] says. *)
Definition registered_at (n : Nexus) (ty : Z) : bool :=
  match zlookup (nx_req_func_arr n) ty with Some g => is_registered g | None => false end.
Definition reg_result (n : Nexus) (ty : Z) (f : option Z) (t : ReqFuncType) (rc : Z) (n' : Nexus) : Prop :=
  let reject c := rc = - c /\ n' = n in
  if negb (nx_req_func_registration_allowed n) then reject EPERM
  else if registered_at n ty then reject EEXIST
  else match f with
       | None => reject EINVAL
       | Some _ =>
           if bool_decide (t = kBackground) && (nx_num_bg_threads n =? 0) then reject EPERM
           else rc = 0 /\ registered_at n' ty = true /\
             n' = n <| nx_req_func_arr ::= zinsert ty (mkReqFunc f t) |>
       end.

(** Registering a handler always returns, and its code says exactly what
    happened: [-EPERM] when registration is closed, or for a background handler
    without background threads, [-EEXIST] when the type has a handler, [-EINVAL]
    for a null one, each leaving the Nexus as it was; 0 exactly when the handler
    is now the one of its type and no other type's handler changed. *)
Theorem register_req_func_result n ty f t :
  0 <= ty < kReqTypeArraySize -> zlength (nx_req_func_arr n) = kReqTypeArraySize ->
  wp (register_req_func ty f t) (reg_result n ty f t) n.
Proof.
  intros Hty Hl. destruct (zlookup_is_Some (nx_req_func_arr n) ty) as [old Ho]; [lia|].
  unfold register_req_func, reg_result, registered_at. rewrite Ho. do 2 wp_step.
  destruct (nx_req_func_registration_allowed n); [|by wp_step]. cbn [negb].
  do 3 wp_step. apply (wp_deref _ old); [done|]. destruct (is_registered old); [by wp_step|].
  destruct f as [f|]; [|by wp_step]. rewrite bool_decide_false by done. do 2 wp_step.
  destruct (bool_decide (t = kBackground) && (nx_num_bg_threads n =? 0)); [by wp_step|].
  apply wp_bind. unfold ReqFunc_new. rewrite bool_decide_true by done. apply wp_bind, wp_ret, wp_ret.
  apply wp_bind, wp_modify, wp_ret. split; [done|]. split; [|done]. rsimp.
  rewrite zlookup_zinsert_eq by lia. done.
Qed.
