(* ===== verification/NexusExamples.v ===== *)
(** * A concrete Nexus *)
From S2P Require Import Prelude Config HugeAlloc PktHdr Msg Uri SmTypes Heartbeat Nexus NexusProps.

Definition nx0 : Nexus := blank_nexus "" 0 0 0 ∅.
Definition final {A} (r : res Nexus A) : Nexus := match r with Ok _ n => n | Fail _ => nx0 end.

(** A Nexus with one background thread; then an Rpc with ID 3 at address 100. *)
Definition nx1 : Nexus := final (Nexus_new "host:31850" 0 1 [7] nx0).
Definition nx2 : Nexus := final (run_nexus_op (NxNewHook 100 3) nx1).
Definition nx3 : Nexus := final (run_nexus_op (NxRegisterHook 100) nx2).

(** A connect request for Rpc 3, and one for Rpc 4, which does not exist. *)
Definition conn_req (rpc_id : Z) : SmPkt :=
  mkSmPkt kConnectReq kNoError 99
    ((SessionEndpoint_new kInvalid) <| hostname_ := "peer" |> <| sm_udp_port_ := 31851 |>)
    ((SessionEndpoint_new kInvalid) <| hostname_ := "host" |> <| rpc_id_ := rpc_id |>).
Definition nx4 : Nexus := final (run_nexus_op (NxRecv (conn_req 3)) nx3).

Lemma nexus_invariant_witness :
  Nexus_new "host:31850" 0 1 [7] nx0 = Ok tt nx1 /\ rtc nexus_step nx1 nx4 /\
  option_map hk_sm_rx_queue (nx_hooks nx4 !! 100) = Some [WiPkt 3 (conn_req 3)] /\
  nexus_inv nx4.
Proof.
  assert (Hn : Nexus_new "host:31850" 0 1 [7] nx0 = Ok tt nx1) by (vm_compute; reflexivity).
  assert (Hr : rtc nexus_step nx1 nx4).
  { apply (rtc_l _ _ nx2); [exists (NxNewHook 100 3); split; vm_compute; reflexivity|].
    apply (rtc_l _ _ nx3); [exists (NxRegisterHook 100); split; [exact I|vm_compute; reflexivity]|].
    apply (rtc_l _ _ nx4); [|apply rtc_refl].
    exists (NxRecv (conn_req 3)). split; [exact I|vm_compute; reflexivity]. }
  split; [exact Hn|]. split; [exact Hr|]. split; [vm_compute; reflexivity|].
  apply (nexus_invariant "host:31850" 0 1 [7] nx0 nx1 nx4); [reflexivity|exact Hn|exact Hr].
Defined.

Lemma handlers_fixed_witness :
  register_hook 100 nx2 = Ok tt nx3 /\ rtc nexus_step nx3 nx4 /\
  nx_req_func_arr nx4 = nx_req_func_arr nx2.
Proof.
  assert (Hg : register_hook 100 nx2 = Ok tt nx3) by (vm_compute; reflexivity).
  assert (Hr : rtc nexus_step nx3 nx4).
  { apply (rtc_l _ _ nx4); [|apply rtc_refl].
    exists (NxRecv (conn_req 3)). split; [exact I|vm_compute; reflexivity]. }
  split; [exact Hg|]. split; [exact Hr|].
  exact (handlers_fixed nx2 100 nx3 nx4 Hg Hr).
Defined.

(** The invariant of [nx3], from its construction. *)
Lemma nx3_inv : nexus_inv nx3.
Proof.
  apply (nexus_step_inv nx1).
  - exact (proj1 (wpe_run _ _ _ _ tt nx1 (Nexus_new_inv "host:31850" 0 1 [7] nx0 eq_refl)
      ltac:(vm_compute; reflexivity))).
  - apply (rtc_l _ _ nx2); [exists (NxNewHook 100 3); split; vm_compute; reflexivity|].
    apply (rtc_l _ _ nx3); [|apply rtc_refl].
    exists (NxRegisterHook 100). split; [exact I|vm_compute; reflexivity].
Qed.

Lemma sm_dispatch_witness :
  wp (sm_thread_step (conn_req 3)) (fun _ => dispatched nx3 (conn_req 3)) nx3 /\
  wp (sm_thread_step (conn_req 4)) (fun _ => dispatched nx3 (conn_req 4)) nx3 /\
  sm_thread_step (conn_req 255) nx3 = Fail (ENull "reg_hooks_arr_").
Proof.
  split; [|split].
  - exact (sm_dispatch nx3 (conn_req 3) nx3_inv ltac:(by vm_compute)).
  - exact (sm_dispatch nx3 (conn_req 4) nx3_inv ltac:(by vm_compute)).
  - exact (sm_dispatch nx3 (conn_req 255) nx3_inv ltac:(by vm_compute)).
Defined.

Lemma register_req_func_result_witness :
  wp (register_req_func 5 (Some 42) kForeground) (reg_result nx1 5 (Some 42) kForeground) nx1 /\
  wp (register_req_func 5 None kForeground) (reg_result nx1 5 None kForeground) nx1 /\
  wp (register_req_func 5 (Some 42) kForeground) (reg_result nx3 5 (Some 42) kForeground) nx3.
Proof.
  split; [|split]; apply register_req_func_result; first [lia | by vm_compute].
Defined.

(** The heartbeat of a peer stops the session management thread's lookup. *)
Example ping_example : exists e, sm_thread_step
  (mkSmPkt kPingReq kNoError 0
     ((SessionEndpoint_new kInvalid) <| hostname_ := "peer" |> <| sm_udp_port_ := 31851 |>)
     ((SessionEndpoint_new kInvalid) <| hostname_ := "host" |> <| sm_udp_port_ := 31850 |>)) nx3 = Fail e.
Proof. eexists. vm_compute. reflexivity. Qed.
