(* ===== verification/RpcNewProps.v ===== *)
(** * What the constructor of an Rpc establishes

    Every invariant of the other files holds in the state it leaves. *)
From S2P Require Import Prelude Config HugeAlloc PktHdr Msg SmTypes Timer Timely MemPool TimingWheel WheelChain WheelSpec Session RpcState RpcBase RpcWp Nexus RpcNew NexusProps ClientInv ClientTx ClientInit SmFrame SmProps SmServe.

(** ** The wheel *)
Section Catchup.
Context {T : TTr} {Os : ShmOs}.

(** [catchup] ends when the clock advances by less than a slot per iteration on
    the whole: the last reading is at most the end of the slots it can pass. *)
Definition slow_clock (w t0 : Z) (readings : list (Z * Z)) : Prop :=
  match last readings with
  | Some (t1, _) => t1 <= t0 + (zlength readings - 1) * w
  | None => False
  end.

Lemma slow_clock_step w t0 t0' t1 t2 rest :
  slow_clock w t0 ((t1, t2) :: rest) -> t0 < t1 -> t0 + w <= t0' -> slow_clock w t0' rest.
Proof.
  unfold slow_clock. destruct rest as [|p rest]; [change (zlength [(t1, t2)]) with 1; cbn [last]; lia|].
  change (last ((t1, t2) :: p :: rest)) with (last (p :: rest)).
  destruct (last (p :: rest)) as [[u1 u2]|]; [|done]. unfold zlength. cbn [length]. nia.
Qed.

Lemma catchup_wp E readings a0 tw a cs (Q : unit -> WS -> Prop) :
  wheel_rep tw a cs -> aw_entries a = [] ->
  Forall (fun p => p.1 <= p.2 /\ p.2 < kMaxTsc) readings ->
  (Z.of_nat nslots + 1) * tw_wslot_width_tsc tw < kMaxTsc ->
  slow_clock (tw_wslot_width_tsc tw) (aw_t0 a) readings ->
  (forall tw' a' cs', wheel_rep tw' a' cs' -> aw_entries a' = [] ->
     tw_wslot_width_tsc tw' = tw_wslot_width_tsc tw -> tw_horizon_tsc tw' = tw_horizon_tsc tw ->
     Q tt (a0, tw')) ->
  wpe E (catchup readings) Q (a0, tw).
Proof.
  revert tw a cs. induction readings as [|[t1 t2] readings IH]; intros tw a cs R He Hf Hw Hs HQ; [done|].
  apply Forall_cons in Hf as [[Ht Hm] Hf]. cbn [fst snd] in Ht, Hm.
  cbn [catchup]. do 2 wp_step. cbn [snd].
  destruct (rep_first _ _ _ R) as (c & q & _ & _ & b & Hb & Htx).
  wp_step. eapply get_bkt_wp; [exact Hb|]. rewrite Htx.
  destruct (Z.ltb_spec (aw_t0 a) t1) as [Hlt|]; [|wp_step; by eapply HQ].
  wp_step. eapply reap_wp; [exact R|unfold kMaxTsc in *; lia|]. intros tw' cs' R' E1 E2.
  pose proof (wr_width _ _ _ R) as Hpos.
  eapply IH; [exact R'| |exact Hf|by rewrite E1| |].
  - unfold aw_reap. by rewrite aw_iter_entries.
  - rewrite E1. eapply slow_clock_step; [exact Hs|exact Hlt|].
    unfold aw_reap. rewrite aw_iter_t0. unfold aw_due. rewrite (proj2 (Z.leb_le _ _)) by lia.
    assert (0 <= (t2 - aw_t0 a) / tw_wslot_width_tsc tw) by (apply Z.div_pos; lia). nia.
  - intros tw2 a2 cs2 R2 He2 E3 E4. eapply HQ; [exact R2|exact He2|congruence..].
Qed.

(** What the TSC frequency has to be for the wheel's arithmetic to be exact. *)
Record freq_ok (freq : double) (width horizon : Z) : Prop := {
  fo_width : us_to_cycles kWheelSlotWidthUs freq = Some width;
  fo_horizon : us_to_cycles kWheelHorizonUs freq = Some horizon;
  fo_pos : 0 < width;
  fo_range : 0 <= horizon <= (kWheelNumWslots - 1) * width;
  fo_slots : kWheelNumWslots < 2 ^ 50;
  fo_max : horizon + (Z.of_nat nslots + 1) * width < kMaxTsc;
}.
End Catchup.

Section New.
Context {T : TTr} {TOk : TTrOk T} {Os : ShmOs} {W : World} {WOk : WorldOk W}.
Context {N : TransportNew} {NOk : TransportNewOk N}.

Lemma wheel_new_wp live freq width horizon base (Q : TimingWheel -> HugeAlloc -> Prop) h :
  freq_ok freq width horizon -> alloc_inv live h -> 0 <= base < kMaxTsc ->
  (forall w h' cs a, alloc_inv live h' -> wheel_rep w a cs -> aw_entries a = [] ->
     aw_t0 a = base + width -> tw_wslot_width_tsc w = width -> tw_horizon_tsc w = horizon -> Q w h') ->
  wpt (TimingWheel_new w_fuel freq base) Q h.
Proof.
  intros [F1 F2 F3 F4 Fs F5] Ha Hb HQ. unfold TimingWheel_new. rewrite F1, F2.
  wp_step. eapply wp_deref; [done|]. wp_step. eapply wp_deref; [done|].
  wp_step. apply (alloc_raw_inv w_fuel live); [exact Ha| |].
  { rewrite wrap_small; pose proof kWheelNumWslots_pos; unfold in_u, sizeof_bkt; lia. }
  intros b h' Ha' _.
  wp_step. wp_step; [done|]. wp_step.
  eapply (HQ _ h'); [exact Ha'|apply new_wheel_rep; [lia|lia|unfold kMaxTsc in *; lia]| |done..].
  unfold aw_entries. cbn [aw_ready aw_slots]. by rewrite concat_replicate_nil.
Qed.

Lemma fits_8 : bsr_zero = 0 -> fits_class 8.
Proof.
  intros Hz.
  assert (Hs : 0 < sizeof_pkthdr <= 56) by (unfold sizeof_pkthdr; destruct ttr_headroom; lia).
  assert (Hn : 1 <= data_size_to_num_pkts 8 <= 8).
  { unfold data_size_to_num_pkts. pose proof ttr_data_pos. case_match; [lia|].
    split; [apply Z.div_le_lower_bound; lia|].
    apply Z.lt_succ_r, Z.div_lt_upper_bound; lia. }
  unfold fits_class. change k_max_class_size with 8388608. split_and!; [lia|nia|by right].
Qed.
Lemma fits_packet : bsr_zero = 0 -> fits_class kMaxDataPerPkt.
Proof.
  intros Hz.
  assert (Hs : 0 < sizeof_pkthdr <= 56) by (unfold sizeof_pkthdr; destruct ttr_headroom; lia).
  pose proof ttr_data_pos. pose proof ttr_data_lt. unfold fits_class, data_size_to_num_pkts.
  rewrite Z.leb_refl. change k_max_class_size with 8388608. split_and!; [lia|lia|by right].
Qed.
Lemma ctrl_some : 0 < 2 * kUnsigBatch.
Proof. pose proof ttr_postlist_pos. pose proof ttr_postlist_unsig. lia. Qed.
Lemma alloc_ctrl_wp n acc live (Q : list MsgBuffer -> Rpc -> Prop) r :
  bsr_zero = 0 -> alloc_inv live (r_huge r) ->
  (forall bufs live' h m, length bufs = (length acc + n)%nat -> alloc_inv live' h ->
     Q bufs (with_alloc h m r)) ->
  wpt (alloc_ctrl_msgbufs n acc) Q r.
Proof.
  intros Hz. revert acc live r Q. induction n as [|n IH]; intros acc live r Q HI HQ; cbn [alloc_ctrl_msgbufs].
  - wp_step. specialize (HQ acc live (r_huge r) (r_mem r)). destruct r. apply HQ; [lia|done].
  - wp_step. eapply alloc_msg_buffer_wpt; [exact HI| |].
    { by apply fits_8. }
    intros mb h m Hmb. wp_step. wp_step; [done|]. destruct Hmb as [[-> _]|[_ Hh]]; [done|].
    eapply IH; [exact Hh|]. intros bufs live' h' m' Hl H'. rewrite length_app in Hl. cbn in Hl.
    specialize (HQ bufs live' h' m'). destruct r. apply HQ; [lia|done].
Qed.

(** The clock does not go backwards, and takes less than [n] slots for the [n]
    iterations of [catchup]. *)
Record clock_ok (n : nat) (width : Z) : Prop := {
  ck_mono m : w_tsc m <= w_tsc (S m);
  ck_some : (0 < n)%nat;
  ck_slow : w_tsc (2 * n + 1) <= w_tsc 1 + Z.of_nat n * width;
}.

Lemma clock_slow n width :
  clock_ok n width ->
  slow_clock width (w_tsc 1 + width)
    ((fun i => (w_tsc (3 + 2 * i), w_tsc (3 + 2 * i + 1))) <$> seq 0 n).
Proof.
  intros [_ H1 H2]. unfold slow_clock. destruct n as [|n]; [lia|].
  rewrite seq_S, fmap_app, last_app. unfold zlength. rewrite length_app, length_fmap, length_seq.
  cbn [last fmap list_fmap length].
  replace (3 + 2 * (0 + n))%nat with (2 * S n + 1)%nat by lia. lia.
Qed.

Lemma catchup_st_wp n live r a cs width E (Q : unit -> Rpc -> Prop) :
  clock_ok n width -> r_tsc_reads r = 3%nat -> alloc_inv live (r_huge r) ->
  wheel_rep (r_wheel r) a cs -> aw_entries a = [] -> aw_t0 a = w_tsc 1 + width ->
  tw_wslot_width_tsc (r_wheel r) = width ->
  0 <= tw_horizon_tsc (r_wheel r) <= (kWheelNumWslots - 1) * width ->
  tw_horizon_tsc (r_wheel r) + (Z.of_nat nslots + 1) * width < kMaxTsc ->
  (forall tw, let r' := r <| r_huge := r_huge r |> <| r_wheel := tw |> <| r_tsc_reads := (3 + 2 * n)%nat |> in
     wheel_ok [] r' -> Q tt r') ->
  wpe E (catchup_st n) Q r.
Proof.
  intros Hc Hr Ha R He Ht0 Hw Hh Hm HQ. unfold catchup_st. do 2 wp_step. rewrite Hr. wp_step.
  apply wp_zoom. eapply catchup_wp; [exact R|exact He| |rewrite Hw; lia|rewrite Hw, Ht0; by apply clock_slow|].
  - apply Forall_fmap, Forall_true. intros i. cbn [compose fst snd].
    rewrite Nat.add_1_r. split; [apply (ck_mono _ _ Hc)|apply wo_tsc].
  - intros tw' a' cs' R' He' E1 E2. cbn [fst snd]. wp_step. apply HQ.
    exists live, a', cs'. rsimp. split; [exact Ha|]. split; [exact R'|]. split; [by rewrite He'|].
    rewrite E1, E2, Hw. done.
Qed.

(** The state that the constructor leaves. *)
Record constructed (a : rpc_args) (k : RpcConf * Tr * Rpc) (n' : Nexus) : Prop := {
  co_id : c_rpc_id (RpcConf := k.1.1) = ra_rpc_id a;
  co_idle : idle_rpc (C := k.1.1) k.2;
  co_sessions : no_sessions k.2;
  co_class : fits_class (r_pre_resp_msgbuf_size k.2);
  co_alloc : exists live, alloc_inv live (r_huge k.2);
  co_hook : zlookup (nx_reg_hooks_arr n') (ra_rpc_id a) = Some (Some (ra_hook a));
  co_nexus : nexus_inv n';
}.

Lemma rpc_id_exists_wp E n id (Q : bool -> Nexus -> Prop) :
  nexus_inv n -> 0 <= id <= kMaxRpcId ->
  (forall h, zlookup (nx_reg_hooks_arr n) id = Some h -> Q (bool_decide (h <> None)) n) ->
  wpe E (rpc_id_exists id) Q n.
Proof.
  intros Hi Hr HQ. unfold rpc_id_exists. do 2 wp_step.
  destruct (zlookup_is_Some (nx_reg_hooks_arr n) id) as [h Hh]; [rewrite (ni_len _ Hi); lia|].
  wp_step. eapply wp_deref; [exact Hh|]. wp_step. by apply HQ.
Qed.

Lemma tls_init_wp E th n (Q : unit -> Nexus -> Prop) :
  tls_etid (nx_tls n) !! th = None ->
  (forall tls, tls_etid tls !! th = Some (tls_cur_etid (nx_tls n)) -> Q tt (n <| nx_tls := tls |>)) ->
  wpe E (with_tls (tls_init th)) Q n.
Proof.
  intros Ht HQ. apply wp_zoom. unfold tls_init. do 2 wp_step. wp_step.
  wp_step; [by apply bool_decide_eq_true|]. wp_step. apply HQ. rsimp. by rewrite lookup_insert_eq.
Qed.
Lemma tls_get_wp E th x n (Q : Z -> Nexus -> Prop) :
  tls_etid (nx_tls n) !! th = Some x -> Q x n -> wpe E (with_tls (tls_get_etid th)) Q n.
Proof.
  intros Ht HQ. apply wp_zoom. unfold tls_get_etid. do 2 wp_step. rewrite Ht. wp_step.
  wp_step; [done|]. wp_step. by destruct n.
Qed.

Lemma register_new_wp E p n id (Q : unit -> Nexus -> Prop) :
  nexus_inv n -> nx_hooks n !! p = Some (Hook_new id) -> 0 <= id <= kMaxRpcId ->
  zlookup (nx_reg_hooks_arr n) id = Some None ->
  (forall n', nexus_inv n' -> zlookup (nx_reg_hooks_arr n') id = Some (Some p) -> Q tt n') ->
  wpe E (register_hook p) Q n.
Proof.
  intros Hi Hp Hid Hf HQ. unfold register_hook, get_hook. do 3 wp_step. eapply wp_deref; [exact Hp|].
  wp_step. cbn [Hook_new hk_rpc_id]. wp_step; [apply Z.leb_le; lia|]. do 3 wp_step. eapply wp_deref; [exact Hf|].
  wp_step. wp_step; [done|]. do 5 wp_step. apply HQ.
  - apply (inv_set_hook _ _ (Hook_new id)); [by apply (inv_add_ptr n p (Hook_new id))|done|done|constructor].
  - rsimp. apply zlookup_zinsert_eq. by eapply zlookup_lt.
Qed.

Lemma nexus_inv_tls n tls : nexus_inv n -> nexus_inv (n <| nx_tls := tls |>).
Proof. intros []. by split. Qed.

(** What the constructor is given: a Nexus in order, a thread and a hook of its
    own, an 8-bit Rpc ID, a TSC frequency that the wheel can work with and a clock
    slow enough for [fuel]; and 0 as what [bsrl] leaves for the source 0, since
    the class of the control packets' buffers is computed from it. *)
Record can_construct (freq : double) (fuel : nat) (a : rpc_args) (n : Nexus) : Prop := {
  cn_inv : nexus_inv n;
  cn_thread : tls_etid (nx_tls n) !! ra_thread a = None;
  cn_hook : nx_hooks n !! ra_hook a = None;
  cn_id : 0 <= ra_rpc_id a < 256;
  cn_wheel : exists width horizon, freq_ok freq width horizon /\ clock_ok fuel width;
  cn_bsrl : bsr_zero = 0;
}.

(** What the last steps of the constructor leave of [r]. *)
Record finished (bufs : list MsgBuffer) (r r' : Rpc) : Prop := {
  fi_etid : r_etid r' = r_etid r;
  fi_vec : r_session_vec r' = r_session_vec r;
  fi_ring : r_ring_entries_available r' = r_ring_entries_available r;
  fi_map : r_conn_req_token_map r' = r_conn_req_token_map r;
  fi_stallq : r_stallq r' = r_stallq r;
  fi_batch : r_tx_batch r' = r_tx_batch r;
  fi_bg : r_bg_req_queue_arr r' = r_bg_req_queue_arr r;
  fi_size : r_pre_resp_msgbuf_size r' = r_pre_resp_msgbuf_size r;
  fi_next : r_root_next r' = Some ATail;
  fi_prev : r_tail_prev r' = Some ARoot;
  fi_ctrl : r_ctrl_msgbufs r' = bufs;
  fi_head : r_ctrl_msgbuf_head r' = r_ctrl_msgbuf_head r;
  fi_huge : r_huge r' = r_huge r;
  fi_wheel : wheel_ok [] r';
}.

Lemma finish_wp live fuel bufs r a cs width horizon freq (Q : unit -> Rpc -> Prop) :
  clock_ok fuel width -> freq_ok freq width horizon ->
  r_tsc_reads r = 2%nat -> alloc_inv live (r_huge r) ->
  wheel_rep (r_wheel r) a cs -> aw_entries a = [] -> aw_t0 a = w_tsc 1 + width ->
  tw_wslot_width_tsc (r_wheel r) = width -> tw_horizon_tsc (r_wheel r) = horizon ->
  (forall r', finished bufs r r' -> Q tt r') ->
  wpt (modify (fun r => r <| r_ctrl_msgbufs := bufs |>);;
    link_sentinels;;
    now ← gets (fun r => w_tsc (r_tsc_reads r));
    modify (fun r => r <| r_pkt_loss_scan_tsc := now |> <| r_tsc_reads ::= S |>);;
    catchup_st fuel) Q r.
Proof.
  intros Hc [F1 F2 F3 F4 Fs F5] Ht Ha R He Ht0 Hw Hh HQ. unfold link_sentinels. do 8 wp_step.
  set (r1 := update r_tsc_reads _ _).
  assert (E1 : r_tsc_reads r1 = S (r_tsc_reads r)) by (destruct r; reflexivity).
  assert (E2 : r_huge r1 = r_huge r) by (destruct r; reflexivity).
  assert (E3 : r_wheel r1 = r_wheel r) by (destruct r; reflexivity).
  apply (catchup_st_wp fuel live _ a cs width); rewrite ?E1, ?E2, ?E3, ?Ht, ?Hh; [exact Hc|reflexivity|exact Ha|exact R|done..|].
  intros tw r' Hok. apply HQ. split; [..|exact Hok]; subst r' r1; destruct r; reflexivity.
Qed.

Lemma finished_constructed freq a n n' etid live bufs mem h ring w h3 m r' :
  bsr_zero = 0 -> finished bufs (with_alloc h3 m (default_rpc etid (nx_num_bg_threads n) (ra_seed a) mem h ring w)) r' ->
  length bufs = Z.to_nat (2 * kUnsigBatch) -> alloc_inv live h3 ->
  nexus_inv n' -> zlookup (nx_reg_hooks_arr n') (ra_rpc_id a) = Some (Some (ra_hook a)) ->
  forall t, constructed a (conf_of n freq a etid, t, r') n'.
Proof.
  intros Hz [] Hb Ha Hn Hreg t. pose proof ctrl_some as Hc. split; cbn [fst snd].
  - reflexivity.
  - split; try eassumption.
    + intros sid se. unfold sess_at, zlookup. rewrite fi_vec0. by case_match.
    + rewrite fi_bg0. unfold zlength.
      change (nx_num_bg_threads n <= Z.of_nat (length (replicate (Z.to_nat (nx_num_bg_threads n)) (@nil BgWorkItem)))).
      rewrite length_replicate. lia.
    + rewrite fi_ctrl0. unfold zlength. rewrite Hb. lia.
    + rewrite fi_head0. change (0 <= 0 < 2 * kUnsigBatch). lia.
  - split; assumption.
  - rewrite fi_size0. by apply fits_packet.
  - exists live. rewrite fi_huge0. exact Ha.
  - exact Hreg.
  - exact Hn.
Qed.

Lemma Rpc_new_ok freq fuel a n :
  can_construct freq fuel a n -> wpt (Rpc_new freq fuel a) (constructed a) n.
Proof.
  intros [Hi Hth Hhk Hid (width & horizon & Hf & Hc) Hz]. unfold Rpc_new. do 3 wp_step.
  wp_step; [done|]. apply negb_true_iff, Z.eqb_neq in H. wp_step.
  assert (Hr : 0 <= ra_rpc_id a <= kMaxRpcId) by (unfold kInvalidRpcId, kMaxRpcId in *; lia).
  apply rpc_id_exists_wp; [done|done|]. intros old Hold. wp_step. wp_step; [done|].
  apply negb_true_iff, bool_decide_eq_false, dec_stable in H0. subst old.
  wp_step. wp_step; [done|]. wp_step. wp_step; [done|].
  wp_step. apply tls_init_wp; [done|]. intros tls Htls. wp_step. eapply tls_get_wp; [exact Htls|].
  wp_step. destruct (tr_new _ _ _ _) as [t|] eqn:Et; [|done]. wp_step.
  wp_step. apply wp_local. eapply wp_mono; [eapply tno_init; [exact Et|apply alloc_inv_new; by vm_compute]|].
  intros ring [t' h] Hh. cbn [snd] in Hh.
  wp_step. apply wp_local. eapply wheel_new_wp; [exact Hf|exact Hh|apply wo_tsc|].
  intros w h2 cs aw Hh2 R He Ht0 Hw Hhz. cbn [fst snd].
  wp_step. apply wp_local. eapply alloc_ctrl_wp; [exact Hz|exact Hh2|]. intros bufs live2 h3 m Hb Hh3.
  wp_step. wp_step. wp_step.
  eapply register_new_wp; [apply inv_new_hook; [by apply nexus_inv_tls|done]|rsimp; apply lookup_insert_eq|done|done|].
  intros n' Hn' Hreg. wp_step. apply wp_local. eapply (finish_wp live2); [exact Hc|exact Hf|done|exact Hh3|exact R|done..|].
  intros r' Hok. cbn [fst snd]. wp_step. by eapply finished_constructed.
Qed.

(** C27 The constructor either throws, or leaves an Rpc in which everything that
    the other theorems start from holds: the client's invariant, no sessions with
    the whole RX ring available, the allocator's invariant; its hook is the one
    registered under its ID, and the Nexus' invariant is kept. No assertion
    fails. The conditions are those of [can_construct]: a Nexus in order, a thread
    without an [eRPC] thread ID, a new hook, an 8-bit Rpc ID, a TSC frequency for
    which the wheel's slots cover its horizon (which few frequencies have), a
    clock that takes less than [fuel] slots for [fuel] iterations of [catchup], and
    0 for the bit scan of 0. *)
Theorem Rpc_new_correct freq fuel a n :
  can_construct freq fuel a n ->
  wpt (Rpc_new freq fuel a) (fun k n' =>
    client_inv (C := k.1.1) k.2 /\ no_sessions k.2 /\ fits_class (r_pre_resp_msgbuf_size k.2) /\
    (exists live, alloc_inv live (r_huge k.2)) /\
    c_rpc_id (RpcConf := k.1.1) = ra_rpc_id a /\
    zlookup (nx_reg_hooks_arr n') (ra_rpc_id a) = Some (Some (ra_hook a)) /\ nexus_inv n') n.
Proof.
  intros H. eapply wp_mono; [by apply Rpc_new_ok|]. intros k n' [H1 H2 H3 H4 H5 H6 H7].
  split; [by apply client_inv_idle|]. by split_and!.
Qed.

(** The destructor frees the ID. *)
Lemma Rpc_delete_wp E (k : RpcConf) hook r n id h (Q : list Z * list Z -> Nexus -> Prop) :
  r_etid r = c_creator_etid -> nexus_inv n -> nx_hooks n !! hook = Some h -> hk_rpc_id h = id ->
  0 <= id <= kMaxRpcId -> zlookup (nx_reg_hooks_arr n) id = Some (Some hook) ->
  (forall n', nexus_inv n' -> zlookup (nx_reg_hooks_arr n') id = Some None -> Q (HugeAlloc_delete (r_huge r)) n') ->
  wpe E (Rpc_delete hook r) Q n.
Proof.
  intros He Hi Hh Hid Hr Hreg HQ. unfold Rpc_delete, unregister_hook, get_hook. cbv zeta. wp_step.
  wp_step; [by apply Z.eqb_eq|]. do 4 wp_step. eapply wp_deref; [exact Hh|]. wp_step.
  wp_step; [apply Z.leb_le; lia|]. do 3 wp_step. eapply wp_deref; [by rewrite Hid|].
  wp_step. wp_step; [by apply bool_decide_eq_true|]. wp_step. wp_step. apply HQ.
  - by apply inv_del_ptr.
  - rsimp. rewrite Hid. apply zlookup_zinsert_eq. by eapply zlookup_lt.
Qed.
End New.
