(* ===== verification/RpcIb.v ===== *)
(** * An Rpc over InfiniBand

    The control path of [IbControl] and the datapath of [IbTransport] are an
    instance of the interface that the constructor of an Rpc uses. *)
From S2P Require Import Prelude Config HugeAlloc PktHdr Msg Uri SmTypes Timer Timely MemPool TimingWheel WheelChain WheelSpec Session RpcState RpcBase RpcTx RpcApi RpcRx RpcSm RpcLoop RpcWp ClientInv ClientTx ClientInit SmFrame SmProps SmServe IbTransport IbProps IbExamples IbControl IbControlProps IbControlExamples Nexus RpcNew NexusProps NexusExamples RpcNewProps.

Section RpcIb.
Context {T : TTr} {TOk : TTrOk T} {Os : ShmOs} {W : World}.
Context {V : Verbs} {VOk : VerbsOk V} {VC : VerbsCtl}.
Variable kIsRoCE : bool.
(** The verbs library before the constructor, and the queue pair it makes. *)
Variable (c0 : Ctl) (nic0 : Nic).
Hypothesis nic0_empty : nic_rq nic0 = [].

Definition zero_sge : sge := mkSge 0 0 0.
(** The datapath's members as the constructor leaves them. *)
Definition IB_of (t : IBC) : IB := {|
  ib_nb_tx := 0;
  ib_send_wr := replicate (Z.to_nat (kPostlist + 1)) send_wr_blank;
  ib_send_sgl := replicate (Z.to_nat kPostlist) (zero_sge, zero_sge);
  ib_recv_head := 0;
  ib_recvs_to_post := 0;
  ib_recv_wr := replicate (Z.to_nat kRQDepth) (mkRecvWr 0 zero_sge None);
  ib_ring_extent := nullBuffer;
  ib_use_fast_recv := ic_use_fast_recv t;
  ib_fast_recv_used := false;
  ib_self_ah := default 0 (ic_self_ah t);
  ib_tx_flush_count := 0;
  ib_nic := nic0;
|}.

(** [init_hugepage_structures] *)
Definition ib_init_hugepage : M ((IB * IBC) * HugeAlloc) (list Z) :=
  rx_ring ← zoom (fun p => (p.1.1, p.2)) (fun q p => ((q.1, p.1.2), q.2)) (init_recvs w_fuel);
  zoom (fun p => p.1.1) (fun t p => ((t, p.1.2), p.2)) init_sends;;
  mret rx_ring.

#[export] Instance IbTransportNew : TransportNew := {|
  Tr := IB * IBC;
  tr_type := kInfiniBand;
  tr_new _ _ phy_port _ :=
    match IBTransport_new kIsRoCE phy_port (IBC_new c0) with
    | Ok _ t => Some (IB_of t, t)
    | Fail _ => None
    end;
  tr_init_hugepage_structures := ib_init_hugepage;
|}.

Lemma ib_new_blank port id phy numa t :
  tr_new port id phy numa = Some t -> t.1 = IB_of t.2.
Proof. cbn. destruct (IBTransport_new _ _ _) as [[] t'|]; [|done]. by intros [= <-]. Qed.

Context {OsOk : ShmOsOk Os w_fuel} {IOk : IbOk T}.
Hypothesis mtu_page : kMTU <= 4096.

#[export] Instance IbTransportNew_ok : TransportNewOk IbTransportNew.
Proof.
  constructor. intros port id phy numa [t tc] live h Ht Ha. apply ib_new_blank in Ht. cbn [fst snd] in Ht.
  cbn [tr_init_hugepage_structures IbTransportNew]. unfold ib_init_hugepage. wp_step. apply wp_zoom. cbn [fst snd].
  assert (Hq : nic_rq (ib_nic t) = []) by (rewrite Ht; exact nic0_empty).
  pose proof (init_recvs_wp w_fuel live t h Hq mtu_page Ha) as Hw.
  eapply wp_mono; [exact Hw|].
  intros l [t' h'] (Hs & _ & Hh'). cbn [fst snd] in *. wp_step. apply wp_zoom. cbn [fst snd].
  destruct (init_sends_ok t') as (t2 & E & _).
  - rewrite (ts_wr _ _ Hs), Ht. unfold zlength. cbn [ib_send_wr IB_of]. rewrite length_replicate.
    pose proof ttr_postlist_pos. lia.
  - rewrite (ts_sgl _ _ Hs), Ht. unfold zlength. cbn [ib_send_sgl IB_of]. rewrite length_replicate.
    pose proof ttr_postlist_pos. lia.
  - rewrite (ts_nb _ _ Hs), Ht. cbn [ib_nb_tx IB_of]. lia.
  - unfold wpe at 1. rewrite E. apply wp_ret. exact Hh'.
Qed.
End RpcIb.

(** ** A concrete Rpc and its constructor

    The constructor runs over the concrete operating system, Nexus, verbs
    library and queue pair of the other example files. *)

#[local] Existing Instance BumpOs.
#[local] Existing Instance QueueVerbs.
#[local] Existing Instance QueueVerbs_ok.
#[local] Instance NwT : TTr := Transports.IBTransport false.
#[local] Instance NwT_ok : TTrOk NwT := Transports.IBTransport_ok false.
#[local] Instance NwI_ok : IbOk NwT := IBTransport_IbOk false.
#[local] Instance NwW : World := {|
  w_tsc _ := 5000; w_slow_rand := Z.of_nat; w_bandwidth := fconst 7000000000 1;
  w_resolve := Some; w_local_rinfo := [17]; w_fuel := 1
|}.
#[local] Instance NwW_ok : WorldOk NwW.
Proof. split; [|exact BumpOs_ok]. intros n. cbn. by vm_compute. Qed.
Definition nw_nic : qnic := mkQ [] [] [].
#[local] Instance NwN : TransportNew := IbTransportNew false toy0 nw_nic.
Lemma nw_mtu : kMTU (TTr := NwT) <= 4096.
Proof. by vm_compute. Qed.
#[local] Instance NwN_ok : TransportNewOk NwN := IbTransportNew_ok false toy0 nw_nic eq_refl nw_mtu.

Definition nw_freq : double := fconst 26 10.

Definition nw_args : rpc_args := mkRpcArgs 5 0 8 200 0 zero_mem.
Lemma nw_freq_ok : freq_ok nw_freq 1300 21299200.
Proof.
  assert (E : kWheelNumWslots = 16385) by exact WheelExamples.nslots_value.
  split; [vm_compute; reflexivity|vm_compute; reflexivity|lia|rewrite E; lia|rewrite E; lia|].
  unfold nslots. rewrite E. unfold kMaxTsc. lia.
Qed.
Lemma nw_clock_ok : clock_ok 1 1300.
Proof. split; [intros m; cbn; lia|lia|cbn; lia]. Qed.
Lemma nx1_inv : nexus_inv nx1.
Proof.
  exact (proj1 (wpe_run _ _ _ _ tt nx1 (Nexus_new_inv "host:31850" 0 1 [7] nx0 eq_refl)
    ltac:(vm_compute; reflexivity))).
Qed.
Lemma nw_can : can_construct nw_freq 1 nw_args nx1.
Proof.
  split; [exact nx1_inv|by vm_compute|by vm_compute|by vm_compute| |by vm_compute].
  exists 1300, 21299200. split; [exact nw_freq_ok|exact nw_clock_ok].
Qed.

Lemma Rpc_new_correct_witness :
  wpt (Rpc_new nw_freq 1 nw_args) (fun k n' =>
    client_inv (C := k.1.1) k.2 /\ no_sessions k.2 /\ fits_class (r_pre_resp_msgbuf_size k.2) /\
    (exists live, alloc_inv live (r_huge k.2)) /\
    c_rpc_id (RpcConf := k.1.1) = 5 /\ zlookup (nx_reg_hooks_arr n') 5 = Some (Some 200) /\ nexus_inv n') nx1.
Proof. exact (Rpc_new_correct nw_freq 1 nw_args nx1 nw_can). Defined.

(** It returns, and its Rpc has been given an RX ring and control buffers. *)
Example nw_runs :
  match Rpc_new nw_freq 1 nw_args nx1 with
  | Ok (_, _, r) _ => (zlength (r_rx_ring r) =? kNumRxRingEntries)
      && forallb (fun mb => negb (buf_ mb =? 0)) (r_ctrl_msgbufs r)
  | Fail _ => false
  end = true.
Proof. vm_compute. reflexivity. Qed.
