(* ===== verification/Scheduler.v ===== *)
(** * The coroutine scheduler: [core/scheduler]

    A thread's coroutines form a ring of those that can run; a coroutine that
    waits for RDMA completions leaves it, and coroutine 0, which polls, puts it
    back. A coroutine is its index in [coro_array]; a transfer of control changes
    [s_cur], the coroutine that runs. The RDMA library (rlib) is the class [RLib]. *)
From S2P Require Import Prelude.

(** ** The RDMA library *)
Inductive wc_status := WcSuccess | WcRetryExcErr | WcOther.
Record wc_t := mkWc { wc_stat : wc_status; wc_wr_id : Z }.
(** Operation codes with their arguments; every one is posted signaled. *)
Inductive rdma_req :=
  | RqWrite (local remote_offset size : Z)
  | RqWriteMr (local remote_offset size local_mr remote_mr : Z)
  | RqRead (local remote_offset size : Z)
  | RqCas (local remote_offset compare swap : Z).
(** [ibv_send_wr]: the fields that the scheduler writes or the library goes by. *)
Record send_sr_t := mkSendSr { sr_wr_id : Z; sr_signaled : bool }.
#[export] Instance eta_send_sr : Eta send_sr_t := fun w => mkSendSr (sr_wr_id w) (sr_signaled w).

(** [true] is [SUCC]; queue pairs are numbers. *)
Class RLib := {
  Rn : Type;
  post_send : Z -> rdma_req -> Z -> Rn -> bool * Rn;
  post_batch : Z -> list send_sr_t -> Rn -> bool * Rn;
  poll_send_completion : Z -> Rn -> (Z * wc_t) * Rn;
  poll_till_completion : Z -> Rn -> (bool * wc_t) * Rn;
}.

Section Scheduler.
Context {L : RLib}.

(** ** State *)

(** [Coroutine]; its function is what control is transferred to. *)
Record Coroutine := mkCoro { is_wait_poll : bool; prev_coro : option Z; next_coro : option Z }.
#[export] Instance eta_Coroutine : Eta Coroutine := fun c =>
  mkCoro (is_wait_poll c) (prev_coro c) (next_coro c).
Definition Coroutine_new : Coroutine := mkCoro false None None.

Record Sched := mkSched {
  coro_array : list Coroutine;
  coro_head : option Z;
  coro_tail : option Z;
  pending_qps : list Z;
  pending_counts : list Z;
  s_cur : Z;
  s_rdma : Rn;
}.
#[export] Instance eta_Sched : Eta Sched := fun s =>
  mkSched (coro_array s) (coro_head s) (coro_tail s) (pending_qps s) (pending_counts s) (s_cur s) (s_rdma s).
(** Coroutine 0 is the first to run. *)
Definition CoroutineScheduler_new (coro_num : Z) (n : Rn) : Sched :=
  mkSched (replicate (Z.to_nat coro_num) Coroutine_new) None None []
    (replicate (Z.to_nat coro_num) 0) 0 n.

Abbreviation MS := (M Sched).
Definition rdma {A} (f : Rn -> A * Rn) : MS A := fun s =>
  let (a, n) := f (s_rdma s) in Ok a (s <| s_rdma := n |>).
Definition get_coro (c : Z) : MS Coroutine :=
  a ← gets coro_array; deref (zlookup a c) "coro_array".
Definition upd_coro (c : Z) (f : Coroutine -> Coroutine) : MS unit :=
  co ← get_coro c; modify (fun s => s <| coro_array ::= zinsert c (f co) |>).
Definition get_count (c : Z) : MS Z :=
  a ← gets pending_counts; deref (zlookup a c) "pending_counts".
(** A counter counts nodes of the list [pending_qps]: it does not overflow. *)
Definition add_count (c k : Z) : MS unit :=
  n ← get_count c; modify (fun s => s <| pending_counts ::= zinsert c (n + k) |>).

(** ** Requests *)
Definition AddPendingQP (coro_id qp : Z) : MS unit :=
  modify (fun s => s <| pending_qps ::= fun l => l ++ [qp] |>);;
  add_count coro_id 1.

Definition post_async (coro_id qp : Z) (r : rdma_req) : MS bool :=
  rc ← rdma (post_send qp r coro_id);
  if negb rc then mret false
  else AddPendingQP coro_id qp;; mret true.
Definition RDMAWrite (coro_id qp wt_data remote_offset size : Z) : MS bool :=
  post_async coro_id qp (RqWrite wt_data remote_offset size).
Definition RDMAWrite_mr (coro_id qp wt_data remote_offset size local_mr remote_mr : Z) : MS bool :=
  post_async coro_id qp (RqWriteMr wt_data remote_offset size local_mr remote_mr).
Definition RDMARead (coro_id qp rd_data remote_offset size : Z) : MS bool :=
  post_async coro_id qp (RqRead rd_data remote_offset size).
Definition RDMACAS (coro_id qp local_buf remote_offset compare swap : Z) : MS bool :=
  post_async coro_id qp (RqCas local_buf remote_offset compare swap).

(** The doorbell entry gets the coroutine's number. *)
Definition post_doorbell (coro_id qp : Z) (send_sr : list send_sr_t) (doorbell_num : Z) : MS bool :=
  w ← deref (zlookup send_sr doorbell_num) "send_sr";
  rdma (post_batch qp (zinsert doorbell_num (w <| sr_wr_id := coro_id |>) send_sr)).
Definition RDMABatch (coro_id qp : Z) (send_sr : list send_sr_t) (doorbell_num : Z) : MS bool :=
  rc ← post_doorbell coro_id qp send_sr doorbell_num;
  if negb rc then mret false
  else AddPendingQP coro_id qp;; mret true.

Definition poll_till (qp : Z) : MS bool := '(rc, _) ← rdma (poll_till_completion qp); mret rc.
Definition RDMABatchSync (coro_id qp : Z) (send_sr : list send_sr_t) (doorbell_num : Z) : MS bool :=
  rc ← post_doorbell coro_id qp send_sr doorbell_num;
  if negb rc then mret false else poll_till qp.
Definition RDMAReadSync (coro_id qp rd_data remote_offset size : Z) : MS bool :=
  rc ← rdma (post_send qp (RqRead rd_data remote_offset size) coro_id);
  if negb rc then mret false else poll_till qp.

(** ** Scheduling *)
Definition LoopLinkCoroutine (coro_num : Z) : MS unit :=
  miter (fun i => upd_coro i (fun co => co <| prev_coro := Some (i - 1) |> <| next_coro := Some (i + 1) |>))
    (Z.of_nat <$> seq 0 (Z.to_nat coro_num));;
  modify (fun s => s <| coro_head := Some 0 |> <| coro_tail := Some (coro_num - 1) |>);;
  upd_coro 0 (fun co => co <| prev_coro := Some (coro_num - 1) |>);;
  upd_coro (coro_num - 1) (fun co => co <| next_coro := Some 0 |>).

Definition RunCoroutine (c : Z) : MS unit :=
  upd_coro c (fun co => co <| is_wait_poll := false |>);;
  modify (fun s => s <| s_cur := c |>).

Definition Yield (cid : Z) : MS unit :=
  n ← get_count cid;
  if n =? 0 then mret tt
  else
    coro ← get_coro cid;
    assert_ (negb (is_wait_poll coro)) "Yield: is_wait_poll";;
    next ← deref (next_coro coro) "next_coro";
    prev ← deref (prev_coro coro) "prev_coro";
    upd_coro prev (fun co => co <| next_coro := Some next |>);;
    upd_coro next (fun co => co <| prev_coro := Some prev |>);;
    modify (fun s => if bool_decide (coro_tail s = Some cid) then s <| coro_tail := Some prev |> else s);;
    upd_coro cid (fun co => co <| is_wait_poll := true |>);;
    RunCoroutine next.

Definition AppendCoroutine (c : Z) : MS unit :=
  coro ← get_coro c;
  if negb (is_wait_poll coro) then mret tt
  else
    prev ← gets coro_tail;
    prev ← deref prev "coro_tail";
    upd_coro prev (fun co => co <| next_coro := Some c |>);;
    modify (fun s => s <| coro_tail := Some c |>);;
    head ← gets coro_head;
    upd_coro c (fun co => co <| next_coro := head |>);;
    upd_coro c (fun co => co <| prev_coro := Some prev |>).

(** The loop of [PollCompletion]: [kept] are the entries it has passed; a
    completion of coroutine 0 leaves the iterator where it is. *)
Fixpoint poll_loop (fuel : nat) (kept todo : list Z) : MS unit :=
  match todo with
  | [] => mret tt
  | qp :: rest =>
      match fuel with
      | O => fail EFuel
      | S fuel =>
          '(poll_result, wc) ← rdma (poll_send_completion qp);
          if poll_result =? 0 then poll_loop fuel (kept ++ [qp]) rest
          else
            match wc_stat wc with
            | WcOther => fail (EThrow "abort")
            | WcRetryExcErr => poll_loop fuel (kept ++ [qp]) rest
            | WcSuccess =>
                let coro_id := wc_wr_id wc in
                if coro_id =? 0 then poll_loop fuel kept todo
                else
                  n ← get_count coro_id;
                  assert_ (0 <? n) "PollCompletion: pending_counts";;
                  add_count coro_id (-1);;
                  when (n - 1 =? 0) (AppendCoroutine coro_id);;
                  modify (fun s => s <| pending_qps := kept ++ rest |>);;
                  poll_loop fuel kept rest
            end
      end
  end.
Definition PollCompletion (fuel : nat) : MS unit :=
  qps ← gets pending_qps; poll_loop fuel [] qps.
End Scheduler.
