(* ===== verification/SchedProps.v ===== *)
(** * The scheduler is correct

    The ring of runnable coroutines and its pointers, and the requests that are
    under way: no assertion fails, and the wake-ups that are lost are known. *)
From S2P Require Import Prelude Scheduler.

(** The oldest request of [q], posted by [c], is done. *)
Definition completes (q c : Z) (out out' : list (Z * Z)) : Prop :=
  exists l1 l2, out = (l1 ++ [(q, c)] ++ l2) /\ (q ∉ l1.*1) /\ out' = (l1 ++ l2).

(** What the scheduler relies on: the requests under way (queue pair, coroutine)
    in the order of posting; a queue pair completes its own in that order. *)
Class RLibOk (L : RLib) := {
  rl_out : Rn -> list (Z * Z);
  rl_post q r c n :
    let (ok, n') := post_send q r c n in
    rl_out n' = rl_out n ++ (if ok : bool then [(q, c)] else []);
  rl_post_batch q l n :
    let (ok, n') := post_batch q l n in
    rl_out n' = rl_out n ++
      (if ok : bool then (fun w => (q, sr_wr_id w)) <$> filter (fun w => sr_signaled w = true) l else []);
  rl_poll q n :
    let '((r, wc), n') := poll_send_completion q n in
    if r =? 0 then rl_out n' = rl_out n else completes q (wc_wr_id wc) (rl_out n) (rl_out n');
  rl_poll_till q n :
    q ∈ (rl_out n).*1 ->
    let '((ok, wc), n') := poll_till_completion q n in
    completes q (wc_wr_id wc) (rl_out n) (rl_out n');
  (* the requests that polling has reported with IBV_WC_RETRY_EXC_ERR so far *)
  rl_failed : Rn -> list (Z * Z);
  rl_failed_post q r c n : rl_failed (post_send q r c n).2 = rl_failed n;
  rl_failed_batch q l n : rl_failed (post_batch q l n).2 = rl_failed n;
  rl_failed_till q n : rl_failed (poll_till_completion q n).2 = rl_failed n;
  rl_failed_poll q n :
    let '((r, wc), n') := poll_send_completion q n in
    rl_failed n' =
      match wc_stat wc with
      | WcRetryExcErr => if r =? 0 then rl_failed n else (q, wc_wr_id wc) :: rl_failed n
      | _ => rl_failed n
      end;
}.

Section Props.
Context {L : RLib} {LOk : RLibOk L}.

(** ** The ring *)
Definition nxt (s : Sched) (c : Z) : option Z := co ← zlookup (coro_array s) c; next_coro co.
Definition prv (s : Sched) (c : Z) : option Z := co ← zlookup (coro_array s) c; prev_coro co.
Definition waits (s : Sched) (c : Z) : option bool := is_wait_poll <$> zlookup (coro_array s) c.

(** A path of links from [x] through [l], which ends at [y]. *)
Fixpoint seg (s : Sched) (x : Z) (l : list Z) (y : Z) : Prop :=
  match l with
  | [] => x = y
  | z :: l => nxt s x = Some z /\ prv s z = Some x /\ seg s z l y
  end.
(** Coroutine 0 leads the ring; its own back pointer is not kept up to date. *)
Record ring (s : Sched) (rest : list Z) : Prop := {
  ri_nodup : NoDup (0 :: rest);
  ri_head : coro_head s = Some 0;
  ri_tail : exists t, coro_tail s = Some t /\ seg s 0 rest t /\ nxt s t = Some 0;
  ri_zero : is_Some (zlookup (coro_array s) 0);
}.

Lemma seg_app s x l1 l2 y : seg s x (l1 ++ l2) y <-> exists z, seg s x l1 z /\ seg s z l2 y.
Proof.
  revert x. induction l1 as [|a l1 IH]; intros x; cbn [seg app].
  - split; [by exists x|]. by intros (z & -> & H).
  - rewrite IH. split; [intros (? & ? & z & ?)|intros (z & (? & ? & ?) & ?)]; naive_solver.
Qed.
Lemma seg_end s x l y : seg s x l y -> y ∈ x :: l.
Proof.
  revert x. induction l as [|a l IH]; intros x; cbn [seg]; [intros ->; by left|].
  intros (_ & _ & H%IH). by right.
Qed.
(** Links change only at the end of the path. *)
Lemma seg_frame s s' x l y :
  seg s x l y -> NoDup (x :: l) ->
  (forall z, z ∈ x :: l -> z <> y -> nxt s' z = nxt s z) ->
  (forall z, z ∈ l -> prv s' z = prv s z) -> seg s' x l y.
Proof.
  revert x. induction l as [|a l IH]; intros x Hs Hn H1 H2; cbn [seg] in *; [done|].
  destruct Hs as (E1 & E2 & Hs). apply NoDup_cons in Hn as [Hx Hn].
  assert (Hy : x <> y) by (intros ->; by apply Hx, (seg_end s)).
  split; [rewrite H1; [done|by left|done]|]. split; [rewrite H2; [done|by left]|].
  apply IH; [done..| |]; intros z Hz; [intros Hy'; apply H1; [by right|done]|apply H2; by right].
Qed.

(** ** Updating coroutines *)
(** [s'] is [s] with coroutine [c] changed by [f]. *)
Record upd_rel (c : Z) (f : Coroutine -> Coroutine) (s s' : Sched) : Prop := {
  ur_at z : zlookup (coro_array s') z =
    if decide (z = c) then f <$> zlookup (coro_array s) z else zlookup (coro_array s) z;
  ur_len : zlength (coro_array s') = zlength (coro_array s);
  ur_rest : s' = s <| coro_array := coro_array s' |>;
}.
Lemma wp_upd_coro E c f (Q : unit -> Sched -> Prop) s :
  is_Some (zlookup (coro_array s) c) -> (forall s', upd_rel c f s s' -> Q tt s') -> wpe E (upd_coro c f) Q s.
Proof.
  intros [co H] HQ. unfold upd_coro, get_coro. do 3 wp_step. eapply wp_deref; [exact H|]. wp_step.
  apply HQ. split; [intros z; cbn| |done].
  - case_decide as E'; [|apply zlookup_zinsert_ne; congruence].
    subst. rewrite H. apply zlookup_zinsert_eq. by apply zlookup_lt in H.
  - apply zlength_zinsert.
Qed.
Lemma ur_some c f s s' z : upd_rel c f s s' -> is_Some (zlookup (coro_array s) z) -> is_Some (zlookup (coro_array s') z).
Proof. intros H [co Hz]. rewrite (ur_at _ _ _ _ H), Hz. case_decide; by eexists. Qed.
Lemma ur_next c f s s' z :
  upd_rel c f s s' -> is_Some (zlookup (coro_array s) c) ->
  nxt s' z = if decide (z = c) then (co ← zlookup (coro_array s) c; next_coro (f co)) else nxt s z.
Proof. intros H [co Hc]. unfold nxt. rewrite (ur_at _ _ _ _ H). case_decide; [subst; by rewrite Hc|done]. Qed.
Lemma ur_prev c f s s' z :
  upd_rel c f s s' -> is_Some (zlookup (coro_array s) c) ->
  prv s' z = if decide (z = c) then (co ← zlookup (coro_array s) c; prev_coro (f co)) else prv s z.
Proof. intros H [co Hc]. unfold prv. rewrite (ur_at _ _ _ _ H). case_decide; [subst; by rewrite Hc|done]. Qed.

(** ** The ring loses and gains a coroutine *)
Lemma ring_node s l1 c l2 :
  ring s (l1 ++ c :: l2) ->
  exists p, seg s 0 l1 p /\ prv s c = Some p /\ nxt s c = Some (hd 0 l2) /\
    (coro_tail s = Some c -> l2 = []) /\ (l2 = [] -> coro_tail s = Some c) /\
    (forall n l, l2 = n :: l -> exists t, coro_tail s = Some t /\ seg s n l t /\ nxt s t = Some 0).
Proof.
  intros [Hn Hh (t & Ht & Hs & Hz) _]. apply seg_app in Hs as (p & H1 & H2 & H3 & H4).
  exists p. rewrite Ht. split; [done|]. split; [done|].
  apply NoDup_cons in Hn as [_ Hn]. apply NoDup_app in Hn as (_ & _ & Hn). apply NoDup_cons in Hn as [Hc _].
  destruct l2 as [|n l2]; cbn [seg hd] in *.
  { subst. split; [done|]. naive_solver. }
  destruct H4 as (E1 & E2 & H4). split; [done|]. split; [|split; [done|]].
  - intros [= ->]. destruct Hc. by apply (seg_end s).
  - intros ?? [= <- <-]. by exists t.
Qed.

Lemma ring_remove s s' l1 c l2 p :
  ring s (l1 ++ c :: l2) -> prv s c = Some p -> is_Some (zlookup (coro_array s') 0) ->
  (forall z, nxt s' z = if decide (z = p) then Some (hd 0 l2) else nxt s z) ->
  (forall z, z ∈ l1 ++ l2 -> prv s' z = if decide (z = hd 0 l2) then Some p else prv s z) ->
  coro_head s' = coro_head s ->
  coro_tail s' = (if bool_decide (coro_tail s = Some c) then Some p else coro_tail s) ->
  ring s' (l1 ++ l2).
Proof.
  intros Hr Hp H0 Hnx Hpv Hh Ht. destruct (ring_node _ _ _ _ Hr) as (p' & Hs1 & Hp' & Hnc & Hta & Htb & Hl2).
  replace p' with p in * by congruence. destruct Hr as [Hn Hhd _ _].
  assert (Hn' : NoDup (0 :: l1 ++ l2)).
  { eapply sublist_NoDup; [exact Hn|]. apply sublist_skip, sublist_app; [done|by apply sublist_cons]. }
  rewrite app_comm_cons in Hn'. apply NoDup_app in Hn' as (Hn1 & Hd & Hn2).
  assert (Hs1' : seg s' 0 l1 p).
  { apply (seg_frame s); [done..| |].
    - intros z _ Hz. by rewrite Hnx, decide_False.
    - intros z Hz. rewrite Hpv by set_solver. rewrite decide_False; [done|]. intros ->.
      apply NoDup_cons in Hn1 as [? _]. destruct l2; [done|]. apply (Hd z); [by right|by left]. }
  split; [rewrite app_comm_cons; by apply NoDup_app|by rewrite Hh| |done].
  destruct l2 as [|n l2]; cbn [hd] in *.
  - exists p. rewrite Ht, bool_decide_true by auto. rewrite app_nil_r. by rewrite Hnx, decide_True.
  - destruct (Hl2 _ _ eq_refl) as (t & Htl & Hs2 & Hz). exists t.
    assert (Hpn : forall z, z ∈ n :: l2 -> z <> p).
    { intros z Hz' ->. apply (Hd p); [by apply (seg_end s)|done]. }
    rewrite Ht, bool_decide_false by (intros E; by apply Hta in E). split; [done|].
    split; [|rewrite Hnx, decide_False; [done|apply Hpn, (seg_end s), Hs2]].
    apply seg_app. exists p. split; [done|]. cbn [seg].
    rewrite Hnx, decide_True, Hpv, decide_True by (done || set_solver). split_and!; [done..|].
    apply (seg_frame s); [done..| |]; intros z Hz'; [intros _; rewrite Hnx, decide_False; [done|by apply Hpn]|].
    rewrite Hpv by set_solver. rewrite decide_False; [done|]. intros ->. by apply NoDup_cons in Hn2 as [? _].
Qed.

Lemma ring_append s s' rest c t :
  ring s rest -> coro_tail s = Some t -> c ∉ 0 :: rest ->
  (forall z, nxt s' z = if decide (z = c) then Some 0 else if decide (z = t) then Some c else nxt s z) ->
  (forall z, prv s' z = if decide (z = c) then Some t else prv s z) ->
  coro_head s' = coro_head s -> coro_tail s' = Some c -> is_Some (zlookup (coro_array s') 0) ->
  ring s' (rest ++ [c]).
Proof.
  intros [Hn Hhd (t' & Ht' & Hs & _) _] Ht Hc Hnx Hpv Hh Htl H0. replace t' with t in * by congruence.
  split; [|by rewrite Hh| |done].
  { rewrite app_comm_cons. apply NoDup_app. split; [done|]. split; [set_solver|apply NoDup_singleton]. }
  exists c. split; [done|]. split; [|by rewrite Hnx, decide_True]. apply seg_app. exists t.
  pose proof (seg_end _ _ _ _ Hs) as Het. split.
  - apply (seg_frame s); [done..| |]; intros z Hz; [intros Hzt|].
    + rewrite Hnx, !decide_False; [done|done|congruence].
    + rewrite Hpv, decide_False; [done|]. intros ->. apply Hc. by right.
  - cbn [seg]. rewrite Hnx, Hpv. rewrite (decide_False (P := t = c)), !decide_True by (done || congruence). done.
Qed.
(** ** The invariant *)
Definition occ (c : Z) (l : list (Z * Z)) : Z := Z.of_nat (count_occ Z.eq_dec l.*2 c).
(** The requests that count: under way, or [lost] (their completion was taken
    without waking the coroutine: an error, or coroutine 0). *)
Definition reqs (lost : list (Z * Z)) (s : Sched) : list (Z * Z) := rl_out (s_rdma s) ++ lost.
(** [rest] is the ring after coroutine 0. A coroutine outside of it waits, with
    a request that counts; one in it that does not run has none. *)
Record sched_inv (rest : list Z) (lost : list (Z * Z)) (s : Sched) : Prop := {
  si_ring : ring s rest;
  si_len : zlength (pending_counts s) = zlength (coro_array s);
  si_cur : s_cur s ∈ 0 :: rest;
  si_awake : waits s (s_cur s) = Some false;
  si_pend : pending_qps s ≡ₚ (reqs lost s).*1;
  si_count c n : zlookup (pending_counts s) c = Some n -> n = occ c (reqs lost s);
  si_ids c : c ∈ (reqs lost s).*2 -> is_Some (zlookup (coro_array s) c);
  si_out c : is_Some (zlookup (coro_array s) c) -> c ∉ 0 :: rest -> waits s c = Some true /\ c ∈ (reqs lost s).*2;
  si_in c : c ∈ rest -> c <> s_cur s -> c ∉ (reqs lost s).*2;
}.

Lemma occ_perm c l l' : l ≡ₚ l' -> occ c l = occ c l'.
Proof. intros H. unfold occ. f_equal. apply Permutation_count_occ. by rewrite H. Qed.
Lemma occ_cons c q d l : occ c ((q, d) :: l) = (if decide (d = c) then 1 else 0) + occ c l.
Proof. unfold occ. cbn. destruct (Z.eq_dec d c); case_decide; try done; lia. Qed.
Lemma occ_pos c l : c ∈ l.*2 <-> 0 < occ c l.
Proof.
  unfold occ. rewrite list_elem_of_In, (count_occ_In Z.eq_dec). lia.
Qed.
Lemma sched_count E rest lost s c (Q : Z -> Sched -> Prop) :
  sched_inv rest lost s -> is_Some (zlookup (coro_array s) c) -> Q (occ c (reqs lost s)) s -> wpe E (get_count c) Q s.
Proof.
  intros Hi [co Hc] HQ. apply zlookup_lt in Hc. rewrite <- (si_len _ _ _ Hi) in Hc.
  apply zlookup_is_Some in Hc as [n Hn]. unfold get_count. do 2 wp_step. eapply wp_deref; [exact Hn|].
  by rewrite (si_count _ _ _ Hi _ _ Hn).
Qed.
Lemma ring_some s rest c : ring s rest -> c ∈ 0 :: rest -> is_Some (zlookup (coro_array s) c).
Proof.
  intros Hr [->|Hc]%elem_of_cons; [apply Hr|]. apply list_elem_of_split in Hc as (l1 & l2 & ->).
  destruct (ring_node _ _ _ _ Hr) as (p & _ & H & _). unfold prv in H. destruct (zlookup (coro_array s) c); [by eexists|done].
Qed.

(** The links do not depend on the bookkeeping. *)
Lemma ring_ext s s' rest :
  ring s rest -> coro_array s' = coro_array s -> coro_head s' = coro_head s -> coro_tail s' = coro_tail s -> ring s' rest.
Proof.
  intros [Hn Hh (t & Ht & Hs & Hz) H0] Ha Hh' Ht'. split; [done|by rewrite Hh'| |by rewrite Ha].
  exists t. rewrite Ht'. split; [done|]. split; [|unfold nxt; by rewrite Ha].
  clear -Hs Ha. revert Hs. generalize 0. induction rest as [|z l IH]; intros x; cbn [seg]; [done|].
  unfold nxt, prv. rewrite Ha. intros (? & ? & ?). by auto.
Qed.
(** ** Requests *)
Lemma wp_rdma {A} E (f : Rn -> A * Rn) (Q : A -> Sched -> Prop) s :
  (forall a n, f (s_rdma s) = (a, n) -> Q a (s <| s_rdma := n |>)) -> wpe E (rdma f) Q s.
Proof. intros H. unfold wpe, rdma. destruct (f (s_rdma s)) as [a n]. by apply H. Qed.

Lemma reqs_post lost s n x : rl_out n = rl_out (s_rdma s) ++ [x] -> rl_out n ++ lost ≡ₚ x :: reqs lost s.
Proof. intros ->. unfold reqs. by rewrite <- app_assoc, Permutation_middle. Qed.

(** The coroutine that runs has one more request. *)
Lemma inv_add rest lost s n q :
  sched_inv rest lost s -> rl_out n = rl_out (s_rdma s) ++ [(q, s_cur s)] ->
  wp (AddPendingQP (s_cur s) q) (fun _ s' => sched_inv rest lost s') (s <| s_rdma := n |>).
Proof.
  intros Hi Hn. pose proof (reqs_post lost _ _ _ Hn) as Hp. unfold AddPendingQP, add_count, get_count. do 4 wp_step.
  pose proof (ring_some _ _ _ (si_ring _ _ _ Hi) (si_cur _ _ _ Hi)) as Hcur.
  assert (Hl : 0 <= s_cur s < zlength (pending_counts s)).
  { rewrite (si_len _ _ _ Hi). destruct Hcur as [? H]. by apply zlookup_lt in H. }
  destruct (zlookup_is_Some _ _ Hl) as [k Hk]. eapply wp_deref; [exact Hk|]. wp_step.
  split; rsimp.
  - by apply (ring_ext s), eq_refl; [apply Hi|..].
  - rewrite zlength_zinsert. apply Hi.
  - apply Hi.
  - apply Hi.
  - unfold reqs; rsimp. rewrite Hp, (si_pend _ _ _ Hi). cbn. by rewrite Permutation_app_comm.
  - intros c m. unfold reqs; rsimp. rewrite (occ_perm _ _ _ Hp), occ_cons. case_decide as E.
    + subst. rewrite zlookup_zinsert_eq by done. intros [= <-]. rewrite (si_count _ _ _ Hi _ _ Hk). lia.
    + rewrite zlookup_zinsert_ne by done. intros H. by rewrite (si_count _ _ _ Hi _ _ H).
  - intros c. unfold reqs; rsimp. rewrite Hp. intros [->|Hc]%elem_of_cons; [done|by apply (si_ids _ _ _ Hi)].
  - intros c H1 H2. unfold reqs; rsimp. rewrite Hp. destruct (si_out _ _ _ Hi _ H1 H2) as [? ?]. split; [done|by right].
  - intros c H1 H2. unfold reqs; rsimp. rewrite Hp. intros [->|Hc]%elem_of_cons; [done|by apply (si_in _ _ _ Hi c)].
Qed.

(** The library's own state changes, the requests that count do not. *)
Lemma inv_rdma rest lost s n :
  sched_inv rest lost s -> rl_out n = rl_out (s_rdma s) -> sched_inv rest lost (s <| s_rdma := n |>).
Proof.
  intros [Hr ????????] Hn. split; unfold reqs in *; rsimp; rewrite ?Hn; try done. by apply (ring_ext s).
Qed.

Lemma post_async_inv rest lost s q r :
  sched_inv rest lost s -> wp (post_async (s_cur s) q r) (fun _ s' => sched_inv rest lost s') s.
Proof.
  intros Hi. unfold post_async. wp_step. apply wp_rdma. intros [] n Hn.
  - pose proof (rl_post q r (s_cur s) (s_rdma s)) as H. rewrite Hn in H. cbn. wp_step.
    eapply wp_mono; [by apply inv_add|]. intros [] s' ?. by wp_step.
  - pose proof (rl_post q r (s_cur s) (s_rdma s)) as H. rewrite Hn, app_nil_r in H. cbn. wp_step. by apply inv_rdma.
Qed.

(** Only the doorbell entry asks for a completion. *)
Definition one_signaled (l : list send_sr_t) (d : Z) : Prop :=
  exists l1 w l2, l = (l1 ++ [w] ++ l2) /\ zlength l1 = d /\ sr_signaled w = true /\
    (forall x, x ∈ l1 ++ l2 -> sr_signaled x = false).
Lemma zlookup_middle {A} (l1 : list A) x l2 : zlookup (l1 ++ [x] ++ l2) (zlength l1) = Some x.
Proof. unfold zlookup, zlength. rewrite (proj2 (Z.leb_le _ _)) by lia. rewrite Nat2Z.id. by apply list_lookup_middle. Qed.
Lemma zinsert_middle {A} (l1 : list A) x y l2 : zinsert (zlength l1) y (l1 ++ [x] ++ l2) = l1 ++ [y] ++ l2.
Proof.
  unfold zinsert, zlength. rewrite (proj2 (Z.leb_le _ _)) by lia. rewrite Nat2Z.id.
  by rewrite insert_app_r_alt, Nat.sub_diag by lia.
Qed.
Lemma filter_unsignaled (l : list send_sr_t) :
  (forall x, x ∈ l -> sr_signaled x = false) -> filter (fun w => sr_signaled w = true) l = [].
Proof.
  induction l as [|w l IH]; intros H; [done|]. rewrite filter_cons, decide_False; [|by rewrite (H w) by left].
  apply IH. intros x Hx. apply H. by right.
Qed.
Lemma wp_post_doorbell E q l d (Q : bool -> Sched -> Prop) s :
  one_signaled l d ->
  (forall (ok : bool) n, rl_out n = rl_out (s_rdma s) ++ (if ok then [(q, s_cur s)] else []) ->
    Q ok (s <| s_rdma := n |>)) -> wpe E (post_doorbell (s_cur s) q l d) Q s.
Proof.
  intros (l1 & w & l2 & -> & <- & Hw & Hu) HQ. unfold post_doorbell. wp_step.
  eapply wp_deref; [apply zlookup_middle|]. rewrite zinsert_middle. apply wp_rdma. intros ok n Hn.
  apply HQ. pose proof (rl_post_batch q (l1 ++ [w <| sr_wr_id := s_cur s |>] ++ l2) (s_rdma s)) as H.
  rewrite Hn in H. rewrite H. destruct ok; [|done]. f_equal.
  rewrite !filter_app, (filter_unsignaled l1), (filter_unsignaled l2), filter_singleton_True; [done|exact []|done|..];
    intros x Hx; apply Hu, elem_of_app; [by right|by left].
Qed.
Lemma RDMABatch_inv rest lost s q l d :
  sched_inv rest lost s -> one_signaled l d ->
  wp (RDMABatch (s_cur s) q l d) (fun _ s' => sched_inv rest lost s') s.
Proof.
  intros Hi Hl. unfold RDMABatch. wp_step. apply wp_post_doorbell; [done|]. intros [] n Hn; cbn; wp_step.
  - eapply wp_mono; [by apply inv_add|]. intros [] s' ?. by wp_step.
  - rewrite app_nil_r in Hn. by apply inv_rdma.
Qed.

(** A queue pair with nothing under way completes the request it just got. *)
Lemma completes_last q c c' out out' : q ∉ out.*1 -> completes q c (out ++ [(q, c')]) out' -> out' = out.
Proof.
  intros Hq (l1 & l2 & He & Hl1 & ->). revert l1 He Hl1. induction out as [|[q1 c1] out IH]; intros [|[q2 c2] l1]; cbn.
  - intros [= _ <-]. done.
  - intros [= <- _ H]. by destruct l1.
  - intros [= -> _ _]. destruct Hq. by left.
  - intros [= <- <- He] Hl1. f_equal. apply IH; [set_solver|done|set_solver].
Qed.
Lemma poll_till_inv rest lost s n q :
  sched_inv rest lost s -> q ∉ (rl_out (s_rdma s)).*1 -> rl_out n = rl_out (s_rdma s) ++ [(q, s_cur s)] ->
  wp (poll_till q) (fun _ s' => sched_inv rest lost s') (s <| s_rdma := n |>).
Proof.
  intros Hi Hq Hn. unfold poll_till. wp_step. apply wp_rdma. intros [ok wc] n' Hn'. wp_step.
  change (s_rdma (s <| s_rdma := n |>)) with n in Hn'.
  assert (Hin : q ∈ (rl_out n).*1) by (rewrite Hn, fmap_app; apply elem_of_app; right; by left).
  pose proof (rl_poll_till q n Hin) as H. rewrite Hn', Hn in H. apply completes_last in H; [|done].
  by apply (inv_rdma _ _ s).
Qed.
Lemma RDMABatchSync_inv rest lost s q l d :
  sched_inv rest lost s -> one_signaled l d -> q ∉ (rl_out (s_rdma s)).*1 ->
  wp (RDMABatchSync (s_cur s) q l d) (fun _ s' => sched_inv rest lost s') s.
Proof.
  intros Hi Hl Hq. unfold RDMABatchSync. wp_step. apply wp_post_doorbell; [done|]. intros [] n Hn; cbn.
  - by apply poll_till_inv.
  - wp_step. rewrite app_nil_r in Hn. by apply inv_rdma.
Qed.
Lemma RDMAReadSync_inv rest lost s q rd ro sz :
  sched_inv rest lost s -> q ∉ (rl_out (s_rdma s)).*1 ->
  wp (RDMAReadSync (s_cur s) q rd ro sz) (fun _ s' => sched_inv rest lost s') s.
Proof.
  intros Hi Hq. unfold RDMAReadSync. wp_step. apply wp_rdma. intros [] n Hn;
    pose proof (rl_post q (RqRead rd ro sz) (s_cur s) (s_rdma s)) as H; rewrite Hn in H; cbn.
  - by apply poll_till_inv.
  - wp_step. rewrite app_nil_r in H. by apply inv_rdma.
Qed.

(** ** Transfers of control *)
(** [s'] is [s] with other coroutine records, of the same coroutines. *)
Record same_sched (s s' : Sched) : Prop := {
  ss_dom z : is_Some (zlookup (coro_array s) z) <-> is_Some (zlookup (coro_array s') z);
  ss_len : zlength (coro_array s') = zlength (coro_array s);
  ss_head : coro_head s' = coro_head s;
  ss_tail : coro_tail s' = coro_tail s;
  ss_pend : pending_qps s' = pending_qps s;
  ss_count : pending_counts s' = pending_counts s;
  ss_cur : s_cur s' = s_cur s;
  ss_rdma : s_rdma s' = s_rdma s;
}.
Lemma ur_same c f s s' : upd_rel c f s s' -> same_sched s s'.
Proof.
  intros H. pose proof (ur_rest _ _ _ _ H) as E. split; try (rewrite E; reflexivity); [|apply H].
  intros z. rewrite (ur_at _ _ _ _ H). case_decide; [subst|done]. by rewrite fmap_is_Some.
Qed.
Section Setters.
Context (E : err -> Prop) (c : Z) (s : Sched) (Q : unit -> Sched -> Prop).
Hypothesis Hc : is_Some (zlookup (coro_array s) c).

#[local] Ltac assign :=
  intros HQ; apply wp_upd_coro; [done|]; intros s' H; apply HQ; [by eapply ur_same|..]; intros z;
    unfold nxt, prv, waits; rewrite (ur_at _ _ _ _ H); case_decide; subst; destruct Hc as [co Eco]; try rewrite Eco; done.
(** The three assignments, by what they leave to be read. *)
Lemma wp_set_next v :
  (forall s', same_sched s s' -> (forall z, nxt s' z = if decide (z = c) then v else nxt s z) ->
    (forall z, prv s' z = prv s z) -> (forall z, waits s' z = waits s z) -> Q tt s') ->
  wpe E (upd_coro c (fun co => co <| next_coro := v |>)) Q s.
Proof.
  assign.
Qed.
Lemma wp_set_prev v :
  (forall s', same_sched s s' -> (forall z, prv s' z = if decide (z = c) then v else prv s z) ->
    (forall z, nxt s' z = nxt s z) -> (forall z, waits s' z = waits s z) -> Q tt s') ->
  wpe E (upd_coro c (fun co => co <| prev_coro := v |>)) Q s.
Proof.
  assign.
Qed.
Lemma wp_set_wait v :
  (forall s', same_sched s s' -> (forall z, waits s' z = if decide (z = c) then Some v else waits s z) ->
    (forall z, nxt s' z = nxt s z) -> (forall z, prv s' z = prv s z) -> Q tt s') ->
  wpe E (upd_coro c (fun co => co <| is_wait_poll := v |>)) Q s.
Proof.
  assign.
Qed.
End Setters.
(** What holds when control is about to go to [c]. *)
Record ready (rest : list Z) (lost : list (Z * Z)) (c : Z) (s : Sched) : Prop := {
  rd_ring : ring s rest;
  rd_len : zlength (pending_counts s) = zlength (coro_array s);
  rd_cur : c ∈ 0 :: rest;
  rd_pend : pending_qps s ≡ₚ (reqs lost s).*1;
  rd_count d n : zlookup (pending_counts s) d = Some n -> n = occ d (reqs lost s);
  rd_ids d : d ∈ (reqs lost s).*2 -> is_Some (zlookup (coro_array s) d);
  rd_out d : is_Some (zlookup (coro_array s) d) -> d ∉ 0 :: rest -> waits s d = Some true /\ d ∈ (reqs lost s).*2;
  rd_in d : d ∈ rest -> d <> c -> d ∉ (reqs lost s).*2;
}.
Lemma seg_view s s' x l y :
  (forall z, nxt s' z = nxt s z) -> (forall z, prv s' z = prv s z) -> seg s x l y -> seg s' x l y.
Proof. intros H1 H2. revert x. induction l as [|z l IH]; intros x; cbn [seg]; [done|]. rewrite H1, H2. naive_solver. Qed.
Lemma ring_view s s' rest :
  ring s rest -> same_sched s s' -> (forall z, nxt s' z = nxt s z) -> (forall z, prv s' z = prv s z) -> ring s' rest.
Proof.
  intros [Hn Hh (t & Ht & Hs & Hz) H0] Hss H1 H2. split; [done|by rewrite (ss_head _ _ Hss)| |by apply (ss_dom _ _ Hss)].
  exists t. rewrite (ss_tail _ _ Hss), H1. split; [done|]. split; [by apply (seg_view s)|done].
Qed.
Lemma same_reqs lost s s' : same_sched s s' -> reqs lost s' = reqs lost s.
Proof. intros H. unfold reqs. by rewrite (ss_rdma _ _ H). Qed.

Lemma RunCoroutine_wp rest lost c s :
  ready rest lost c s ->
  wp (RunCoroutine c) (fun _ s' => sched_inv rest lost s' /\ s_cur s' = c /\ s_rdma s' = s_rdma s) s.
Proof.
  intros [Hr Hlen Hc Hp Hn Hids Hout Hin]. unfold RunCoroutine. wp_step.
  apply wp_set_wait; [by eapply ring_some|]. intros s' Hss Hw H1 H2. wp_step.
  assert (Hrq : reqs lost (s' <| s_cur := c |>) = reqs lost s) by exact (same_reqs lost _ _ Hss).
  split; [|split; [done|exact (ss_rdma _ _ Hss)]]. split; rewrite ?Hrq; rsimp.
  - apply (ring_ext s'); [|done..]. by apply (ring_view s).
  - by rewrite (ss_count _ _ Hss), (ss_len _ _ Hss).
  - done.
  - change (waits (s' <| s_cur := c |>) c) with (waits s' c). by rewrite Hw, decide_True.
  - by rewrite (ss_pend _ _ Hss).
  - by rewrite (ss_count _ _ Hss).
  - intros d Hd. by apply (ss_dom _ _ Hss), Hids.
  - intros d Hd Ho. change (waits (s' <| s_cur := c |>) d) with (waits s' d).
    rewrite Hw, decide_False by congruence. by apply Hout; [apply (ss_dom _ _ Hss)|].
  - done.
Qed.
Lemma same_trans s1 s2 s3 : same_sched s1 s2 -> same_sched s2 s3 -> same_sched s1 s3.
Proof. intros [] []. split; try congruence. intros z. rewrite ss_dom0. apply ss_dom1. Qed.

(** Up to its tail pointer. *)
Definition same_but_tail (s s' : Sched) : Prop := same_sched s (s' <| coro_tail := coro_tail s |>).
Lemma wp_fix_tail E c p s (Q : unit -> Sched -> Prop) :
  (forall s', same_but_tail s s' -> coro_tail s' = (if bool_decide (coro_tail s = Some c) then Some p else coro_tail s) ->
    (forall z, nxt s' z = nxt s z) -> (forall z, prv s' z = prv s z) -> (forall z, waits s' z = waits s z) -> Q tt s') ->
  wpe E (modify (fun s => if bool_decide (coro_tail s = Some c) then s <| coro_tail := Some p |> else s)) Q s.
Proof. intros HQ. wp_step. apply HQ; destruct (bool_decide _); done. Qed.
Lemma same_tail_trans s1 s2 s3 : same_but_tail s1 s2 -> same_sched s2 s3 -> same_but_tail s1 s3.
Proof.
  intros [] []. unfold same_but_tail in *. split; rsimp; try congruence; try (etransitivity; eassumption).
  intros z. rewrite ss_dom0. apply ss_dom1.
Qed.
(** The running coroutine [c] leaves the ring; [s'] is [s] after the four
    assignments of [Yield]. *)
Lemma yield_ready l1 c l2 lost s s' p :
  sched_inv (l1 ++ c :: l2) lost s -> s_cur s = c -> c ∈ (reqs lost s).*2 -> prv s c = Some p ->
  same_but_tail s s' ->
  coro_tail s' = (if bool_decide (coro_tail s = Some c) then Some p else coro_tail s) ->
  (forall z, nxt s' z = if decide (z = p) then Some (hd 0 l2) else nxt s z) ->
  (forall z, prv s' z = if decide (z = hd 0 l2) then Some p else prv s z) ->
  (forall z, waits s' z = if decide (z = c) then Some true else waits s z) ->
  ready (l1 ++ l2) lost (hd 0 l2) s'.
Proof.
  intros Hi Hcur Hc Hp Hss Ht Hnx Hpv Hw. assert (Hrq : reqs lost s' = reqs lost s) by exact (same_reqs lost _ _ Hss).
  pose proof (ss_dom _ _ Hss) as Hdom; change (coro_array (s' <| coro_tail := coro_tail s |>)) with (coro_array s') in Hdom.
  pose proof (si_ring _ _ _ Hi) as Hr. split; rewrite ?Hrq.
  - apply (ring_remove s s' _ c _ p); auto; [apply Hdom, Hr|exact (ss_head _ _ Hss)].
  - etransitivity; [|symmetry; exact (ss_len _ _ Hss)]. rewrite <- (si_len _ _ _ Hi). f_equal. exact (ss_count _ _ Hss).
  - destruct l2; cbn; [by left|set_solver].
  - etransitivity; [|apply Hi]. by rewrite <- (ss_pend _ _ Hss).
  - intros d n Hd. apply (si_count _ _ _ Hi). by rewrite <- (ss_count _ _ Hss).
  - intros d Hd. by apply Hdom, (si_ids _ _ _ Hi).
  - intros d Hd Ho. rewrite Hw. destruct (decide (d = c)) as [->|Hdc]; [by split|].
    apply (si_out _ _ _ Hi); [by apply Hdom|set_solver].
  - intros d Hd Hne. destruct Hr as [Hn _ _ _]. apply (si_in _ _ _ Hi); [set_solver|]. rewrite Hcur. intros ->.
    apply NoDup_cons in Hn as [_ Hn]. apply NoDup_app in Hn as (_ & Hn1 & Hn2). apply NoDup_cons in Hn2 as [Hn2 _].
    apply elem_of_app in Hd as [Hd|Hd]; [apply (Hn1 c); [done|by left]|done].
Qed.

Lemma Yield_wp l1 c l2 lost s :
  sched_inv (l1 ++ c :: l2) lost s -> s_cur s = c -> c ∈ (reqs lost s).*2 ->
  wp (Yield c) (fun _ s' => sched_inv (l1 ++ l2) lost s' /\ s_cur s' = hd 0 l2 /\ s_rdma s' = s_rdma s) s.
Proof.
  intros Hi Hcur Hc. pose proof (si_ring _ _ _ Hi) as Hr.
  destruct (ring_node _ _ _ _ Hr) as (p & Hs1 & Hp & Hnc & _ & _ & Hl2).
  assert (Hpr : is_Some (zlookup (coro_array s) p)).
  { apply (ring_some _ _ _ Hr). apply seg_end in Hs1. set_solver. }
  assert (Hnr : is_Some (zlookup (coro_array s) (hd 0 l2))).
  { apply (ring_some _ _ _ Hr). destruct l2; cbn; set_solver. }
  pose proof (si_ids _ _ _ Hi _ Hc) as Hcr. unfold Yield. wp_step. eapply sched_count; [done..|].
  apply occ_pos in Hc as Ho. rewrite (proj2 (Z.eqb_neq _ _)) by lia. wp_step. unfold get_coro. do 2 wp_step.
  destruct Hcr as [co Hco]. eapply wp_deref; [exact Hco|]. pose proof (si_awake _ _ _ Hi) as Hw.
  unfold waits, nxt, prv in Hw, Hnc, Hp. rewrite ?Hcur, Hco in Hw. rewrite Hco in Hnc, Hp. cbn in Hw, Hnc, Hp.
  injection Hw as Hw. rewrite Hw. do 2 wp_step; [done|]. wp_step. eapply wp_deref; [exact Hnc|].
  wp_step. eapply wp_deref; [exact Hp|]. wp_step. apply wp_set_next; [done|]. intros s1 S1 N1 P1 W1.
  wp_step. apply wp_set_prev; [by apply (ss_dom _ _ S1)|]. intros s2 S2 P2 N2 W2. wp_step.
  pose proof (same_trans _ _ _ S1 S2) as S12. apply (wp_fix_tail _ c p). intros s3 S3 T3 N3 P3 W3.
  assert (S13 : same_but_tail s s3).
  { unfold same_but_tail in *. rewrite <- (ss_tail _ _ S12). by eapply same_trans. }
  wp_step. apply wp_set_wait; [apply (ss_dom _ _ S13); by eexists|]. intros s4 S4 W4 N4 P4.
  eapply wp_mono; [apply (RunCoroutine_wp (l1 ++ l2) lost)|].
  - eapply (yield_ready _ c); [done..| |by eapply same_tail_trans| | | |].
    + unfold prv. by rewrite Hco.
    + by rewrite (ss_tail _ _ S4), T3, (ss_tail _ _ S12).
    + intros z. by rewrite N4, N3, N2, N1.
    + intros z. by rewrite P4, P3, P2, P1.
    + intros z. by rewrite W4, W3, W2, W1.
  - intros [] s' (H1 & H2 & H3). split_and!; [done..|]. rewrite H3, (ss_rdma _ _ S4). exact (ss_rdma _ _ S13).
Qed.
(** ** Polling *)
Lemma same_tail_set s s1 s2 o :
  same_sched s s1 -> same_sched (s1 <| coro_tail := o |>) s2 -> same_but_tail s s2.
Proof.
  intros H1 H2. split; [|exact (eq_trans (ss_len _ _ H2) (ss_len _ _ H1))|exact (eq_trans (ss_head _ _ H2) (ss_head _ _ H1))
    |done|exact (eq_trans (ss_pend _ _ H2) (ss_pend _ _ H1))|exact (eq_trans (ss_count _ _ H2) (ss_count _ _ H1))
    |exact (eq_trans (ss_cur _ _ H2) (ss_cur _ _ H1))|exact (eq_trans (ss_rdma _ _ H2) (ss_rdma _ _ H1))].
  intros z. rewrite (ss_dom _ _ H1). exact (ss_dom _ _ H2 z).
Qed.
Lemma AppendCoroutine_wp E rest c s :
  ring s rest -> c ∉ 0 :: rest -> waits s c = Some true ->
  wpe E (AppendCoroutine c) (fun _ s' => same_but_tail s s' /\ ring s' (rest ++ [c]) /\
    (forall z, waits s' z = waits s z)) s.
Proof.
  intros Hr Hc Hw. unfold AppendCoroutine, get_coro. do 3 wp_step. unfold waits in Hw.
  apply fmap_Some in Hw as (co & Hco & Hw). eapply wp_deref; [exact Hco|]. symmetry in Hw.
  rewrite Hw. cbn. do 3 wp_step. destruct (ri_tail _ _ Hr) as (t & Ht & Hs & Hz). eapply wp_deref; [exact Ht|].
  assert (Htr : is_Some (zlookup (coro_array s) t)) by (by eapply ring_some, seg_end).
  wp_step. apply wp_set_next; [done|]. intros s1 S1 N1 P1 W1. do 5 wp_step. apply wp_set_next.
  { apply (ss_dom _ _ S1). by eexists. }
  intros s2 S2 N2 P2 W2. apply wp_set_prev.
  { apply (ss_dom _ _ S2), (ss_dom _ _ S1). by eexists. }
  intros s3 S3 P3 N3 W3. pose proof (same_trans _ _ _ S2 S3) as S23.
  pose proof (same_tail_set _ _ _ _ S1 S23) as Hsame.
  split; [done|]. split; [|intros z; rewrite W3, W2; exact (W1 z)].
  apply (ring_append s _ _ _ t); try done.
  - intros z. rewrite N3, N2. rsimp. rewrite (ss_head _ _ S1), (ri_head _ _ Hr). case_decide; [done|]. exact (N1 z).
  - intros z. rewrite P3, P2. case_decide; [done|]. exact (P1 z).
  - exact (ss_head _ _ Hsame).
  - by rewrite (ss_tail _ _ S23).
  - apply (ss_dom _ _ Hsame), Hr.
Qed.

(** The same requests count: some of them moved from the library to [lost]. *)
Lemma inv_perm rest lost lost' s n :
  sched_inv rest lost s -> rl_out n ++ lost' ≡ₚ reqs lost s -> sched_inv rest lost' (s <| s_rdma := n |>).
Proof.
  intros [Hr ??? Hp Hc Hd Ho Hin] Hn. split; unfold reqs in *; rsimp; rewrite ?Hn; try done; [by apply (ring_ext s)|..].
  - intros c m Hm. rewrite (occ_perm _ _ _ Hn). by apply Hc.
  - intros c. rewrite Hn. apply Hd.
  - intros c H1 H2. rewrite Hn. by apply Ho.
  - intros c H1 H2. rewrite Hn. by apply Hin.
Qed.

(** A request of [c], which waits, is done: [c] is in the ring again when it was
    the last one. *)
Lemma wake_inv rest lost s s' q c :
  sched_inv rest lost s -> s_cur s = 0 -> c <> 0 -> reqs lost s ≡ₚ (q, c) :: reqs lost s' ->
  same_sched s (s' <| coro_tail := coro_tail s |> <| pending_qps := pending_qps s |>
    <| pending_counts := pending_counts s |> <| s_rdma := s_rdma s |>) ->
  (forall z, waits s' z = waits s z) -> pending_counts s' = zinsert c (occ c (reqs lost s')) (pending_counts s) ->
  pending_qps s' ≡ₚ (reqs lost s').*1 ->
  let rest' := if occ c (reqs lost s') =? 0 then rest ++ [c] else rest in
  ring s' rest' -> sched_inv rest' lost s'.
Proof.
  intros Hi Hcur Hc0 Hp Hss Hw Hpc Hpq rest' Hr.
  pose proof (ss_dom _ _ Hss) as Hdom; pose proof (ss_cur _ _ Hss) as Hcur'; pose proof (ss_len _ _ Hss) as Hlen.
  rsimp in Hdom. rsimp in Hcur'. rsimp in Hlen.
  assert (Hmono : forall d, d ∈ (reqs lost s').*2 -> d ∈ (reqs lost s).*2) by (intros d; rewrite Hp; cbn; by right).
  assert (Hrest : forall d, d ∈ rest -> d ∈ rest').
  { intros d Hd. unfold rest'. case_match; [|done]. apply elem_of_app. by left. }
  split; [done|..].
  - by rewrite Hpc, zlength_zinsert, Hlen, (si_len _ _ _ Hi).
  - rewrite Hcur', Hcur. by left.
  - rewrite Hcur', Hw. apply Hi.
  - done.
  - intros d n. rewrite Hpc. destruct (decide (c = d)) as [<-|Hd]; intros Hl.
    + rewrite zlookup_zinsert_eq in Hl; [by injection Hl|].
      apply zlookup_lt in Hl. by rewrite zlength_zinsert in Hl.
    + rewrite zlookup_zinsert_ne in Hl by done.
      rewrite (si_count _ _ _ Hi _ _ Hl), (occ_perm _ _ _ Hp), occ_cons, decide_False by done. lia.
  - intros d Hd. by apply Hdom, (si_ids _ _ _ Hi), Hmono.
  - intros d Hd Ho. rewrite Hw.
    destruct (si_out _ _ _ Hi d) as [Hwd Hin]; [by apply Hdom|set_solver|]. split; [done|].
    rewrite Hp in Hin. cbn in Hin. apply elem_of_cons in Hin as [->|Hin]; [|done].
    unfold rest' in Ho. case_match eqn:Hz; [set_solver|]. apply occ_pos. apply Z.eqb_neq in Hz. unfold occ in *. lia.
  - intros d Hd Hne Hin. rewrite Hcur', Hcur in Hne.
    destruct (decide (d ∈ rest)) as [Hdr|Hdr].
    + apply (si_in _ _ _ Hi d); [done|by rewrite Hcur|by apply Hmono].
    + unfold rest' in Hd. case_match eqn:Hz; [|done]. apply elem_of_app in Hd as [?|Hd]; [done|].
      apply list_elem_of_singleton in Hd as ->. apply occ_pos in Hin. apply Z.eqb_eq in Hz. lia.
Qed.
Lemma completes_reqs q c out out' lost : completes q c out out' -> out ++ lost ≡ₚ (q, c) :: (out' ++ lost).
Proof.
  intros (l1 & l2 & -> & _ & ->). symmetry. exact (Permutation_app_tail lost (Permutation_middle l1 l2 (q, c))).
Qed.
Lemma count_at rest lost s c :
  sched_inv rest lost s -> is_Some (zlookup (coro_array s) c) -> zlookup (pending_counts s) c = Some (occ c (reqs lost s)).
Proof.
  intros Hi [co Hl]. apply zlookup_lt in Hl. rewrite <- (si_len _ _ _ Hi) in Hl.
  apply zlookup_is_Some in Hl as [m Hm]. by rewrite Hm, (si_count _ _ _ Hi _ _ Hm).
Qed.
(** The body of the loop after a completion of [c]: [kept ++ todo] are the
    entries that stay. *)
Lemma wake_wp E rest lost s n q c kept todo kont (Q : unit -> Sched -> Prop) :
  sched_inv rest lost s -> s_cur s = 0 -> c <> 0 -> completes q c (rl_out (s_rdma s)) (rl_out n) ->
  pending_qps s = kept ++ q :: todo ->
  (forall more s', sched_inv (rest ++ more) lost s' -> s_cur s' = 0 -> s_rdma s' = n ->
    pending_qps s' = kept ++ todo -> wpe E kont Q s') ->
  wpe E (n ← get_count c; assert_ (0 <? n) "PollCompletion: pending_counts";;
    add_count c (-1);; when (n - 1 =? 0) (AppendCoroutine c);;
    modify (fun s => s <| pending_qps := kept ++ todo |>);; kont) Q (s <| s_rdma := n |>).
Proof.
  intros Hi Hcur Hc0 Hco Hpe HQ.
  assert (Hp : reqs lost s ≡ₚ (q, c) :: (rl_out n ++ lost)) by by apply completes_reqs.
  set (k := occ c (rl_out n ++ lost)). assert (Hk : occ c (reqs lost s) = k + 1).
  { rewrite (occ_perm _ _ _ Hp), occ_cons, decide_True by done. unfold k. lia. }
  assert (Hk0 : 0 <= k) by (unfold k, occ; lia).
  assert (Hin : c ∈ (reqs lost s).*2) by (apply occ_pos; lia).
  pose proof (si_ids _ _ _ Hi _ Hin) as Hcr.
  assert (Hnot : c ∉ 0 :: rest) by (intros [?|Hr]%elem_of_cons; [done|]; apply (si_in _ _ _ Hi c); [done|by rewrite Hcur|done]).
  destruct (si_out _ _ _ Hi c Hcr Hnot) as [Hw _].
  pose proof (count_at _ _ _ _ Hi Hcr) as Hm. rewrite Hk in Hm. unfold add_count, get_count.
  do 3 wp_step. eapply wp_deref; [exact Hm|]. do 2 wp_step; [apply Z.ltb_lt; lia|]. do 4 wp_step.
  eapply wp_deref; [exact Hm|]. wp_step. wp_step. replace (k + 1 + -1) with k by lia. replace (k + 1 - 1) with k by lia.
  set (s2 := update pending_counts _ _). assert (Hr2 : ring s2 rest) by (apply (ring_ext s); [apply Hi|done..]).
  eapply (wp_mono _ (fun _ s3 => same_but_tail s2 s3 /\ ring s3 (if k =? 0 then rest ++ [c] else rest) /\
    (forall z, waits s3 z = waits s2 z))).
  { apply wp_when; intros ->; [by apply AppendCoroutine_wp|]. by split_and!. }
  intros [] s3 (H3 & Hr3 & Hw3). do 2 wp_step.
  set (s' := update pending_qps _ s3). assert (Hrd : s_rdma s' = n) by exact (ss_rdma _ _ H3).
  assert (Hrq : reqs lost s' = rl_out n ++ lost) by (unfold reqs; by rewrite Hrd).
  assert (Hr' : ring s' (if occ c (reqs lost s') =? 0 then rest ++ [c] else rest)).
  { rewrite Hrq. by apply (ring_ext s3). }
  apply (HQ (if occ c (reqs lost s') =? 0 then [c] else [])); [|exact (eq_trans (ss_cur _ _ H3) Hcur)|done..].
  replace (rest ++ _) with (if occ c (reqs lost s') =? 0 then rest ++ [c] else rest)
    by (case_match; [done|by rewrite app_nil_r]).
  apply (wake_inv rest lost s s' q c); [done..|by rewrite Hrq| | | | |exact Hr'].
  - split; first [exact (ss_dom _ _ H3)|exact (ss_len _ _ H3)|exact (ss_head _ _ H3)|exact (ss_cur _ _ H3)|done].
  - exact Hw3.
  - rewrite Hrq. exact (ss_count _ _ H3).
  - rewrite Hrq. change (pending_qps s') with (kept ++ todo). apply (Permutation_cons_inv (a := q)).
    rewrite Permutation_middle, <- Hpe, (si_pend _ _ _ Hi), Hp. done.
Qed.

(** What is known of the library's answers: [good] is kept by polling, and when
    it holds every completion has arrived, without error. *)
Section Poll.
Context (good : Rn -> Prop).
Hypothesis good_poll : forall q n r wc n', good n -> poll_send_completion q n = ((r, wc), n') ->
  good n' /\ (q ∈ (rl_out n).*1 -> r <> 0 /\ wc_stat wc = WcSuccess).

(** What is lost is what polling has reported with a retry error, besides requests
    of coroutine 0. *)
Definition of_others (l : list (Z * Z)) : list (Z * Z) := filter (fun x => x.2 <> 0) l.
Definition lost_failed (lost : list (Z * Z)) (n : Rn) : Prop := of_others lost ≡ₚ of_others (rl_failed n).

(** After the loop, which began with the library in state [n0]; [G] says that the
    library is good. *)
Record polled (G : Prop) (rest : list Z) (lost : list (Z * Z)) (n0 : Rn) (s' : Sched) : Prop := {
  po_inv : exists more lost', sched_inv (rest ++ more) (lost' ++ lost) s' /\ (G -> forall x, x ∈ lost' -> x.2 = 0) /\
    (lost_failed lost n0 -> lost_failed (lost' ++ lost) (s_rdma s'));
  po_cur : s_cur s' = 0;
  po_good : G -> good (s_rdma s') /\ forall q, q ∈ pending_qps s' -> q ∉ (rl_out (s_rdma s')).*1;
}.
Lemma polled_trans (G : Prop) rest lost more1 lost1 n0 n1 s' :
  (G -> forall x, x ∈ lost1 -> x.2 = 0) -> (lost_failed lost n0 -> lost_failed (lost1 ++ lost) n1) ->
  polled G (rest ++ more1) (lost1 ++ lost) n1 s' -> polled G rest lost n0 s'.
Proof.
  intros Hg Hlf [(more & lost' & Hi & Hz & Hf) Hc Hg']. split; [|done|done].
  exists (more1 ++ more), (lost' ++ lost1). rewrite <- !app_assoc in *. split; [done|]. split; [|by auto].
  intros H x [Hx|Hx]%elem_of_app; naive_solver.
Qed.
Lemma completes_sub q c out out' :
  completes q c out out' ->
  (forall x, x ∈ out'.*1 -> x ∈ out.*1) /\ q ∈ out.*1 /\ length out = S (length out').
Proof.
  intros (l1 & l2 & -> & _ & ->). rewrite !fmap_app, !length_app. cbn.
  split; [set_solver|]. split; [set_solver|lia].
Qed.

(** The loop goes on from [s1], which it has reached from a state [s]. *)
Record at_loop (E : err -> Prop) (G : Prop) (fuel : nat) (kept todo rest : list Z) (lost : list (Z * Z)) (s : Sched) : Prop := {
  al_err : E (EThrow "abort") \/ G;
  al_good : G -> good (s_rdma s);
  al_inv : sched_inv rest lost s;
  al_cur : s_cur s = 0;
  al_pend : pending_qps s = kept ++ todo;
  al_kept : G -> forall q, q ∈ kept -> q ∉ (rl_out (s_rdma s)).*1;
  al_fuel : (length todo + length (rl_out (s_rdma s)) <= fuel)%nat;
}.
Lemma sched_poll_loop_wp E G fuel kept todo rest lost s :
  at_loop E G fuel kept todo rest lost s -> wpe E (poll_loop fuel kept todo) (fun _ => polled G rest lost (s_rdma s)) s.
Proof.
  revert kept todo rest lost s. induction fuel as [|fuel IH]; intros kept [|q todo] rest lost s [HE Hgd Hi Hcur Hpe Hk Hf];
    cbn [poll_loop]; try (cbn in Hf; lia).
  1,2: apply wp_ret; rewrite app_nil_r in Hpe; split; [|done|by rewrite Hpe; auto];
    exists [], []; rewrite app_nil_r; by split_and!; [|set_solver|].
  wp_step. apply wp_rdma. intros [r wc] n Hn. pose proof (rl_poll q (s_rdma s)) as Hq. rewrite Hn in Hq.
  pose proof (rl_failed_poll q (s_rdma s)) as Hfl. rewrite Hn in Hfl.
  assert (Hg : G -> good n /\ (q ∈ (rl_out (s_rdma s)).*1 -> r <> 0 /\ wc_stat wc = WcSuccess))
    by (intros H; by apply (good_poll q (s_rdma s)); auto).
  cbn in Hf. destruct (Z.eqb_spec r 0) as [Hr|Hr].
  - (* nothing arrived *)
    eapply wp_mono; [|intros a s'; apply (polled_trans G rest lost [] [] (s_rdma s) n)]; [|set_solver|].
    2:{ intros H. unfold lost_failed in *. rewrite Hfl. subst r. cbn [app]. by destruct (wc_stat wc). }
    rewrite app_nil_r. apply IH. split; rsimp; rewrite ?Hq; try done; [naive_solver|by apply inv_rdma|by rewrite Hpe, <- app_assoc| |lia].
    intros H q' [?|Hq1]%elem_of_app; [naive_solver|]. apply list_elem_of_singleton in Hq1 as ->. naive_solver.
  - destruct (completes_sub _ _ _ _ Hq) as (Hsub & Hin & Hlen).
    assert (Hlost : sched_inv rest ([(q, wc_wr_id wc)] ++ lost) (s <| s_rdma := n |>)).
    { apply (inv_perm rest lost); [done|]. unfold reqs. rewrite (completes_reqs _ _ _ _ _ Hq).
      cbn. by rewrite Permutation_middle. }
    destruct (wc_stat wc).
    + destruct (Z.eqb_spec (wc_wr_id wc) 0) as [Hc|Hc].
      * (* coroutine 0 *)
        eapply wp_mono; [|intros a s'; apply (polled_trans G rest lost [] [(q, wc_wr_id wc)] (s_rdma s) n)]; [|set_solver|].
        2:{ intros H. unfold lost_failed, of_others in *. rewrite Hfl. cbn [app].
            rewrite filter_cons_False by (cbn; by intros []). done. }
        apply IH. rewrite app_nil_r. split; rsimp; try done; [naive_solver|naive_solver|cbn; lia].
      * eapply (wake_wp _ rest lost s n q); try done. intros more s1 Hi1 Hc1 Hn1 Hp1.
        eapply wp_mono; [|intros a s'; apply (polled_trans G rest lost more [] (s_rdma s) n)]; [|set_solver|].
        2:{ intros H. unfold lost_failed in *. by rewrite Hfl. }
        rewrite <- Hn1. apply IH. split; rewrite ?Hn1; try done; [naive_solver|naive_solver|lia].
    + (* an error that is passed over *)
      eapply wp_mono; [|intros a s'; apply (polled_trans G rest lost [] [(q, wc_wr_id wc)] (s_rdma s) n)]; [|naive_solver|].
      2:{ intros H. unfold lost_failed, of_others in *. rewrite Hfl. cbn [app].
          cbn [filter list_filter]. repeat case_decide; by rewrite ?H. }
      apply IH. rewrite app_nil_r. split; rsimp; try done; [naive_solver|by rewrite Hpe, <- app_assoc|naive_solver|lia].
    + apply wp_fail. naive_solver.
Qed.
End Poll.
End Props.
