(* ===== verification/SchedRun.v ===== *)
(** * Runs of the scheduler

    Linking the coroutines, the steps of a thread, and what holds in every state
    that they reach. *)
From S2P Require Import Prelude Scheduler SchedProps.

Section Run.
Context {L : RLib} {LOk : RLibOk L}.

(** ** Linking *)
Definition linked_from (s s' : Sched) (l : list Z) : Prop :=
  same_sched s s' /\ (forall z, waits s' z = waits s z) /\
  forall z, z ∈ l -> nxt s' z = Some (z + 1) /\ prv s' z = Some (z - 1).

Lemma seg_seq s k m :
  (forall i, k <= i < k + Z.of_nat m -> nxt s i = Some (i + 1) /\ prv s (i + 1) = Some i) -> 0 <= k ->
  seg s k (Z.of_nat <$> seq (S (Z.to_nat k)) m) (k + Z.of_nat m).
Proof.
  revert k. induction m as [|m IH]; intros k H Hk; cbn [seq fmap list_fmap seg]; [lia|].
  replace (Z.of_nat (S (Z.to_nat k))) with (k + 1) by lia. destruct (H k) as [H1 H2]; [lia|]. split; [done|]. split; [done|].
  replace (S (S (Z.to_nat k))) with (S (Z.to_nat (k + 1))) by lia.
  replace (k + Z.of_nat (S m)) with (k + 1 + Z.of_nat m) by lia. apply IH; [|lia]. intros i Hi. apply H. lia.
Qed.

Lemma elem_seq z n : 0 <= z < Z.of_nat n -> z ∈ Z.of_nat <$> seq 0 n.
Proof. intros Hz. apply list_elem_of_fmap. exists (Z.to_nat z). split; [lia|]. apply elem_of_seq. lia. Qed.

Lemma link_loop E (n : nat) s :
  (forall z, 0 <= z < Z.of_nat n -> is_Some (zlookup (coro_array s) z)) ->
  wpe E (miter (fun i => upd_coro i (fun co => co <| prev_coro := Some (i - 1) |> <| next_coro := Some (i + 1) |>))
    (Z.of_nat <$> seq 0 n)) (fun _ s' => linked_from s s' (Z.of_nat <$> seq 0 n)) s.
Proof.
  intros Hd. apply (wp_miter _ (fun l s' => linked_from s s' l)); [by split_and!; [|done|intros ? ?%elem_of_nil]|].
  intros l i l' s1 Hl (Hss & Hw & Hn). apply wp_upd_coro.
  { apply (ss_dom _ _ Hss), Hd. assert (Hi : i ∈ Z.of_nat <$> seq 0 n) by (rewrite Hl; set_solver).
    apply list_elem_of_fmap in Hi as (j & -> & Hj). apply elem_of_seq in Hj. lia. }
  intros s' H. split; [by eapply same_trans, ur_same|]. destruct (Hd i) as [co Hco].
  { assert (Hi : i ∈ Z.of_nat <$> seq 0 n) by (rewrite Hl; set_solver).
    apply list_elem_of_fmap in Hi as (j & -> & Hj). apply elem_of_seq in Hj. lia. }
  assert (Hs1 : is_Some (zlookup (coro_array s1) i)) by (apply (ss_dom _ _ Hss); by eexists).
  destruct Hs1 as [co1 Hco1]. split.
  - intros z. rewrite <- Hw. unfold waits. rewrite (ur_at _ _ _ _ H). case_decide; [subst|done]. by rewrite Hco1.
  - intros z Hz. unfold nxt, prv. rewrite (ur_at _ _ _ _ H). case_decide; [subst; by rewrite Hco1|].
    apply Hn. apply elem_of_app in Hz as [?|Hz%list_elem_of_singleton]; done.
Qed.

(** The ring of all coroutines, from the fields that [LoopLinkCoroutine] sets. *)
Lemma linked_ring s (n : nat) :
  (0 < n)%nat -> coro_head s = Some 0 -> coro_tail s = Some (Z.of_nat n - 1) ->
  (forall z, 0 <= z < Z.of_nat n -> is_Some (zlookup (coro_array s) z) /\
    nxt s z = (if decide (z = Z.of_nat n - 1) then Some 0 else Some (z + 1)) /\
    (z <> 0 -> prv s z = Some (z - 1))) ->
  ring s (Z.of_nat <$> seq 1 (n - 1)).
Proof.
  intros Hn Hh Ht H. split; [|done| |apply H; lia].
  - change (NoDup (Z.of_nat <$> seq 0 (S (n - 1)))). apply NoDup_fmap; [exact Nat2Z.inj|apply NoDup_seq].
  - exists (Z.of_nat n - 1). split; [done|]. split.
    + replace (Z.of_nat n - 1) with (0 + Z.of_nat (n - 1)) by lia. apply (seg_seq s 0); [|done].
      intros i Hi. destruct (H i) as (_ & -> & _); [lia|]. rewrite decide_False by lia.
      destruct (H (i + 1)) as (_ & _ & Hpv); [lia|]. rewrite Hpv by lia. split; [done|f_equal; lia].
    + destruct (H (Z.of_nat n - 1)) as (_ & -> & _); [lia|]. by rewrite decide_True.
Qed.

Lemma new_lookup n rn z : 0 <= z < Z.of_nat n ->
  zlookup (coro_array (CoroutineScheduler_new (Z.of_nat n) rn)) z = Some Coroutine_new.
Proof.
  intros Hz. unfold CoroutineScheduler_new, zlookup. cbn. rewrite (proj2 (Z.leb_le _ _)) by lia.
  apply lookup_replicate_2. lia.
Qed.
Lemma new_range n rn z : is_Some (zlookup (coro_array (CoroutineScheduler_new (Z.of_nat n) rn)) z) -> 0 <= z < Z.of_nat n.
Proof.
  intros [co H]. apply zlookup_lt in H. unfold zlength in H. cbn in H. rewrite length_replicate in H. lia.
Qed.
Lemma new_count n rn z k : zlookup (pending_counts (CoroutineScheduler_new (Z.of_nat n) rn)) z = Some k -> k = 0.
Proof.
  unfold zlookup, CoroutineScheduler_new; cbn. case_match; [|done]. intros Hk. by apply lookup_replicate in Hk as [-> _].
Qed.

Lemma LoopLinkCoroutine_wp (n : nat) rn :
  (0 < n)%nat -> rl_out rn = [] ->
  wp (LoopLinkCoroutine (Z.of_nat n)) (fun _ s' => sched_inv (Z.of_nat <$> seq 1 (n - 1)) [] s' /\ s_cur s' = 0 /\ s_rdma s' = rn)
    (CoroutineScheduler_new (Z.of_nat n) rn).
Proof.
  intros Hn Hrn. set (s := CoroutineScheduler_new _ _). unfold LoopLinkCoroutine. rewrite Nat2Z.id. wp_step.
  assert (Hnew : forall z, 0 <= z < Z.of_nat n -> zlookup (coro_array s) z = Some Coroutine_new) by exact (new_lookup n rn).
  eapply wp_mono; [apply link_loop; intros z Hz; by eexists; apply Hnew|].
  intros [] s1 (S1 & W1 & L1). do 2 wp_step. set (s1' := update coro_tail _ _). wp_step.
  assert (Hdom : forall z, 0 <= z < Z.of_nat n -> is_Some (zlookup (coro_array s1') z)).
  { intros z Hz. apply (ss_dom _ _ S1). eexists. by apply Hnew. }
  apply wp_set_prev; [apply Hdom; lia|]. intros s2 S2 P2 N2 W2.
  apply wp_set_next; [apply (ss_dom _ _ S2), Hdom; lia|]. intros s3 S3 N3 P3 W3.
  pose proof (same_trans _ _ _ S2 S3) as S23.
  assert (Hrd : s_rdma s3 = rn) by exact (eq_trans (ss_rdma _ _ S23) (ss_rdma _ _ S1)).
  assert (Hc : s_cur s3 = 0) by exact (eq_trans (ss_cur _ _ S23) (ss_cur _ _ S1)).
  assert (Hq : reqs [] s3 = []) by (unfold reqs; by rewrite Hrd, Hrn).
  assert (Hwt : forall z, 0 <= z < Z.of_nat n -> waits s3 z = Some false).
  { intros z Hz. rewrite W3, W2. change (waits s1' z) with (waits s1 z). rewrite W1. unfold waits. by rewrite Hnew. }
  split; [|by split].
  assert (Hr : ring s3 (Z.of_nat <$> seq 1 (n - 1))).
  { apply (linked_ring _ n); [done|exact (ss_head _ _ S23)|exact (ss_tail _ _ S23)|]. intros z Hz.
    destruct (L1 z (elem_seq _ _ Hz)) as [Hn1 Hp1].
    split; [by apply (ss_dom _ _ S23), Hdom|]. split; [rewrite N3, N2; case_decide; [done|exact Hn1]|].
    intros Hz0. rewrite P3, P2, decide_False by done. exact Hp1. }
  split; [done|..]; rewrite ?Hq, ?Hc.
  - rewrite (ss_count _ _ S23), (ss_len _ _ S23). change (coro_array s1') with (coro_array s1).
    rewrite (ss_len _ _ S1). change (pending_counts s1') with (pending_counts s1). rewrite (ss_count _ _ S1).
    unfold zlength; cbn. by rewrite !length_replicate.
  - by left.
  - apply Hwt. lia.
  - rewrite (ss_pend _ _ S23). change (pending_qps s1') with (pending_qps s1). by rewrite (ss_pend _ _ S1).
  - intros c k Hk. rewrite (ss_count _ _ S23) in Hk. change (pending_counts s1') with (pending_counts s1) in Hk.
    rewrite (ss_count _ _ S1) in Hk. by apply new_count in Hk as ->.
  - by intros c ?%elem_of_nil.
  - intros c Hcd []. apply (ss_dom _ _ S23), (ss_dom _ _ S1), new_range in Hcd.
    change (0 :: (Z.of_nat <$> seq 1 (n - 1))) with (Z.of_nat <$> seq 0 (S (n - 1))).
    apply elem_seq. lia.
  - by intros c _ _ ?%elem_of_nil.
Qed.

(** ** A thread's steps *)

(** The coroutine that runs posts requests and gives way; coroutine 0 polls and
    runs the others. *)
Inductive sched_op :=
  | OpPost (qp : Z) (r : rdma_req)
  | OpBatch (qp : Z) (send_sr : list send_sr_t) (doorbell_num : Z)
  | OpBatchSync (qp : Z) (send_sr : list send_sr_t) (doorbell_num : Z)
  | OpReadSync (qp local remote_offset size : Z)
  | OpYield
  | OpPoll (fuel : nat)
  | OpRun (c : Z).
Definition run_op (o : sched_op) : M Sched unit :=
  cur ← gets s_cur;
  match o with
  | OpPost q (RqWrite l ro sz) => RDMAWrite cur q l ro sz;; mret tt
  | OpPost q (RqWriteMr l ro sz lm rm) => RDMAWrite_mr cur q l ro sz lm rm;; mret tt
  | OpPost q (RqRead l ro sz) => RDMARead cur q l ro sz;; mret tt
  | OpPost q (RqCas l ro cmp sw) => RDMACAS cur q l ro cmp sw;; mret tt
  | OpBatch q l d => RDMABatch cur q l d;; mret tt
  | OpBatchSync q l d => RDMABatchSync cur q l d;; mret tt
  | OpReadSync q l ro sz => RDMAReadSync cur q l ro sz;; mret tt
  | OpYield => Yield cur
  | OpPoll fuel => PollCompletion fuel
  | OpRun c => RunCoroutine c
  end.
(** How the scheduler is meant to be used. A synchronous request needs a queue
    pair with nothing under way: it takes the first completion it sees. *)
Definition legal (s : Sched) (o : sched_op) : Prop :=
  match o with
  | OpPost _ _ => True
  | OpBatch _ l d => one_signaled l d
  | OpBatchSync q l d => one_signaled l d /\ q ∉ (rl_out (s_rdma s)).*1
  | OpReadSync q _ _ _ => q ∉ (rl_out (s_rdma s)).*1
  | OpYield => s_cur s <> 0
  | OpPoll fuel => s_cur s = 0 /\ (length (pending_qps s) + length (rl_out (s_rdma s)) <= fuel)%nat
  | OpRun c => s_cur s = 0 /\ (c = 0 \/ exists rest, ring s rest /\ c ∈ rest)
  end.
Inductive reach (n : nat) : Sched -> Prop :=
  | reach_start rn s : (0 < n)%nat -> rl_out rn = [] -> rl_failed rn = [] ->
      LoopLinkCoroutine (Z.of_nat n) (CoroutineScheduler_new (Z.of_nat n) rn) = Ok tt s -> reach n s
  | reach_step s o s' : reach n s -> legal s o -> run_op o s = Ok tt s' -> reach n s'.

Definition aborts (e : err) : Prop := e = EThrow "abort".
(** The invariant, where the lost requests are exactly those whose completion a
    poll found to be IBV_WC_RETRY_EXC_ERR (and some of coroutine 0's). *)
Definition some_inv (s : Sched) : Prop := exists rest lost, sched_inv rest lost s /\ lost_failed lost (s_rdma s).

Lemma seg_unique s x l1 l2 t1 t2 :
  seg s x l1 t1 -> seg s x l2 t2 -> nxt s t1 = Some 0 -> nxt s t2 = Some 0 -> 0 ∉ l1 -> 0 ∉ l2 -> l1 = l2.
Proof.
  revert x l2. induction l1 as [|a l1 IH]; intros x [|b l2]; cbn [seg]; intros Hs1 Hs2 Hz1 Hz2 H1 H2; [done|..].
  - destruct Hs2 as [E _]. subst x. rewrite Hz1 in E. injection E as <-. destruct H2. by left.
  - destruct Hs1 as [E _]. subst x. rewrite Hz2 in E. injection E as <-. destruct H1. by left.
  - destruct Hs1 as (E1 & _ & Hs1), Hs2 as (E2 & _ & Hs2). rewrite E1 in E2. injection E2 as <-. f_equal.
    apply (IH a l2); (done || set_solver).
Qed.
Lemma ring_unique s r1 r2 : ring s r1 -> ring s r2 -> r1 = r2.
Proof.
  intros [Hn1 _ (t1 & _ & Hs1 & Hz1) _] [Hn2 _ (t2 & _ & Hs2 & Hz2) _].
  apply NoDup_cons in Hn1 as [H1 _]. apply NoDup_cons in Hn2 as [H2 _]. by apply (seg_unique s 0 r1 r2 t1 t2).
Qed.

(** What does not poll reports no failures. *)
Abbreviation no_report s := (fun _ s' => rl_failed (s_rdma s') = rl_failed (s_rdma s)).
Lemma post_send_no_report E q r c s : wpe E (rdma (post_send q r c)) (no_report s) s.
Proof. apply wp_rdma. intros ok n Hn. pose proof (rl_failed_post q r c (s_rdma s)) as H. by rewrite Hn in H. Qed.
Lemma AddPendingQP_no_report c q s0 s :
  rl_failed (s_rdma s) = rl_failed (s_rdma s0) -> wpe any_err (AddPendingQP c q) (no_report s0) s.
Proof.
  intros H. unfold AddPendingQP, add_count, get_count. do 4 wp_step. apply wp_any_deref. intros n _. wp_step. exact H.
Qed.
Lemma post_async_no_report c q r s : wpe any_err (post_async c q r) (no_report s) s.
Proof.
  unfold post_async. wp_step. eapply wp_mono; [apply post_send_no_report|]. intros [] s1 H1; cbn [negb].
  - wp_step. eapply wp_mono; [by apply (AddPendingQP_no_report c q s)|]. intros ? s2 H2. by wp_step.
  - by wp_step.
Qed.
Lemma post_doorbell_no_report c q l d s : wpe any_err (post_doorbell c q l d) (no_report s) s.
Proof.
  unfold post_doorbell. wp_step. apply wp_any_deref. intros w _. apply wp_rdma. intros ok n Hn.
  pose proof (rl_failed_batch q (zinsert d (w <| sr_wr_id := c |>) l) (s_rdma s)) as H. by rewrite Hn in H.
Qed.
Lemma poll_till_no_report q s0 s :
  rl_failed (s_rdma s) = rl_failed (s_rdma s0) -> wpe any_err (poll_till q) (no_report s0) s.
Proof.
  intros H. unfold poll_till. wp_step. apply wp_rdma. intros [ok wc] n Hn. wp_step.
  pose proof (rl_failed_till q (s_rdma s)) as Hf. rewrite Hn in Hf. rsimp. cbn in Hf. congruence.
Qed.
Lemma RDMABatch_no_report c q l d s : wpe any_err (RDMABatch c q l d) (no_report s) s.
Proof.
  unfold RDMABatch. wp_step. eapply wp_mono; [apply post_doorbell_no_report|]. intros [] s1 H1; cbn [negb].
  - wp_step. eapply wp_mono; [by apply (AddPendingQP_no_report c q s)|]. intros ? s2 H2. by wp_step.
  - by wp_step.
Qed.
Lemma RDMABatchSync_no_report c q l d s : wpe any_err (RDMABatchSync c q l d) (no_report s) s.
Proof.
  unfold RDMABatchSync. wp_step. eapply wp_mono; [apply post_doorbell_no_report|]. intros [] s1 H1; cbn [negb].
  - by apply poll_till_no_report.
  - by wp_step.
Qed.
Lemma RDMAReadSync_no_report c q l ro sz s : wpe any_err (RDMAReadSync c q l ro sz) (no_report s) s.
Proof.
  unfold RDMAReadSync. wp_step. eapply wp_mono; [apply post_send_no_report|]. intros [] s1 H1; cbn [negb].
  - by apply poll_till_no_report.
  - by wp_step.
Qed.

Lemma yield_inv rest lost s :
  sched_inv rest lost s -> lost_failed lost (s_rdma s) -> s_cur s <> 0 ->
  wp (Yield (s_cur s)) (fun _ s' => some_inv s') s.
Proof.
  intros Hi Hf H0. pose proof (si_cur _ _ _ Hi) as Hc. apply elem_of_cons in Hc as [?|Hc]; [done|].
  destruct (decide (s_cur s ∈ (reqs lost s).*2)) as [Hin|Hin].
  - apply list_elem_of_split in Hc as (l1 & l2 & ->).
    eapply wp_mono; [by apply Yield_wp|]. intros [] s' (H & _ & E). exists (l1 ++ l2), lost. by rewrite E.
  - unfold Yield. wp_step. eapply sched_count; [done|by apply (ring_some _ rest); [apply Hi|right]|].
    replace (occ _ _) with 0 by (rewrite occ_pos in Hin; unfold occ in *; lia). cbn. wp_step. by exists rest, lost.
Qed.

Lemma poll_inv fuel rest lost s :
  sched_inv rest lost s -> lost_failed lost (s_rdma s) -> s_cur s = 0 -> (length (pending_qps s) + length (rl_out (s_rdma s)) <= fuel)%nat ->
  wpe aborts (PollCompletion fuel) (fun _ s' => some_inv s') s.
Proof.
  intros Hi Hlf Hc Hf. unfold PollCompletion. do 2 wp_step.
  eapply wp_mono; [apply (sched_poll_loop_wp (fun _ => False) (fun _ _ _ _ _ H => match H with end) aborts False _ [] _ rest lost)|].
  - split; try done. by left.
  - intros a s' [(more & lost' & H & _ & Hl) _ _]. exists (rest ++ more), (lost' ++ lost). auto.
Qed.

Lemma run_inv c rest lost s :
  sched_inv rest lost s -> lost_failed lost (s_rdma s) -> s_cur s = 0 -> c ∈ 0 :: rest ->
  wp (RunCoroutine c) (fun _ s' => some_inv s') s.
Proof.
  intros [Hr Hl Hcu Ha Hp Hn Hd Ho Hin] Hf Hc Hcr.
  eapply wp_mono; [apply (RunCoroutine_wp rest lost)|intros a s' (H & _ & E); exists rest, lost; by rewrite E].
  split; try done. intros d H1 _. apply Hin; [done|]. rewrite Hc. intros ->.
  destruct Hr as [Hnd _ _ _]. by apply NoDup_cons in Hnd as [? _].
Qed.

Lemma step_inv s o : some_inv s -> legal s o -> wpe aborts (run_op o) (fun _ s' => some_inv s') s.
Proof.
  intros (rest & lost & Hi & Hf) Hl. unfold run_op. do 2 wp_step.
  assert (Hk : forall m : M Sched bool, wp m (fun _ s' => sched_inv rest lost s') s -> wpe any_err m (no_report s) s ->
    wpe aborts (m;; mret tt) (fun _ s' => some_inv s') s).
  { intros m Hm Hn. wp_step. unfold wpe in *. destruct (m s) as [b s'|]; [|done]. apply wp_ret. exists rest, lost.
    split; [exact Hm|]. unfold lost_failed in *. by rewrite Hn. }
  destruct o as [q r|q l d|q l d|q l ro sz| |fuel|c]; cbn in Hl.
  - destruct r; (apply Hk; [apply post_async_inv, Hi|apply post_async_no_report]).
  - apply Hk; [by apply RDMABatch_inv|apply RDMABatch_no_report].
  - destruct Hl. apply Hk; [by apply RDMABatchSync_inv|apply RDMABatchSync_no_report].
  - apply Hk; [by apply RDMAReadSync_inv|apply RDMAReadSync_no_report].
  - eapply wp_err_mono; [by apply (yield_inv rest lost)|done].
  - destruct Hl. by apply (poll_inv _ rest lost).
  - destruct Hl as [Hc Hr]. eapply wp_err_mono; [apply (run_inv c rest lost); [done..|]|done].
    destruct Hr as [->|(r & Hr & Hin)]; [by left|right]. by rewrite (ring_unique s rest r); [|apply Hi|].
Qed.
Lemma reach_inv n s : reach n s -> some_inv s.
Proof.
  induction 1 as [rn s Hn Hrn Hrf Hl|s o s' _ IH Hl Hs].
  - pose proof (LoopLinkCoroutine_wp n rn Hn Hrn) as H. apply (wpe_run _ _ _ _ _ _ H) in Hl as (H1 & _ & E).
    eexists _, []. split; [exact H1|]. unfold lost_failed. by rewrite E, Hrf.
  - exact (wpe_run _ _ _ _ _ _ (step_inv s o IH Hl) Hs).
Qed.

(** ** What the scheduler promises *)

(** C31 (safety): from linking on, however requests are posted, coroutines give way
    and coroutine 0 polls and runs them, no assertion fails, no pointer is null
    and no index is out of range - the thread stops only by [abort], on a
    completion with a fatal error; and in every state the coroutines that can run
    form a ring behind coroutine 0, linked both ways, the number of pending
    requests of each is exact, and a coroutine outside the ring has a request
    that is still to complete, or one whose completion a poll has reported as
    IBV_WC_RETRY_EXC_ERR: those wake-ups, and no others, are lost. As [legal]
    says, the synchronous requests are only made on a queue pair with nothing
    under way, and a batch has one signaled request, the doorbell's. *)
Theorem sched_safe n s o :
  reach n s -> legal s o -> some_inv s /\ wpe aborts (run_op o) (fun _ s' => some_inv s') s.
Proof. intros Hr Hl. pose proof (reach_inv _ _ Hr) as Hi. split; [done|by apply step_inv]. Qed.

(** a coroutine that gives way with nothing pending goes on at
    once; otherwise it leaves the ring, whatever its place in it, and control goes
    to the one behind it - from the last to coroutine 0. *)
Theorem yield_next l1 c l2 lost s :
  sched_inv (l1 ++ c :: l2) lost s -> s_cur s = c ->
  wp (Yield c) (fun _ s' =>
    if decide (c ∈ (reqs lost s).*2)
    then s_cur s' = hd 0 l2 /\ s_rdma s' = s_rdma s /\ sched_inv (l1 ++ l2) lost s'
    else s' = s) s.
Proof.
  intros Hi Hc. case_decide as Hin.
  - eapply wp_mono; [by apply Yield_wp|]. by intros a s' (? & ? & ?).
  - unfold Yield. wp_step. eapply sched_count; [done|by apply (ring_some _ (l1 ++ c :: l2)); [apply Hi|set_solver]|].
    replace (occ _ _) with 0 by (rewrite occ_pos in Hin; unfold occ in *; lia). cbn. by wp_step.
Qed.

(** C32 (liveness): when the completions of all requests have arrived without
    error, one call of [PollCompletion] - its loop ends - takes them all and puts
    every coroutine back in the ring. [good] is what is known of the library. *)
Theorem poll_wakes_all (good : Rn -> Prop) fuel rest lost s :
  (forall q n r wc n', good n -> poll_send_completion q n = ((r, wc), n') ->
    good n' /\ (q ∈ (rl_out n).*1 -> r <> 0 /\ wc_stat wc = WcSuccess)) ->
  sched_inv rest lost s -> s_cur s = 0 -> good (s_rdma s) -> (forall x, x ∈ lost -> x.2 = 0) ->
  (length (pending_qps s) + length (rl_out (s_rdma s)) <= fuel)%nat ->
  wp (PollCompletion fuel) (fun _ s' => rl_out (s_rdma s') = [] /\
    exists woken lost', sched_inv (rest ++ woken) lost' s' /\
      forall c, is_Some (zlookup (coro_array s') c) -> c ∈ 0 :: rest ++ woken) s.
Proof.
  intros Hg Hi Hc Hgs Hz Hf. unfold PollCompletion. do 2 wp_step.
  eapply wp_mono; [apply (sched_poll_loop_wp good Hg (fun _ => False) True _ [] _ rest lost)|].
  { split; try done; [by right|by intros _ q ?%elem_of_nil]. }
  intros a s' [(more & lost' & H & Hz' & _) _ Hg']. destruct (Hg' I) as [_ Hq].
  assert (Hout : rl_out (s_rdma s') = []).
  { destruct (rl_out (s_rdma s')) as [|[q c] l] eqn:Ho; [done|]. exfalso. apply (Hq q); [|by left].
    rewrite (si_pend _ _ _ H). unfold reqs. rewrite Ho. by left. }
  split; [done|]. exists more, (lost' ++ lost). split; [done|]. intros c Hcd.
  destruct (decide (c ∈ 0 :: rest ++ more)) as [|Hn]; [done|]. destruct (si_out _ _ _ H c Hcd Hn) as [_ Hr].
  unfold reqs in Hr. rewrite Hout in Hr. apply list_elem_of_fmap in Hr as (x & -> & Hx). exfalso. apply Hn. rewrite app_nil_l in Hx.
  apply elem_of_app in Hx as [Hx|Hx]; [rewrite (Hz' I x Hx)|rewrite (Hz x Hx)]; by left.
Qed.
End Run.

(** ** The scheduler over a concrete RDMA library

    Every request completes with success when it is polled for. *)

(** The oldest request of [q] in [l], and the others. *)
Fixpoint take_req (q : Z) (l : list (Z * Z)) : option (Z * list (Z * Z)) :=
  match l with
  | [] => None
  | (q', c) :: l => if q' =? q then Some (c, l) else
      match take_req q l with Some (c', l') => Some (c', (q', c) :: l') | None => None end
  end.
Definition toy_poll (q : Z) (l : list (Z * Z)) : (Z * wc_t) * list (Z * Z) :=
  match take_req q l with Some (c, l') => ((1, mkWc WcSuccess c), l') | None => ((0, mkWc WcOther 0), l) end.
#[local] Instance ToyRLib : RLib := {|
  Rn := list (Z * Z);
  post_send := fun q _ c l => (true, l ++ [(q, c)]);
  post_batch := fun q w l => (true, l ++ ((fun x => (q, sr_wr_id x)) <$> filter (fun x => sr_signaled x = true) w));
  poll_send_completion := toy_poll;
  poll_till_completion := fun q l => let '((r, wc), l') := toy_poll q l in ((0 <? r, wc), l');
|}.
Lemma take_req_some q l c l' : take_req q l = Some (c, l') -> completes q c l l'.
Proof.
  revert c l'. induction l as [|[q' c'] l IH]; intros c l'; cbn; [done|].
  destruct (Z.eqb_spec q' q) as [->|Hq]; [intros [= <- <-]; exists [], l; split_and!; [done|by intros ?%elem_of_nil|done]|].
  destruct (take_req q l) as [[c1 l1]|]; [|done]. intros [= <- <-].
  destruct (IH _ _ eq_refl) as (k1 & k2 & -> & Hk & ->). exists ((q', c') :: k1), k2. split_and!; [done| |done].
  cbn. intros [?|?]%elem_of_cons; [congruence|done].
Qed.
Lemma take_req_none q l : take_req q l = None -> q ∉ l.*1.
Proof.
  induction l as [|[q' c'] l IH]; cbn; [intros _ ?%elem_of_nil; done|].
  destruct (Z.eqb_spec q' q) as [->|Hq]; [done|]. destruct (take_req q l) as [[]|]; [done|].
  intros _ [?|H]%elem_of_cons; [congruence|by apply IH].
Qed.
#[local] Instance ToyRLib_ok : RLibOk ToyRLib.
Proof.
  refine {| rl_out := fun l : @Rn ToyRLib => l; rl_failed := fun _ => [] |}; try done.
  - intros q l. cbn. unfold toy_poll. destruct (take_req q l) as [[c l']|] eqn:H; [by apply take_req_some in H|done].
  - intros q l Hq. cbn. unfold toy_poll. destruct (take_req q l) as [[c l']|] eqn:H.
    + by apply take_req_some in H.
    + by apply take_req_none in H.
  - intros q l. cbn. unfold toy_poll. by destruct (take_req q l) as [[c l']|].
Defined.

(** Three coroutines; 1 and 2 read and give way, coroutine 0 runs again. *)
Definition step_of (o : sched_op) (s : Sched) : Sched := match run_op o s with Ok _ s' => s' | Fail _ => s end.
Definition ex_new : Sched := CoroutineScheduler_new 3 [].
Definition ex_link : Sched := match LoopLinkCoroutine 3 ex_new with Ok _ s => s | Fail _ => ex_new end.
Definition ex_run1 : Sched := step_of (OpRun 1) ex_link.
Definition ex_post1 : Sched := step_of (OpPost 7 (RqRead 0 0 8)) ex_run1.
Definition ex_yield1 : Sched := step_of OpYield ex_post1.
Definition ex_post2 : Sched := step_of (OpPost 7 (RqCas 0 0 1 2)) ex_yield1.
Definition ex_idle : Sched := step_of OpYield ex_post2.

(** The ring, from the head, by the forward pointers. *)
Fixpoint ring_of (fuel : nat) (s : Sched) (c : Z) : list Z :=
  match fuel with
  | O => []
  | S fuel => c :: match nxt s c with Some n => if n =? 0 then [] else ring_of fuel s n | None => [] end
  end.
Example ex_rings :
  (ring_of 9 ex_link 0, ring_of 9 ex_yield1 0, ring_of 9 ex_idle 0,
   ring_of 9 (step_of (OpPoll 9) ex_idle) 0, (s_cur ex_yield1, s_cur ex_idle, pending_qps ex_idle))
  = ([0; 1; 2], [0; 2], [0], [0; 1; 2], (2, 0, [7; 7])).
Proof. vm_compute. reflexivity. Qed.

Lemma ex_ring_link : ring ex_link [1; 2].
Proof.
  split; [|reflexivity| |by eexists]; [by repeat constructor; set_solver|].
  exists 2. repeat split.
Qed.
Lemma ex_reach_link : reach 3 ex_link.
Proof. apply (reach_start (L := ToyRLib) 3 [] ex_link); [lia|reflexivity|reflexivity|vm_compute; reflexivity]. Qed.
Lemma ex_reach_idle : reach 3 ex_idle.
Proof.
  apply (reach_step 3 ex_post2 OpYield); [|done|vm_compute; reflexivity].
  apply (reach_step 3 ex_yield1 (OpPost 7 (RqCas 0 0 1 2))); [|done|vm_compute; reflexivity].
  apply (reach_step 3 ex_post1 OpYield); [|done|vm_compute; reflexivity].
  apply (reach_step 3 ex_run1 (OpPost 7 (RqRead 0 0 8))); [|done|vm_compute; reflexivity].
  apply (reach_step 3 ex_link (OpRun 1)); [exact ex_reach_link| |vm_compute; reflexivity].
  split; [done|]. right. exists [1; 2]. split; [exact ex_ring_link|by left].
Qed.

Lemma sched_safe_witness :
  reach 3 ex_idle /\ legal ex_idle (OpPoll 4) /\
  some_inv ex_idle /\ wpe aborts (run_op (OpPoll 4)) (fun _ s' => some_inv s') ex_idle.
Proof.
  assert (Hl : legal ex_idle (OpPoll 4)) by (split; [reflexivity|vm_compute; lia]).
  split; [exact ex_reach_idle|]. split; [exact Hl|]. exact (sched_safe 3 ex_idle (OpPoll 4) ex_reach_idle Hl).
Defined.

(** The invariant at these states. *)
Lemma ex_inv_link : sched_inv [1; 2] [] ex_link.
Proof.
  pose proof (LoopLinkCoroutine_wp (L := ToyRLib) 3 [] ltac:(lia) eq_refl) as H.
  apply (wpe_run _ _ _ _ tt ex_link) in H; [exact (proj1 H)|vm_compute; reflexivity].
Qed.
Lemma ex_inv_post1 : sched_inv [1; 2] [] ex_post1.
Proof.
  assert (H : sched_inv [1; 2] [] ex_run1).
  { pose proof ex_inv_link as Hi. destruct Hi as [Hr Hl Hcu Ha Hp Hn Hd Ho Hin].
    assert (Hrd : ready [1; 2] [] 1 ex_link).
    { split; try assumption; [right; by left|]. intros d _ _. change (d ∉ (@nil Z)). apply not_elem_of_nil. }
    apply RunCoroutine_wp in Hrd. apply (wpe_run _ _ _ _ tt ex_run1) in Hrd; [exact (proj1 Hrd)|vm_compute; reflexivity]. }
  pose proof (post_async_inv [1; 2] [] ex_run1 7 (RqRead 0 0 8) H) as Hp.
  apply (wpe_run _ _ _ _ true ex_post1) in Hp; [exact Hp|vm_compute; reflexivity].
Qed.
Lemma ex_inv_post2 : sched_inv [2] [] ex_post2.
Proof.
  assert (H : sched_inv [2] [] ex_yield1).
  { pose proof (Yield_wp [] 1 [2] [] ex_post1 ex_inv_post1 eq_refl ltac:(by left)) as H.
    apply (wpe_run _ _ _ _ tt ex_yield1) in H; [exact (proj1 H)|vm_compute; reflexivity]. }
  pose proof (post_async_inv [2] [] ex_yield1 7 (RqCas 0 0 1 2) H) as Hp.
  apply (wpe_run _ _ _ _ true ex_post2) in Hp; [exact Hp|vm_compute; reflexivity].
Qed.
Lemma ex_inv_idle : sched_inv [] [] ex_idle.
Proof.
  pose proof (Yield_wp [] 2 [] [] ex_post2 ex_inv_post2 eq_refl ltac:(right; by left)) as H.
  apply (wpe_run _ _ _ _ tt ex_idle) in H; [exact (proj1 H)|vm_compute; reflexivity].
Qed.

Lemma yield_next_witness :
  s_cur ex_post1 = 1 /\
  wp (Yield 1) (fun _ s' =>
    if decide (1 ∈ (reqs [] ex_post1).*2)
    then s_cur s' = 2 /\ s_rdma s' = s_rdma ex_post1 /\ sched_inv [2] [] s'
    else s' = ex_post1) ex_post1.
Proof. split; [reflexivity|]. exact (yield_next [] 1 [2] [] ex_post1 ex_inv_post1 eq_refl). Defined.

Lemma poll_wakes_all_witness :
  s_cur ex_idle = 0 /\ rl_out (s_rdma ex_idle) = [(7, 1); (7, 2)] /\
  wp (PollCompletion 4) (fun _ s' => rl_out (s_rdma s') = [] /\
    exists woken lost', sched_inv ([] ++ woken) lost' s' /\
      forall c, is_Some (zlookup (coro_array s') c) -> c ∈ 0 :: [] ++ woken) ex_idle.
Proof.
  split; [reflexivity|]. split; [reflexivity|].
  apply (poll_wakes_all (fun _ => True) 4 [] [] ex_idle).
  - intros q n r wc n' _ Hp. split; [exact I|]. cbn in Hp. unfold toy_poll in Hp.
    destruct (take_req q n) as [[c l']|] eqn:H; [|intros Hq; by apply take_req_none in H].
    injection Hp as <- <- _. by intros _.
  - exact ex_inv_idle.
  - reflexivity.
  - exact I.
  - intros x Hx. by apply elem_of_nil in Hx.
  - vm_compute. lia.
Defined.
