(* ===== verification/Latency.v ===== *)
(** * The latency histogram: [util/latency.h]

    Samples in microseconds are counted in bins that widen with the latency. The
    state is a record of the arrays; a loop over an array is a list of the pairs
    of an entry's value and its count. [print] is output only. *)
From S2P Require Import Prelude Timer.

(** ** The class *)
Record Latency := mkLatency {
  bin0_ : list Z; bin1_ : list Z; bin2_ : list Z; bin3_ : list Z; bin4_ : list Z; bin5_ : Z;
}.
#[export] Instance eta_Latency : Eta Latency := fun l =>
  mkLatency (bin0_ l) (bin1_ l) (bin2_ l) (bin3_ l) (bin4_ l) (bin5_ l).

Definition reset : Latency :=
  mkLatency (replicate 128 0) (replicate 128 0) (replicate 128 0) (replicate 128 0) (replicate 128 0) 0.

(** [bin[i]++] *)
Definition bump (i : Z) (bin : list Z) : list Z :=
  match zlookup bin i with Some c => zinsert i (add64 c 1) bin | None => bin end.
Definition update (us : Z) (l : Latency) : Latency :=
  if us <? 128 then l <| bin0_ ::= bump us |>
  else if us <? 384 then l <| bin1_ ::= bump ((us - 128) / 2) |>
  else if us <? 896 then l <| bin2_ ::= bump ((us - 384) / 4) |>
  else if us <? 1920 then l <| bin3_ ::= bump ((us - 896) / 8) |>
  else if us <? 3968 then l <| bin4_ ::= bump ((us - 1920) / 16) |>
  else l <| bin5_ ::= fun c => add64 c 1 |>.

(** [operator+=] *)
Definition merge (l o : Latency) : Latency :=
  mkLatency (zip_with add64 (bin0_ l) (bin0_ o)) (zip_with add64 (bin1_ l) (bin1_ o))
    (zip_with add64 (bin2_ l) (bin2_ o)) (zip_with add64 (bin3_ l) (bin3_ o))
    (zip_with add64 (bin4_ l) (bin4_ o)) (add64 (bin5_ l) (bin5_ o)).

(** A loop [for (i = 0; i < 128; i++)] over an array, with the value that the
    body computes from [i]. *)
Definition visit (value : Z -> Z) (bin : list Z) : list (Z * Z) :=
  imap (fun i c => (value (Z.of_nat i), c)) bin.
Definition v0 (i : Z) : Z := 0 + i * 1.
Definition v1 (i : Z) : Z := 128 + i * 2.
Definition v2 (i : Z) : Z := 384 + i * 4.
Definition v3 (i : Z) : Z := 896 + i * 8.
Definition v4 (i : Z) : Z := 1920 + i * 16.

Definition count_loop (acc : Z) (l : list (Z * Z)) : Z := foldl (fun acc p => add64 acc p.2) acc l.
Definition count (l : Latency) : Z :=
  let count := 0 in
  let count := count_loop count (visit v0 (bin0_ l)) in
  let count := count_loop count (visit v1 (bin1_ l)) in
  let count := count_loop count (visit v2 (bin2_ l)) in
  let count := count_loop count (visit v3 (bin3_ l)) in
  let count := count_loop count (visit v4 (bin4_ l)) in
  add64 count (bin5_ l).

Definition sum_loop (acc : Z) (l : list (Z * Z)) : Z := foldl (fun acc p => add64 acc (u64 (p.2 * p.1))) acc l.
Definition sum (l : Latency) : Z :=
  let sum := 0 in
  let sum := sum_loop sum (visit v0 (bin0_ l)) in
  let sum := sum_loop sum (visit v1 (bin1_ l)) in
  let sum := sum_loop sum (visit v2 (bin2_ l)) in
  let sum := sum_loop sum (visit v3 (bin3_ l)) in
  let sum := sum_loop sum (visit v4 (bin4_ l)) in
  add64 sum (u64 (bin5_ l * 3968)).
Definition avg (l : Latency) : double := fdiv (of_size (sum l)) (of_size (Z.max 1 (count l))).

(** The first entry that is not zero. *)
Fixpoint find_loop (l : list (Z * Z)) : option Z :=
  match l with
  | [] => None
  | (v, c) :: l => if negb (c =? 0) then Some v else find_loop l
  end.
Definition orelse (o : option Z) (d : Z) : Z := match o with Some v => v | None => d end.
Definition latency_min (l : Latency) : Z :=
  orelse (find_loop (visit v0 (bin0_ l)))
    (orelse (find_loop (visit v1 (bin1_ l)))
      (orelse (find_loop (visit v2 (bin2_ l)))
        (orelse (find_loop (visit v3 (bin3_ l)))
          (orelse (find_loop (visit v4 (bin4_ l))) 3968)))).
Definition latency_max (l : Latency) : Z :=
  if negb (bin5_ l =? 0) then 3968
  else
    orelse (find_loop (rev (visit v4 (bin4_ l))))
      (orelse (find_loop (rev (visit v3 (bin3_ l))))
        (orelse (find_loop (rev (visit v2 (bin2_ l))))
          (orelse (find_loop (rev (visit v1 (bin1_ l))))
            (orelse (find_loop (rev (visit v0 (bin0_ l)))) 0)))).

(** The value where [thres] falls below zero, or what is left of it. *)
Fixpoint perc_loop (thres : Z) (l : list (Z * Z)) : Z + Z :=
  match l with
  | [] => inr thres
  | (v, c) :: l => let thres := thres - c in if thres <? 0 then inl v else perc_loop thres l
  end.
Definition perc_then (r : Z + Z) (k : Z -> Z) : Z := match r with inl v => v | inr thres => k thres end.
Definition perc_at (thres : Z) (l : Latency) : Z :=
  perc_then (perc_loop thres (visit v0 (bin0_ l))) (fun thres =>
  perc_then (perc_loop thres (visit v1 (bin1_ l))) (fun thres =>
  perc_then (perc_loop thres (visit v2 (bin2_ l))) (fun thres =>
  perc_then (perc_loop thres (visit v3 (bin3_ l))) (fun thres =>
  perc_then (perc_loop thres (visit v4 (bin4_ l))) (fun _ => 3968))))).
(** [None]: the product does not fit in 64 bits, which C++ leaves undefined. *)
Definition perc (p : double) (l : Latency) : option Z :=
  thres ← double_trunc (fmul p (of_size (count l)));
  if (- 2 ^ 63 <=? thres) && (thres <? 2 ^ 63) then Some (perc_at thres l) else None.

(** ** The latency histogram is correct

    A histogram represents a list of samples: each entry counts the samples that
    fall in it. The statistics are those of the samples, rounded down to the
    entries' values. *)

(** The value that stands for a sample. *)
Definition bucket (us : Z) : Z :=
  if us <? 128 then v0 us
  else if us <? 384 then v1 ((us - 128) / 2)
  else if us <? 896 then v2 ((us - 384) / 4)
  else if us <? 1920 then v3 ((us - 896) / 8)
  else if us <? 3968 then v4 ((us - 1920) / 16)
  else 3968.
Definition cnt (v : Z) (ss : list Z) : Z := zlength (filter (fun s => bucket s = v) ss).
Definition ids : list Z := Z.of_nat <$> seq 0 128.
Definition cnts (f : Z -> Z) (ss : list Z) : list Z := (fun i => cnt (f i) ss) <$> ids.

Record holds (ss : list Z) (l : Latency) : Prop := {
  ho_0 : bin0_ l = cnts v0 ss;
  ho_1 : bin1_ l = cnts v1 ss;
  ho_2 : bin2_ l = cnts v2 ss;
  ho_3 : bin3_ l = cnts v3 ss;
  ho_4 : bin4_ l = cnts v4 ss;
  ho_5 : bin5_ l = cnt 3968 ss;
  ho_len : zlength ss < 2 ^ 63;
  ho_pos : Forall (fun s => 0 <= s) ss;
}.

Lemma cnt_cons v s ss : cnt v (s :: ss) = (if decide (bucket s = v) then 1 else 0) + cnt v ss.
Proof. unfold cnt, zlength. rewrite filter_cons. case_decide; cbn; lia. Qed.
Lemma cnt_app v ss ts : cnt v (ss ++ ts) = cnt v ss + cnt v ts.
Proof. unfold cnt. by rewrite filter_app, zlength_app. Qed.
Lemma cnt_range v ss : 0 <= cnt v ss <= zlength ss.
Proof. induction ss as [|s ss IH]; [done|]. rewrite cnt_cons. unfold zlength in *. cbn [length]. case_decide; lia. Qed.

Lemma ids_lookup i : (i < 128)%nat -> ids !! i = Some (Z.of_nat i).
Proof. intros H. unfold ids. rewrite list_lookup_fmap, lookup_seq_lt by done. done. Qed.
Lemma cnts_lookup f ss i : 0 <= i < 128 -> zlookup (cnts f ss) i = Some (cnt (f i) ss).
Proof.
  intros H. unfold zlookup, cnts. destruct (Z.leb_spec 0 i); [|lia].
  rewrite list_lookup_fmap, ids_lookup, Z2Nat.id by lia. reflexivity.
Qed.
Lemma length_cnts f ss : length (cnts f ss) = 128%nat.
Proof. done. Qed.
Lemma elem_of_ids i : i ∈ ids <-> 0 <= i < 128.
Proof.
  unfold ids. rewrite list_elem_of_fmap. split; [intros (n & -> & Hn%elem_of_seq); lia|].
  intros H. exists (Z.to_nat i). rewrite elem_of_seq. lia.
Qed.

(** ** Samples are added *)
Lemma cnts_other f s ss : (forall i, 0 <= i < 128 -> f i <> bucket s) -> cnts f (s :: ss) = cnts f ss.
Proof.
  intros H. unfold cnts. apply list_fmap_ext. intros n i Hi. rewrite cnt_cons, decide_False; [lia|].
  intros E. apply list_elem_of_lookup_2, elem_of_ids in Hi. by apply (H i).
Qed.
Lemma bump_cnts f s ss j :
  zlength ss + 1 < 2 ^ 63 -> 0 <= j < 128 -> bucket s = f j -> (forall i, 0 <= i < 128 -> f i = f j -> i = j) ->
  bump j (cnts f ss) = cnts f (s :: ss).
Proof.
  intros Hl Hj Hb Hinj. unfold bump. rewrite cnts_lookup by done. pose proof (cnt_range (f j) ss).
  rewrite add64_small by lia. apply list_eq. intros n.
  destruct (decide (n < 128)%nat) as [Hn|Hn].
  2: { rewrite !lookup_ge_None_2; [done| |]; rewrite ?length_cnts; [lia|]. unfold zinsert.
       case_match; rewrite ?length_insert, length_cnts; lia. }
  assert (E : forall l : list Z, l !! n = zlookup l (Z.of_nat n)).
  { intros l. unfold zlookup. destruct (Z.leb_spec 0 (Z.of_nat n)); [|lia]. by rewrite Nat2Z.id. }
  rewrite !E, cnts_lookup by lia. destruct (decide (Z.of_nat n = j)) as [<-|Hne].
  - rewrite zlookup_zinsert_eq by (unfold zlength; rewrite length_cnts; lia). rewrite cnt_cons, decide_True by done. f_equal. lia.
  - rewrite zlookup_zinsert_ne, cnts_lookup by lia. rewrite cnt_cons, decide_False; [done|].
    intros E'. apply Hne. apply Hinj; [lia|congruence].
Qed.

Ltac vals_lia := unfold bucket, v0, v1, v2, v3, v4 in *; intros;
  repeat match goal with
         | |- context[?a <? ?b] => destruct (Z.ltb_spec a b)
         | H : context[?a <? ?b] |- _ => destruct (Z.ltb_spec a b)
         end; Z.to_euclidean_division_equations; lia.
Lemma update_holds us ss l : holds ss l -> 0 <= us -> zlength ss + 1 < 2 ^ 63 -> holds (us :: ss) (update us l).
Proof.
  intros [E0 E1 E2 E3 E4 E5 _ Hp] Hus Hl. assert (Hl' : zlength (us :: ss) < 2 ^ 63) by (unfold zlength in *; cbn [length]; lia).
  apply (Forall_cons_2 _ us) in Hp; [|exact Hus]. pose proof (cnt_range 3968 ss). unfold update.
  repeat match goal with |- context[us <? ?b] => destruct (Z.ltb_spec us b) end;
    split; rsimp; try done; rewrite ?E0, ?E1, ?E2, ?E3, ?E4, ?E5;
    first [ symmetry; apply cnts_other; vals_lia
          | apply bump_cnts; [done|vals_lia..]
          | rewrite cnt_cons, decide_False by vals_lia; lia
          | rewrite add64_small by lia; rewrite cnt_cons, decide_True by vals_lia; lia ].
Qed.
Lemma merge_cnts f ss ts :
  zlength ss + zlength ts < 2 ^ 63 -> zip_with add64 (cnts f ss) (cnts f ts) = cnts f (ss ++ ts).
Proof.
  intros H. unfold cnts. rewrite zip_with_fmap_l, zip_with_fmap_r, zip_with_diag. apply list_fmap_ext. intros n i _.
  rewrite cnt_app. pose proof (cnt_range (f i) ss). pose proof (cnt_range (f i) ts). apply add64_small. lia.
Qed.
Lemma merge_holds ss ts l o : holds ss l -> holds ts o -> zlength ss + zlength ts < 2 ^ 63 -> holds (ss ++ ts) (merge l o).
Proof.
  intros [E0 E1 E2 E3 E4 E5 _ Hp] [F0 F1 F2 F3 F4 F5 _ Hq] Hl. pose proof (cnt_range 3968 ss). pose proof (cnt_range 3968 ts).
  split; cbn [merge bin0_ bin1_ bin2_ bin3_ bin4_ bin5_];
    rewrite ?E0, ?E1, ?E2, ?E3, ?E4, ?E5, ?F0, ?F1, ?F2, ?F3, ?F4, ?F5; try by apply merge_cnts.
  - rewrite cnt_app. apply add64_small. lia.
  - by rewrite zlength_app.
  - by apply Forall_app.
Qed.
Lemma reset_holds : holds [] reset.
Proof. by split. Qed.

(** ** All entries in order *)
Definition all (l : Latency) : list (Z * Z) :=
  visit v0 (bin0_ l) ++ visit v1 (bin1_ l) ++ visit v2 (bin2_ l) ++ visit v3 (bin3_ l) ++ visit v4 (bin4_ l) ++ [(3968, bin5_ l)].
Definition vals : list Z := (v0 <$> ids) ++ (v1 <$> ids) ++ (v2 <$> ids) ++ (v3 <$> ids) ++ (v4 <$> ids) ++ [3968].
Definition counted (ss : list Z) (v : Z) : Z * Z := (v, cnt v ss).

Lemma visit_cnts f ss : visit f (cnts f ss) = counted ss <$> (f <$> ids).
Proof.
  unfold visit. apply list_eq. intros n. rewrite list_lookup_imap. unfold cnts. rewrite !list_lookup_fmap.
  destruct (decide (n < 128)%nat) as [Hn|Hn]; [by rewrite ids_lookup|]. rewrite (lookup_ge_None_2 ids n) by (cbn; lia). done.
Qed.
Lemma all_holds ss l : holds ss l -> all l = counted ss <$> vals.
Proof.
  intros [E0 E1 E2 E3 E4 E5 _ _]. unfold all, vals. rewrite E0, E1, E2, E3, E4, E5, !visit_cnts. by rewrite !fmap_app.
Qed.

(** The values increase. *)
Fixpoint increasing (l : list Z) : bool :=
  match l with v :: ((w :: _) as l) => (v <? w) && increasing l | _ => true end.
Lemma increasing_spec p v q : increasing (p ++ v :: q) = true -> (forall w, w ∈ p -> w < v) /\ (forall w, w ∈ q -> v < w).
Proof.
  assert (Hq : forall l v, increasing (v :: l) = true -> forall w, w ∈ l -> v < w).
  { intros l. induction l as [|x l IH]; intros u Hi w Hw; [set_solver|]. cbn in Hi. apply andb_prop in Hi as [H1%Z.ltb_lt H2].
    apply elem_of_cons in Hw as [->|Hw]; [done|]. pose proof (IH x H2 w Hw). lia. }
  induction p as [|x p IH]; intros Hi; [split; [set_solver|by apply Hq]|].
  assert (Hi' : increasing (p ++ v :: q) = true) by (destruct p; cbn in Hi; apply andb_prop in Hi; apply Hi).
  destruct (IH Hi') as [H1 H2]. split; [|done]. intros w [->|Hw]%elem_of_cons; [|by apply H1].
  apply (Hq (p ++ v :: q) x Hi). set_solver.
Qed.
Lemma vals_increasing : increasing vals = true.
Proof. reflexivity. Qed.
Lemma vals_split p v q : vals = p ++ v :: q -> (forall w, w ∈ p -> w < v) /\ (forall w, w ∈ q -> v < w).
Proof. intros E. apply increasing_spec. rewrite <- E. exact vals_increasing. Qed.
Lemma bucket_in_vals s : 0 <= s -> bucket s ∈ vals.
Proof.
  intros Hs. unfold vals. rewrite !elem_of_app, list_elem_of_singleton, !list_elem_of_fmap. unfold bucket.
  repeat match goal with |- context[s <? ?b] => destruct (Z.ltb_spec s b) end;
    [left|right; left|do 2 right; left|do 3 right; left|do 4 right; left|by do 5 right];
    eexists; (split; [reflexivity|]); apply elem_of_ids; Z.to_euclidean_division_equations; lia.
Qed.

(** ** Sums over entries are sums over samples *)
Lemma zsum_plus {A} (f g : A -> Z) l : zsum (fun x => f x + g x) l = zsum f l + zsum g l.
Proof. induction l as [|x l IH]; cbn; [done|]. rewrite IH. lia. Qed.
Definition ind (b : Prop) {D : Decision b} : Z := if decide b then 1 else 0.
Lemma zsum_ind (g : Z -> Z) b p : NoDup p -> zsum (fun v => g v * ind (b = v)) p = g b * ind (b ∈ p).
Proof.
  unfold ind. induction 1 as [|v p Hv Hp IH]; cbn [zsum]; [by rewrite decide_False by set_solver; lia|]. rewrite IH.
  destruct (decide (b = v)) as [->|Hne]; [rewrite decide_False, decide_True by set_solver; lia|].
  destruct (decide (b ∈ p)); [rewrite decide_True by set_solver|rewrite decide_False by set_solver]; lia.
Qed.
Lemma zsum_samples (g : Z -> Z) p ss :
  NoDup p -> zsum (fun v => g v * cnt v ss) p = zsum (fun s => g (bucket s) * ind (bucket s ∈ p)) ss.
Proof.
  intros Hp. induction ss as [|s ss IH]; cbn [zsum].
  - transitivity (zsum (fun _ : Z => 0) p); [apply zsum_ext; intros; change (cnt x []) with 0; lia|]. induction p as [|? ? IHp]; [done|].
    cbn. rewrite IHp; [done|by apply NoDup_cons in Hp as [_ ?]].
  - rewrite <- IH, <- zsum_ind, <- zsum_plus by done. apply zsum_ext. intros v _. rewrite cnt_cons. unfold ind. lia.
Qed.

Lemma vals_NoDup : NoDup vals.
Proof. apply (bool_decide_unpack _). vm_compute. done. Qed.
Lemma zsum_vals (g : Z -> Z) ss :
  Forall (fun s => 0 <= s) ss -> zsum (fun v => g v * cnt v ss) vals = zsum (fun s => g (bucket s)) ss.
Proof.
  intros Hp. rewrite (zsum_samples g vals ss vals_NoDup). apply zsum_ext. intros s Hs. unfold ind.
  rewrite decide_True; [lia|]. rewrite Forall_forall in Hp. by apply bucket_in_vals, Hp.
Qed.
(** The samples below an entry. *)
Definition rank (v : Z) (ss : list Z) : Z := zlength (filter (fun s => bucket s < v) ss).
Lemma zsum_rank p v q ss :
  vals = p ++ v :: q -> Forall (fun s => 0 <= s) ss -> zsum (fun v => cnt v ss) p = rank v ss.
Proof.
  intros E Hp. destruct (vals_split p v q E) as [H1 H2]. pose proof vals_NoDup as Hn. rewrite E in Hn. apply NoDup_app in Hn as (Hn & _ & _).
  transitivity (zsum (fun w => 1 * cnt w ss) p); [apply zsum_ext; lia|]. rewrite (zsum_samples (fun _ => 1) p ss Hn).
  unfold rank. induction Hp as [|s ss Hs Hp IH]; [done|]. cbn [zsum]. rewrite IH, filter_cons. unfold ind.
  pose proof (bucket_in_vals s Hs) as Hb. rewrite E, elem_of_app, elem_of_cons in Hb. unfold zlength.
  destruct (decide (bucket s ∈ p)) as [Hin|Hin].
  - rewrite decide_True by (by apply H1). cbn [length]. lia.
  - rewrite decide_False; [lia|]. destruct Hb as [Hb|[->|Hb]]; [done|lia|]. apply H2 in Hb. lia.
Qed.

(** ** The loops *)
Lemma count_loop_ok l acc :
  0 <= acc -> Forall (fun p => 0 <= p.2) l -> acc + zsum snd l < 2 ^ 64 -> count_loop acc l = acc + zsum snd l.
Proof.
  unfold count_loop. revert acc. induction l as [|[v c] l IH]; intros acc Ha Hl Hs; cbn [foldl zsum snd] in *; [lia|].
  apply Forall_cons in Hl as [Hc Hl]. cbn in Hc. pose proof (zsum_nonneg snd l ltac:(by rewrite Forall_forall in Hl)).
  rewrite add64_small by lia. rewrite IH; [lia|lia|done|lia].
Qed.
Lemma sum_loop_ok l acc :
  0 <= acc -> Forall (fun p => 0 <= p.1 * p.2) l -> acc + zsum (fun p => p.1 * p.2) l < 2 ^ 64 ->
  sum_loop acc l = acc + zsum (fun p => p.1 * p.2) l.
Proof.
  unfold sum_loop. revert acc. induction l as [|[v c] l IH]; intros acc Ha Hl Hs; cbn [foldl zsum fst snd] in *; [lia|].
  apply Forall_cons in Hl as [Hc Hl]. cbn in Hc. pose proof (zsum_nonneg (fun p => p.1 * p.2) l ltac:(by rewrite Forall_forall in Hl)).
  rewrite (wrap_small 64 (c * v)) by (unfold in_u; lia). rewrite add64_small by lia. rewrite IH; [lia|lia|done|lia].
Qed.
Lemma zsum_counted (g : Z * Z -> Z) ss p : zsum g (counted ss <$> p) = zsum (fun v => g (v, cnt v ss)) p.
Proof. induction p as [|v p IH]; [done|]. cbn. by rewrite IH. Qed.
Lemma count_ok ss l : holds ss l -> count l = zlength ss.
Proof.
  intros H. pose proof (all_holds ss l H) as Ha. destruct H as [_ _ _ _ _ _ Hl Hp].
  assert (E : zsum snd (all l) = zlength ss).
  { rewrite Ha, zsum_counted. transitivity (zsum (fun v => 1 * cnt v ss) vals); [apply zsum_ext; cbn; lia|].
    rewrite zsum_vals by done. clear. unfold zlength. induction ss as [|s ss IH]; [done|]. cbn [zsum length]. lia. }
  transitivity (count_loop 0 (all l)).
  { unfold count, all, count_loop. by rewrite !foldl_app. }
  rewrite count_loop_ok; rewrite ?E; [lia|lia| |lia]. rewrite Ha, Forall_fmap. apply Forall_forall. intros v _.
  cbn. apply cnt_range.
Qed.
Lemma vals_range v : v ∈ vals -> 0 <= v <= 3968.
Proof.
  assert (E : Forall (fun v => 0 <= v <= 3968) vals) by (apply (bool_decide_unpack _); vm_compute; done).
  rewrite Forall_forall in E. apply E.
Qed.
Lemma bucket_range s : 0 <= s -> 0 <= bucket s <= 3968.
Proof. intros. by apply vals_range, bucket_in_vals. Qed.
Lemma sum_ok ss l : holds ss l -> 3968 * zlength ss < 2 ^ 64 -> sum l = zsum bucket ss.
Proof.
  intros H Hb. pose proof (all_holds ss l H) as Ha. destruct H as [_ _ _ _ _ _ Hl Hp].
  assert (E : zsum (fun p => p.1 * p.2) (all l) = zsum bucket ss) by (rewrite Ha, zsum_counted; by apply (zsum_vals (fun v => v))).
  assert (Hle : zsum bucket ss <= 3968 * zlength ss).
  { clear - Hp. unfold zlength. induction Hp as [|s ss Hs Hp IH]; [done|]. pose proof (bucket_range s Hs). cbn [zsum length]. lia. }
  transitivity (sum_loop 0 (all l)).
  { unfold sum, all, sum_loop. by rewrite !foldl_app. }
  rewrite sum_loop_ok; rewrite ?E; [lia|lia| |lia]. rewrite Ha, Forall_fmap. apply Forall_forall. intros v Hv.
  cbn. pose proof (vals_range v Hv). pose proof (cnt_range v ss). nia.
Qed.

Lemma find_loop_app l k : find_loop (l ++ k) = match find_loop l with Some v => Some v | None => find_loop k end.
Proof. induction l as [|[v c] l IH]; cbn; [done|]. by destruct (negb (c =? 0)). Qed.
(** [find_loop] meets the first sample's entry. *)
Lemma find_loop_spec ss p :
  match find_loop (counted ss <$> p) with
  | Some v => exists l k, p = l ++ v :: k /\ cnt v ss <> 0 /\ (forall w, w ∈ l -> cnt w ss = 0)
  | None => forall w, w ∈ p -> cnt w ss = 0
  end.
Proof.
  induction p as [|v p IH]; cbn; [set_solver|]. destruct (Z.eqb_spec (cnt v ss) 0) as [E|E]; cbn.
  - destruct (find_loop _) as [u|].
    + destruct IH as (l & k & -> & Hu & Hl). exists (v :: l), k. split; [done|]. split; [done|]. set_solver.
    + set_solver.
  - exists [], p. split; [done|]. split; [done|set_solver].
Qed.
Lemma cnt_zero v ss s : cnt v ss = 0 -> s ∈ ss -> bucket s <> v.
Proof.
  induction ss as [|x ss IH]; [set_solver|]. rewrite cnt_cons. pose proof (cnt_range v ss). intros Hc [->|Hs]%elem_of_cons.
  - by case_decide; [lia|].
  - apply IH; [case_decide; lia|done].
Qed.
Lemma cnt_nonzero v ss : cnt v ss <> 0 -> v ∈ bucket <$> ss.
Proof.
  induction ss as [|x ss IH]; [done|]. rewrite cnt_cons. case_decide; [subst; set_solver|]. intros H'. cbn. right. apply IH. lia.
Qed.

Definition is_min (ss : list Z) (v : Z) : Prop := v ∈ bucket <$> ss /\ forall s, s ∈ ss -> v <= bucket s.
Definition is_max (ss : list Z) (v : Z) : Prop := v ∈ bucket <$> ss /\ forall s, s ∈ ss -> bucket s <= v.
Lemma sample_entry ss s : Forall (fun s => 0 <= s) ss -> s ∈ ss -> bucket s ∈ vals.
Proof. rewrite Forall_forall. intros H Hs. by apply bucket_in_vals, H. Qed.
Lemma none_empty ss (p : list Z) : Forall (fun s => 0 <= s) ss -> (forall v, v ∈ vals -> v ∈ p) -> (forall w, w ∈ p -> cnt w ss = 0) -> ss = [].
Proof.
  intros Hp Hv Hz. destruct ss as [|s ss]; [done|]. exfalso. apply (cnt_zero (bucket s) (s :: ss) s); [|set_solver|done].
  apply Hz, Hv. apply (sample_entry (s :: ss)); [done|set_solver].
Qed.
Lemma min_ok ss l : holds ss l -> if decide (ss = []) then latency_min l = 3968 else is_min ss (latency_min l).
Proof.
  intros H. pose proof (all_holds ss l H) as Ha. destruct H as [_ _ _ _ _ E5 Hl Hp].
  assert (E : latency_min l = orelse (find_loop (all l)) 3968).
  { unfold latency_min, all. rewrite !find_loop_app. unfold orelse. repeat case_match; try done; cbn in *; by case_match; simplify_eq. }
  rewrite E, Ha. pose proof (find_loop_spec ss vals) as Hf. destruct (find_loop (counted ss <$> vals)) as [v|]; cbn [orelse].
  - destruct Hf as (p & q & Ev & Hv & Hz). apply cnt_nonzero in Hv as Hin. destruct (decide (ss = [])) as [->|_]; [set_solver|].
    split; [done|]. intros s Hs. pose proof (sample_entry ss s Hp Hs) as Hb. destruct (vals_split p v q Ev) as [_ H2].
    rewrite Ev, elem_of_app, elem_of_cons in Hb. destruct Hb as [Hb|[->|Hb]]; [|done|by apply Z.lt_le_incl, H2].
    exfalso. by apply (cnt_zero (bucket s) ss s); [apply Hz| |].
  - rewrite decide_True; [done|]. by apply (none_empty ss vals).
Qed.
Lemma max_ok ss l : holds ss l -> if decide (ss = []) then latency_max l = 0 else is_max ss (latency_max l).
Proof.
  intros H. pose proof (all_holds ss l H) as Ha. destruct H as [_ _ _ _ _ E5 Hl Hp].
  assert (E : latency_max l = orelse (find_loop (rev (all l))) 0).
  { unfold latency_max, all. rewrite !rev_app_distr, !find_loop_app. cbn [rev app find_loop]. unfold orelse.
    destruct (negb (bin5_ l =? 0)); [done|]. repeat case_match; try done; simplify_eq; done. }
  rewrite E, Ha. replace (rev (counted ss <$> vals)) with (counted ss <$> rev vals) by (apply map_rev).
  pose proof (find_loop_spec ss (rev vals)) as Hf. destruct (find_loop (counted ss <$> rev vals)) as [v|]; cbn [orelse].
  - destruct Hf as (p & q & Ev & Hv & Hz). apply cnt_nonzero in Hv as Hin. destruct (decide (ss = [])) as [->|_]; [set_solver|].
    split; [done|]. intros s Hs. pose proof (sample_entry ss s Hp Hs) as Hb.
    apply (f_equal (@rev Z)) in Ev. rewrite rev_involutive, rev_app_distr in Ev. cbn [rev] in Ev. rewrite <- app_assoc in Ev. cbn [app] in Ev.
    destruct (vals_split _ v _ Ev) as [H1 _]. rewrite Ev, elem_of_app, elem_of_cons in Hb.
    destruct Hb as [Hb|[->|Hb]]; [by apply Z.lt_le_incl, H1|done|].
    exfalso. apply (cnt_zero (bucket s) ss s); [apply Hz|done|done]. by apply list_elem_of_In, in_rev, list_elem_of_In.
  - rewrite decide_True; [done|]. apply (none_empty ss (rev vals)); [done| |done]. intros v Hv. apply list_elem_of_In, in_rev. rewrite rev_involutive. by apply list_elem_of_In.
Qed.

Lemma perc_then_app t l k (f g : Z -> Z) :
  (forall t, perc_then (perc_loop t k) f = g t) -> perc_then (perc_loop t (l ++ k)) f = perc_then (perc_loop t l) g.
Proof.
  intros H. revert t. induction l as [|[v c] l IH]; intros t; cbn [app perc_loop]; [apply H|]. by destruct (t - c <? 0).
Qed.
Lemma perc_loop_spec ss p t :
  0 <= t ->
  match perc_loop t (counted ss <$> p) with
  | inl v => exists l k, p = l ++ v :: k /\ zsum (fun v => cnt v ss) l <= t < zsum (fun v => cnt v ss) l + cnt v ss
  | inr t' => zsum (fun v => cnt v ss) p <= t
  end.
Proof.
  revert t. induction p as [|v p IH]; intros t Ht; cbn; [done|]. destruct (Z.ltb_spec (t - cnt v ss) 0).
  - exists [], p. split; [done|]. cbn. lia.
  - specialize (IH (t - cnt v ss) ltac:(lia)). destruct (perc_loop _ _) as [u|].
    + destruct IH as (l & k & -> & Hr). exists (v :: l), k. split; [done|]. cbn. lia.
    + lia.
Qed.
(** The entry of the [t]-th sample in order, from 0. *)
Definition is_nth (t : Z) (ss : list Z) (v : Z) : Prop := rank v ss <= t < rank v ss + cnt v ss.
Lemma perc_ok ss l t : holds ss l -> 0 <= t < zlength ss -> is_nth t ss (perc_at t l).
Proof.
  intros H Ht. pose proof (all_holds ss l H) as Ha. destruct H as [_ _ _ _ _ _ Hl Hp].
  assert (E : perc_at t l = perc_then (perc_loop t (all l)) (fun _ => 3968)).
  { symmetry. unfold all. do 5 (apply perc_then_app; intros ?). unfold perc_then. cbn. by destruct (_ <? 0). }
  rewrite E, Ha. pose proof (perc_loop_spec ss vals t ltac:(lia)) as Hf.
  destruct (perc_loop t (counted ss <$> vals)) as [v|]; cbn [perc_then].
  - destruct Hf as (p & q & Ev & Hr). unfold is_nth. by rewrite <- (zsum_rank p v q ss Ev Hp).
  - assert (E1 : zsum (fun v => cnt v ss) vals = zlength ss).
    { transitivity (zsum (fun v => 1 * cnt v ss) vals); [apply zsum_ext; cbn; lia|].
      rewrite zsum_vals by done. clear. unfold zlength. induction ss as [|s ss IH]; [done|]. cbn [zsum length]. lia. }
    lia.
Qed.

(** ** Histograms *)

(** How a histogram comes to be, its value, and the samples that went into it. *)
Inductive hist := HReset | HUpdate (us : Z) (h : hist) | HMerge (h o : hist).
Fixpoint run_hist (h : hist) : Latency :=
  match h with
  | HReset => reset
  | HUpdate us h => update us (run_hist h)
  | HMerge h o => merge (run_hist h) (run_hist o)
  end.
Fixpoint samples (h : hist) : list Z :=
  match h with
  | HReset => []
  | HUpdate us h => us :: samples h
  | HMerge h o => samples h ++ samples o
  end.
Lemma run_holds h : Forall (fun s => 0 <= s) (samples h) -> zlength (samples h) < 2 ^ 63 -> holds (samples h) (run_hist h).
Proof.
  induction h as [|us h IH|h IH o IHo]; cbn [samples run_hist]; intros Hp Hl; [exact reset_holds| |].
  - apply Forall_cons in Hp as [Hus Hp]. unfold zlength in Hl. cbn [length] in Hl.
    apply update_holds; [apply IH|..]; unfold zlength; try done; lia.
  - apply Forall_app in Hp as [Hp Hq]. rewrite zlength_app in Hl. pose proof (zlength_nonneg (samples h)). pose proof (zlength_nonneg (samples o)).
    apply merge_holds; [apply IH; [done|lia]|apply IHo; [done|lia]|done].
Qed.
(** An entry stands for its samples to less than 16 microseconds, below 3968. *)
Lemma bucket_close s : 0 <= s -> bucket s <= s /\ (s < 3968 -> s - bucket s < 16).
Proof.
  intros Hs. unfold bucket, v0, v1, v2, v3, v4.
  repeat match goal with |- context[s <? ?b] => destruct (Z.ltb_spec s b) end; Z.to_euclidean_division_equations; lia.
Qed.

(** C38 (functional): however a histogram was filled and combined from others, its
    statistics are those of all the samples, rounded down to entries that are
    less than 16 microseconds apart: their number, their sum, the least (3968
    without samples), the greatest (0 without), and for every rank the sample of
    that rank in order, which is what a percentile asks for. *)
Theorem latency_stats h :
  let ss := samples h in
  let l := run_hist h in
  Forall (fun s => 0 <= s) ss -> 3968 * zlength ss < 2 ^ 63 ->
  count l = zlength ss /\ sum l = zsum bucket ss /\
  (if decide (ss = []) then latency_min l = 3968 else is_min ss (latency_min l)) /\
  (if decide (ss = []) then latency_max l = 0 else is_max ss (latency_max l)) /\
  (forall t, 0 <= t < zlength ss -> is_nth t ss (perc_at t l)) /\
  Forall (fun s => bucket s <= s /\ (s < 3968 -> s - bucket s < 16)) ss.
Proof.
  intros ss l Hp Hl. assert (H : holds ss l) by (apply run_holds; [done|fold ss; lia]). split_and!.
  - by apply count_ok.
  - apply sum_ok; [done|lia].
  - by apply min_ok.
  - by apply max_ok.
  - intros t Ht. by apply perc_ok.
  - eapply Forall_impl; [exact Hp|]. exact bucket_close.
Qed.

Definition ex_hist : hist := HMerge (HUpdate 5000 (HUpdate 130 HReset)) (HUpdate 131 (HUpdate 7 HReset)).
Lemma latency_stats_witness :
  count (run_hist ex_hist) = 4 /\ sum (run_hist ex_hist) = 4235 /\ is_min (samples ex_hist) (latency_min (run_hist ex_hist)) /\
  is_nth 2 (samples ex_hist) (perc_at 2 (run_hist ex_hist)).
Proof.
  assert (Hp : Forall (fun s => 0 <= s) (samples ex_hist)) by (repeat constructor; lia).
  destruct (latency_stats ex_hist Hp eq_refl) as (H1 & H2 & H3 & _ & H5 & _).
  split; [exact H1|]. split; [exact H2|]. split; [exact H3|]. apply H5. vm_compute. split; congruence.
Defined.
(** The median of the four. *)
Example ex_median : perc (fconst 1 2) (run_hist ex_hist) = Some 130.
Proof. vm_compute. reflexivity. Qed.
