(* ===== verification/Queues.v ===== *)
(** * The queues of [util]: [fixed_queue.h] and [mt_queue.h]

    [std::queue] is a list, its front first. [MtQueue]'s operations hold its lock
    and are atomic steps; [front] and [pop] of an empty queue are undefined. *)
From S2P Require Import Prelude.

(** ** FixedQueue *)
Module FixedQueue.
Section FixedQueue.
Context {T : Type}.
Variable N : nat.
Abbreviation MF := (M (list T)).

Definition push (t : T) : MF unit :=
  queue_ ← get;
  when (bool_decide (length queue_ = N)) (
    match queue_ with [] => fail (EAssert "pop of an empty std::queue") | _ => modify (drop 1) end);;
  modify (fun queue_ => queue_ ++ [t]).
Definition pop : MF T :=
  queue_ ← get;
  rt_assert (negb (bool_decide (length queue_ = 0%nat))) "Cannot pop empty queue";;
  ret ← deref (head queue_) "front";
  modify (drop 1);;
  mret ret.
Definition clear : MF unit := modify (fun _ => []).
Definition size : MF nat := gets length.
Definition capacity : nat := N.

(** What has been pushed since the queue was last cleared and not yet popped,
    oldest first, is the abstract queue; the queue keeps its newest [N]. *)
Definition newest (l : list T) : list T := drop (length l - N) l.
Lemma newest_length l : length (newest l) = Nat.min (length l) N.
Proof. unfold newest. rewrite length_drop. lia. Qed.
Lemma push_newest t l : (0 < N)%nat -> wp (push t) (fun _ q => q = newest (l ++ [t])) (newest l).
Proof.
  intros HN. unfold push. wp_step. wp_step. pose proof (newest_length l) as Hl. wp_step.
  assert (E : forall k, (k <= length l)%nat -> drop k l ++ [t] = drop k (l ++ [t])) by (intros; by rewrite drop_app_le).
  wp_step.
  - destruct (newest l) eqn:En; [rewrite bool_decide_eq_true in *; cbn in *; lia|]. rewrite <- En in *. do 2 wp_step.
    rewrite bool_decide_eq_true in *. unfold newest in *. rewrite length_app, drop_drop, E by lia. cbn [length]. f_equal. lia.
  - wp_step. rewrite bool_decide_eq_false in *. unfold newest in *. rewrite length_app, E by lia. cbn [length]. f_equal. lia.
Qed.
Lemma pop_newest l :
  wpe is_throw pop (fun r q => match newest l with [] => False | x :: l' => r = x /\ q = l' end) (newest l).
Proof.
  unfold wpe, pop. destruct (newest l) as [|y l'] eqn:En; [reflexivity|]. cbn. by split.
Qed.
End FixedQueue.
End FixedQueue.

(** ** MtQueue *)
Module MtQueue.
Section MtQueue.
Context {T : Type}.
Record MtQueue := mkMtQueue { queue_ : list T; size_ : Z }.
#[export] Instance eta_MtQueue : Eta MtQueue := fun q => mkMtQueue (queue_ q) (size_ q).
Abbreviation MQ := (M MtQueue).
Definition MtQueue_new : MtQueue := mkMtQueue [] 0.
Definition unlocked_push (t : T) : MQ unit :=
  modify (fun q => q <| queue_ ::= fun l => l ++ [t] |>);;
  modify (fun q => q <| size_ ::= fun n => u64 (n + 1) |>).
Definition unlocked_pop : MQ T :=
  q ← get;
  t ← deref (head (queue_ q)) "front of an empty std::queue";
  modify (fun q => q <| queue_ ::= drop 1 |>);;
  modify (fun q => q <| size_ ::= fun n => u64 (n - 1) |>);;
  mret t.

(** A reader that sees [size_] above 0 without the lock can pop. *)
Definition counts (q : MtQueue) : Prop := size_ q = zlength (queue_ q) /\ size_ q < 2 ^ 63.
Lemma push_counts t q : counts q -> size_ q + 1 < 2 ^ 63 -> wp (unlocked_push t) (fun _ q' => counts q' /\ queue_ q' = queue_ q ++ [t]) q.
Proof.
  destruct q as [l n]. intros [E Hl] Hn. cbn [queue_ size_] in *. pose proof (zlength_nonneg l). unfold unlocked_push.
  wp_step. wp_step. wp_step. unfold counts. rsimp. cbn [queue_ size_]. split; [|done].
  rewrite zlength_app, wrap_small by (unfold in_u; lia). change (zlength [t]) with 1. lia.
Qed.
Lemma pop_counts q :
  counts q -> 0 < size_ q -> wp unlocked_pop (fun t q' => counts q' /\ queue_ q = t :: queue_ q') q.
Proof.
  destruct q as [[|t l] n]; intros [E Hl] Hn; cbn [queue_ size_] in *; [change (zlength []) with 0 in E; lia|]. unfold zlength in *. cbn [length] in E.
  unfold unlocked_pop. do 2 wp_step. wp_step. eapply wp_deref; [reflexivity|]. do 5 wp_step. unfold counts. rsimp. cbn [queue_ size_ drop].
  split; [|done]. rewrite wrap_small by (unfold in_u; lia). rewrite drop_0. unfold zlength. lia.
Qed.
End MtQueue.
End MtQueue.
