(* ===== verification/Allocators.v ===== *)
(** * The RDMA buffer allocators: [core/allocator]

    The memory that a machine registers is divided into regions of one size, one
    for each thread; a thread takes buffers from its region one after the other,
    and starts again at its front when it is exhausted. Pointers are addresses;
    [malloc] and the registration are [global_mr]. *)
From S2P Require Import Prelude.

(** ** region_allocator.h *)
Definition PER_THREAD_ALLOC_SIZE : Z := 500 * 1024 * 1024.

Record RDMARegionAllocator := mkRegion { global_mr : Z; thread_num : Z }.
(** The size of what is allocated, set to zero and registered. *)
Definition global_mr_size (thread_num_per_machine : Z) : Z := u64 (thread_num_per_machine * PER_THREAD_ALLOC_SIZE).
Definition GetThreadLocalRegion (tid : Z) : M RDMARegionAllocator (Z * Z) :=
  r ← get;
  assert_ (tid <? thread_num r) "GetThreadLocalRegion: tid";;
  mret (global_mr r + u64 (tid * PER_THREAD_ALLOC_SIZE), global_mr r + u64 ((tid + 1) * PER_THREAD_ALLOC_SIZE)).

(** ** buffer_allocator.h *)
Record RDMABufferAllocator := mkBufAlloc { start : Z; end_ : Z; cur_offset : Z }.
#[export] Instance eta_BufAlloc : Eta RDMABufferAllocator := fun b => mkBufAlloc (start b) (end_ b) (cur_offset b).
Definition RDMABufferAllocator_new (s e : Z) : RDMABufferAllocator := mkBufAlloc s e 0.
Definition Alloc (size : Z) : M RDMABufferAllocator Z :=
  b ← get;
  when (end_ b <? start b + cur_offset b + size) (modify (fun b => b <| cur_offset := 0 |>));;
  b ← get;
  let ret := start b + cur_offset b in
  modify (fun b => b <| cur_offset ::= fun o => u64 (o + size) |>);;
  mret ret.
Definition Free (p : Z) : M RDMABufferAllocator unit := mret tt.

(** The buffers of a thread that allocates [sizes] in this order. *)
Fixpoint allocs (sizes : list Z) : M RDMABufferAllocator (list Z) :=
  match sizes with
  | [] => mret []
  | size :: sizes => a ← Alloc size; l ← allocs sizes; mret (a :: l)
  end.
Definition thread_buffers (tid : Z) (sizes : list Z) : M RDMARegionAllocator (list Z) :=
  '(s, e) ← GetThreadLocalRegion tid;
  match allocs sizes (RDMABufferAllocator_new s e) with Ok l _ => mret l | Fail e => fail e end.

(** ** Correctness *)
Record buf_inv (b : RDMABufferAllocator) : Prop := {
  bi_offset : 0 <= cur_offset b;
  bi_fits : start b + cur_offset b <= end_ b;
  bi_size : end_ b - start b < 2 ^ 63;
}.
(** A buffer lies at the offset, or at the front when it does not fit there. *)
Lemma Alloc_ok size b :
  buf_inv b -> 0 < size <= end_ b - start b ->
  wp (Alloc size) (fun a b' => buf_inv b' /\ start b' = start b /\ end_ b' = end_ b /\
    start b <= a /\ a + size <= end_ b /\ start b' + cur_offset b' = a + size /\
    (a <> start b -> a = start b + cur_offset b)) b.
Proof.
  intros [Ho Hf Hs] Hz. unfold Alloc. wp_step. wp_step. wp_step. wp_step.
  - wp_step. do 5 wp_step. rsimp. rewrite wrap_small by (unfold in_u; lia).
    split; [constructor; rsimp; try lia; rewrite wrap_small by (unfold in_u; lia); lia|]. split_and!; try done; lia.
  - do 5 wp_step. rsimp. rewrite wrap_small by (unfold in_u; lia).
    split; [constructor; rsimp; try lia; rewrite wrap_small by (unfold in_u; lia); lia|]. split_and!; try done; lia.
Qed.
(** The buffers of a thread: where they lie, and which of them can overlap. *)
Record apart (lo hi : Z) (sizes addrs : list Z) : Prop := {
  ap_len : length addrs = length sizes;
  ap_in i a size : addrs !! i = Some a -> sizes !! i = Some size -> lo <= a /\ a + size <= hi;
  ap_disjoint i j a b size : addrs !! i = Some a -> sizes !! i = Some size -> addrs !! j = Some b -> (i < j)%nat ->
    (forall k, (i < k <= j)%nat -> addrs !! k <> Some lo) -> a + size <= b;
}.
Lemma allocs_ok sizes b :
  buf_inv b -> Forall (fun size => 0 < size <= end_ b - start b) sizes ->
  wp (allocs sizes) (fun addrs _ => apart (start b) (end_ b) sizes addrs /\
    forall j x, addrs !! j = Some x -> (forall k, (k <= j)%nat -> addrs !! k <> Some (start b)) -> start b + cur_offset b <= x) b.
Proof.
  revert b. induction sizes as [|size sizes IH]; intros b Hb Hz; cbn [allocs].
  { wp_step. split; [split; [done|intros i ? ?|intros i ? ? ? ?]; by destruct i|intros j x; by destruct j]. }
  apply Forall_cons in Hz as [Hsz Hz]. wp_step. eapply wp_mono; [by apply Alloc_ok|].
  intros a b' (Hb' & Es & Ee & Hlo & Hhi & Eo & Hat). wp_step.
  eapply wp_mono; [apply IH; [exact Hb'|by rewrite Es, Ee]|]. rewrite Es, Ee in *. intros l b2 [[Hlen Hin Hdis] Hnext]. wp_step.
  split; [split|].
  - cbn. by rewrite Hlen.
  - intros [|i] x z Hx Hzz; cbn in Hx, Hzz; [simplify_eq; lia|by apply (Hin i)].
  - intros [|i] [|j] x y z Hx Hzz Hy Hij Hk; cbn in Hx, Hzz, Hy; try lia.
    + simplify_eq. rewrite <- Eo. apply (Hnext j y Hy). intros k Hkj. apply (Hk (S k)). lia.
    + apply (Hdis i j x y z Hx Hzz Hy); [lia|]. intros k Hkj. apply (Hk (S k)). lia.
  - intros [|j] x Hx Hk; cbn in Hx.
    + simplify_eq. rewrite Hat; [lia|]. intros ->. by apply (Hk 0%nat); [lia|].
    + assert (start b + cur_offset b <= a). { rewrite Hat; [lia|]. intros ->. by apply (Hk 0%nat); [lia|]. }
      assert (start b + cur_offset b' <= x); [|lia]. apply (Hnext j x Hx). intros k Hkj. apply (Hk (S k)). lia.
Qed.

(** The region of a thread. *)
Definition region_lo (r : RDMARegionAllocator) (tid : Z) : Z := global_mr r + tid * PER_THREAD_ALLOC_SIZE.
Definition region_hi (r : RDMARegionAllocator) (tid : Z) : Z := region_lo r tid + PER_THREAD_ALLOC_SIZE.
Lemma thread_buffers_ok tid sizes r :
  thread_num r * PER_THREAD_ALLOC_SIZE < 2 ^ 64 -> 0 <= tid < thread_num r ->
  Forall (fun size => 0 < size <= PER_THREAD_ALLOC_SIZE) sizes ->
  wp (thread_buffers tid sizes) (fun addrs r' => r' = r /\ apart (region_lo r tid) (region_hi r tid) sizes addrs) r.
Proof.
  intros Hn Ht Hz. unfold thread_buffers, GetThreadLocalRegion. assert (0 < PER_THREAD_ALLOC_SIZE < 2 ^ 63) by done.
  wp_step. wp_step. wp_step. wp_step. wp_step; [apply Z.ltb_lt; lia|]. wp_step. cbv beta iota.
  rewrite !wrap_small by (unfold in_u; nia). set (b := RDMABufferAllocator_new _ _).
  assert (Es : start b = region_lo r tid) by done.
  assert (Ee : end_ b = region_hi r tid) by (cbn; unfold region_hi, region_lo; lia).
  assert (Hb : buf_inv b) by (constructor; rewrite ?Es, ?Ee; cbn [b cur_offset RDMABufferAllocator_new]; unfold region_hi; lia).
  pose proof (allocs_ok sizes b Hb) as H'. rewrite Es, Ee in H'. unfold region_hi in H' at 1.
  replace (region_lo r tid + PER_THREAD_ALLOC_SIZE - region_lo r tid) with PER_THREAD_ALLOC_SIZE in H' by lia.
  specialize (H' Hz). unfold wpe in H'. destruct (allocs sizes b) as [l b'|e]; [|done]. wp_step. split; [done|]. apply H'.
Qed.

(** C39 (safety): the buffers that threads allocate lie in the memory that the
    machine has registered; two threads never have overlapping buffers; and a
    thread's buffers do not overlap as long as it does not start again at the
    front of its region. For sizes that fit in a region. *)
Theorem buffers_apart r t1 t2 sizes1 sizes2 :
  thread_num r * PER_THREAD_ALLOC_SIZE < 2 ^ 64 -> 0 <= t1 < thread_num r -> 0 <= t2 < thread_num r ->
  Forall (fun size => 0 < size <= PER_THREAD_ALLOC_SIZE) sizes1 -> Forall (fun size => 0 < size <= PER_THREAD_ALLOC_SIZE) sizes2 ->
  exists l1 l2, thread_buffers t1 sizes1 r = Ok l1 r /\ thread_buffers t2 sizes2 r = Ok l2 r /\
    apart (region_lo r t1) (region_hi r t1) sizes1 l1 /\
    (forall i a size, l1 !! i = Some a -> sizes1 !! i = Some size ->
       global_mr r <= a /\ a + size <= global_mr r + global_mr_size (thread_num r) /\
       forall j b z, t1 <> t2 -> l2 !! j = Some b -> sizes2 !! j = Some z -> a + size <= b \/ b + z <= a).
Proof.
  intros Hn H1 H2 Hz1 Hz2. assert (0 < PER_THREAD_ALLOC_SIZE) by done.
  destruct (proj1 (wp_run _ _ _) (thread_buffers_ok t1 sizes1 r Hn H1 Hz1)) as (l1 & r1 & E1 & -> & A1).
  destruct (proj1 (wp_run _ _ _) (thread_buffers_ok t2 sizes2 r Hn H2 Hz2)) as (l2 & r2 & E2 & -> & A2).
  exists l1, l2. split; [done|]. split; [done|]. split; [done|]. intros i a size Ha Hs.
  destruct (ap_in _ _ _ _ A1 i a size Ha Hs) as [Hlo Hhi]. unfold region_hi, region_lo, global_mr_size in *.
  rewrite wrap_small by (unfold in_u; nia). split; [nia|]. split; [nia|]. intros j b z Hne Hb Hz.
  destruct (ap_in _ _ _ _ A2 j b z Hb Hz) as [Hlo2 Hhi2]. unfold region_hi, region_lo in *.
  destruct (Z.lt_total t1 t2) as [Hlt|[Heq|Hgt]]; [left; nia|done|right; nia].
Qed.
Lemma buffers_apart_witness :
  let r := mkRegion 4096 4 in
  exists l1 l2, thread_buffers 1 [100; 524288000; 200] r = Ok l1 r /\ thread_buffers 2 [8] r = Ok l2 r /\
    apart (region_lo r 1) (region_hi r 1) [100; 524288000; 200] l1.
Proof.
  destruct (buffers_apart (mkRegion 4096 4) 1 2 [100; 524288000; 200] [8] eq_refl) as (l1 & l2 & E1 & E2 & A & _);
    [split; vm_compute; congruence..|by repeat constructor|by repeat constructor|].
  exists l1, l2. split; [exact E1|]. split; [exact E2|exact A].
Defined.

(** A request for more than the region is served with a buffer that ends
    outside it. *)
Example oversized : Alloc 300 (RDMABufferAllocator_new 1000 1200) = Ok 1000 (mkBufAlloc 1000 1200 300).
Proof. reflexivity. Qed.
